(** * bnxt flow rules: a shallow embedding of drivers/net/bnxt/bnxt_flow.c

    The development follows the source file top to bottom.  Driver state is
    an explicit record threaded through a small state-and-fault monad; the
    firmware (HWRM) and the host allocator are an oracle that answers
    commands from the history of commands issued so far. *)

From Stdlib Require Import ZArith List Bool Lia.
From stdpp Require Import base list strings.

Local Open Scope Z_scope.

(** ** Errno values used by the driver (Linux numbering). *)
Definition ENOMEM : Z := 12.
Definition EEXIST : Z := 17.
Definition EXDEV : Z := 18.
Definition EINVAL : Z := 22.
Definition ENOSPC : Z := 28.
Definition ENOTSUP : Z := 95.

(** ** rte_flow: the generic flow API types consumed by the driver *)

(** An Ethernet address is the 48-bit number whose most significant byte is
    [addr_bytes[0]]. *)
Definition rte_ether_addr := Z.

Definition rte_is_zero_ether_addr (a : rte_ether_addr) : bool := a =? 0.
Definition rte_is_broadcast_ether_addr (a : rte_ether_addr) : bool :=
  a =? 0xFFFFFFFFFFFF.
(** unicast: the group bit (bit 0 of the first byte) is clear *)
Definition rte_is_unicast_ether_addr (a : rte_ether_addr) : bool :=
  negb (Z.testbit a 40).

(** Header fields hold the value the host reads from memory; [rte_bswap16]
    is the byte swap the conversion macros apply on a little-endian host. *)
Definition rte_bswap16 (v : Z) : Z :=
  Z.lor (Z.shiftl (Z.land v 0xff) 8) (Z.land (Z.shiftr v 8) 0xff).

Record rte_flow_item_any := { any_num : Z }.
Record rte_flow_item_vf := { vf_id : Z }.
Record rte_flow_item_eth := {
  eth_dst : rte_ether_addr;
  eth_src : rte_ether_addr;
  eth_type : Z }.
Record rte_flow_item_vlan := { vlan_tci : Z; vlan_inner_type : Z }.

Record rte_ipv4_hdr := {
  version_ihl : Z;
  type_of_service : Z;
  total_length : Z;
  packet_id : Z;
  fragment_offset : Z;
  time_to_live : Z;
  next_proto_id : Z;
  hdr_checksum : Z;
  v4_src_addr : Z;
  v4_dst_addr : Z }.

(** IPv6 addresses are kept as the four 32-bit words the driver copies into
    its own [uint32_t [4]] arrays. *)
Record rte_ipv6_hdr := {
  vtc_flow : Z;
  payload_len : Z;
  proto : Z;
  hop_limits : Z;
  v6_src_addr : Z * Z * Z * Z;
  v6_dst_addr : Z * Z * Z * Z }.

Record rte_tcp_hdr := {
  tcp_src_port : Z;
  tcp_dst_port : Z;
  sent_seq : Z;
  recv_ack : Z;
  data_off : Z;
  tcp_flags : Z;
  rx_win : Z;
  cksum : Z;
  tcp_urp : Z }.

Record rte_udp_hdr := {
  udp_src_port : Z;
  udp_dst_port : Z;
  dgram_len : Z;
  dgram_cksum : Z }.

(** [vni]/[tni] are the 24-bit numbers held in the three identifier bytes;
    [rsvd0] is the 24-bit reserved field. *)
Record rte_flow_item_vxlan := {
  vxlan_flags : Z;
  vxlan_rsvd0_0 : Z;
  vxlan_rsvd0_1 : Z;
  vxlan_rsvd0_2 : Z;
  vxlan_vni : Z;
  vxlan_rsvd1 : Z }.
Record rte_flow_item_nvgre := {
  c_k_s_rsvd0_ver : Z;
  nvgre_protocol : Z;
  nvgre_tni : Z;
  nvgre_flow_id : Z }.
Record rte_flow_item_gre := { gre_c_rsvd0_ver : Z; gre_protocol : Z }.

(** The three pointers of a pattern item; [None] is the NULL pointer. *)
Record item_conf (T : Type) := Conf {
  spec : option T;
  last : option T;
  mask : option T }.
Arguments Conf {T} _ _ _.
Arguments spec {T} _.
Arguments last {T} _.
Arguments mask {T} _.

Inductive rte_flow_item_type :=
| RTE_FLOW_ITEM_TYPE_END
| RTE_FLOW_ITEM_TYPE_VOID
| RTE_FLOW_ITEM_TYPE_ANY
| RTE_FLOW_ITEM_TYPE_VF
| RTE_FLOW_ITEM_TYPE_ETH
| RTE_FLOW_ITEM_TYPE_VLAN
| RTE_FLOW_ITEM_TYPE_IPV4
| RTE_FLOW_ITEM_TYPE_IPV6
| RTE_FLOW_ITEM_TYPE_TCP
| RTE_FLOW_ITEM_TYPE_UDP
| RTE_FLOW_ITEM_TYPE_VXLAN
| RTE_FLOW_ITEM_TYPE_NVGRE
| RTE_FLOW_ITEM_TYPE_GRE
| RTE_FLOW_ITEM_TYPE_OTHER (n : Z).

(** A pattern item: the type tag together with its typed spec/last/mask. *)
Inductive rte_flow_item :=
| ITEM_END
| ITEM_VOID (c : item_conf unit)
| ITEM_ANY (c : item_conf rte_flow_item_any)
| ITEM_VF (c : item_conf rte_flow_item_vf)
| ITEM_ETH (c : item_conf rte_flow_item_eth)
| ITEM_VLAN (c : item_conf rte_flow_item_vlan)
| ITEM_IPV4 (c : item_conf rte_ipv4_hdr)
| ITEM_IPV6 (c : item_conf rte_ipv6_hdr)
| ITEM_TCP (c : item_conf rte_tcp_hdr)
| ITEM_UDP (c : item_conf rte_udp_hdr)
| ITEM_VXLAN (c : item_conf rte_flow_item_vxlan)
| ITEM_NVGRE (c : item_conf rte_flow_item_nvgre)
| ITEM_GRE (c : item_conf rte_flow_item_gre)
| ITEM_OTHER (n : Z) (c : item_conf unit).

Definition item_type (it : rte_flow_item) : rte_flow_item_type :=
  match it with
  | ITEM_END => RTE_FLOW_ITEM_TYPE_END
  | ITEM_VOID _ => RTE_FLOW_ITEM_TYPE_VOID
  | ITEM_ANY _ => RTE_FLOW_ITEM_TYPE_ANY
  | ITEM_VF _ => RTE_FLOW_ITEM_TYPE_VF
  | ITEM_ETH _ => RTE_FLOW_ITEM_TYPE_ETH
  | ITEM_VLAN _ => RTE_FLOW_ITEM_TYPE_VLAN
  | ITEM_IPV4 _ => RTE_FLOW_ITEM_TYPE_IPV4
  | ITEM_IPV6 _ => RTE_FLOW_ITEM_TYPE_IPV6
  | ITEM_TCP _ => RTE_FLOW_ITEM_TYPE_TCP
  | ITEM_UDP _ => RTE_FLOW_ITEM_TYPE_UDP
  | ITEM_VXLAN _ => RTE_FLOW_ITEM_TYPE_VXLAN
  | ITEM_NVGRE _ => RTE_FLOW_ITEM_TYPE_NVGRE
  | ITEM_GRE _ => RTE_FLOW_ITEM_TYPE_GRE
  | ITEM_OTHER n _ => RTE_FLOW_ITEM_TYPE_OTHER n
  end.

Definition is_some {T : Type} (o : option T) : bool :=
  match o with Some _ => true | None => false end.

(** [item->spec != NULL], [item->mask != NULL], [item->last != NULL] *)
Definition item_has (sel : forall T, item_conf T -> option T)
    (it : rte_flow_item) : bool :=
  match it with
  | ITEM_END => false
  | ITEM_VOID c => is_some (sel _ c)
  | ITEM_ANY c => is_some (sel _ c)
  | ITEM_VF c => is_some (sel _ c)
  | ITEM_ETH c => is_some (sel _ c)
  | ITEM_VLAN c => is_some (sel _ c)
  | ITEM_IPV4 c => is_some (sel _ c)
  | ITEM_IPV6 c => is_some (sel _ c)
  | ITEM_TCP c => is_some (sel _ c)
  | ITEM_UDP c => is_some (sel _ c)
  | ITEM_VXLAN c => is_some (sel _ c)
  | ITEM_NVGRE c => is_some (sel _ c)
  | ITEM_GRE c => is_some (sel _ c)
  | ITEM_OTHER _ c => is_some (sel _ c)
  end.
Definition item_has_spec := item_has (@spec).
Definition item_has_mask := item_has (@mask).
Definition item_has_last := item_has (@last).

Record rte_flow_attr := {
  group : Z;
  priority : Z;
  ingress : bool;
  egress : bool;
  transfer : bool }.

Record rte_flow_action_queue := { queue_index : Z }.
Record rte_flow_action_vf := { act_vf_id : Z }.
Record rte_flow_action_rss := {
  rss_types : Z;
  rss_key_len : Z;
  rss_queue_num : Z;
  rss_key : list Z;
  rss_queue : list Z }.

Inductive rte_flow_action :=
| ACTION_END
| ACTION_VOID
| ACTION_QUEUE (conf : rte_flow_action_queue)
| ACTION_DROP
| ACTION_COUNT
| ACTION_VF (conf : rte_flow_action_vf)
| ACTION_RSS (conf : rte_flow_action_rss)
| ACTION_OTHER (n : Z).

Inductive rte_flow_error_type :=
| RTE_FLOW_ERROR_TYPE_NONE
| RTE_FLOW_ERROR_TYPE_UNSPECIFIED
| RTE_FLOW_ERROR_TYPE_HANDLE
| RTE_FLOW_ERROR_TYPE_ATTR
| RTE_FLOW_ERROR_TYPE_ATTR_INGRESS
| RTE_FLOW_ERROR_TYPE_ATTR_EGRESS
| RTE_FLOW_ERROR_TYPE_ITEM_NUM
| RTE_FLOW_ERROR_TYPE_ITEM
| RTE_FLOW_ERROR_TYPE_ACTION_NUM
| RTE_FLOW_ERROR_TYPE_ACTION.

(** [err_code] records the [code] argument of the last [rte_flow_error_set]
    next to the type and message the C structure holds. *)
Record rte_flow_error := {
  err_type : rte_flow_error_type;
  err_code : Z;
  err_message : string }.

(** ** Driver data (bnxt.h, bnxt_filter.h, bnxt_vnic.h, bnxt_rxq.h)

    Only the fields this file reads or writes are kept.  The structure
    declarations are not part of the file, so field widths are not known;
    fields are unbounded integers, except [l2_ref_cnt], which the driver
    prints with [%u] and which therefore wraps at 32 bits, and
    [fw_l2_filter_id], printed with [PRIx64]. *)

Inductive filter_kind :=
| HWRM_CFA_L2_FILTER
| HWRM_CFA_EM_FILTER
| HWRM_CFA_NTUPLE_FILTER
| HWRM_CFA_TUNNEL_REDIRECT_FILTER.

Definition filter_kind_eqb (a b : filter_kind) : bool :=
  match a, b with
  | HWRM_CFA_L2_FILTER, HWRM_CFA_L2_FILTER
  | HWRM_CFA_EM_FILTER, HWRM_CFA_EM_FILTER
  | HWRM_CFA_NTUPLE_FILTER, HWRM_CFA_NTUPLE_FILTER
  | HWRM_CFA_TUNNEL_REDIRECT_FILTER, HWRM_CFA_TUNNEL_REDIRECT_FILTER => true
  | _, _ => false
  end.

(** [uint32_t addr[4]]: an IPv4 address occupies word 0 only. *)
Definition ipaddr : Type := Z * Z * Z * Z.

Definition ipaddr_set0 (v : Z) (a : ipaddr) : ipaddr :=
  let '(_, b, c, d) := a in (v, b, c, d).
Definition ipaddr_eqb (a b : ipaddr) : bool :=
  let '(a0, a1, a2, a3) := a in
  let '(b0, b1, b2, b3) := b in
  (a0 =? b0) && (a1 =? b1) && (a2 =? b2) && (a3 =? b3).
(** [bnxt_check_zero_bytes(addr, 16)] (bnxt_util.c): non-zero iff all bytes
    are zero. *)
Definition bnxt_check_zero_bytes (a : ipaddr) : bool :=
  ipaddr_eqb a (0, 0, 0, 0).

Definition UINT64_MAX : Z := 2 ^ 64 - 1.
Definition UINT32_MOD : Z := 2 ^ 32.

Record bnxt_filter_info := {
  filter_type : filter_kind;
  flags : Z;
  enables : Z;
  l2_addr : rte_ether_addr;
  l2_addr_mask : rte_ether_addr;
  src_macaddr : rte_ether_addr;
  dst_macaddr : rte_ether_addr;
  ethertype : Z;
  l2_ovlan : Z;
  l2_ovlan_mask : Z;
  l2_ivlan : Z;
  l2_ivlan_mask : Z;
  src_ipaddr : ipaddr;
  src_ipaddr_mask : ipaddr;
  dst_ipaddr : ipaddr;
  dst_ipaddr_mask : ipaddr;
  src_port : Z;
  src_port_mask : Z;
  dst_port : Z;
  dst_port_mask : Z;
  ip_protocol : Z;
  ip_addr_type : Z;
  vni : Z;
  tunnel_type : Z;
  dst_id : Z;
  mirror_vnic_id : Z;
  f_priority : Z;
  pri_hint : Z;
  l2_filter_id_hint : Z;
  valid_flags : Z;
  fw_l2_filter_id : Z;
  l2_ref_cnt : Z;
  matching_l2_fltr_ptr : option nat }.


Record rte_flow := {
  flow_id : nat;
  flow_filter : option nat;
  flow_vnic : option nat }.

Record bnxt_rx_queue := { rxq_vnic : nat; rx_started : Z }.

Record bnxt_vnic_info := {
  fw_vnic_id : Z;
  rx_queue_cnt : Z;
  start_grp_id : Z;
  end_grp_id : Z;
  func_default : Z;
  ff_pool_idx : Z;
  vlan_strip : bool;
  fw_grp_ids : list Z;
  rss_table : list Z;
  rss_hash_key : list Z;
  hash_type : Z;
  vnic_filter : list nat;
  flow_list : list rte_flow }.


(** Calls that leave this file: HWRM commands, the helper allocating a
    VNIC's ring-group table, the host allocator and the random source.
    Filters and VNICs are named by their index in [filter_info] and
    [vnic_info]. *)
Inductive env_call :=
| call_hwrm_set_l2_filter (dst : Z) (fptr : nat)
| call_hwrm_clear_l2_filter (fptr : nat)
| call_hwrm_set_em_filter (dst : Z) (fptr : nat)
| call_hwrm_clear_em_filter (fptr : nat)
| call_hwrm_set_ntuple_filter (dst : Z) (fptr : nat)
| call_hwrm_clear_ntuple_filter (fptr : nat)
| call_hwrm_tunnel_redirect_query
| call_hwrm_tunnel_redirect_free (ty : Z)
| call_hwrm_tunnel_redirect (ty : Z)
| call_hwrm_tunnel_redirect_info (ty : Z)
| call_hwrm_func_qcfg_vf_dflt_vnic_id (vf : Z)
| call_vnic_grp_alloc (vnic : nat)
| call_hwrm_vnic_alloc (vnic : nat)
| call_hwrm_vnic_ctx_alloc (vnic : nat)
| call_hwrm_vnic_cfg (vnic : nat)
| call_hwrm_vnic_plcmode_cfg (vnic : nat)
| call_hwrm_vnic_rss_cfg (vnic : nat)
| call_hwrm_vnic_ctx_free (vnic : nat)
| call_hwrm_vnic_free (vnic : nat)
| call_rte_zmalloc
| call_prandom_bytes (n : Z).

Record env_resp := {
  resp_rc : Z;
  resp_val : Z;
  resp_bytes : list Z }.

Record bnxt := {
  is_pf : bool;
  is_vf : bool;
  vf_is_trusted : bool;
  max_vfs : Z;
  fw_fid : Z;
  first_vf_id : Z;
  dev_started : bool;
  rx_offloads : Z;
  mq_mode : Z;
  rx_nr_rings : Z;
  nr_vnics : Z;
  vnic_info : list bnxt_vnic_info;
  rx_queues : list (option bnxt_rx_queue);
  grp_info : list Z;
  filter_info : list bnxt_filter_info;
  free_filter_list : list nat;
  next_flow : nat;
  rte_errno : Z;
  flow_error : rte_flow_error;
  env_log : list env_call }.

(** *** Field updates *)
Definition set_filter_type (v : filter_kind) (f : bnxt_filter_info) : bnxt_filter_info :=
  {| filter_type := v; flags := flags f; enables := enables f; l2_addr := l2_addr f; l2_addr_mask :=
     l2_addr_mask f; src_macaddr := src_macaddr f; dst_macaddr := dst_macaddr f; ethertype :=
     ethertype f; l2_ovlan := l2_ovlan f; l2_ovlan_mask := l2_ovlan_mask f; l2_ivlan := l2_ivlan f;
     l2_ivlan_mask := l2_ivlan_mask f; src_ipaddr := src_ipaddr f; src_ipaddr_mask :=
     src_ipaddr_mask f; dst_ipaddr := dst_ipaddr f; dst_ipaddr_mask := dst_ipaddr_mask f; src_port
     := src_port f; src_port_mask := src_port_mask f; dst_port := dst_port f; dst_port_mask :=
     dst_port_mask f; ip_protocol := ip_protocol f; ip_addr_type := ip_addr_type f; vni := vni f;
     tunnel_type := tunnel_type f; dst_id := dst_id f; mirror_vnic_id := mirror_vnic_id f;
     f_priority := f_priority f; pri_hint := pri_hint f; l2_filter_id_hint := l2_filter_id_hint f;
     valid_flags := valid_flags f; fw_l2_filter_id := fw_l2_filter_id f; l2_ref_cnt := l2_ref_cnt f;
     matching_l2_fltr_ptr := matching_l2_fltr_ptr f |}.
Definition set_flags (v : Z) (f : bnxt_filter_info) : bnxt_filter_info :=
  {| filter_type := filter_type f; flags := v; enables := enables f; l2_addr := l2_addr f;
     l2_addr_mask := l2_addr_mask f; src_macaddr := src_macaddr f; dst_macaddr := dst_macaddr f;
     ethertype := ethertype f; l2_ovlan := l2_ovlan f; l2_ovlan_mask := l2_ovlan_mask f; l2_ivlan :=
     l2_ivlan f; l2_ivlan_mask := l2_ivlan_mask f; src_ipaddr := src_ipaddr f; src_ipaddr_mask :=
     src_ipaddr_mask f; dst_ipaddr := dst_ipaddr f; dst_ipaddr_mask := dst_ipaddr_mask f; src_port
     := src_port f; src_port_mask := src_port_mask f; dst_port := dst_port f; dst_port_mask :=
     dst_port_mask f; ip_protocol := ip_protocol f; ip_addr_type := ip_addr_type f; vni := vni f;
     tunnel_type := tunnel_type f; dst_id := dst_id f; mirror_vnic_id := mirror_vnic_id f;
     f_priority := f_priority f; pri_hint := pri_hint f; l2_filter_id_hint := l2_filter_id_hint f;
     valid_flags := valid_flags f; fw_l2_filter_id := fw_l2_filter_id f; l2_ref_cnt := l2_ref_cnt f;
     matching_l2_fltr_ptr := matching_l2_fltr_ptr f |}.
Definition set_enables (v : Z) (f : bnxt_filter_info) : bnxt_filter_info :=
  {| filter_type := filter_type f; flags := flags f; enables := v; l2_addr := l2_addr f;
     l2_addr_mask := l2_addr_mask f; src_macaddr := src_macaddr f; dst_macaddr := dst_macaddr f;
     ethertype := ethertype f; l2_ovlan := l2_ovlan f; l2_ovlan_mask := l2_ovlan_mask f; l2_ivlan :=
     l2_ivlan f; l2_ivlan_mask := l2_ivlan_mask f; src_ipaddr := src_ipaddr f; src_ipaddr_mask :=
     src_ipaddr_mask f; dst_ipaddr := dst_ipaddr f; dst_ipaddr_mask := dst_ipaddr_mask f; src_port
     := src_port f; src_port_mask := src_port_mask f; dst_port := dst_port f; dst_port_mask :=
     dst_port_mask f; ip_protocol := ip_protocol f; ip_addr_type := ip_addr_type f; vni := vni f;
     tunnel_type := tunnel_type f; dst_id := dst_id f; mirror_vnic_id := mirror_vnic_id f;
     f_priority := f_priority f; pri_hint := pri_hint f; l2_filter_id_hint := l2_filter_id_hint f;
     valid_flags := valid_flags f; fw_l2_filter_id := fw_l2_filter_id f; l2_ref_cnt := l2_ref_cnt f;
     matching_l2_fltr_ptr := matching_l2_fltr_ptr f |}.
Definition set_l2_addr (v : rte_ether_addr) (f : bnxt_filter_info) : bnxt_filter_info :=
  {| filter_type := filter_type f; flags := flags f; enables := enables f; l2_addr := v;
     l2_addr_mask := l2_addr_mask f; src_macaddr := src_macaddr f; dst_macaddr := dst_macaddr f;
     ethertype := ethertype f; l2_ovlan := l2_ovlan f; l2_ovlan_mask := l2_ovlan_mask f; l2_ivlan :=
     l2_ivlan f; l2_ivlan_mask := l2_ivlan_mask f; src_ipaddr := src_ipaddr f; src_ipaddr_mask :=
     src_ipaddr_mask f; dst_ipaddr := dst_ipaddr f; dst_ipaddr_mask := dst_ipaddr_mask f; src_port
     := src_port f; src_port_mask := src_port_mask f; dst_port := dst_port f; dst_port_mask :=
     dst_port_mask f; ip_protocol := ip_protocol f; ip_addr_type := ip_addr_type f; vni := vni f;
     tunnel_type := tunnel_type f; dst_id := dst_id f; mirror_vnic_id := mirror_vnic_id f;
     f_priority := f_priority f; pri_hint := pri_hint f; l2_filter_id_hint := l2_filter_id_hint f;
     valid_flags := valid_flags f; fw_l2_filter_id := fw_l2_filter_id f; l2_ref_cnt := l2_ref_cnt f;
     matching_l2_fltr_ptr := matching_l2_fltr_ptr f |}.
Definition set_l2_addr_mask (v : rte_ether_addr) (f : bnxt_filter_info) : bnxt_filter_info :=
  {| filter_type := filter_type f; flags := flags f; enables := enables f; l2_addr := l2_addr f;
     l2_addr_mask := v; src_macaddr := src_macaddr f; dst_macaddr := dst_macaddr f; ethertype :=
     ethertype f; l2_ovlan := l2_ovlan f; l2_ovlan_mask := l2_ovlan_mask f; l2_ivlan := l2_ivlan f;
     l2_ivlan_mask := l2_ivlan_mask f; src_ipaddr := src_ipaddr f; src_ipaddr_mask :=
     src_ipaddr_mask f; dst_ipaddr := dst_ipaddr f; dst_ipaddr_mask := dst_ipaddr_mask f; src_port
     := src_port f; src_port_mask := src_port_mask f; dst_port := dst_port f; dst_port_mask :=
     dst_port_mask f; ip_protocol := ip_protocol f; ip_addr_type := ip_addr_type f; vni := vni f;
     tunnel_type := tunnel_type f; dst_id := dst_id f; mirror_vnic_id := mirror_vnic_id f;
     f_priority := f_priority f; pri_hint := pri_hint f; l2_filter_id_hint := l2_filter_id_hint f;
     valid_flags := valid_flags f; fw_l2_filter_id := fw_l2_filter_id f; l2_ref_cnt := l2_ref_cnt f;
     matching_l2_fltr_ptr := matching_l2_fltr_ptr f |}.
Definition set_src_macaddr (v : rte_ether_addr) (f : bnxt_filter_info) : bnxt_filter_info :=
  {| filter_type := filter_type f; flags := flags f; enables := enables f; l2_addr := l2_addr f;
     l2_addr_mask := l2_addr_mask f; src_macaddr := v; dst_macaddr := dst_macaddr f; ethertype :=
     ethertype f; l2_ovlan := l2_ovlan f; l2_ovlan_mask := l2_ovlan_mask f; l2_ivlan := l2_ivlan f;
     l2_ivlan_mask := l2_ivlan_mask f; src_ipaddr := src_ipaddr f; src_ipaddr_mask :=
     src_ipaddr_mask f; dst_ipaddr := dst_ipaddr f; dst_ipaddr_mask := dst_ipaddr_mask f; src_port
     := src_port f; src_port_mask := src_port_mask f; dst_port := dst_port f; dst_port_mask :=
     dst_port_mask f; ip_protocol := ip_protocol f; ip_addr_type := ip_addr_type f; vni := vni f;
     tunnel_type := tunnel_type f; dst_id := dst_id f; mirror_vnic_id := mirror_vnic_id f;
     f_priority := f_priority f; pri_hint := pri_hint f; l2_filter_id_hint := l2_filter_id_hint f;
     valid_flags := valid_flags f; fw_l2_filter_id := fw_l2_filter_id f; l2_ref_cnt := l2_ref_cnt f;
     matching_l2_fltr_ptr := matching_l2_fltr_ptr f |}.
Definition set_dst_macaddr (v : rte_ether_addr) (f : bnxt_filter_info) : bnxt_filter_info :=
  {| filter_type := filter_type f; flags := flags f; enables := enables f; l2_addr := l2_addr f;
     l2_addr_mask := l2_addr_mask f; src_macaddr := src_macaddr f; dst_macaddr := v; ethertype :=
     ethertype f; l2_ovlan := l2_ovlan f; l2_ovlan_mask := l2_ovlan_mask f; l2_ivlan := l2_ivlan f;
     l2_ivlan_mask := l2_ivlan_mask f; src_ipaddr := src_ipaddr f; src_ipaddr_mask :=
     src_ipaddr_mask f; dst_ipaddr := dst_ipaddr f; dst_ipaddr_mask := dst_ipaddr_mask f; src_port
     := src_port f; src_port_mask := src_port_mask f; dst_port := dst_port f; dst_port_mask :=
     dst_port_mask f; ip_protocol := ip_protocol f; ip_addr_type := ip_addr_type f; vni := vni f;
     tunnel_type := tunnel_type f; dst_id := dst_id f; mirror_vnic_id := mirror_vnic_id f;
     f_priority := f_priority f; pri_hint := pri_hint f; l2_filter_id_hint := l2_filter_id_hint f;
     valid_flags := valid_flags f; fw_l2_filter_id := fw_l2_filter_id f; l2_ref_cnt := l2_ref_cnt f;
     matching_l2_fltr_ptr := matching_l2_fltr_ptr f |}.
Definition set_ethertype (v : Z) (f : bnxt_filter_info) : bnxt_filter_info :=
  {| filter_type := filter_type f; flags := flags f; enables := enables f; l2_addr := l2_addr f;
     l2_addr_mask := l2_addr_mask f; src_macaddr := src_macaddr f; dst_macaddr := dst_macaddr f;
     ethertype := v; l2_ovlan := l2_ovlan f; l2_ovlan_mask := l2_ovlan_mask f; l2_ivlan := l2_ivlan
     f; l2_ivlan_mask := l2_ivlan_mask f; src_ipaddr := src_ipaddr f; src_ipaddr_mask :=
     src_ipaddr_mask f; dst_ipaddr := dst_ipaddr f; dst_ipaddr_mask := dst_ipaddr_mask f; src_port
     := src_port f; src_port_mask := src_port_mask f; dst_port := dst_port f; dst_port_mask :=
     dst_port_mask f; ip_protocol := ip_protocol f; ip_addr_type := ip_addr_type f; vni := vni f;
     tunnel_type := tunnel_type f; dst_id := dst_id f; mirror_vnic_id := mirror_vnic_id f;
     f_priority := f_priority f; pri_hint := pri_hint f; l2_filter_id_hint := l2_filter_id_hint f;
     valid_flags := valid_flags f; fw_l2_filter_id := fw_l2_filter_id f; l2_ref_cnt := l2_ref_cnt f;
     matching_l2_fltr_ptr := matching_l2_fltr_ptr f |}.
Definition set_l2_ovlan (v : Z) (f : bnxt_filter_info) : bnxt_filter_info :=
  {| filter_type := filter_type f; flags := flags f; enables := enables f; l2_addr := l2_addr f;
     l2_addr_mask := l2_addr_mask f; src_macaddr := src_macaddr f; dst_macaddr := dst_macaddr f;
     ethertype := ethertype f; l2_ovlan := v; l2_ovlan_mask := l2_ovlan_mask f; l2_ivlan := l2_ivlan
     f; l2_ivlan_mask := l2_ivlan_mask f; src_ipaddr := src_ipaddr f; src_ipaddr_mask :=
     src_ipaddr_mask f; dst_ipaddr := dst_ipaddr f; dst_ipaddr_mask := dst_ipaddr_mask f; src_port
     := src_port f; src_port_mask := src_port_mask f; dst_port := dst_port f; dst_port_mask :=
     dst_port_mask f; ip_protocol := ip_protocol f; ip_addr_type := ip_addr_type f; vni := vni f;
     tunnel_type := tunnel_type f; dst_id := dst_id f; mirror_vnic_id := mirror_vnic_id f;
     f_priority := f_priority f; pri_hint := pri_hint f; l2_filter_id_hint := l2_filter_id_hint f;
     valid_flags := valid_flags f; fw_l2_filter_id := fw_l2_filter_id f; l2_ref_cnt := l2_ref_cnt f;
     matching_l2_fltr_ptr := matching_l2_fltr_ptr f |}.
Definition set_src_ipaddr (v : ipaddr) (f : bnxt_filter_info) : bnxt_filter_info :=
  {| filter_type := filter_type f; flags := flags f; enables := enables f; l2_addr := l2_addr f;
     l2_addr_mask := l2_addr_mask f; src_macaddr := src_macaddr f; dst_macaddr := dst_macaddr f;
     ethertype := ethertype f; l2_ovlan := l2_ovlan f; l2_ovlan_mask := l2_ovlan_mask f; l2_ivlan :=
     l2_ivlan f; l2_ivlan_mask := l2_ivlan_mask f; src_ipaddr := v; src_ipaddr_mask :=
     src_ipaddr_mask f; dst_ipaddr := dst_ipaddr f; dst_ipaddr_mask := dst_ipaddr_mask f; src_port
     := src_port f; src_port_mask := src_port_mask f; dst_port := dst_port f; dst_port_mask :=
     dst_port_mask f; ip_protocol := ip_protocol f; ip_addr_type := ip_addr_type f; vni := vni f;
     tunnel_type := tunnel_type f; dst_id := dst_id f; mirror_vnic_id := mirror_vnic_id f;
     f_priority := f_priority f; pri_hint := pri_hint f; l2_filter_id_hint := l2_filter_id_hint f;
     valid_flags := valid_flags f; fw_l2_filter_id := fw_l2_filter_id f; l2_ref_cnt := l2_ref_cnt f;
     matching_l2_fltr_ptr := matching_l2_fltr_ptr f |}.
Definition set_src_ipaddr_mask (v : ipaddr) (f : bnxt_filter_info) : bnxt_filter_info :=
  {| filter_type := filter_type f; flags := flags f; enables := enables f; l2_addr := l2_addr f;
     l2_addr_mask := l2_addr_mask f; src_macaddr := src_macaddr f; dst_macaddr := dst_macaddr f;
     ethertype := ethertype f; l2_ovlan := l2_ovlan f; l2_ovlan_mask := l2_ovlan_mask f; l2_ivlan :=
     l2_ivlan f; l2_ivlan_mask := l2_ivlan_mask f; src_ipaddr := src_ipaddr f; src_ipaddr_mask := v;
     dst_ipaddr := dst_ipaddr f; dst_ipaddr_mask := dst_ipaddr_mask f; src_port := src_port f;
     src_port_mask := src_port_mask f; dst_port := dst_port f; dst_port_mask := dst_port_mask f;
     ip_protocol := ip_protocol f; ip_addr_type := ip_addr_type f; vni := vni f; tunnel_type :=
     tunnel_type f; dst_id := dst_id f; mirror_vnic_id := mirror_vnic_id f; f_priority := f_priority
     f; pri_hint := pri_hint f; l2_filter_id_hint := l2_filter_id_hint f; valid_flags := valid_flags
     f; fw_l2_filter_id := fw_l2_filter_id f; l2_ref_cnt := l2_ref_cnt f; matching_l2_fltr_ptr :=
     matching_l2_fltr_ptr f |}.
Definition set_dst_ipaddr (v : ipaddr) (f : bnxt_filter_info) : bnxt_filter_info :=
  {| filter_type := filter_type f; flags := flags f; enables := enables f; l2_addr := l2_addr f;
     l2_addr_mask := l2_addr_mask f; src_macaddr := src_macaddr f; dst_macaddr := dst_macaddr f;
     ethertype := ethertype f; l2_ovlan := l2_ovlan f; l2_ovlan_mask := l2_ovlan_mask f; l2_ivlan :=
     l2_ivlan f; l2_ivlan_mask := l2_ivlan_mask f; src_ipaddr := src_ipaddr f; src_ipaddr_mask :=
     src_ipaddr_mask f; dst_ipaddr := v; dst_ipaddr_mask := dst_ipaddr_mask f; src_port := src_port
     f; src_port_mask := src_port_mask f; dst_port := dst_port f; dst_port_mask := dst_port_mask f;
     ip_protocol := ip_protocol f; ip_addr_type := ip_addr_type f; vni := vni f; tunnel_type :=
     tunnel_type f; dst_id := dst_id f; mirror_vnic_id := mirror_vnic_id f; f_priority := f_priority
     f; pri_hint := pri_hint f; l2_filter_id_hint := l2_filter_id_hint f; valid_flags := valid_flags
     f; fw_l2_filter_id := fw_l2_filter_id f; l2_ref_cnt := l2_ref_cnt f; matching_l2_fltr_ptr :=
     matching_l2_fltr_ptr f |}.
Definition set_dst_ipaddr_mask (v : ipaddr) (f : bnxt_filter_info) : bnxt_filter_info :=
  {| filter_type := filter_type f; flags := flags f; enables := enables f; l2_addr := l2_addr f;
     l2_addr_mask := l2_addr_mask f; src_macaddr := src_macaddr f; dst_macaddr := dst_macaddr f;
     ethertype := ethertype f; l2_ovlan := l2_ovlan f; l2_ovlan_mask := l2_ovlan_mask f; l2_ivlan :=
     l2_ivlan f; l2_ivlan_mask := l2_ivlan_mask f; src_ipaddr := src_ipaddr f; src_ipaddr_mask :=
     src_ipaddr_mask f; dst_ipaddr := dst_ipaddr f; dst_ipaddr_mask := v; src_port := src_port f;
     src_port_mask := src_port_mask f; dst_port := dst_port f; dst_port_mask := dst_port_mask f;
     ip_protocol := ip_protocol f; ip_addr_type := ip_addr_type f; vni := vni f; tunnel_type :=
     tunnel_type f; dst_id := dst_id f; mirror_vnic_id := mirror_vnic_id f; f_priority := f_priority
     f; pri_hint := pri_hint f; l2_filter_id_hint := l2_filter_id_hint f; valid_flags := valid_flags
     f; fw_l2_filter_id := fw_l2_filter_id f; l2_ref_cnt := l2_ref_cnt f; matching_l2_fltr_ptr :=
     matching_l2_fltr_ptr f |}.
Definition set_src_port (v : Z) (f : bnxt_filter_info) : bnxt_filter_info :=
  {| filter_type := filter_type f; flags := flags f; enables := enables f; l2_addr := l2_addr f;
     l2_addr_mask := l2_addr_mask f; src_macaddr := src_macaddr f; dst_macaddr := dst_macaddr f;
     ethertype := ethertype f; l2_ovlan := l2_ovlan f; l2_ovlan_mask := l2_ovlan_mask f; l2_ivlan :=
     l2_ivlan f; l2_ivlan_mask := l2_ivlan_mask f; src_ipaddr := src_ipaddr f; src_ipaddr_mask :=
     src_ipaddr_mask f; dst_ipaddr := dst_ipaddr f; dst_ipaddr_mask := dst_ipaddr_mask f; src_port
     := v; src_port_mask := src_port_mask f; dst_port := dst_port f; dst_port_mask := dst_port_mask
     f; ip_protocol := ip_protocol f; ip_addr_type := ip_addr_type f; vni := vni f; tunnel_type :=
     tunnel_type f; dst_id := dst_id f; mirror_vnic_id := mirror_vnic_id f; f_priority := f_priority
     f; pri_hint := pri_hint f; l2_filter_id_hint := l2_filter_id_hint f; valid_flags := valid_flags
     f; fw_l2_filter_id := fw_l2_filter_id f; l2_ref_cnt := l2_ref_cnt f; matching_l2_fltr_ptr :=
     matching_l2_fltr_ptr f |}.
Definition set_src_port_mask (v : Z) (f : bnxt_filter_info) : bnxt_filter_info :=
  {| filter_type := filter_type f; flags := flags f; enables := enables f; l2_addr := l2_addr f;
     l2_addr_mask := l2_addr_mask f; src_macaddr := src_macaddr f; dst_macaddr := dst_macaddr f;
     ethertype := ethertype f; l2_ovlan := l2_ovlan f; l2_ovlan_mask := l2_ovlan_mask f; l2_ivlan :=
     l2_ivlan f; l2_ivlan_mask := l2_ivlan_mask f; src_ipaddr := src_ipaddr f; src_ipaddr_mask :=
     src_ipaddr_mask f; dst_ipaddr := dst_ipaddr f; dst_ipaddr_mask := dst_ipaddr_mask f; src_port
     := src_port f; src_port_mask := v; dst_port := dst_port f; dst_port_mask := dst_port_mask f;
     ip_protocol := ip_protocol f; ip_addr_type := ip_addr_type f; vni := vni f; tunnel_type :=
     tunnel_type f; dst_id := dst_id f; mirror_vnic_id := mirror_vnic_id f; f_priority := f_priority
     f; pri_hint := pri_hint f; l2_filter_id_hint := l2_filter_id_hint f; valid_flags := valid_flags
     f; fw_l2_filter_id := fw_l2_filter_id f; l2_ref_cnt := l2_ref_cnt f; matching_l2_fltr_ptr :=
     matching_l2_fltr_ptr f |}.
Definition set_dst_port (v : Z) (f : bnxt_filter_info) : bnxt_filter_info :=
  {| filter_type := filter_type f; flags := flags f; enables := enables f; l2_addr := l2_addr f;
     l2_addr_mask := l2_addr_mask f; src_macaddr := src_macaddr f; dst_macaddr := dst_macaddr f;
     ethertype := ethertype f; l2_ovlan := l2_ovlan f; l2_ovlan_mask := l2_ovlan_mask f; l2_ivlan :=
     l2_ivlan f; l2_ivlan_mask := l2_ivlan_mask f; src_ipaddr := src_ipaddr f; src_ipaddr_mask :=
     src_ipaddr_mask f; dst_ipaddr := dst_ipaddr f; dst_ipaddr_mask := dst_ipaddr_mask f; src_port
     := src_port f; src_port_mask := src_port_mask f; dst_port := v; dst_port_mask := dst_port_mask
     f; ip_protocol := ip_protocol f; ip_addr_type := ip_addr_type f; vni := vni f; tunnel_type :=
     tunnel_type f; dst_id := dst_id f; mirror_vnic_id := mirror_vnic_id f; f_priority := f_priority
     f; pri_hint := pri_hint f; l2_filter_id_hint := l2_filter_id_hint f; valid_flags := valid_flags
     f; fw_l2_filter_id := fw_l2_filter_id f; l2_ref_cnt := l2_ref_cnt f; matching_l2_fltr_ptr :=
     matching_l2_fltr_ptr f |}.
Definition set_dst_port_mask (v : Z) (f : bnxt_filter_info) : bnxt_filter_info :=
  {| filter_type := filter_type f; flags := flags f; enables := enables f; l2_addr := l2_addr f;
     l2_addr_mask := l2_addr_mask f; src_macaddr := src_macaddr f; dst_macaddr := dst_macaddr f;
     ethertype := ethertype f; l2_ovlan := l2_ovlan f; l2_ovlan_mask := l2_ovlan_mask f; l2_ivlan :=
     l2_ivlan f; l2_ivlan_mask := l2_ivlan_mask f; src_ipaddr := src_ipaddr f; src_ipaddr_mask :=
     src_ipaddr_mask f; dst_ipaddr := dst_ipaddr f; dst_ipaddr_mask := dst_ipaddr_mask f; src_port
     := src_port f; src_port_mask := src_port_mask f; dst_port := dst_port f; dst_port_mask := v;
     ip_protocol := ip_protocol f; ip_addr_type := ip_addr_type f; vni := vni f; tunnel_type :=
     tunnel_type f; dst_id := dst_id f; mirror_vnic_id := mirror_vnic_id f; f_priority := f_priority
     f; pri_hint := pri_hint f; l2_filter_id_hint := l2_filter_id_hint f; valid_flags := valid_flags
     f; fw_l2_filter_id := fw_l2_filter_id f; l2_ref_cnt := l2_ref_cnt f; matching_l2_fltr_ptr :=
     matching_l2_fltr_ptr f |}.
Definition set_ip_protocol (v : Z) (f : bnxt_filter_info) : bnxt_filter_info :=
  {| filter_type := filter_type f; flags := flags f; enables := enables f; l2_addr := l2_addr f;
     l2_addr_mask := l2_addr_mask f; src_macaddr := src_macaddr f; dst_macaddr := dst_macaddr f;
     ethertype := ethertype f; l2_ovlan := l2_ovlan f; l2_ovlan_mask := l2_ovlan_mask f; l2_ivlan :=
     l2_ivlan f; l2_ivlan_mask := l2_ivlan_mask f; src_ipaddr := src_ipaddr f; src_ipaddr_mask :=
     src_ipaddr_mask f; dst_ipaddr := dst_ipaddr f; dst_ipaddr_mask := dst_ipaddr_mask f; src_port
     := src_port f; src_port_mask := src_port_mask f; dst_port := dst_port f; dst_port_mask :=
     dst_port_mask f; ip_protocol := v; ip_addr_type := ip_addr_type f; vni := vni f; tunnel_type :=
     tunnel_type f; dst_id := dst_id f; mirror_vnic_id := mirror_vnic_id f; f_priority := f_priority
     f; pri_hint := pri_hint f; l2_filter_id_hint := l2_filter_id_hint f; valid_flags := valid_flags
     f; fw_l2_filter_id := fw_l2_filter_id f; l2_ref_cnt := l2_ref_cnt f; matching_l2_fltr_ptr :=
     matching_l2_fltr_ptr f |}.
Definition set_ip_addr_type (v : Z) (f : bnxt_filter_info) : bnxt_filter_info :=
  {| filter_type := filter_type f; flags := flags f; enables := enables f; l2_addr := l2_addr f;
     l2_addr_mask := l2_addr_mask f; src_macaddr := src_macaddr f; dst_macaddr := dst_macaddr f;
     ethertype := ethertype f; l2_ovlan := l2_ovlan f; l2_ovlan_mask := l2_ovlan_mask f; l2_ivlan :=
     l2_ivlan f; l2_ivlan_mask := l2_ivlan_mask f; src_ipaddr := src_ipaddr f; src_ipaddr_mask :=
     src_ipaddr_mask f; dst_ipaddr := dst_ipaddr f; dst_ipaddr_mask := dst_ipaddr_mask f; src_port
     := src_port f; src_port_mask := src_port_mask f; dst_port := dst_port f; dst_port_mask :=
     dst_port_mask f; ip_protocol := ip_protocol f; ip_addr_type := v; vni := vni f; tunnel_type :=
     tunnel_type f; dst_id := dst_id f; mirror_vnic_id := mirror_vnic_id f; f_priority := f_priority
     f; pri_hint := pri_hint f; l2_filter_id_hint := l2_filter_id_hint f; valid_flags := valid_flags
     f; fw_l2_filter_id := fw_l2_filter_id f; l2_ref_cnt := l2_ref_cnt f; matching_l2_fltr_ptr :=
     matching_l2_fltr_ptr f |}.
Definition set_vni (v : Z) (f : bnxt_filter_info) : bnxt_filter_info :=
  {| filter_type := filter_type f; flags := flags f; enables := enables f; l2_addr := l2_addr f;
     l2_addr_mask := l2_addr_mask f; src_macaddr := src_macaddr f; dst_macaddr := dst_macaddr f;
     ethertype := ethertype f; l2_ovlan := l2_ovlan f; l2_ovlan_mask := l2_ovlan_mask f; l2_ivlan :=
     l2_ivlan f; l2_ivlan_mask := l2_ivlan_mask f; src_ipaddr := src_ipaddr f; src_ipaddr_mask :=
     src_ipaddr_mask f; dst_ipaddr := dst_ipaddr f; dst_ipaddr_mask := dst_ipaddr_mask f; src_port
     := src_port f; src_port_mask := src_port_mask f; dst_port := dst_port f; dst_port_mask :=
     dst_port_mask f; ip_protocol := ip_protocol f; ip_addr_type := ip_addr_type f; vni := v;
     tunnel_type := tunnel_type f; dst_id := dst_id f; mirror_vnic_id := mirror_vnic_id f;
     f_priority := f_priority f; pri_hint := pri_hint f; l2_filter_id_hint := l2_filter_id_hint f;
     valid_flags := valid_flags f; fw_l2_filter_id := fw_l2_filter_id f; l2_ref_cnt := l2_ref_cnt f;
     matching_l2_fltr_ptr := matching_l2_fltr_ptr f |}.
Definition set_tunnel_type (v : Z) (f : bnxt_filter_info) : bnxt_filter_info :=
  {| filter_type := filter_type f; flags := flags f; enables := enables f; l2_addr := l2_addr f;
     l2_addr_mask := l2_addr_mask f; src_macaddr := src_macaddr f; dst_macaddr := dst_macaddr f;
     ethertype := ethertype f; l2_ovlan := l2_ovlan f; l2_ovlan_mask := l2_ovlan_mask f; l2_ivlan :=
     l2_ivlan f; l2_ivlan_mask := l2_ivlan_mask f; src_ipaddr := src_ipaddr f; src_ipaddr_mask :=
     src_ipaddr_mask f; dst_ipaddr := dst_ipaddr f; dst_ipaddr_mask := dst_ipaddr_mask f; src_port
     := src_port f; src_port_mask := src_port_mask f; dst_port := dst_port f; dst_port_mask :=
     dst_port_mask f; ip_protocol := ip_protocol f; ip_addr_type := ip_addr_type f; vni := vni f;
     tunnel_type := v; dst_id := dst_id f; mirror_vnic_id := mirror_vnic_id f; f_priority :=
     f_priority f; pri_hint := pri_hint f; l2_filter_id_hint := l2_filter_id_hint f; valid_flags :=
     valid_flags f; fw_l2_filter_id := fw_l2_filter_id f; l2_ref_cnt := l2_ref_cnt f;
     matching_l2_fltr_ptr := matching_l2_fltr_ptr f |}.
Definition set_dst_id (v : Z) (f : bnxt_filter_info) : bnxt_filter_info :=
  {| filter_type := filter_type f; flags := flags f; enables := enables f; l2_addr := l2_addr f;
     l2_addr_mask := l2_addr_mask f; src_macaddr := src_macaddr f; dst_macaddr := dst_macaddr f;
     ethertype := ethertype f; l2_ovlan := l2_ovlan f; l2_ovlan_mask := l2_ovlan_mask f; l2_ivlan :=
     l2_ivlan f; l2_ivlan_mask := l2_ivlan_mask f; src_ipaddr := src_ipaddr f; src_ipaddr_mask :=
     src_ipaddr_mask f; dst_ipaddr := dst_ipaddr f; dst_ipaddr_mask := dst_ipaddr_mask f; src_port
     := src_port f; src_port_mask := src_port_mask f; dst_port := dst_port f; dst_port_mask :=
     dst_port_mask f; ip_protocol := ip_protocol f; ip_addr_type := ip_addr_type f; vni := vni f;
     tunnel_type := tunnel_type f; dst_id := v; mirror_vnic_id := mirror_vnic_id f; f_priority :=
     f_priority f; pri_hint := pri_hint f; l2_filter_id_hint := l2_filter_id_hint f; valid_flags :=
     valid_flags f; fw_l2_filter_id := fw_l2_filter_id f; l2_ref_cnt := l2_ref_cnt f;
     matching_l2_fltr_ptr := matching_l2_fltr_ptr f |}.
Definition set_mirror_vnic_id (v : Z) (f : bnxt_filter_info) : bnxt_filter_info :=
  {| filter_type := filter_type f; flags := flags f; enables := enables f; l2_addr := l2_addr f;
     l2_addr_mask := l2_addr_mask f; src_macaddr := src_macaddr f; dst_macaddr := dst_macaddr f;
     ethertype := ethertype f; l2_ovlan := l2_ovlan f; l2_ovlan_mask := l2_ovlan_mask f; l2_ivlan :=
     l2_ivlan f; l2_ivlan_mask := l2_ivlan_mask f; src_ipaddr := src_ipaddr f; src_ipaddr_mask :=
     src_ipaddr_mask f; dst_ipaddr := dst_ipaddr f; dst_ipaddr_mask := dst_ipaddr_mask f; src_port
     := src_port f; src_port_mask := src_port_mask f; dst_port := dst_port f; dst_port_mask :=
     dst_port_mask f; ip_protocol := ip_protocol f; ip_addr_type := ip_addr_type f; vni := vni f;
     tunnel_type := tunnel_type f; dst_id := dst_id f; mirror_vnic_id := v; f_priority := f_priority
     f; pri_hint := pri_hint f; l2_filter_id_hint := l2_filter_id_hint f; valid_flags := valid_flags
     f; fw_l2_filter_id := fw_l2_filter_id f; l2_ref_cnt := l2_ref_cnt f; matching_l2_fltr_ptr :=
     matching_l2_fltr_ptr f |}.
Definition set_f_priority (v : Z) (f : bnxt_filter_info) : bnxt_filter_info :=
  {| filter_type := filter_type f; flags := flags f; enables := enables f; l2_addr := l2_addr f;
     l2_addr_mask := l2_addr_mask f; src_macaddr := src_macaddr f; dst_macaddr := dst_macaddr f;
     ethertype := ethertype f; l2_ovlan := l2_ovlan f; l2_ovlan_mask := l2_ovlan_mask f; l2_ivlan :=
     l2_ivlan f; l2_ivlan_mask := l2_ivlan_mask f; src_ipaddr := src_ipaddr f; src_ipaddr_mask :=
     src_ipaddr_mask f; dst_ipaddr := dst_ipaddr f; dst_ipaddr_mask := dst_ipaddr_mask f; src_port
     := src_port f; src_port_mask := src_port_mask f; dst_port := dst_port f; dst_port_mask :=
     dst_port_mask f; ip_protocol := ip_protocol f; ip_addr_type := ip_addr_type f; vni := vni f;
     tunnel_type := tunnel_type f; dst_id := dst_id f; mirror_vnic_id := mirror_vnic_id f;
     f_priority := v; pri_hint := pri_hint f; l2_filter_id_hint := l2_filter_id_hint f; valid_flags
     := valid_flags f; fw_l2_filter_id := fw_l2_filter_id f; l2_ref_cnt := l2_ref_cnt f;
     matching_l2_fltr_ptr := matching_l2_fltr_ptr f |}.
Definition set_pri_hint (v : Z) (f : bnxt_filter_info) : bnxt_filter_info :=
  {| filter_type := filter_type f; flags := flags f; enables := enables f; l2_addr := l2_addr f;
     l2_addr_mask := l2_addr_mask f; src_macaddr := src_macaddr f; dst_macaddr := dst_macaddr f;
     ethertype := ethertype f; l2_ovlan := l2_ovlan f; l2_ovlan_mask := l2_ovlan_mask f; l2_ivlan :=
     l2_ivlan f; l2_ivlan_mask := l2_ivlan_mask f; src_ipaddr := src_ipaddr f; src_ipaddr_mask :=
     src_ipaddr_mask f; dst_ipaddr := dst_ipaddr f; dst_ipaddr_mask := dst_ipaddr_mask f; src_port
     := src_port f; src_port_mask := src_port_mask f; dst_port := dst_port f; dst_port_mask :=
     dst_port_mask f; ip_protocol := ip_protocol f; ip_addr_type := ip_addr_type f; vni := vni f;
     tunnel_type := tunnel_type f; dst_id := dst_id f; mirror_vnic_id := mirror_vnic_id f;
     f_priority := f_priority f; pri_hint := v; l2_filter_id_hint := l2_filter_id_hint f;
     valid_flags := valid_flags f; fw_l2_filter_id := fw_l2_filter_id f; l2_ref_cnt := l2_ref_cnt f;
     matching_l2_fltr_ptr := matching_l2_fltr_ptr f |}.
Definition set_l2_filter_id_hint (v : Z) (f : bnxt_filter_info) : bnxt_filter_info :=
  {| filter_type := filter_type f; flags := flags f; enables := enables f; l2_addr := l2_addr f;
     l2_addr_mask := l2_addr_mask f; src_macaddr := src_macaddr f; dst_macaddr := dst_macaddr f;
     ethertype := ethertype f; l2_ovlan := l2_ovlan f; l2_ovlan_mask := l2_ovlan_mask f; l2_ivlan :=
     l2_ivlan f; l2_ivlan_mask := l2_ivlan_mask f; src_ipaddr := src_ipaddr f; src_ipaddr_mask :=
     src_ipaddr_mask f; dst_ipaddr := dst_ipaddr f; dst_ipaddr_mask := dst_ipaddr_mask f; src_port
     := src_port f; src_port_mask := src_port_mask f; dst_port := dst_port f; dst_port_mask :=
     dst_port_mask f; ip_protocol := ip_protocol f; ip_addr_type := ip_addr_type f; vni := vni f;
     tunnel_type := tunnel_type f; dst_id := dst_id f; mirror_vnic_id := mirror_vnic_id f;
     f_priority := f_priority f; pri_hint := pri_hint f; l2_filter_id_hint := v; valid_flags :=
     valid_flags f; fw_l2_filter_id := fw_l2_filter_id f; l2_ref_cnt := l2_ref_cnt f;
     matching_l2_fltr_ptr := matching_l2_fltr_ptr f |}.
Definition set_valid_flags (v : Z) (f : bnxt_filter_info) : bnxt_filter_info :=
  {| filter_type := filter_type f; flags := flags f; enables := enables f; l2_addr := l2_addr f;
     l2_addr_mask := l2_addr_mask f; src_macaddr := src_macaddr f; dst_macaddr := dst_macaddr f;
     ethertype := ethertype f; l2_ovlan := l2_ovlan f; l2_ovlan_mask := l2_ovlan_mask f; l2_ivlan :=
     l2_ivlan f; l2_ivlan_mask := l2_ivlan_mask f; src_ipaddr := src_ipaddr f; src_ipaddr_mask :=
     src_ipaddr_mask f; dst_ipaddr := dst_ipaddr f; dst_ipaddr_mask := dst_ipaddr_mask f; src_port
     := src_port f; src_port_mask := src_port_mask f; dst_port := dst_port f; dst_port_mask :=
     dst_port_mask f; ip_protocol := ip_protocol f; ip_addr_type := ip_addr_type f; vni := vni f;
     tunnel_type := tunnel_type f; dst_id := dst_id f; mirror_vnic_id := mirror_vnic_id f;
     f_priority := f_priority f; pri_hint := pri_hint f; l2_filter_id_hint := l2_filter_id_hint f;
     valid_flags := v; fw_l2_filter_id := fw_l2_filter_id f; l2_ref_cnt := l2_ref_cnt f;
     matching_l2_fltr_ptr := matching_l2_fltr_ptr f |}.
Definition set_fw_l2_filter_id (v : Z) (f : bnxt_filter_info) : bnxt_filter_info :=
  {| filter_type := filter_type f; flags := flags f; enables := enables f; l2_addr := l2_addr f;
     l2_addr_mask := l2_addr_mask f; src_macaddr := src_macaddr f; dst_macaddr := dst_macaddr f;
     ethertype := ethertype f; l2_ovlan := l2_ovlan f; l2_ovlan_mask := l2_ovlan_mask f; l2_ivlan :=
     l2_ivlan f; l2_ivlan_mask := l2_ivlan_mask f; src_ipaddr := src_ipaddr f; src_ipaddr_mask :=
     src_ipaddr_mask f; dst_ipaddr := dst_ipaddr f; dst_ipaddr_mask := dst_ipaddr_mask f; src_port
     := src_port f; src_port_mask := src_port_mask f; dst_port := dst_port f; dst_port_mask :=
     dst_port_mask f; ip_protocol := ip_protocol f; ip_addr_type := ip_addr_type f; vni := vni f;
     tunnel_type := tunnel_type f; dst_id := dst_id f; mirror_vnic_id := mirror_vnic_id f;
     f_priority := f_priority f; pri_hint := pri_hint f; l2_filter_id_hint := l2_filter_id_hint f;
     valid_flags := valid_flags f; fw_l2_filter_id := v; l2_ref_cnt := l2_ref_cnt f;
     matching_l2_fltr_ptr := matching_l2_fltr_ptr f |}.
Definition set_l2_ref_cnt (v : Z) (f : bnxt_filter_info) : bnxt_filter_info :=
  {| filter_type := filter_type f; flags := flags f; enables := enables f; l2_addr := l2_addr f;
     l2_addr_mask := l2_addr_mask f; src_macaddr := src_macaddr f; dst_macaddr := dst_macaddr f;
     ethertype := ethertype f; l2_ovlan := l2_ovlan f; l2_ovlan_mask := l2_ovlan_mask f; l2_ivlan :=
     l2_ivlan f; l2_ivlan_mask := l2_ivlan_mask f; src_ipaddr := src_ipaddr f; src_ipaddr_mask :=
     src_ipaddr_mask f; dst_ipaddr := dst_ipaddr f; dst_ipaddr_mask := dst_ipaddr_mask f; src_port
     := src_port f; src_port_mask := src_port_mask f; dst_port := dst_port f; dst_port_mask :=
     dst_port_mask f; ip_protocol := ip_protocol f; ip_addr_type := ip_addr_type f; vni := vni f;
     tunnel_type := tunnel_type f; dst_id := dst_id f; mirror_vnic_id := mirror_vnic_id f;
     f_priority := f_priority f; pri_hint := pri_hint f; l2_filter_id_hint := l2_filter_id_hint f;
     valid_flags := valid_flags f; fw_l2_filter_id := fw_l2_filter_id f; l2_ref_cnt := v;
     matching_l2_fltr_ptr := matching_l2_fltr_ptr f |}.
Definition set_matching_l2_fltr_ptr (v : option nat) (f : bnxt_filter_info) : bnxt_filter_info :=
  {| filter_type := filter_type f; flags := flags f; enables := enables f; l2_addr := l2_addr f;
     l2_addr_mask := l2_addr_mask f; src_macaddr := src_macaddr f; dst_macaddr := dst_macaddr f;
     ethertype := ethertype f; l2_ovlan := l2_ovlan f; l2_ovlan_mask := l2_ovlan_mask f; l2_ivlan :=
     l2_ivlan f; l2_ivlan_mask := l2_ivlan_mask f; src_ipaddr := src_ipaddr f; src_ipaddr_mask :=
     src_ipaddr_mask f; dst_ipaddr := dst_ipaddr f; dst_ipaddr_mask := dst_ipaddr_mask f; src_port
     := src_port f; src_port_mask := src_port_mask f; dst_port := dst_port f; dst_port_mask :=
     dst_port_mask f; ip_protocol := ip_protocol f; ip_addr_type := ip_addr_type f; vni := vni f;
     tunnel_type := tunnel_type f; dst_id := dst_id f; mirror_vnic_id := mirror_vnic_id f;
     f_priority := f_priority f; pri_hint := pri_hint f; l2_filter_id_hint := l2_filter_id_hint f;
     valid_flags := valid_flags f; fw_l2_filter_id := fw_l2_filter_id f; l2_ref_cnt := l2_ref_cnt f;
     matching_l2_fltr_ptr := v |}.
Definition set_fw_vnic_id (v : Z) (vn : bnxt_vnic_info) : bnxt_vnic_info :=
  {| fw_vnic_id := v; rx_queue_cnt := rx_queue_cnt vn; start_grp_id := start_grp_id vn; end_grp_id
     := end_grp_id vn; func_default := func_default vn; ff_pool_idx := ff_pool_idx vn; vlan_strip :=
     vlan_strip vn; fw_grp_ids := fw_grp_ids vn; rss_table := rss_table vn; rss_hash_key :=
     rss_hash_key vn; hash_type := hash_type vn; vnic_filter := vnic_filter vn; flow_list :=
     flow_list vn |}.
Definition set_rx_queue_cnt (v : Z) (vn : bnxt_vnic_info) : bnxt_vnic_info :=
  {| fw_vnic_id := fw_vnic_id vn; rx_queue_cnt := v; start_grp_id := start_grp_id vn; end_grp_id :=
     end_grp_id vn; func_default := func_default vn; ff_pool_idx := ff_pool_idx vn; vlan_strip :=
     vlan_strip vn; fw_grp_ids := fw_grp_ids vn; rss_table := rss_table vn; rss_hash_key :=
     rss_hash_key vn; hash_type := hash_type vn; vnic_filter := vnic_filter vn; flow_list :=
     flow_list vn |}.
Definition set_start_grp_id (v : Z) (vn : bnxt_vnic_info) : bnxt_vnic_info :=
  {| fw_vnic_id := fw_vnic_id vn; rx_queue_cnt := rx_queue_cnt vn; start_grp_id := v; end_grp_id :=
     end_grp_id vn; func_default := func_default vn; ff_pool_idx := ff_pool_idx vn; vlan_strip :=
     vlan_strip vn; fw_grp_ids := fw_grp_ids vn; rss_table := rss_table vn; rss_hash_key :=
     rss_hash_key vn; hash_type := hash_type vn; vnic_filter := vnic_filter vn; flow_list :=
     flow_list vn |}.
Definition set_end_grp_id (v : Z) (vn : bnxt_vnic_info) : bnxt_vnic_info :=
  {| fw_vnic_id := fw_vnic_id vn; rx_queue_cnt := rx_queue_cnt vn; start_grp_id := start_grp_id vn;
     end_grp_id := v; func_default := func_default vn; ff_pool_idx := ff_pool_idx vn; vlan_strip :=
     vlan_strip vn; fw_grp_ids := fw_grp_ids vn; rss_table := rss_table vn; rss_hash_key :=
     rss_hash_key vn; hash_type := hash_type vn; vnic_filter := vnic_filter vn; flow_list :=
     flow_list vn |}.
Definition set_func_default (v : Z) (vn : bnxt_vnic_info) : bnxt_vnic_info :=
  {| fw_vnic_id := fw_vnic_id vn; rx_queue_cnt := rx_queue_cnt vn; start_grp_id := start_grp_id vn;
     end_grp_id := end_grp_id vn; func_default := v; ff_pool_idx := ff_pool_idx vn; vlan_strip :=
     vlan_strip vn; fw_grp_ids := fw_grp_ids vn; rss_table := rss_table vn; rss_hash_key :=
     rss_hash_key vn; hash_type := hash_type vn; vnic_filter := vnic_filter vn; flow_list :=
     flow_list vn |}.
Definition set_ff_pool_idx (v : Z) (vn : bnxt_vnic_info) : bnxt_vnic_info :=
  {| fw_vnic_id := fw_vnic_id vn; rx_queue_cnt := rx_queue_cnt vn; start_grp_id := start_grp_id vn;
     end_grp_id := end_grp_id vn; func_default := func_default vn; ff_pool_idx := v; vlan_strip :=
     vlan_strip vn; fw_grp_ids := fw_grp_ids vn; rss_table := rss_table vn; rss_hash_key :=
     rss_hash_key vn; hash_type := hash_type vn; vnic_filter := vnic_filter vn; flow_list :=
     flow_list vn |}.
Definition set_vlan_strip (v : bool) (vn : bnxt_vnic_info) : bnxt_vnic_info :=
  {| fw_vnic_id := fw_vnic_id vn; rx_queue_cnt := rx_queue_cnt vn; start_grp_id := start_grp_id vn;
     end_grp_id := end_grp_id vn; func_default := func_default vn; ff_pool_idx := ff_pool_idx vn;
     vlan_strip := v; fw_grp_ids := fw_grp_ids vn; rss_table := rss_table vn; rss_hash_key :=
     rss_hash_key vn; hash_type := hash_type vn; vnic_filter := vnic_filter vn; flow_list :=
     flow_list vn |}.
Definition set_fw_grp_ids (v : list Z) (vn : bnxt_vnic_info) : bnxt_vnic_info :=
  {| fw_vnic_id := fw_vnic_id vn; rx_queue_cnt := rx_queue_cnt vn; start_grp_id := start_grp_id vn;
     end_grp_id := end_grp_id vn; func_default := func_default vn; ff_pool_idx := ff_pool_idx vn;
     vlan_strip := vlan_strip vn; fw_grp_ids := v; rss_table := rss_table vn; rss_hash_key :=
     rss_hash_key vn; hash_type := hash_type vn; vnic_filter := vnic_filter vn; flow_list :=
     flow_list vn |}.
Definition set_rss_table (v : list Z) (vn : bnxt_vnic_info) : bnxt_vnic_info :=
  {| fw_vnic_id := fw_vnic_id vn; rx_queue_cnt := rx_queue_cnt vn; start_grp_id := start_grp_id vn;
     end_grp_id := end_grp_id vn; func_default := func_default vn; ff_pool_idx := ff_pool_idx vn;
     vlan_strip := vlan_strip vn; fw_grp_ids := fw_grp_ids vn; rss_table := v; rss_hash_key :=
     rss_hash_key vn; hash_type := hash_type vn; vnic_filter := vnic_filter vn; flow_list :=
     flow_list vn |}.
Definition set_rss_hash_key (v : list Z) (vn : bnxt_vnic_info) : bnxt_vnic_info :=
  {| fw_vnic_id := fw_vnic_id vn; rx_queue_cnt := rx_queue_cnt vn; start_grp_id := start_grp_id vn;
     end_grp_id := end_grp_id vn; func_default := func_default vn; ff_pool_idx := ff_pool_idx vn;
     vlan_strip := vlan_strip vn; fw_grp_ids := fw_grp_ids vn; rss_table := rss_table vn;
     rss_hash_key := v; hash_type := hash_type vn; vnic_filter := vnic_filter vn; flow_list :=
     flow_list vn |}.
Definition set_hash_type (v : Z) (vn : bnxt_vnic_info) : bnxt_vnic_info :=
  {| fw_vnic_id := fw_vnic_id vn; rx_queue_cnt := rx_queue_cnt vn; start_grp_id := start_grp_id vn;
     end_grp_id := end_grp_id vn; func_default := func_default vn; ff_pool_idx := ff_pool_idx vn;
     vlan_strip := vlan_strip vn; fw_grp_ids := fw_grp_ids vn; rss_table := rss_table vn;
     rss_hash_key := rss_hash_key vn; hash_type := v; vnic_filter := vnic_filter vn; flow_list :=
     flow_list vn |}.
Definition set_vnic_filter (v : list nat) (vn : bnxt_vnic_info) : bnxt_vnic_info :=
  {| fw_vnic_id := fw_vnic_id vn; rx_queue_cnt := rx_queue_cnt vn; start_grp_id := start_grp_id vn;
     end_grp_id := end_grp_id vn; func_default := func_default vn; ff_pool_idx := ff_pool_idx vn;
     vlan_strip := vlan_strip vn; fw_grp_ids := fw_grp_ids vn; rss_table := rss_table vn;
     rss_hash_key := rss_hash_key vn; hash_type := hash_type vn; vnic_filter := v; flow_list :=
     flow_list vn |}.
Definition set_flow_list (v : list rte_flow) (vn : bnxt_vnic_info) : bnxt_vnic_info :=
  {| fw_vnic_id := fw_vnic_id vn; rx_queue_cnt := rx_queue_cnt vn; start_grp_id := start_grp_id vn;
     end_grp_id := end_grp_id vn; func_default := func_default vn; ff_pool_idx := ff_pool_idx vn;
     vlan_strip := vlan_strip vn; fw_grp_ids := fw_grp_ids vn; rss_table := rss_table vn;
     rss_hash_key := rss_hash_key vn; hash_type := hash_type vn; vnic_filter := vnic_filter vn;
     flow_list := v |}.
Definition set_nr_vnics (v : Z) (bp : bnxt) : bnxt :=
  {| is_pf := is_pf bp; is_vf := is_vf bp; vf_is_trusted := vf_is_trusted bp; max_vfs := max_vfs bp;
     fw_fid := fw_fid bp; first_vf_id := first_vf_id bp; dev_started := dev_started bp; rx_offloads
     := rx_offloads bp; mq_mode := mq_mode bp; rx_nr_rings := rx_nr_rings bp; nr_vnics := v;
     vnic_info := vnic_info bp; rx_queues := rx_queues bp; grp_info := grp_info bp; filter_info :=
     filter_info bp; free_filter_list := free_filter_list bp; next_flow := next_flow bp; rte_errno
     := rte_errno bp; flow_error := flow_error bp; env_log := env_log bp |}.
Definition set_vnic_info (v : list bnxt_vnic_info) (bp : bnxt) : bnxt :=
  {| is_pf := is_pf bp; is_vf := is_vf bp; vf_is_trusted := vf_is_trusted bp; max_vfs := max_vfs bp;
     fw_fid := fw_fid bp; first_vf_id := first_vf_id bp; dev_started := dev_started bp; rx_offloads
     := rx_offloads bp; mq_mode := mq_mode bp; rx_nr_rings := rx_nr_rings bp; nr_vnics := nr_vnics
     bp; vnic_info := v; rx_queues := rx_queues bp; grp_info := grp_info bp; filter_info :=
     filter_info bp; free_filter_list := free_filter_list bp; next_flow := next_flow bp; rte_errno
     := rte_errno bp; flow_error := flow_error bp; env_log := env_log bp |}.
Definition set_rx_queues (v : list (option bnxt_rx_queue)) (bp : bnxt) : bnxt :=
  {| is_pf := is_pf bp; is_vf := is_vf bp; vf_is_trusted := vf_is_trusted bp; max_vfs := max_vfs bp;
     fw_fid := fw_fid bp; first_vf_id := first_vf_id bp; dev_started := dev_started bp; rx_offloads
     := rx_offloads bp; mq_mode := mq_mode bp; rx_nr_rings := rx_nr_rings bp; nr_vnics := nr_vnics
     bp; vnic_info := vnic_info bp; rx_queues := v; grp_info := grp_info bp; filter_info :=
     filter_info bp; free_filter_list := free_filter_list bp; next_flow := next_flow bp; rte_errno
     := rte_errno bp; flow_error := flow_error bp; env_log := env_log bp |}.
Definition set_filter_info (v : list bnxt_filter_info) (bp : bnxt) : bnxt :=
  {| is_pf := is_pf bp; is_vf := is_vf bp; vf_is_trusted := vf_is_trusted bp; max_vfs := max_vfs bp;
     fw_fid := fw_fid bp; first_vf_id := first_vf_id bp; dev_started := dev_started bp; rx_offloads
     := rx_offloads bp; mq_mode := mq_mode bp; rx_nr_rings := rx_nr_rings bp; nr_vnics := nr_vnics
     bp; vnic_info := vnic_info bp; rx_queues := rx_queues bp; grp_info := grp_info bp; filter_info
     := v; free_filter_list := free_filter_list bp; next_flow := next_flow bp; rte_errno :=
     rte_errno bp; flow_error := flow_error bp; env_log := env_log bp |}.
Definition set_free_filter_list (v : list nat) (bp : bnxt) : bnxt :=
  {| is_pf := is_pf bp; is_vf := is_vf bp; vf_is_trusted := vf_is_trusted bp; max_vfs := max_vfs bp;
     fw_fid := fw_fid bp; first_vf_id := first_vf_id bp; dev_started := dev_started bp; rx_offloads
     := rx_offloads bp; mq_mode := mq_mode bp; rx_nr_rings := rx_nr_rings bp; nr_vnics := nr_vnics
     bp; vnic_info := vnic_info bp; rx_queues := rx_queues bp; grp_info := grp_info bp; filter_info
     := filter_info bp; free_filter_list := v; next_flow := next_flow bp; rte_errno := rte_errno bp;
     flow_error := flow_error bp; env_log := env_log bp |}.
Definition set_next_flow (v : nat) (bp : bnxt) : bnxt :=
  {| is_pf := is_pf bp; is_vf := is_vf bp; vf_is_trusted := vf_is_trusted bp; max_vfs := max_vfs bp;
     fw_fid := fw_fid bp; first_vf_id := first_vf_id bp; dev_started := dev_started bp; rx_offloads
     := rx_offloads bp; mq_mode := mq_mode bp; rx_nr_rings := rx_nr_rings bp; nr_vnics := nr_vnics
     bp; vnic_info := vnic_info bp; rx_queues := rx_queues bp; grp_info := grp_info bp; filter_info
     := filter_info bp; free_filter_list := free_filter_list bp; next_flow := v; rte_errno :=
     rte_errno bp; flow_error := flow_error bp; env_log := env_log bp |}.
Definition set_rte_errno (v : Z) (bp : bnxt) : bnxt :=
  {| is_pf := is_pf bp; is_vf := is_vf bp; vf_is_trusted := vf_is_trusted bp; max_vfs := max_vfs bp;
     fw_fid := fw_fid bp; first_vf_id := first_vf_id bp; dev_started := dev_started bp; rx_offloads
     := rx_offloads bp; mq_mode := mq_mode bp; rx_nr_rings := rx_nr_rings bp; nr_vnics := nr_vnics
     bp; vnic_info := vnic_info bp; rx_queues := rx_queues bp; grp_info := grp_info bp; filter_info
     := filter_info bp; free_filter_list := free_filter_list bp; next_flow := next_flow bp;
     rte_errno := v; flow_error := flow_error bp; env_log := env_log bp |}.
Definition set_flow_error (v : rte_flow_error) (bp : bnxt) : bnxt :=
  {| is_pf := is_pf bp; is_vf := is_vf bp; vf_is_trusted := vf_is_trusted bp; max_vfs := max_vfs bp;
     fw_fid := fw_fid bp; first_vf_id := first_vf_id bp; dev_started := dev_started bp; rx_offloads
     := rx_offloads bp; mq_mode := mq_mode bp; rx_nr_rings := rx_nr_rings bp; nr_vnics := nr_vnics
     bp; vnic_info := vnic_info bp; rx_queues := rx_queues bp; grp_info := grp_info bp; filter_info
     := filter_info bp; free_filter_list := free_filter_list bp; next_flow := next_flow bp;
     rte_errno := rte_errno bp; flow_error := v; env_log := env_log bp |}.
Definition set_env_log (v : list env_call) (bp : bnxt) : bnxt :=
  {| is_pf := is_pf bp; is_vf := is_vf bp; vf_is_trusted := vf_is_trusted bp; max_vfs := max_vfs bp;
     fw_fid := fw_fid bp; first_vf_id := first_vf_id bp; dev_started := dev_started bp; rx_offloads
     := rx_offloads bp; mq_mode := mq_mode bp; rx_nr_rings := rx_nr_rings bp; nr_vnics := nr_vnics
     bp; vnic_info := vnic_info bp; rx_queues := rx_queues bp; grp_info := grp_info bp; filter_info
     := filter_info bp; free_filter_list := free_filter_list bp; next_flow := next_flow bp;
     rte_errno := rte_errno bp; flow_error := flow_error bp; env_log := v |}.

(** ** Build-time definitions

    The HSI header, bnxt.h and the DPDK configuration are not part of the
    file: the macros it uses are taken as parameters. *)
Record hsi_defs := {
  RTE_BIG_ENDIAN : bool;
  INVALID_VNIC_ID : Z;
  INVALID_HW_RING_ID : Z;
  HW_HASH_INDEX_SIZE : Z;
  HW_HASH_KEY_SIZE : Z;
  DEV_RX_OFFLOAD_VLAN_STRIP : Z;
  ETH_MQ_RX_RSS : Z;
  bnxt_rte_to_hwrm_hash_types : Z -> Z;
  NTUPLE_FLTR_ALLOC_INPUT_EN_ETHERTYPE : Z;
  EM_FLOW_ALLOC_INPUT_EN_ETHERTYPE : Z;
  NTUPLE_FLTR_ALLOC_INPUT_EN_DST_MACADDR : Z;
  EM_FLOW_ALLOC_INPUT_EN_DST_MACADDR : Z;
  NTUPLE_FLTR_ALLOC_INPUT_EN_SRC_MACADDR : Z;
  EM_FLOW_ALLOC_INPUT_EN_SRC_MACADDR : Z;
  EM_FLOW_ALLOC_INPUT_EN_OVLAN_VID : Z;
  NTUPLE_FLTR_ALLOC_INPUT_EN_SRC_IPADDR : Z;
  NTUPLE_FLTR_ALLOC_INPUT_EN_DST_IPADDR : Z;
  EM_FLOW_ALLOC_INPUT_EN_SRC_IPADDR : Z;
  EM_FLOW_ALLOC_INPUT_EN_DST_IPADDR : Z;
  NTUPLE_FLTR_ALLOC_INPUT_EN_SRC_IPADDR_MASK : Z;
  NTUPLE_FLTR_ALLOC_INPUT_EN_DST_IPADDR_MASK : Z;
  NTUPLE_FLTR_ALLOC_IN_EN_IP_PROTO : Z;
  EM_FLOW_ALLOC_INPUT_EN_IP_PROTO : Z;
  NTUPLE_FLTR_ALLOC_INPUT_EN_SRC_PORT : Z;
  NTUPLE_FLTR_ALLOC_INPUT_EN_DST_PORT : Z;
  EM_FLOW_ALLOC_INPUT_EN_SRC_PORT : Z;
  EM_FLOW_ALLOC_INPUT_EN_DST_PORT : Z;
  NTUPLE_FLTR_ALLOC_INPUT_EN_SRC_PORT_MASK : Z;
  NTUPLE_FLTR_ALLOC_INPUT_EN_DST_PORT_MASK : Z;
  NTUPLE_FLTR_ALLOC_INPUT_EN_MIRROR_VNIC_ID : Z;
  HWRM_CFA_EM_FLOW_ALLOC_INPUT_ENABLES_L2_FILTER_ID : Z;
  HWRM_CFA_NTUPLE_FILTER_ALLOC_INPUT_ENABLES_L2_FILTER_ID : Z;
  HWRM_CFA_L2_FILTER_ALLOC_INPUT_ENABLES_L2_ADDR : Z;
  L2_FILTER_ALLOC_INPUT_EN_L2_ADDR_MASK : Z;
  BNXT_FLOW_L2_DST_VALID_FLAG : Z;
  BNXT_FLOW_L2_SRC_VALID_FLAG : Z;
  BNXT_FLOW_L2_INNER_SRC_VALID_FLAG : Z;
  BNXT_FLOW_L2_INNER_DST_VALID_FLAG : Z;
  HWRM_CFA_NTUPLE_FILTER_ALLOC_INPUT_IP_ADDR_TYPE_IPV4 : Z;
  HWRM_CFA_EM_FLOW_ALLOC_INPUT_IP_ADDR_TYPE_IPV4 : Z;
  NTUPLE_FLTR_ALLOC_INPUT_IP_ADDR_TYPE_IPV6 : Z;
  EM_FLOW_ALLOC_INPUT_IP_ADDR_TYPE_IPV6 : Z;
  CFA_NTUPLE_FILTER_ALLOC_REQ_TUNNEL_TYPE_VXLAN : Z;
  CFA_NTUPLE_FILTER_ALLOC_REQ_TUNNEL_TYPE_NVGRE : Z;
  CFA_NTUPLE_FILTER_ALLOC_REQ_TUNNEL_TYPE_IPGRE : Z;
  HWRM_CFA_L2_FILTER_ALLOC_INPUT_FLAGS_XDP_DISABLE : Z;
  HWRM_CFA_L2_FILTER_ALLOC_INPUT_FLAGS_PATH_RX : Z;
  HWRM_CFA_L2_FILTER_ALLOC_INPUT_FLAGS_OUTERMOST : Z;
  HWRM_CFA_L2_FILTER_ALLOC_INPUT_FLAGS_SOURCE_VALID : Z;
  HWRM_CFA_L2_FILTER_ALLOC_INPUT_PRI_HINT_BELOW_FILTER : Z;
  HWRM_CFA_EM_FLOW_ALLOC_INPUT_FLAGS_PATH_RX : Z;
  HWRM_CFA_EM_FLOW_ALLOC_INPUT_FLAGS_DROP : Z;
  HWRM_CFA_NTUPLE_FILTER_ALLOC_INPUT_FLAGS_DROP : Z;
  HWRM_CFA_NTUPLE_FILTER_ALLOC_INPUT_FLAGS_METER : Z }.

(** ** The execution monad

    A computation takes the driver state and either faults (undefined
    behaviour in C: a NULL dereference, an access outside an array, a loop
    that never ends) or returns a value and the next state. *)
Inductive result (A : Type) : Type :=
| Fault
| Done (a : A) (bp : bnxt).
Arguments Fault {A}.
Arguments Done {A} _ _.

Definition M (A : Type) : Type := bnxt -> result A.

Definition ret {A} (a : A) : M A := fun bp => Done a bp.
Definition bind {A B} (m : M A) (k : A -> M B) : M B :=
  fun bp => match m bp with Fault => Fault | Done a bp' => k a bp' end.
Definition fault {A} : M A := fun _ => Fault.
Definition gets {A} (f : bnxt -> A) : M A := fun bp => Done (f bp) bp.
Definition modify (f : bnxt -> bnxt) : M unit := fun bp => Done tt (f bp).
Definition lift_opt {A} (o : option A) : M A :=
  match o with Some a => ret a | None => fault end.

Declare Scope cmd_scope.
Delimit Scope cmd_scope with cmd.
Notation "x <- c1 ;; c2" := (bind c1 (fun x => c2))
  (at level 100, c1 at next level, c2 at level 200, right associativity)
  : cmd_scope.
Notation "c1 ;; c2" := (bind c1 (fun _ => c2))
  (at level 100, c2 at level 200, right associativity) : cmd_scope.
Local Open Scope cmd_scope.

(** Statements of a loop body or a [switch] arm either leave the function
    with a return code ([inl]) or fall through with the locals ([inr]). *)
Definition bind_cont {T U} (m : M (Z + T)) (k : T -> M (Z + U)) : M (Z + U) :=
  x <- m ;;
  match x with
  | inl rc => ret (inl rc)
  | inr v => k v
  end.
Notation "x <~ c1 ;; c2" := (bind_cont c1 (fun x => c2))
  (at level 100, c1 at next level, c2 at level 200, right associativity)
  : cmd_scope.

(** [a[i]] for a C integer index: outside the array there is no value. *)
Definition array_at {A} (l : list A) (i : Z) : option A :=
  if i <? 0 then None else l !! Z.to_nat i.
Definition array_set {A} (l : list A) (i : Z) (v : A) : option (list A) :=
  if (i <? 0) || (Z.of_nat (length l) <=? i) then None
  else Some (<[Z.to_nat i := v]> l).

Definition read_filter (p : nat) : M bnxt_filter_info :=
  fi <- gets filter_info ;; lift_opt (fi !! p).
Definition filter_upd (p : nat) (g : bnxt_filter_info -> bnxt_filter_info)
  : M unit :=
  f <- read_filter p ;;
  modify (fun bp => set_filter_info (<[p := g f]> (filter_info bp)) bp).

Definition read_vnic (i : nat) : M bnxt_vnic_info :=
  vi <- gets vnic_info ;; lift_opt (vi !! i).
Definition vnic_upd (i : nat) (g : bnxt_vnic_info -> bnxt_vnic_info)
  : M unit :=
  vn <- read_vnic i ;;
  modify (fun bp => set_vnic_info (<[i := g vn]> (vnic_info bp)) bp).

(** [bp->rx_queues[q]]: the slot may hold the NULL pointer. *)
Definition read_rxq_slot (q : Z) : M (option bnxt_rx_queue) :=
  qs <- gets rx_queues ;; lift_opt (array_at qs q).
Definition rxq_upd (q : Z) (g : bnxt_rx_queue -> bnxt_rx_queue) : M unit :=
  slot <- read_rxq_slot q ;;
  match slot with
  | None => fault
  | Some rxq =>
      modify (fun bp =>
        set_rx_queues (<[Z.to_nat q := Some (g rxq)]> (rx_queues bp)) bp)
  end.

(** [rte_flow_error_set] (rte_flow.h): fills the caller's error structure,
    sets [rte_errno] to [code] and returns [-code]. *)
Definition rte_flow_error_set (code : Z) (ty : rte_flow_error_type)
    (msg : string) : M Z :=
  modify (fun bp =>
    set_flow_error {| err_type := ty; err_code := code; err_message := msg |}
      (set_rte_errno code bp)) ;;
  ret (- code).

(** [rte_flow_error_set(...); return -rte_errno;] *)
Definition fail_with {T} (code : Z) (ty : rte_flow_error_type) (msg : string)
  : M (Z + T) :=
  rte_flow_error_set code ty msg ;;
  e <- gets rte_errno ;;
  ret (inl (- e)).

(** STAILQ operations on a queue kept as the list of its elements.
    [STAILQ_REMOVE] walks the links until it meets the element: removing an
    element that is not queued runs off the end of the list. *)
Fixpoint stailq_remove {A} (eqb : A -> A -> bool) (x : A) (l : list A)
  : option (list A) :=
  match l with
  | [] => None
  | y :: l' =>
      if eqb y x then Some l'
      else match stailq_remove eqb x l' with
           | Some r => Some (y :: r)
           | None => None
           end
  end.
Definition stailq_insert_tail {A} (x : A) (l : list A) : list A := l ++ [x].

Definition flow_eqb (a b : rte_flow) : bool := Nat.eqb (flow_id a) (flow_id b).

(** C truth value of an integer *)
Definition nz (v : Z) : bool := negb (v =? 0).

(** Locals of [bnxt_validate_and_parse_flow_type] that live across items. *)
Record parse_locals := {
  en : Z;
  lv_valid_flags : Z;
  inner : bool }.

Section Driver.

Variable hsi : hsi_defs.
(** The environment answers a call from the calls made before it (most
    recent first). *)
Variable env : list env_call -> env_call -> env_resp.

Definition RTE_BE16 (v : Z) : Z :=
  if RTE_BIG_ENDIAN hsi then v else rte_bswap16 v.
Definition rte_be_to_cpu_16 (v : Z) : Z :=
  if RTE_BIG_ENDIAN hsi then v else rte_bswap16 v.

Definition call_env (c : env_call) : M env_resp :=
  fun bp => Done (env (env_log bp) c) (set_env_log (c :: env_log bp) bp).

(** *** Collaborators outside this file *)

(** Modelled from the spec: bnxt_filter.c is missing; the filter pool of the
    device is "an explicit owned resource pool" with a free list:
    [bnxt_get_unused_filter] takes the first free filter, or returns NULL
    when none is left. *)
Definition bnxt_get_unused_filter : M (option nat) :=
  fl <- gets free_filter_list ;;
  match fl with
  | [] => ret None
  | p :: rest =>
      modify (set_free_filter_list rest) ;;
      ret (Some p)
  end.

(** Modelled from the spec: bnxt_filter.c is missing; [bnxt_free_filter]
    releases a filter to the free list of the pool. *)
Definition bnxt_free_filter (p : nat) : M unit :=
  modify (fun bp =>
    set_free_filter_list (stailq_insert_tail p (free_filter_list bp)) bp).

(** Modelled from the spec: bnxt_hwrm.c is missing; the Hardware Control
    Channel's [install(kind, descriptor) -> hardware_id | Error] for an L2
    filter: on success the hardware identifier is stored in the filter. *)
Definition bnxt_hwrm_set_l2_filter (dst : Z) (p : nat) : M Z :=
  r <- call_env (call_hwrm_set_l2_filter dst p) ;;
  (if resp_rc r =? 0
   then filter_upd p (set_fw_l2_filter_id (resp_val r))
   else ret tt) ;;
  ret (resp_rc r).

(** Modelled from the spec: bnxt_hwrm.c is missing; a Shared L2 Filter's
    reference count is "decremented on Flow destruction" and the filter is
    "uninstalled from hardware when refcount hits zero".  The count lives in
    the filter [matching_l2_fltr_ptr] points at, or in the filter itself. *)
Definition bnxt_hwrm_clear_l2_filter (p : nat) : M Z :=
  f <- read_filter p ;;
  let l2 := match matching_l2_fltr_ptr f with Some q => q | None => p end in
  l2f <- read_filter l2 ;;
  let cnt := if 0 <? l2_ref_cnt l2f then l2_ref_cnt l2f - 1
             else l2_ref_cnt l2f in
  filter_upd l2 (set_l2_ref_cnt cnt) ;;
  if 0 <? cnt then ret 0
  else
    r <- call_env (call_hwrm_clear_l2_filter p) ;;
    ret (resp_rc r).

(** Modelled from the spec: bnxt_hwrm.c is missing; [install] and
    [uninstall] of exact-match and tuple filters are commands whose return
    code the driver surfaces. *)
Definition bnxt_hwrm_set_em_filter (dst : Z) (p : nat) : M Z :=
  r <- call_env (call_hwrm_set_em_filter dst p) ;; ret (resp_rc r).
Definition bnxt_hwrm_clear_em_filter (p : nat) : M Z :=
  r <- call_env (call_hwrm_clear_em_filter p) ;; ret (resp_rc r).
Definition bnxt_hwrm_set_ntuple_filter (dst : Z) (p : nat) : M Z :=
  r <- call_env (call_hwrm_set_ntuple_filter dst p) ;; ret (resp_rc r).
Definition bnxt_hwrm_clear_ntuple_filter (p : nat) : M Z :=
  r <- call_env (call_hwrm_clear_ntuple_filter p) ;; ret (resp_rc r).

(** Modelled from the spec: bnxt_hwrm.c is missing;
    [query_tunnel_redirect() -> active_type_bitmap] and
    [set/free_tunnel_redirect(type)]. *)
Definition bnxt_hwrm_tunnel_redirect_query : M (Z * Z) :=
  r <- call_env call_hwrm_tunnel_redirect_query ;;
  ret (resp_rc r, resp_val r).
Definition bnxt_hwrm_tunnel_redirect_free (ty : Z) : M Z :=
  r <- call_env (call_hwrm_tunnel_redirect_free ty) ;; ret (resp_rc r).
Definition bnxt_hwrm_tunnel_redirect (ty : Z) : M Z :=
  r <- call_env (call_hwrm_tunnel_redirect ty) ;; ret (resp_rc r).
Definition bnxt_hwrm_tunnel_redirect_info (ty : Z) : M (Z * Z) :=
  r <- call_env (call_hwrm_tunnel_redirect_info ty) ;;
  ret (resp_rc r, resp_val r).

(** Modelled from the spec: bnxt_hwrm.c is missing; the query returns the
    default VNIC of a virtual function, negative when there is none. *)
Definition bnxt_hwrm_func_qcfg_vf_dflt_vnic_id (vf : Z) : M Z :=
  r <- call_env (call_hwrm_func_qcfg_vf_dflt_vnic_id vf) ;; ret (resp_val r).

(** Modelled from the spec: bnxt_vnic.c and bnxt_hwrm.c are missing;
    [alloc/free_receive_context], [alloc/free_rss_context],
    [configure_receive_context] and [configure_rss].  Allocating the group
    table gives every ring slot the invalid sentinel; allocating the context
    stores its hardware identifier and freeing it restores the sentinel. *)
Definition bnxt_vnic_grp_alloc (v : nat) : M Z :=
  r <- call_env (call_vnic_grp_alloc v) ;;
  (if resp_rc r =? 0
   then
     n <- gets (fun bp => length (grp_info bp)) ;;
     vnic_upd v (set_fw_grp_ids (replicate n (INVALID_HW_RING_ID hsi)))
   else ret tt) ;;
  ret (resp_rc r).
Definition bnxt_hwrm_vnic_alloc (v : nat) : M Z :=
  r <- call_env (call_hwrm_vnic_alloc v) ;;
  (if resp_rc r =? 0
   then vnic_upd v (set_fw_vnic_id (resp_val r))
   else ret tt) ;;
  ret (resp_rc r).
Definition bnxt_hwrm_vnic_ctx_alloc (v : nat) : M Z :=
  r <- call_env (call_hwrm_vnic_ctx_alloc v) ;; ret (resp_rc r).
Definition bnxt_hwrm_vnic_cfg (v : nat) : M Z :=
  r <- call_env (call_hwrm_vnic_cfg v) ;; ret (resp_rc r).
Definition bnxt_hwrm_vnic_plcmode_cfg (v : nat) : M Z :=
  r <- call_env (call_hwrm_vnic_plcmode_cfg v) ;; ret (resp_rc r).
Definition bnxt_hwrm_vnic_rss_cfg (v : nat) : M Z :=
  r <- call_env (call_hwrm_vnic_rss_cfg v) ;; ret (resp_rc r).
Definition bnxt_hwrm_vnic_ctx_free (v : nat) : M Z :=
  r <- call_env (call_hwrm_vnic_ctx_free v) ;; ret (resp_rc r).
Definition bnxt_hwrm_vnic_free (v : nat) : M Z :=
  r <- call_env (call_hwrm_vnic_free v) ;;
  (if resp_rc r =? 0
   then vnic_upd v (set_fw_vnic_id (INVALID_HW_RING_ID hsi))
   else ret tt) ;;
  ret (resp_rc r).

(** [rte_free(vnic->fw_grp_ids)]: the table is gone; reading it afterwards
    is a use after free. *)
Definition free_fw_grp_ids (v : nat) : M unit := vnic_upd v (set_fw_grp_ids []).

(** ** bnxt_flow.c *)

Definition bnxt_flow_args_validate (attr : option rte_flow_attr)
    (pattern : option (list rte_flow_item))
    (actions : option (list rte_flow_action)) : M Z :=
  if negb (is_some pattern) then
    rte_flow_error_set EINVAL RTE_FLOW_ERROR_TYPE_ITEM_NUM "NULL pattern." ;;
    e <- gets rte_errno ;; ret (- e)
  else if negb (is_some actions) then
    rte_flow_error_set EINVAL RTE_FLOW_ERROR_TYPE_ACTION_NUM "NULL action." ;;
    e <- gets rte_errno ;; ret (- e)
  else if negb (is_some attr) then
    rte_flow_error_set EINVAL RTE_FLOW_ERROR_TYPE_ATTR "NULL attribute." ;;
    e <- gets rte_errno ;; ret (- e)
  else ret 0.

(** A pointer into the pattern is the list of items from that position on;
    walking past the last item leaves the array. *)
Fixpoint bnxt_flow_non_void_item (cur : list rte_flow_item)
  : option (list rte_flow_item) :=
  match cur with
  | [] => None
  | ITEM_VOID _ :: next => bnxt_flow_non_void_item next
  | _ :: _ => Some cur
  end.

Fixpoint bnxt_flow_non_void_action (cur : list rte_flow_action)
  : option (list rte_flow_action) :=
  match cur with
  | [] => None
  | ACTION_VOID :: next => bnxt_flow_non_void_action next
  | _ :: _ => Some cur
  end.

(** The [while] loop of [bnxt_filter_type_check]. *)
Fixpoint filter_type_check_loop (item : list rte_flow_item)
    (use_ntuple : Z) (has_vlan : bool) : option (Z * bool) :=
  match item with
  | [] => None
  | it :: next =>
      match item_type it with
      | RTE_FLOW_ITEM_TYPE_END => Some (use_ntuple, has_vlan)
      | RTE_FLOW_ITEM_TYPE_ANY
      | RTE_FLOW_ITEM_TYPE_ETH => filter_type_check_loop next 0 has_vlan
      | RTE_FLOW_ITEM_TYPE_VLAN => filter_type_check_loop next 0 true
      | RTE_FLOW_ITEM_TYPE_IPV4
      | RTE_FLOW_ITEM_TYPE_IPV6
      | RTE_FLOW_ITEM_TYPE_TCP
      | RTE_FLOW_ITEM_TYPE_UDP =>
          filter_type_check_loop next (Z.lor use_ntuple 1) has_vlan
      | _ => filter_type_check_loop next (Z.lor use_ntuple 0) has_vlan
      end
  end.

Definition bnxt_filter_type_check (pattern : list rte_flow_item) : M Z :=
  item <- lift_opt (bnxt_flow_non_void_item pattern) ;;
  r <- lift_opt (filter_type_check_loop item 1 false) ;;
  let '(use_ntuple, has_vlan) := r in
  if has_vlan && nz use_ntuple then
    rte_flow_error_set EINVAL RTE_FLOW_ERROR_TYPE_ITEM
      "Cannot use VLAN with NTUPLE" ;;
    e <- gets rte_errno ;; ret (- e)
  else ret use_ntuple.

(** *** bnxt_validate_and_parse_flow_type: one arm per item type *)

Definition or_en (bits : Z) (lv : parse_locals) : parse_locals :=
  {| en := Z.lor (en lv) bits;
     lv_valid_flags := lv_valid_flags lv;
     inner := inner lv |}.
Definition or_valid_flags (bits : Z) (lv : parse_locals) : parse_locals :=
  {| en := en lv;
     lv_valid_flags := Z.lor (lv_valid_flags lv) bits;
     inner := inner lv |}.

Definition parse_any (c : item_conf rte_flow_item_any) (lv : parse_locals)
  : M (Z + parse_locals) :=
  match spec c with
  | None => fault
  | Some any_spec =>
      ret (inr {| en := en lv;
                  lv_valid_flags := lv_valid_flags lv;
                  inner := 3 <? any_num any_spec |})
  end.

Definition parse_eth (attr : rte_flow_attr) (filter : nat)
    (use_ntuple en_ethertype : Z) (c : item_conf rte_flow_item_eth)
    (lv : parse_locals) : M (Z + parse_locals) :=
  match spec c, mask c with
  | Some eth_spec, Some eth_mask =>
      if (negb (rte_is_zero_ether_addr (eth_src eth_mask)) &&
          negb (rte_is_broadcast_ether_addr (eth_src eth_mask))) ||
         (negb (rte_is_zero_ether_addr (eth_dst eth_mask)) &&
          negb (rte_is_broadcast_ether_addr (eth_dst eth_mask)))
      then fail_with EINVAL RTE_FLOW_ERROR_TYPE_ITEM "MAC_addr mask not valid"
      else if nz (eth_type eth_mask) &&
              negb (eth_type eth_mask =? RTE_BE16 0xffff)
      then fail_with EINVAL RTE_FLOW_ERROR_TYPE_ITEM "ethertype mask not valid"
      else
        lv1 <~ (if rte_is_broadcast_ether_addr (eth_dst eth_mask) then
                  if negb (rte_is_unicast_ether_addr (eth_dst eth_spec))
                  then fail_with EINVAL RTE_FLOW_ERROR_TYPE_ITEM
                         "DMAC is invalid"
                  else
                    filter_upd filter (set_dst_macaddr (eth_dst eth_spec)) ;;
                    filter_upd filter (set_f_priority (priority attr)) ;;
                    ret (inr
                      (or_valid_flags
                         (if inner lv
                          then BNXT_FLOW_L2_INNER_DST_VALID_FLAG hsi
                          else BNXT_FLOW_L2_DST_VALID_FLAG hsi)
                         (or_en
                            (if nz use_ntuple
                             then NTUPLE_FLTR_ALLOC_INPUT_EN_DST_MACADDR hsi
                             else EM_FLOW_ALLOC_INPUT_EN_DST_MACADDR hsi)
                            lv)))
                else ret (inr lv)) ;;
        lv2 <~ (if rte_is_broadcast_ether_addr (eth_src eth_mask) then
                  if negb (rte_is_unicast_ether_addr (eth_src eth_spec))
                  then fail_with EINVAL RTE_FLOW_ERROR_TYPE_ITEM
                         "SMAC is invalid"
                  else
                    filter_upd filter (set_src_macaddr (eth_src eth_spec)) ;;
                    ret (inr
                      (or_valid_flags
                         (if inner lv1
                          then BNXT_FLOW_L2_INNER_SRC_VALID_FLAG hsi
                          else BNXT_FLOW_L2_SRC_VALID_FLAG hsi)
                         (or_en
                            (if nz use_ntuple
                             then NTUPLE_FLTR_ALLOC_INPUT_EN_SRC_MACADDR hsi
                             else EM_FLOW_ALLOC_INPUT_EN_SRC_MACADDR hsi)
                            lv1)))
                else ret (inr lv1)) ;;
        if nz (eth_type eth_mask) then
          filter_upd filter
            (set_ethertype (rte_be_to_cpu_16 (eth_type eth_spec))) ;;
          ret (inr (or_en en_ethertype lv2))
        else ret (inr lv2)
  | _, _ => ret (inr lv)
  end.

Definition parse_vlan (filter : nat) (en_ethertype : Z)
    (c : item_conf rte_flow_item_vlan) (lv : parse_locals)
  : M (Z + parse_locals) :=
  match spec c, mask c with
  | Some vlan_spec, Some vlan_mask =>
      if nz (Z.land (en lv) en_ethertype) then
        fail_with EINVAL RTE_FLOW_ERROR_TYPE_ITEM
          "VLAN TPID matching is not supported"
      else
        lv1 <~ (if nz (vlan_tci vlan_mask) &&
                   (vlan_tci vlan_mask =? RTE_BE16 0x0fff)
                then
                  filter_upd filter
                    (set_l2_ovlan
                       (rte_be_to_cpu_16
                          (Z.land (vlan_tci vlan_spec) (RTE_BE16 0x0fff)))) ;;
                  ret (inr (or_en (EM_FLOW_ALLOC_INPUT_EN_OVLAN_VID hsi) lv))
                else fail_with EINVAL RTE_FLOW_ERROR_TYPE_ITEM
                       "VLAN mask is invalid") ;;
        if nz (vlan_inner_type vlan_mask) &&
           negb (vlan_inner_type vlan_mask =? RTE_BE16 0xffff)
        then fail_with EINVAL RTE_FLOW_ERROR_TYPE_ITEM
               "inner ethertype mask not valid"
        else if nz (vlan_inner_type vlan_mask) then
          filter_upd filter
            (set_ethertype (rte_be_to_cpu_16 (vlan_inner_type vlan_spec))) ;;
          ret (inr (or_en en_ethertype lv1))
        else ret (inr lv1)
  | _, _ => fault
  end.

Definition parse_ipv4 (filter : nat) (use_ntuple : Z)
    (c : item_conf rte_ipv4_hdr) (lv : parse_locals)
  : M (Z + parse_locals) :=
  match spec c, mask c with
  | Some ipv4_spec, Some ipv4_mask =>
      if nz (version_ihl ipv4_mask) || nz (type_of_service ipv4_mask) ||
         nz (total_length ipv4_mask) || nz (packet_id ipv4_mask) ||
         nz (fragment_offset ipv4_mask) || nz (time_to_live ipv4_mask) ||
         nz (next_proto_id ipv4_mask) || nz (hdr_checksum ipv4_mask)
      then fail_with EINVAL RTE_FLOW_ERROR_TYPE_ITEM "Invalid IPv4 mask."
      else
        filter_upd filter (fun f =>
          set_dst_ipaddr (ipaddr_set0 (v4_dst_addr ipv4_spec) (dst_ipaddr f)) f) ;;
        filter_upd filter (fun f =>
          set_src_ipaddr (ipaddr_set0 (v4_src_addr ipv4_spec) (src_ipaddr f)) f) ;;
        let lv1 :=
          if nz use_ntuple
          then or_en (Z.lor (NTUPLE_FLTR_ALLOC_INPUT_EN_SRC_IPADDR hsi)
                            (NTUPLE_FLTR_ALLOC_INPUT_EN_DST_IPADDR hsi)) lv
          else or_en (Z.lor (EM_FLOW_ALLOC_INPUT_EN_SRC_IPADDR hsi)
                            (EM_FLOW_ALLOC_INPUT_EN_DST_IPADDR hsi)) lv in
        lv2 <- (if nz (v4_src_addr ipv4_mask) then
                  filter_upd filter (fun f =>
                    set_src_ipaddr_mask
                      (ipaddr_set0 (v4_src_addr ipv4_mask) (src_ipaddr_mask f))
                      f) ;;
                  ret (or_en (if negb (nz use_ntuple) then 0
                              else NTUPLE_FLTR_ALLOC_INPUT_EN_SRC_IPADDR_MASK hsi)
                             lv1)
                else ret lv1) ;;
        lv3 <- (if nz (v4_dst_addr ipv4_mask) then
                  filter_upd filter (fun f =>
                    set_dst_ipaddr_mask
                      (ipaddr_set0 (v4_dst_addr ipv4_mask) (dst_ipaddr_mask f))
                      f) ;;
                  ret (or_en (if negb (nz use_ntuple) then 0
                              else NTUPLE_FLTR_ALLOC_INPUT_EN_DST_IPADDR_MASK hsi)
                             lv2)
                else ret lv2) ;;
        filter_upd filter
          (set_ip_addr_type
             (if nz use_ntuple
              then HWRM_CFA_NTUPLE_FILTER_ALLOC_INPUT_IP_ADDR_TYPE_IPV4 hsi
              else HWRM_CFA_EM_FLOW_ALLOC_INPUT_IP_ADDR_TYPE_IPV4 hsi)) ;;
        if nz (next_proto_id ipv4_spec) then
          filter_upd filter (set_ip_protocol (next_proto_id ipv4_spec)) ;;
          ret (inr (or_en (if nz use_ntuple
                           then NTUPLE_FLTR_ALLOC_IN_EN_IP_PROTO hsi
                           else EM_FLOW_ALLOC_INPUT_EN_IP_PROTO hsi) lv3))
        else ret (inr lv3)
  | _, _ => ret (inr lv)
  end.

Definition parse_ipv6 (filter : nat) (use_ntuple : Z)
    (c : item_conf rte_ipv6_hdr) (lv : parse_locals)
  : M (Z + parse_locals) :=
  match spec c, mask c with
  | Some ipv6_spec, Some ipv6_mask =>
      if nz (vtc_flow ipv6_mask) || nz (payload_len ipv6_mask) ||
         nz (proto ipv6_mask) || nz (hop_limits ipv6_mask)
      then fail_with EINVAL RTE_FLOW_ERROR_TYPE_ITEM "Invalid IPv6 mask."
      else
        let lv1 :=
          if nz use_ntuple
          then or_en (Z.lor (NTUPLE_FLTR_ALLOC_INPUT_EN_SRC_IPADDR hsi)
                            (NTUPLE_FLTR_ALLOC_INPUT_EN_DST_IPADDR hsi)) lv
          else or_en (Z.lor (EM_FLOW_ALLOC_INPUT_EN_SRC_IPADDR hsi)
                            (EM_FLOW_ALLOC_INPUT_EN_DST_IPADDR hsi)) lv in
        filter_upd filter (set_src_ipaddr (v6_src_addr ipv6_spec)) ;;
        filter_upd filter (set_dst_ipaddr (v6_dst_addr ipv6_spec)) ;;
        lv2 <- (if negb (bnxt_check_zero_bytes (v6_src_addr ipv6_mask)) then
                  filter_upd filter
                    (set_src_ipaddr_mask (v6_src_addr ipv6_mask)) ;;
                  ret (or_en (if negb (nz use_ntuple) then 0
                              else NTUPLE_FLTR_ALLOC_INPUT_EN_SRC_IPADDR_MASK hsi)
                             lv1)
                else ret lv1) ;;
        lv3 <- (if negb (bnxt_check_zero_bytes (v6_dst_addr ipv6_mask)) then
                  filter_upd filter
                    (set_dst_ipaddr_mask (v6_dst_addr ipv6_mask)) ;;
                  ret (or_en (if negb (nz use_ntuple) then 0
                              else NTUPLE_FLTR_ALLOC_INPUT_EN_DST_IPADDR_MASK hsi)
                             lv2)
                else ret lv2) ;;
        filter_upd filter
          (set_ip_addr_type
             (if nz use_ntuple
              then NTUPLE_FLTR_ALLOC_INPUT_IP_ADDR_TYPE_IPV6 hsi
              else EM_FLOW_ALLOC_INPUT_IP_ADDR_TYPE_IPV6 hsi)) ;;
        ret (inr lv3)
  | _, _ => ret (inr lv)
  end.

(** The port handling shared by the TCP and UDP arms. *)
Definition parse_ports (filter : nat) (use_ntuple : Z)
    (spec_src spec_dst mask_src mask_dst : Z) (lv : parse_locals)
  : M (Z + parse_locals) :=
  filter_upd filter (set_src_port spec_src) ;;
  filter_upd filter (set_dst_port spec_dst) ;;
  let lv1 :=
    if nz use_ntuple
    then or_en (Z.lor (NTUPLE_FLTR_ALLOC_INPUT_EN_SRC_PORT hsi)
                      (NTUPLE_FLTR_ALLOC_INPUT_EN_DST_PORT hsi)) lv
    else or_en (Z.lor (EM_FLOW_ALLOC_INPUT_EN_SRC_PORT hsi)
                      (EM_FLOW_ALLOC_INPUT_EN_DST_PORT hsi)) lv in
  lv2 <- (if nz mask_dst then
            filter_upd filter (set_dst_port_mask mask_dst) ;;
            ret (or_en (if negb (nz use_ntuple) then 0
                        else NTUPLE_FLTR_ALLOC_INPUT_EN_DST_PORT_MASK hsi) lv1)
          else ret lv1) ;;
  lv3 <- (if nz mask_src then
            filter_upd filter (set_src_port_mask mask_src) ;;
            ret (or_en (if negb (nz use_ntuple) then 0
                        else NTUPLE_FLTR_ALLOC_INPUT_EN_SRC_PORT_MASK hsi) lv2)
          else ret lv2) ;;
  ret (inr lv3).

Definition parse_tcp (filter : nat) (use_ntuple : Z)
    (c : item_conf rte_tcp_hdr) (lv : parse_locals)
  : M (Z + parse_locals) :=
  match spec c, mask c with
  | Some tcp_spec, Some tcp_mask =>
      if nz (sent_seq tcp_mask) || nz (recv_ack tcp_mask) ||
         nz (data_off tcp_mask) || nz (tcp_flags tcp_mask) ||
         nz (rx_win tcp_mask) || nz (cksum tcp_mask) || nz (tcp_urp tcp_mask)
      then fail_with EINVAL RTE_FLOW_ERROR_TYPE_ITEM "Invalid TCP mask"
      else parse_ports filter use_ntuple
             (tcp_src_port tcp_spec) (tcp_dst_port tcp_spec)
             (tcp_src_port tcp_mask) (tcp_dst_port tcp_mask) lv
  | _, _ => ret (inr lv)
  end.

Definition parse_udp (filter : nat) (use_ntuple : Z)
    (c : item_conf rte_udp_hdr) (lv : parse_locals)
  : M (Z + parse_locals) :=
  match spec c, mask c with
  | Some udp_spec, Some udp_mask =>
      if nz (dgram_len udp_mask) || nz (dgram_cksum udp_mask)
      then fail_with EINVAL RTE_FLOW_ERROR_TYPE_ITEM "Invalid UDP mask"
      else parse_ports filter use_ntuple
             (udp_src_port udp_spec) (udp_dst_port udp_spec)
             (udp_src_port udp_mask) (udp_dst_port udp_mask) lv
  | _, _ => ret (inr lv)
  end.

Definition parse_vxlan (filter : nat) (c : item_conf rte_flow_item_vxlan)
    (lv : parse_locals) : M (Z + parse_locals) :=
  match spec c, mask c with
  | None, Some _ | Some _, None =>
      fail_with EINVAL RTE_FLOW_ERROR_TYPE_ITEM "Invalid VXLAN item"
  | None, None =>
      filter_upd filter
        (set_tunnel_type (CFA_NTUPLE_FILTER_ALLOC_REQ_TUNNEL_TYPE_VXLAN hsi)) ;;
      ret (inr lv)
  | Some vxlan_spec, Some vxlan_mask =>
      if nz (vxlan_rsvd1 vxlan_spec) || nz (vxlan_rsvd0_0 vxlan_spec) ||
         nz (vxlan_rsvd0_1 vxlan_spec) || nz (vxlan_rsvd0_2 vxlan_spec) ||
         negb (vxlan_flags vxlan_spec =? 0x8)
      then fail_with EINVAL RTE_FLOW_ERROR_TYPE_ITEM "Invalid VXLAN item"
      else
        let vni_masked := negb (vxlan_vni vxlan_mask =? 0xFFFFFF) in
        if vni_masked
        then fail_with EINVAL RTE_FLOW_ERROR_TYPE_ITEM "Invalid VNI mask"
        else
          filter_upd filter (set_vni (vxlan_vni vxlan_spec)) ;;
          filter_upd filter
            (set_tunnel_type
               (CFA_NTUPLE_FILTER_ALLOC_REQ_TUNNEL_TYPE_VXLAN hsi)) ;;
          ret (inr lv)
  end.

Definition parse_nvgre (filter : nat) (c : item_conf rte_flow_item_nvgre)
    (lv : parse_locals) : M (Z + parse_locals) :=
  match spec c, mask c with
  | None, Some _ | Some _, None =>
      fail_with EINVAL RTE_FLOW_ERROR_TYPE_ITEM "Invalid NVGRE item"
  | None, None =>
      filter_upd filter
        (set_tunnel_type (CFA_NTUPLE_FILTER_ALLOC_REQ_TUNNEL_TYPE_NVGRE hsi)) ;;
      ret (inr lv)
  | Some nvgre_spec, Some nvgre_mask =>
      if negb (c_k_s_rsvd0_ver nvgre_spec =? 0x2000) ||
         negb (nvgre_protocol nvgre_spec =? 0x6558)
      then fail_with EINVAL RTE_FLOW_ERROR_TYPE_ITEM "Invalid NVGRE item"
      else
        let tni_masked := negb (nvgre_tni nvgre_mask =? 0xFFFFFF) in
        if tni_masked
        then fail_with EINVAL RTE_FLOW_ERROR_TYPE_ITEM "Invalid TNI mask"
        else
          filter_upd filter (set_vni (nvgre_tni nvgre_spec)) ;;
          filter_upd filter
            (set_tunnel_type
               (CFA_NTUPLE_FILTER_ALLOC_REQ_TUNNEL_TYPE_NVGRE hsi)) ;;
          ret (inr lv)
  end.

Definition parse_gre (filter : nat) (c : item_conf rte_flow_item_gre)
    (lv : parse_locals) : M (Z + parse_locals) :=
  if xorb (is_some (spec c)) (is_some (mask c))
  then fail_with EINVAL RTE_FLOW_ERROR_TYPE_ITEM "Invalid GRE item"
  else if negb (is_some (spec c)) && negb (is_some (mask c)) then
    filter_upd filter
      (set_tunnel_type (CFA_NTUPLE_FILTER_ALLOC_REQ_TUNNEL_TYPE_IPGRE hsi)) ;;
    ret (inr lv)
  else ret (inr lv).

Definition parse_vf (attr : rte_flow_attr) (filter : nat)
    (c : item_conf rte_flow_item_vf) (lv : parse_locals)
  : M (Z + parse_locals) :=
  match spec c with
  | None => fault
  | Some vf_spec =>
      let vf := vf_id vf_spec in
      pf <- gets is_pf ;;
      nvfs <- gets max_vfs ;;
      if negb pf
      then fail_with EINVAL RTE_FLOW_ERROR_TYPE_ITEM "Configuring on a VF!"
      else if nvfs <=? vf
      then fail_with EINVAL RTE_FLOW_ERROR_TYPE_ITEM "Incorrect VF id!"
      else if negb (transfer attr)
      then fail_with ENOTSUP RTE_FLOW_ERROR_TYPE_ITEM
             "Matching VF traffic without affecting it (transfer attribute) is unsupported"
      else
        dflt_vnic <- bnxt_hwrm_func_qcfg_vf_dflt_vnic_id vf ;;
        filter_upd filter (set_mirror_vnic_id dflt_vnic) ;;
        if dflt_vnic <? 0
        then fail_with EINVAL RTE_FLOW_ERROR_TYPE_ITEM
               "Unable to get default VNIC for VF"
        else
          filter_upd filter (set_mirror_vnic_id dflt_vnic) ;;
          ret (inr (or_en (NTUPLE_FLTR_ALLOC_INPUT_EN_MIRROR_VNIC_ID hsi) lv))
  end.

(** The body of the [while] loop for one item. *)
Definition parse_item (attr : rte_flow_attr) (filter : nat)
    (use_ntuple en_ethertype : Z) (it : rte_flow_item) (lv : parse_locals)
  : M (Z + parse_locals) :=
  if item_has_last it
  then fail_with EINVAL RTE_FLOW_ERROR_TYPE_ITEM "No support for range"
  else if negb (item_has_spec it) || negb (item_has_mask it)
  then fail_with EINVAL RTE_FLOW_ERROR_TYPE_ITEM "spec/mask is NULL"
  else
    match it with
    | ITEM_ANY c => parse_any c lv
    | ITEM_ETH c => parse_eth attr filter use_ntuple en_ethertype c lv
    | ITEM_VLAN c => parse_vlan filter en_ethertype c lv
    | ITEM_IPV4 c => parse_ipv4 filter use_ntuple c lv
    | ITEM_IPV6 c => parse_ipv6 filter use_ntuple c lv
    | ITEM_TCP c => parse_tcp filter use_ntuple c lv
    | ITEM_UDP c => parse_udp filter use_ntuple c lv
    | ITEM_VXLAN c => parse_vxlan filter c lv
    | ITEM_NVGRE c => parse_nvgre filter c lv
    | ITEM_GRE c => parse_gre filter c lv
    | ITEM_VF c => parse_vf attr filter c lv
    | _ => ret (inr lv)
    end.

Fixpoint parse_items (attr : rte_flow_attr) (filter : nat)
    (use_ntuple en_ethertype : Z) (item : list rte_flow_item)
    (lv : parse_locals) : M (Z + parse_locals) :=
  match item with
  | [] => fault
  | ITEM_END :: _ => ret (inr lv)
  | it :: next =>
      lv' <~ parse_item attr filter use_ntuple en_ethertype it lv ;;
      parse_items attr filter use_ntuple en_ethertype next lv'
  end.

Definition bnxt_validate_and_parse_flow_type (attr : rte_flow_attr)
    (pattern : list rte_flow_item) (filter : nat) : M Z :=
  item <- lift_opt (bnxt_flow_non_void_item pattern) ;;
  use_ntuple <- bnxt_filter_type_check pattern ;;
  if use_ntuple <? 0 then ret use_ntuple
  else
    filter_upd filter
      (set_filter_type (if nz use_ntuple then HWRM_CFA_NTUPLE_FILTER
                        else HWRM_CFA_EM_FILTER)) ;;
    let en_ethertype :=
      if nz use_ntuple then NTUPLE_FLTR_ALLOC_INPUT_EN_ETHERTYPE hsi
      else EM_FLOW_ALLOC_INPUT_EN_ETHERTYPE hsi in
    r <- parse_items attr filter use_ntuple en_ethertype item
           {| en := 0; lv_valid_flags := 0; inner := false |} ;;
    match r with
    | inl rc => ret rc
    | inr lv =>
        filter_upd filter (set_enables (en lv)) ;;
        filter_upd filter (set_valid_flags (lv_valid_flags lv)) ;;
        ret 0
    end.

(** Parse attributes *)
Definition bnxt_flow_parse_attr (attr : rte_flow_attr) : M Z :=
  if negb (ingress attr) then
    rte_flow_error_set EINVAL RTE_FLOW_ERROR_TYPE_ATTR_INGRESS
      "Only support ingress." ;;
    e <- gets rte_errno ;; ret (- e)
  else if egress attr then
    rte_flow_error_set EINVAL RTE_FLOW_ERROR_TYPE_ATTR_EGRESS
      "No support for egress." ;;
    e <- gets rte_errno ;; ret (- e)
  else ret 0.

(** *** L2 filter sharing *)

Definition l2_fields_match (mf nf : bnxt_filter_info) : bool :=
  (ethertype mf =? ethertype nf) &&
  (l2_ovlan mf =? l2_ovlan nf) &&
  (l2_ovlan_mask mf =? l2_ovlan_mask nf) &&
  (l2_ivlan mf =? l2_ivlan nf) &&
  (l2_ivlan_mask mf =? l2_ivlan_mask nf) &&
  (src_macaddr mf =? src_macaddr nf) &&
  (dst_macaddr mf =? dst_macaddr nf).

(** [STAILQ_FOREACH(flow, &vnic->flow_list, next)] of
    [bnxt_find_matching_l2_filter]; the outer [option] is the fault. *)
Fixpoint l2_scan_flows (fi : list bnxt_filter_info) (nf : bnxt_filter_info)
    (flows : list rte_flow) : option (option nat) :=
  match flows with
  | [] => Some None
  | flow :: rest =>
      match flow_filter flow with
      | None => None
      | Some p =>
          match fi !! p with
          | None => None
          | Some mf =>
              if is_some (matching_l2_fltr_ptr mf)
              then l2_scan_flows fi nf rest
              else if l2_fields_match mf nf then Some (Some p)
              else l2_scan_flows fi nf rest
          end
      end
  end.

(** [for (i = bp->max_vnics - 1; i >= 0; i--)]: the VNICs are given last
    first. *)
Fixpoint l2_scan_vnics (fi : list bnxt_filter_info) (nf : bnxt_filter_info)
    (vnics : list bnxt_vnic_info) : option (option nat) :=
  match vnics with
  | [] => Some None
  | vnic :: rest =>
      if fw_vnic_id vnic =? INVALID_VNIC_ID hsi
      then l2_scan_vnics fi nf rest
      else match l2_scan_flows fi nf (flow_list vnic) with
           | None => None
           | Some (Some p) => Some (Some p)
           | Some None => l2_scan_vnics fi nf rest
           end
  end.

Definition bnxt_find_matching_l2_filter (nf : nat) : M (option nat) :=
  vnic0 <- read_vnic 0 ;;
  f0 <- lift_opt (head (vnic_filter vnic0)) ;;
  f0r <- read_filter f0 ;;
  nfr <- read_filter nf ;;
  (* This flow has same DST MAC as the port/l2 filter. *)
  if l2_addr f0r =? dst_macaddr nfr then ret (Some f0)
  else
    fi <- gets filter_info ;;
    vi <- gets vnic_info ;;
    lift_opt (l2_scan_vnics fi nfr (rev vi)).

Definition bnxt_create_l2_filter (nf : nat) (vnic : nat) : M (option nat) :=
  o <- bnxt_get_unused_filter ;;
  match o with
  | None => ret None
  | Some filter1 =>
      nfr <- read_filter nf ;;
      let src_valid := nz (Z.land (valid_flags nfr) (BNXT_FLOW_L2_SRC_VALID_FLAG hsi)) in
      let dst_valid := nz (Z.land (valid_flags nfr) (BNXT_FLOW_L2_DST_VALID_FLAG hsi)) in
      let isrc_valid :=
        nz (Z.land (valid_flags nfr) (BNXT_FLOW_L2_INNER_SRC_VALID_FLAG hsi)) in
      let idst_valid :=
        nz (Z.land (valid_flags nfr) (BNXT_FLOW_L2_INNER_DST_VALID_FLAG hsi)) in
      filter_upd filter1
        (set_flags (HWRM_CFA_L2_FILTER_ALLOC_INPUT_FLAGS_XDP_DISABLE hsi)) ;;
      filter_upd filter1 (fun f =>
        set_flags (Z.lor (flags f)
                     (HWRM_CFA_L2_FILTER_ALLOC_INPUT_FLAGS_PATH_RX hsi)) f) ;;
      (if src_valid || dst_valid then
         filter_upd filter1 (fun f =>
           set_flags (Z.lor (flags f)
                        (HWRM_CFA_L2_FILTER_ALLOC_INPUT_FLAGS_OUTERMOST hsi)) f)
       else ret tt) ;;
      (if filter_kind_eqb (filter_type nfr) HWRM_CFA_L2_FILTER &&
          (src_valid || isrc_valid)
       then
         filter_upd filter1 (fun f =>
           set_flags (Z.lor (flags f)
                        (HWRM_CFA_L2_FILTER_ALLOC_INPUT_FLAGS_SOURCE_VALID hsi)) f) ;;
         filter_upd filter1 (set_l2_addr (src_macaddr nfr))
       else filter_upd filter1 (set_l2_addr (dst_macaddr nfr))) ;;
      (if nz (f_priority nfr) && (dst_valid || idst_valid) then
         (* Tell the FW where to place the filter in the table. *)
         if 65535 <? f_priority nfr then
           filter_upd filter1
             (set_pri_hint
                (HWRM_CFA_L2_FILTER_ALLOC_INPUT_PRI_HINT_BELOW_FILTER hsi)) ;;
           filter_upd filter1 (set_l2_filter_id_hint UINT64_MAX)
         else ret tt
       else ret tt) ;;
      filter_upd filter1
        (set_enables (Z.lor (HWRM_CFA_L2_FILTER_ALLOC_INPUT_ENABLES_L2_ADDR hsi)
                            (L2_FILTER_ALLOC_INPUT_EN_L2_ADDR_MASK hsi))) ;;
      filter_upd filter1 (set_l2_addr_mask 0xFFFFFFFFFFFF) ;;
      vn <- read_vnic vnic ;;
      rc <- bnxt_hwrm_set_l2_filter (fw_vnic_id vn) filter1 ;;
      if nz rc then
        bnxt_free_filter filter1 ;;
        ret None
      else
        filter_upd filter1 (fun f =>
          set_l2_ref_cnt ((l2_ref_cnt f + 1) mod UINT32_MOD) f) ;;
        ret (Some filter1)
  end.

Definition bnxt_get_l2_filter (nf : nat) (vnic : nat) : M (option nat) :=
  o <- bnxt_find_matching_l2_filter nf ;;
  match o with
  | Some l2_filter =>
      filter_upd l2_filter (fun f =>
        set_l2_ref_cnt ((l2_ref_cnt f + 1) mod UINT32_MOD) f) ;;
      filter_upd nf (set_matching_l2_fltr_ptr (Some l2_filter)) ;;
      ret (Some l2_filter)
  | None =>
      l2_filter <- bnxt_create_l2_filter nf vnic ;;
      filter_upd nf (set_matching_l2_fltr_ptr None) ;;
      ret l2_filter
  end.

(** *** Receive contexts *)

Definition bnxt_vnic_prep (vnic : nat) : M Z :=
  rc <- bnxt_vnic_grp_alloc vnic ;;
  if nz rc then ret rc
  else
    rc <- bnxt_hwrm_vnic_alloc vnic ;;
    if nz rc then ret rc
    else
      modify (fun bp => set_nr_vnics (nr_vnics bp + 1) bp) ;;
      vn <- read_vnic vnic ;;
      (* RSS context is required only when there is more than one RSS ring *)
      rc <- (if 1 <? rx_queue_cnt vn then bnxt_hwrm_vnic_ctx_alloc vnic
             else ret rc) ;;
      if nz rc then ret rc
      else
        offloads <- gets rx_offloads ;;
        vnic_upd vnic
          (set_vlan_strip
             (nz (Z.land offloads (DEV_RX_OFFLOAD_VLAN_STRIP hsi)))) ;;
        rc <- bnxt_hwrm_vnic_cfg vnic ;;
        if nz rc then ret rc
        else
          bnxt_hwrm_vnic_plcmode_cfg vnic ;;
          ret rc.

(** First loop of [match_vnic_rss_cfg]: [Some true] when a requested queue
    is neither bound nor started. *)
Fixpoint rss_queues_idle (bp : bnxt) (rss : rte_flow_action_rss)
    (idx : list nat) : option bool :=
  match idx with
  | [] => Some false
  | i :: rest =>
      match rss_queue rss !! i with
      | None => None
      | Some q =>
          match array_at (rx_queues bp) q with
          | Some (Some rxq) =>
              match vnic_info bp !! rxq_vnic rxq with
              | None => None
              | Some vn =>
                  if negb (nz (rx_queue_cnt vn)) && negb (nz (rx_started rxq))
                  then Some true
                  else rss_queues_idle bp rss rest
              end
          | _ => None
          end
      end
  end.

(** Second loop: pairs [(i, j)] with
    [grp_info[rss->queue[i]].fw_grp_id == vnic->fw_grp_ids[j]]. *)
Fixpoint rss_match_row (g : Z) (grp_ids : list Z) (js : list nat)
  : option Z :=
  match js with
  | [] => Some 0
  | j :: rest =>
      match grp_ids !! j, rss_match_row g grp_ids rest with
      | Some x, Some n => Some ((if g =? x then 1 else 0) + n)
      | _, _ => None
      end
  end.
Fixpoint rss_match_count (bp : bnxt) (vn : bnxt_vnic_info)
    (rss : rte_flow_action_rss) (cnt : nat) (idx : list nat) : option Z :=
  match idx with
  | [] => Some 0
  | i :: rest =>
      match rss_queue rss !! i with
      | None => None
      | Some q =>
          match array_at (grp_info bp) q with
          | None => None
          | Some g =>
              match rss_match_row g (fw_grp_ids vn) (seq 0 cnt),
                    rss_match_count bp vn rss cnt rest with
              | Some a, Some b => Some (a + b)
              | _, _ => None
              end
          end
      end
  end.

Definition match_vnic_rss_cfg (vnic : nat) (rss : rte_flow_action_rss)
  : M Z :=
  vn <- read_vnic vnic ;;
  if negb (rx_queue_cnt vn =? rss_queue_num rss) then ret (- EINVAL)
  else
    bp <- gets (fun bp => bp) ;;
    idle <- lift_opt
      (rss_queues_idle bp rss (seq 0 (Z.to_nat (rss_queue_num rss)))) ;;
    if idle then ret (- EINVAL)
    else
      let cnt := Z.to_nat (rx_queue_cnt vn) in
      m <- lift_opt (rss_match_count bp vn rss cnt (seq 0 cnt)) ;;
      if negb (m =? rx_queue_cnt vn) then ret (- EINVAL)
      else ret 0.

Definition bnxt_update_filter_flags_en (filter filter1 : nat)
    (use_ntuple : Z) : M unit :=
  f <- read_filter filter ;;
  f1 <- read_filter filter1 ;;
  (if negb (nz use_ntuple) &&
      negb (nz (Z.land (valid_flags f)
                  (Z.lnot (Z.lor (Z.lor (Z.lor
                     (BNXT_FLOW_L2_DST_VALID_FLAG hsi)
                     (BNXT_FLOW_L2_SRC_VALID_FLAG hsi))
                     (BNXT_FLOW_L2_INNER_SRC_VALID_FLAG hsi))
                     (BNXT_FLOW_L2_INNER_DST_VALID_FLAG hsi)))))
   then
     filter_upd filter (set_flags (flags f1)) ;;
     filter_upd filter (set_enables (enables f1)) ;;
     filter_upd filter (set_filter_type HWRM_CFA_L2_FILTER) ;;
     filter_upd filter (set_l2_addr (l2_addr f1)) ;;
     filter_upd filter (set_l2_addr_mask 0xFFFFFFFFFFFF) ;;
     filter_upd filter (set_pri_hint (pri_hint f1)) ;;
     filter_upd filter (set_l2_filter_id_hint (l2_filter_id_hint f1))
   else ret tt) ;;
  filter_upd filter (set_fw_l2_filter_id (fw_l2_filter_id f1)) ;;
  filter_upd filter (set_l2_ref_cnt (l2_ref_cnt f1)).

(** *** bnxt_validate_and_parse_flow

    The function leaves through three labels.  [vnic] and [rxq] are the
    locals of those names ([None] is NULL; a queue is named by its slot in
    [rx_queues]). *)

(** [ret:] *)
Definition parse_flow_ret (vnic : option nat) (rxq : option Z) (rc : Z)
  : M Z :=
  errno <- gets rte_errno ;;
  (if nz errno then
     match vnic with
     | Some v =>
         vn <- read_vnic v ;;
         match vnic_filter vn with
         | [] => vnic_upd v (set_rx_queue_cnt 0)
         | _ :: _ => ret tt
         end
     | None => ret tt
     end ;;
     match rxq with
     | Some q =>
         match vnic with
         | None => fault
         | Some v =>
             vn <- read_vnic v ;;
             if negb (nz (rx_queue_cnt vn))
             then rxq_upd q (fun r => {| rxq_vnic := 0%nat;
                                         rx_started := rx_started r |})
             else ret tt
         end
     | None => ret tt
     end
   else ret tt) ;;
  ret rc.

(** [rte_flow_error_set(...); rc = -rte_errno; goto ret;] *)
Definition goto_ret_error (vnic : option nat) (rxq : option Z) (code : Z)
    (ty : rte_flow_error_type) (msg : string) : M Z :=
  rte_flow_error_set code ty msg ;;
  e <- gets rte_errno ;;
  parse_flow_ret vnic rxq (- e).

(** [done:] [act] points at the recognised action. *)
Definition parse_flow_done (act : list rte_flow_action) (vnic : option nat)
    (rxq : option Z) (rc : Z) : M Z :=
  act' <- lift_opt (bnxt_flow_non_void_action (tail act)) ;;
  match act' with
  | ACTION_END :: _ => ret rc
  | _ => goto_ret_error vnic rxq EINVAL RTE_FLOW_ERROR_TYPE_ACTION
           "Invalid action."
  end.

(** The statements between the [switch] and [done:]. *)
Definition parse_flow_break (filter : nat) (filter1 : option nat)
    (act : list rte_flow_action) (vnic : option nat) (rxq : option Z)
    (rc : Z) : M Z :=
  f <- read_filter filter ;;
  match filter1 with
  | Some f1 =>
      if negb (is_some (matching_l2_fltr_ptr f)) then
        bnxt_free_filter f1 ;;
        filter_upd f1 (set_fw_l2_filter_id UINT64_MAX)
      else ret tt
  | None => ret tt
  end ;;
  parse_flow_done act vnic rxq rc.

Definition read_vnic_at (i : Z) : M bnxt_vnic_info :=
  vi <- gets vnic_info ;; lift_opt (array_at vi i).

(** [use_vnic:] and [vnic_found:] *)
Definition parse_flow_use_vnic (filter : nat) (use_ntuple : Z)
    (act : list rte_flow_action) (set_pool_idx : bool) (vnic_id : Z)
    (rxq : option Z) (rc : Z) (enospc_rc : option Z) (msg : string) : M Z :=
  let v := Z.to_nat vnic_id in
  (if set_pool_idx then vnic_upd v (set_ff_pool_idx vnic_id) else ret tt) ;;
  vn <- read_vnic v ;;
  filter_upd filter (set_dst_id (fw_vnic_id vn)) ;;
  filter1 <- bnxt_get_l2_filter filter v ;;
  match filter1 with
  | None =>
      rte_flow_error_set ENOSPC RTE_FLOW_ERROR_TYPE_ACTION msg ;;
      e <- gets rte_errno ;;
      parse_flow_ret (Some v) rxq
        (match enospc_rc with Some r => r | None => - e end)
  | Some f1 =>
      bnxt_update_filter_flags_en filter f1 use_ntuple ;;
      parse_flow_break filter filter1 act (Some v) rxq rc
  end.

Definition parse_action_queue (attr : rte_flow_attr) (filter : nat)
    (use_ntuple : Z) (act : list rte_flow_action)
    (act_q : rte_flow_action_queue) (rc : Z) : M Z :=
  nr <- gets rx_nr_rings ;;
  let index := queue_index act_q in
  if negb (nz index) || (nr <=? index) then
    goto_ret_error None None EINVAL RTE_FLOW_ERROR_TYPE_ACTION
      "Invalid queue ID."
  else
    let vnic_id := if negb (nz (group attr)) then index else group attr in
    let v := Z.to_nat vnic_id in
    vn <- read_vnic_at vnic_id ;;
    if nz (rx_queue_cnt vn) then
      if negb (start_grp_id vn =? index) then
        goto_ret_error (Some v) None EINVAL RTE_FLOW_ERROR_TYPE_ACTION
          "VNIC already in use"
      else parse_flow_use_vnic filter use_ntuple act true vnic_id None rc
             None "Filter not available"
    else
      slot <- read_rxq_slot index ;;
      let rxq := match slot with Some _ => Some index | None => None end in
      mq <- gets mq_mode ;;
      if negb (nz (Z.land mq (ETH_MQ_RX_RSS hsi))) && is_some slot &&
         negb (fw_vnic_id vn =? INVALID_HW_RING_ID hsi)
      then parse_flow_use_vnic filter use_ntuple act true vnic_id rxq rc
             None "Filter not available"
      else
        in_use <- match slot with
                  | None => ret true
                  | Some _ =>
                      vnic0 <- read_vnic 0 ;;
                      g <- lift_opt (array_at (fw_grp_ids vnic0) index) ;;
                      ret (negb (g =? INVALID_HW_RING_ID hsi))
                  end ;;
        if in_use : bool then
          goto_ret_error (Some v) rxq EINVAL RTE_FLOW_ERROR_TYPE_ACTION
            "Queue invalid queue or in use"
        else
          rxq_upd index (fun _ => {| rxq_vnic := v; rx_started := 1 |}) ;;
          vnic_upd v (fun x => set_rx_queue_cnt (rx_queue_cnt x + 1) x) ;;
          vnic_upd v (set_start_grp_id index) ;;
          vnic_upd v (set_end_grp_id index) ;;
          vnic_upd v (set_func_default 0) ;;
          rc <- bnxt_vnic_prep v ;;
          if nz rc then
            goto_ret_error (Some v) rxq EINVAL RTE_FLOW_ERROR_TYPE_ACTION
              "VNIC prep fail"
          else parse_flow_use_vnic filter use_ntuple act true vnic_id rxq rc
                 None "Filter not available".

(** DROP, COUNT and plain VF redirect: an L2 filter on the default VNIC. *)
Definition parse_action_dflt_l2 (filter : nat) (act : list rte_flow_action)
    (report : bool) (enospc_rc : option Z)
    (finish : bnxt_filter_info -> bnxt_filter_info -> bnxt_filter_info)
    (rc : Z) : M Z :=
  filter1 <- bnxt_get_l2_filter filter 0 ;;
  match filter1 with
  | None =>
      (if report then
         rte_flow_error_set ENOSPC RTE_FLOW_ERROR_TYPE_ACTION
           "New filter not available" ;; ret tt
       else ret tt) ;;
      e <- gets rte_errno ;;
      parse_flow_ret None None
        (match enospc_rc with Some r => r | None => - e end)
  | Some f1 =>
      f1r <- read_filter f1 ;;
      filter_upd filter (set_fw_l2_filter_id (fw_l2_filter_id f1r)) ;;
      filter_upd filter (fun f => finish f1r f) ;;
      parse_flow_break filter filter1 act None None rc
  end.

Definition parse_action_vf (filter : nat) (act : list rte_flow_action)
    (act_vf : rte_flow_action_vf) (rc : Z) : M Z :=
  let vf := act_vf_id act_vf in
  f <- read_filter filter ;;
  if (tunnel_type f =? CFA_NTUPLE_FILTER_ALLOC_REQ_TUNNEL_TYPE_VXLAN hsi) ||
     (tunnel_type f =? CFA_NTUPLE_FILTER_ALLOC_REQ_TUNNEL_TYPE_IPGRE hsi)
  then
    (* If issued on a VF, ensure id is 0 and is trusted *)
    on_vf <- gets is_vf ;;
    trusted <- gets vf_is_trusted ;;
    if on_vf && (negb trusted || nz vf) then
      goto_ret_error None None EINVAL RTE_FLOW_ERROR_TYPE_ACTION
        "Incorrect VF"
    else
      filter_upd filter (fun x =>
        set_enables (Z.lor (enables x) (tunnel_type x)) x) ;;
      filter_upd filter (set_filter_type HWRM_CFA_TUNNEL_REDIRECT_FILTER) ;;
      parse_flow_done act None None rc
  else
    nvfs <- gets max_vfs ;;
    if nvfs <=? vf then
      goto_ret_error None None EINVAL RTE_FLOW_ERROR_TYPE_ACTION
        "Incorrect VF id!"
    else
      dflt_vnic <- bnxt_hwrm_func_qcfg_vf_dflt_vnic_id vf ;;
      filter_upd filter (set_mirror_vnic_id dflt_vnic) ;;
      if dflt_vnic <? 0 then
        goto_ret_error None None EINVAL RTE_FLOW_ERROR_TYPE_ACTION
          "Unable to get default VNIC for VF"
      else
        filter_upd filter (set_mirror_vnic_id dflt_vnic) ;;
        filter_upd filter (fun x =>
          set_enables (Z.lor (enables x)
                         (NTUPLE_FLTR_ALLOC_INPUT_EN_MIRROR_VNIC_ID hsi)) x) ;;
        parse_action_dflt_l2 filter act true (Some (- ENOSPC))
          (fun _ x => x) rc.

(** The queue-binding loop of the RSS arm.  The result is the value of
    [rxq] and whether the loop left through [goto ret]. *)
Fixpoint rss_bind_queues (v : nat) (rss : rte_flow_action_rss)
    (idx : list nat) (rxq : option Z) : M (option Z * bool) :=
  match idx with
  | [] => ret (rxq, false)
  | i :: rest =>
      q <- lift_opt (rss_queue rss !! i) ;;
      nr <- gets rx_nr_rings ;;
      bad <- (if negb (nz q) || (nr <=? q) then ret true
              else slot <- read_rxq_slot q ;; ret (negb (is_some slot))) ;;
      if bad : bool then
        rte_flow_error_set EINVAL RTE_FLOW_ERROR_TYPE_ACTION
          "Invalid queue ID for RSS" ;;
        ret (rxq, true)
      else
        vnic0 <- read_vnic 0 ;;
        g <- lift_opt (array_at (fw_grp_ids vnic0) q) ;;
        if negb (g =? INVALID_HW_RING_ID hsi) then
          rte_flow_error_set EINVAL RTE_FLOW_ERROR_TYPE_ACTION
            "Invalid queue ID for RSS" ;;
          ret (Some q, true)
        else
          rxq_upd q (fun _ => {| rxq_vnic := v; rx_started := 1 |}) ;;
          vnic_upd v (fun x => set_rx_queue_cnt (rx_queue_cnt x + 1) x) ;;
          rss_bind_queues v rss rest (Some q)
  end.

(** [vnic->fw_grp_ids[i] = bp->grp_info[rss->queue[i]].fw_grp_id;
     bp->vnic_info[0].fw_grp_ids[rss->queue[i]] = INVALID_HW_RING_ID;] *)
Fixpoint rss_take_rings (v : nat) (rss : rte_flow_action_rss)
    (idx : list nat) : M unit :=
  match idx with
  | [] => ret tt
  | i :: rest =>
      q <- lift_opt (rss_queue rss !! i) ;;
      gi <- gets grp_info ;;
      g <- lift_opt (array_at gi q) ;;
      vn <- read_vnic v ;;
      ids <- lift_opt (array_set (fw_grp_ids vn) (Z.of_nat i) g) ;;
      vnic_upd v (set_fw_grp_ids ids) ;;
      vnic0 <- read_vnic 0 ;;
      ids0 <- lift_opt
        (array_set (fw_grp_ids vnic0) q (INVALID_HW_RING_ID hsi)) ;;
      vnic_upd 0 (set_fw_grp_ids ids0) ;;
      rss_take_rings v rss rest
  end.

(** The indirection-table loops.  One pass of the inner loop writes
    [rx_queue_cnt] entries; with no bound queue the outer loop never
    advances. *)
Fixpoint rss_fill_row (grp_ids : list Z) (idx : list nat) (tbl : list Z)
    (rss_idx : Z) : option (list Z * Z) :=
  match idx with
  | [] => Some (tbl, rss_idx)
  | i :: rest =>
      match grp_ids !! i with
      | None => None
      | Some g =>
          match array_set tbl rss_idx g with
          | None => None
          | Some tbl' => rss_fill_row grp_ids rest tbl' (rss_idx + 1)
          end
      end
  end.
Fixpoint rss_fill_table (fuel : nat) (grp_ids : list Z) (cnt : nat)
    (tbl : list Z) (rss_idx : Z) : option (list Z) :=
  if HW_HASH_INDEX_SIZE hsi <=? rss_idx then Some tbl
  else match fuel with
       | O => None
       | S fuel' =>
           match rss_fill_row grp_ids (seq 0 cnt) tbl rss_idx with
           | None => None
           | Some (tbl', rss_idx') =>
               rss_fill_table fuel' grp_ids cnt tbl' rss_idx'
           end
       end.

Definition parse_action_rss (attr : rte_flow_attr) (filter : nat)
    (use_ntuple : Z) (act : list rte_flow_action)
    (rss : rte_flow_action_rss) (rc : Z) : M Z :=
  let vnic_id := group attr in
  let v := Z.to_nat vnic_id in
  if negb (nz vnic_id) then
    goto_ret_error None None EINVAL RTE_FLOW_ERROR_TYPE_ATTR
      "Group id cannot be 0"
  else
    vn <- read_vnic_at vnic_id ;;
    if nz (rx_queue_cnt vn) then
      (* Check if requested RSS config matches RSS config of VNIC only if
         it is not a fresh VNIC configuration. *)
      rc <- match_vnic_rss_cfg v rss ;;
      if nz rc then
        goto_ret_error (Some v) None EINVAL RTE_FLOW_ERROR_TYPE_ACTION
          "VNIC and RSS cfg mismatch"
      else parse_flow_use_vnic filter use_ntuple act false vnic_id None rc
             (Some (- ENOSPC)) "New filter not available"
    else
      r <- rss_bind_queues v rss (seq 0 (Z.to_nat (rss_queue_num rss))) None ;;
      let '(rxq, failed) := r in
      if failed : bool then
        e <- gets rte_errno ;;
        parse_flow_ret (Some v) rxq (- e)
      else
        q0 <- lift_opt (array_at (rss_queue rss) 0) ;;
        qn <- lift_opt (array_at (rss_queue rss) (rss_queue_num rss - 1)) ;;
        vnic_upd v (set_start_grp_id q0) ;;
        vnic_upd v (set_end_grp_id qn) ;;
        vnic_upd v (set_func_default 0) ;;
        rc <- bnxt_vnic_prep v ;;
        if nz rc then
          goto_ret_error (Some v) rxq EINVAL RTE_FLOW_ERROR_TYPE_ACTION
            "VNIC prep fail"
        else
          vnic_upd v (set_ff_pool_idx vnic_id) ;;
          (* This can be done only after vnic_grp_alloc is done. *)
          vn <- read_vnic v ;;
          rss_take_rings v rss (seq 0 (Z.to_nat (rx_queue_cnt vn))) ;;
          vn <- read_vnic v ;;
          tbl <- lift_opt
            (rss_fill_table (Z.to_nat (HW_HASH_INDEX_SIZE hsi))
               (fw_grp_ids vn) (Z.to_nat (rx_queue_cnt vn))
               (rss_table vn) 0) ;;
          vnic_upd v (set_rss_table tbl) ;;
          (* Configure RSS only if the queue count is > 1 *)
          (if 1 <? rx_queue_cnt vn then
             vnic_upd v
               (set_hash_type (bnxt_rte_to_hwrm_hash_types hsi (rss_types rss))) ;;
             (if negb (nz (rss_key_len rss)) then
                r <- call_env (call_prandom_bytes (HW_HASH_KEY_SIZE hsi)) ;;
                vnic_upd v (set_rss_hash_key (resp_bytes r))
              else
                let n := Z.to_nat (if HW_HASH_KEY_SIZE hsi <? rss_key_len rss
                                   then HW_HASH_KEY_SIZE hsi
                                   else rss_key_len rss) in
                vnic_upd v (fun x =>
                  set_rss_hash_key
                    (take n (rss_key rss) ++ drop n (rss_hash_key x)) x)) ;;
             bnxt_hwrm_vnic_rss_cfg v ;;
             ret tt
           else ret tt) ;;
          parse_flow_use_vnic filter use_ntuple act false vnic_id rxq rc
            (Some (- ENOSPC)) "New filter not available".

Definition bnxt_validate_and_parse_flow (pattern : list rte_flow_item)
    (actions : list rte_flow_action) (attr : rte_flow_attr) (filter : nat)
  : M Z :=
  act <- lift_opt (bnxt_flow_non_void_action actions) ;;
  rc <- bnxt_validate_and_parse_flow_type attr pattern filter ;;
  if nz rc then parse_flow_ret None None rc
  else
    rc <- bnxt_flow_parse_attr attr ;;
    if nz rc then parse_flow_ret None None rc
    else
      (* Since we support ingress attribute only - right now. *)
      f <- read_filter filter ;;
      (if filter_kind_eqb (filter_type f) HWRM_CFA_EM_FILTER
       then filter_upd filter
              (set_flags (HWRM_CFA_EM_FLOW_ALLOC_INPUT_FLAGS_PATH_RX hsi))
       else ret tt) ;;
      use_ntuple <- bnxt_filter_type_check pattern ;;
      match act with
      | ACTION_QUEUE act_q :: _ =>
          (* Allow this flow. Redirect to a VNIC. *)
          parse_action_queue attr filter use_ntuple act act_q rc
      | ACTION_DROP :: _ =>
          parse_action_dflt_l2 filter act false (Some (- ENOSPC))
            (fun _ x =>
               if filter_kind_eqb (filter_type x) HWRM_CFA_EM_FILTER
               then set_flags (HWRM_CFA_EM_FLOW_ALLOC_INPUT_FLAGS_DROP hsi) x
               else set_flags
                      (HWRM_CFA_NTUPLE_FILTER_ALLOC_INPUT_FLAGS_DROP hsi) x)
            rc
      | ACTION_COUNT :: _ =>
          parse_action_dflt_l2 filter act true None
            (fun _ x =>
               set_flags (HWRM_CFA_NTUPLE_FILTER_ALLOC_INPUT_FLAGS_METER hsi) x)
            rc
      | ACTION_VF act_vf :: _ => parse_action_vf filter act act_vf rc
      | ACTION_RSS rss :: _ => parse_action_rss attr filter use_ntuple act rss rc
      | _ =>
          goto_ret_error None None EINVAL RTE_FLOW_ERROR_TYPE_ACTION
            "Invalid action."
      end.

(** *** The flow table *)

Fixpoint find_vnic_from (dst : Z) (vnics : list bnxt_vnic_info) (i : nat)
  : option nat :=
  match vnics with
  | [] => None
  | vnic :: rest =>
      if negb (fw_vnic_id vnic =? INVALID_VNIC_ID hsi) &&
         (dst =? fw_vnic_id vnic)
      then Some i
      else find_vnic_from dst rest (S i)
  end.

Definition find_matching_vnic (filter : nat) : M (option nat) :=
  f <- read_filter filter ;;
  vi <- gets vnic_info ;;
  ret (find_vnic_from (dst_id f) vi 0).

(** [rte_free(vnic->fw_grp_ids)] and the HWRM calls that release a VNIC. *)
Definition bnxt_flow_validate (attr : option rte_flow_attr)
    (pattern : option (list rte_flow_item))
    (actions : option (list rte_flow_action)) : M Z :=
  rc <- bnxt_flow_args_validate attr pattern actions ;;
  if nz rc then ret rc
  else
    match attr, pattern, actions with
    | Some attr, Some pattern, Some actions =>
        o <- bnxt_get_unused_filter ;;
        match o with
        | None => ret (- ENOMEM)
        | Some filter =>
            rc <- bnxt_validate_and_parse_flow pattern actions attr filter ;;
            (if nz rc then ret tt
             else
               vnic <- find_matching_vnic filter ;;
               match vnic with
               | Some v =>
                   vn <- read_vnic v ;;
                   match vnic_filter vn with
                   | [] =>
                       free_fw_grp_ids v ;;
                       bnxt_hwrm_vnic_ctx_free v ;;
                       bnxt_hwrm_vnic_free v ;;
                       vnic_upd v (set_rx_queue_cnt 0) ;;
                       modify (fun bp => set_nr_vnics (nr_vnics bp - 1) bp)
                   | _ :: _ => ret tt
                   end
               | None => ret tt
               end ;;
               f <- read_filter filter ;;
               match filter_type f with
               | HWRM_CFA_EM_FILTER =>
                   bnxt_hwrm_clear_em_filter filter ;; ret tt
               | HWRM_CFA_NTUPLE_FILTER =>
                   bnxt_hwrm_clear_ntuple_filter filter ;; ret tt
               | _ => bnxt_hwrm_clear_l2_filter filter ;; ret tt
               end) ;;
            (* No need to hold on to this filter if we are just validating
               flow *)
            filter_upd filter (set_fw_l2_filter_id UINT64_MAX) ;;
            bnxt_free_filter filter ;;
            ret rc
        end
    | _, _, _ => fault
    end.

Definition bnxt_update_filter (old_filter new_filter : nat) : M unit :=
  nf <- read_filter new_filter ;;
  match filter_type nf with
  | HWRM_CFA_L2_FILTER =>
      bnxt_hwrm_clear_l2_filter old_filter ;;
      bnxt_hwrm_set_l2_filter (dst_id nf) new_filter ;;
      ret tt
  | HWRM_CFA_EM_FILTER => bnxt_hwrm_clear_em_filter old_filter ;; ret tt
  | HWRM_CFA_NTUPLE_FILTER =>
      bnxt_hwrm_clear_ntuple_filter old_filter ;; ret tt
  | _ => ret tt
  end.

(** The comparison of [bnxt_match_filter], destination excluded. *)
Definition filter_match (mf nf : bnxt_filter_info) : bool :=
  filter_kind_eqb (filter_type mf) (filter_type nf) &&
  (flags mf =? flags nf) &&
  (src_port mf =? src_port nf) &&
  (src_port_mask mf =? src_port_mask nf) &&
  (dst_port mf =? dst_port nf) &&
  (dst_port_mask mf =? dst_port_mask nf) &&
  (ip_protocol mf =? ip_protocol nf) &&
  (ip_addr_type mf =? ip_addr_type nf) &&
  (ethertype mf =? ethertype nf) &&
  (vni mf =? vni nf) &&
  (tunnel_type mf =? tunnel_type nf) &&
  (l2_ovlan mf =? l2_ovlan nf) &&
  (l2_ovlan_mask mf =? l2_ovlan_mask nf) &&
  (l2_ivlan mf =? l2_ivlan nf) &&
  (l2_ivlan_mask mf =? l2_ivlan_mask nf) &&
  (l2_addr mf =? l2_addr nf) &&
  (l2_addr_mask mf =? l2_addr_mask nf) &&
  (src_macaddr mf =? src_macaddr nf) &&
  (dst_macaddr mf =? dst_macaddr nf) &&
  ipaddr_eqb (src_ipaddr mf) (src_ipaddr nf) &&
  ipaddr_eqb (src_ipaddr_mask mf) (src_ipaddr_mask nf) &&
  ipaddr_eqb (dst_ipaddr mf) (dst_ipaddr nf) &&
  ipaddr_eqb (dst_ipaddr_mask mf) (dst_ipaddr_mask nf).

(** The search of [bnxt_match_filter]: the first flow, VNICs last to first
    and flows in list order, whose filter compares equal to [nf], with its
    filter.  The outer [option] is the fault. *)
Fixpoint match_scan_flows (fi : list bnxt_filter_info) (nf : bnxt_filter_info)
    (flows : list rte_flow) : option (option (rte_flow * nat)) :=
  match flows with
  | [] => Some None
  | flow :: rest =>
      match flow_filter flow with
      | None => None
      | Some p =>
          match fi !! p with
          | None => None
          | Some mf =>
              if filter_match mf nf then Some (Some (flow, p))
              else match_scan_flows fi nf rest
          end
      end
  end.

Fixpoint match_scan_vnics (fi : list bnxt_filter_info) (nf : bnxt_filter_info)
    (vnics : list (nat * bnxt_vnic_info))
  : option (option (nat * rte_flow * nat)) :=
  match vnics with
  | [] => Some None
  | (i, vnic) :: rest =>
      if fw_vnic_id vnic =? INVALID_VNIC_ID hsi
      then match_scan_vnics fi nf rest
      else match match_scan_flows fi nf (flow_list vnic) with
           | None => None
           | Some (Some (flow, p)) => Some (Some (i, flow, p))
           | Some None => match_scan_vnics fi nf rest
           end
  end.

Definition indexed {A} (l : list A) : list (nat * A) :=
  combine (seq 0 (length l)) l.

(** [flow->filter = nf] for the flow object queued on a VNIC. *)
Definition flow_set_filter (flow : rte_flow) (nf : nat)
    (flows : list rte_flow) : list rte_flow :=
  map (fun x => if flow_eqb x flow
                then {| flow_id := flow_id x;
                        flow_filter := Some nf;
                        flow_vnic := flow_vnic x |}
                else x) flows.

Definition bnxt_match_filter (nf : nat) : M Z :=
  nfr <- read_filter nf ;;
  fi <- gets filter_info ;;
  vi <- gets vnic_info ;;
  found <- lift_opt (match_scan_vnics fi nfr (rev (indexed vi))) ;;
  match found with
  | None => ret 0
  | Some (i, flow, mf) =>
      mfr <- read_filter mf ;;
      if dst_id mfr =? dst_id nfr then ret (- EEXIST)
      else
        (* Free the old filter, update flow with new filter *)
        bnxt_update_filter mf nf ;;
        vn <- read_vnic i ;;
        q <- lift_opt (stailq_remove Nat.eqb mf (vnic_filter vn)) ;;
        vnic_upd i (set_vnic_filter (stailq_insert_tail nf q)) ;;
        bnxt_free_filter mf ;;
        vnic_upd i (fun x =>
          set_flow_list (flow_set_filter flow nf (flow_list x)) x) ;;
        ret (- EXDEV)
  end.

(** [free_flow:] of [bnxt_flow_create]; the flow object is released and NULL
    returned. *)
Definition create_free_flow (rc : Z) : M (option nat) :=
  (if rc =? - EEXIST then
     rte_flow_error_set rc RTE_FLOW_ERROR_TYPE_HANDLE
       "Matching Flow exists."
   else if rc =? - EXDEV then
     rte_flow_error_set 0 RTE_FLOW_ERROR_TYPE_NONE
       "Flow with pattern exists, updating destination queue"
   else
     rte_flow_error_set (- rc) RTE_FLOW_ERROR_TYPE_HANDLE
       "Failed to create flow.") ;;
  ret None.

(** [free_filter:] *)
Definition create_free_filter (filter : nat) (rc : Z) : M (option nat) :=
  bnxt_free_filter filter ;;
  create_free_flow rc.

(** [done:] *)
Definition create_done (flow : nat) (filter : nat) (vnic : option nat)
    (rc : Z) (update_flow : bool) : M (option nat) :=
  if negb (nz rc) || update_flow then
    (* VNIC is set only in case of queue or RSS action *)
    match vnic with
    | Some v =>
        if update_flow then create_free_flow (- EXDEV)
        else
          vnic_upd v (fun x =>
            set_vnic_filter (stailq_insert_tail filter (vnic_filter x)) x) ;;
          vnic_upd v (fun x =>
            set_flow_list
              (stailq_insert_tail
                 {| flow_id := flow;
                    flow_filter := Some filter;
                    flow_vnic := vnic |} (flow_list x)) x) ;;
          ret (Some flow)
    | None => fault
    end
  else create_free_filter filter rc.

(** The part of [bnxt_flow_create] that follows [bnxt_match_filter]. *)
Definition create_install (flow : nat) (filter : nat) (rc : Z)
    (update_flow : bool) : M (option nat) :=
  f <- read_filter filter ;;
  (* If tunnel redirection to a VF/PF is specified then only tunnel_type is
     set and enable is set to the tunnel type. Issue hwrm cmd directly in
     such a case. *)
  if filter_kind_eqb (filter_type f) HWRM_CFA_TUNNEL_REDIRECT_FILTER &&
     (enables f =? tunnel_type f)
  then
    q <- bnxt_hwrm_tunnel_redirect_query ;;
    let '(rc, tun_type) := q in
    if nz rc then
      rte_flow_error_set (- rc) RTE_FLOW_ERROR_TYPE_HANDLE
        "Unable to query tunnel to VF" ;;
      create_free_filter filter rc
    else
      rc <- (if tun_type =? Z.shiftl 1 (tunnel_type f)
             then bnxt_hwrm_tunnel_redirect_free (tunnel_type f)
             else ret rc) ;;
      if nz rc then
        rte_flow_error_set (- rc) RTE_FLOW_ERROR_TYPE_HANDLE
          "Unable to free preexisting tunnel on VF" ;;
        create_free_filter filter rc
      else
        rc <- bnxt_hwrm_tunnel_redirect (tunnel_type f) ;;
        if nz rc then
          rte_flow_error_set (- rc) RTE_FLOW_ERROR_TYPE_HANDLE
            "Unable to redirect tunnel to VF" ;;
          create_free_filter filter rc
        else create_done flow filter (Some 0%nat) rc update_flow
  else
    rc <- (if filter_kind_eqb (filter_type f) HWRM_CFA_EM_FILTER then
             filter_upd filter (fun x =>
               set_enables
                 (Z.lor (enables x)
                    (HWRM_CFA_EM_FLOW_ALLOC_INPUT_ENABLES_L2_FILTER_ID hsi)) x) ;;
             bnxt_hwrm_set_em_filter (dst_id f) filter
           else ret rc) ;;
    f <- read_filter filter ;;
    rc <- (if filter_kind_eqb (filter_type f) HWRM_CFA_NTUPLE_FILTER then
             filter_upd filter (fun x =>
               set_enables
                 (Z.lor (enables x)
                    (HWRM_CFA_NTUPLE_FILTER_ALLOC_INPUT_ENABLES_L2_FILTER_ID hsi))
                 x) ;;
             bnxt_hwrm_set_ntuple_filter (dst_id f) filter
           else ret rc) ;;
    vnic <- find_matching_vnic filter ;;
    create_done flow filter vnic rc update_flow.

(** [rte_zmalloc("bnxt_flow", ...)]: a new flow object, named by a number
    never used before, or NULL. *)
Definition rte_zmalloc_flow : M (option nat) :=
  r <- call_env call_rte_zmalloc ;;
  if nz (resp_rc r) then ret None
  else
    n <- gets next_flow ;;
    modify (set_next_flow (S n)) ;;
    ret (Some n).

Definition bnxt_flow_create (attr : option rte_flow_attr)
    (pattern : option (list rte_flow_item))
    (actions : option (list rte_flow_action)) : M (option nat) :=
  on_vf <- gets is_vf ;;
  trusted <- gets vf_is_trusted ;;
  started <- gets dev_started ;;
  if on_vf && negb trusted then
    rte_flow_error_set EINVAL RTE_FLOW_ERROR_TYPE_HANDLE
      "Failed to create flow, Not a Trusted VF!" ;;
    ret None
  else if negb started then
    rte_flow_error_set EINVAL RTE_FLOW_ERROR_TYPE_UNSPECIFIED
      "Device must be started" ;;
    ret None
  else
    o <- rte_zmalloc_flow ;;
    match o with
    | None =>
        rte_flow_error_set ENOMEM RTE_FLOW_ERROR_TYPE_HANDLE
          "Failed to allocate memory" ;;
        ret None
    | Some flow =>
        rc <- bnxt_flow_args_validate attr pattern actions ;;
        if nz rc then create_free_flow rc
        else
          match attr, pattern, actions with
          | Some attr, Some pattern, Some actions =>
              o <- bnxt_get_unused_filter ;;
              match o with
              | None => create_free_flow rc
              | Some filter =>
                  rc <- bnxt_validate_and_parse_flow pattern actions attr
                          filter ;;
                  if nz rc then create_free_filter filter rc
                  else
                    rc <- bnxt_match_filter filter ;;
                    if rc =? - EEXIST then
                      (* Clear the filter that was created as part of
                         validate_and_parse_flow() above *)
                      bnxt_hwrm_clear_l2_filter filter ;;
                      create_free_filter filter rc
                    else create_install flow filter rc (rc =? - EXDEV)
              end
          | _, _, _ => fault
          end
    end.

(** *** Destroy and flush *)

Definition bnxt_handle_tunnel_redirect_destroy (filter : nat) : M Z :=
  q <- bnxt_hwrm_tunnel_redirect_query ;;
  let '(rc, tun_type) := q in
  if nz rc then
    rte_flow_error_set (- rc) RTE_FLOW_ERROR_TYPE_HANDLE
      "Unable to query tunnel to VF" ;;
    ret rc
  else
    f <- read_filter filter ;;
    if tun_type =? Z.shiftl 1 (tunnel_type f) then
      i <- bnxt_hwrm_tunnel_redirect_info (tunnel_type f) ;;
      let '(rc, tun_dst_fid) := i in
      if nz rc then
        rte_flow_error_set (- rc) RTE_FLOW_ERROR_TYPE_HANDLE
          "tunnel_redirect info cmd fail" ;;
        ret rc
      else
        fid <- gets fw_fid ;;
        first <- gets first_vf_id ;;
        (* Tunnel doesn't belong to this VF, so don't send HWRM cmd, just
           delete the flow from driver *)
        if negb (fid =? tun_dst_fid + first) then ret rc
        else bnxt_hwrm_tunnel_redirect_free (tunnel_type f)
    else ret rc.

(** The flow object behind a handle.  Flow objects live in the flow lists;
    a handle that names none of them is dangling. *)
Definition lookup_flow (bp : bnxt) (flow : nat) : option rte_flow :=
  head (filter (fun x => Nat.eqb (flow_id x) flow)
          (concat (map flow_list (vnic_info bp)))).

(** [done:] of [bnxt_flow_destroy] *)
Definition destroy_done (flow : rte_flow) (filter : nat) (rc : Z) : M Z :=
  if negb (nz rc) then
    v <- lift_opt (flow_vnic flow) ;;
    vn <- read_vnic v ;;
    q <- lift_opt (stailq_remove Nat.eqb filter (vnic_filter vn)) ;;
    vnic_upd v (set_vnic_filter q) ;;
    bnxt_free_filter filter ;;
    vn <- read_vnic v ;;
    l <- lift_opt (stailq_remove flow_eqb flow (flow_list vn)) ;;
    vnic_upd v (set_flow_list l) ;;
    (* If this was the last flow associated with this vnic, switch the queue
       back to RSS pool. *)
    match l with
    | [] =>
        free_fw_grp_ids v ;;
        vn <- read_vnic v ;;
        (if 1 <? rx_queue_cnt vn then bnxt_hwrm_vnic_ctx_free v ;; ret tt
         else ret tt) ;;
        bnxt_hwrm_vnic_free v ;;
        vnic_upd v (set_rx_queue_cnt 0) ;;
        modify (fun bp => set_nr_vnics (nr_vnics bp - 1) bp)
    | _ :: _ => ret tt
    end ;;
    ret rc
  else
    rte_flow_error_set (- rc) RTE_FLOW_ERROR_TYPE_HANDLE
      "Failed to destroy flow." ;;
    ret rc.

Definition bnxt_flow_destroy (handle : option nat) : M Z :=
  match handle with
  | None =>
      rte_flow_error_set EINVAL RTE_FLOW_ERROR_TYPE_HANDLE
        "Invalid flow: failed to destroy flow." ;;
      ret (- EINVAL)
  | Some h =>
      bp <- gets (fun bp => bp) ;;
      flow <- lift_opt (lookup_flow bp h) ;;
      match flow_filter flow with
      | None =>
          rte_flow_error_set EINVAL RTE_FLOW_ERROR_TYPE_HANDLE
            "Invalid flow: failed to destroy flow." ;;
          ret (- EINVAL)
      | Some filter =>
          f <- read_filter filter ;;
          if filter_kind_eqb (filter_type f) HWRM_CFA_TUNNEL_REDIRECT_FILTER &&
             (enables f =? tunnel_type f)
          then
            rc <- bnxt_handle_tunnel_redirect_destroy filter ;;
            if negb (nz rc) then destroy_done flow filter rc
            else ret rc
          else
            bnxt_match_filter filter ;;
            f <- read_filter filter ;;
            (if filter_kind_eqb (filter_type f) HWRM_CFA_EM_FILTER
             then bnxt_hwrm_clear_em_filter filter ;; ret tt
             else ret tt) ;;
            (if filter_kind_eqb (filter_type f) HWRM_CFA_NTUPLE_FILTER
             then bnxt_hwrm_clear_ntuple_filter filter ;; ret tt
             else ret tt) ;;
            rc <- bnxt_hwrm_clear_l2_filter filter ;;
            destroy_done flow filter rc
      end
  end.

(** [STAILQ_FOREACH(flow, &vnic->flow_list, next)] of [bnxt_flow_flush] over
    the flows queued on VNIC [i]; [Some rc] leaves the function. *)
Fixpoint flush_flows (i : nat) (flows : list rte_flow) : M (option Z) :=
  match flows with
  | [] => ret None
  | flow :: rest =>
      filter <- lift_opt (flow_filter flow) ;;
      f <- read_filter filter ;;
      r <- (if filter_kind_eqb (filter_type f) HWRM_CFA_TUNNEL_REDIRECT_FILTER &&
               (enables f =? tunnel_type f)
            then
              rc <- bnxt_handle_tunnel_redirect_destroy filter ;;
              if negb (nz rc) then ret None else ret (Some rc)
            else
              rc <- (if filter_kind_eqb (filter_type f) HWRM_CFA_EM_FILTER
                     then bnxt_hwrm_clear_em_filter filter
                     else ret 0) ;;
              rc <- (if filter_kind_eqb (filter_type f) HWRM_CFA_NTUPLE_FILTER
                     then bnxt_hwrm_clear_ntuple_filter filter
                     else if Nat.eqb i 0 then bnxt_hwrm_clear_l2_filter filter
                     else ret rc) ;;
              if nz rc then
                rte_flow_error_set (- rc) RTE_FLOW_ERROR_TYPE_HANDLE
                  "Failed to flush flow in HW." ;;
                e <- gets rte_errno ;;
                ret (Some (- e))
              else ret None) ;;
      match r with
      | Some rc => ret (Some rc)
      | None =>
          bnxt_free_filter filter ;;
          vn <- read_vnic i ;;
          l <- lift_opt (stailq_remove flow_eqb flow (flow_list vn)) ;;
          vnic_upd i (set_flow_list l) ;;
          flush_flows i rest
      end
  end.

Fixpoint flush_vnics (idx : list nat) : M Z :=
  match idx with
  | [] => ret 0
  | i :: rest =>
      vn <- read_vnic i ;;
      if fw_vnic_id vn =? INVALID_VNIC_ID hsi then flush_vnics rest
      else
        r <- flush_flows i (flow_list vn) ;;
        match r with
        | Some rc => ret rc
        | None => flush_vnics rest
        end
  end.

Definition bnxt_flow_flush : M Z :=
  n <- gets (fun bp => length (vnic_info bp)) ;;
  flush_vnics (seq 0 n).

End Driver.

(** ** A sample device

    Used to run the driver on concrete requests.  The macro values are those
    of a usual build and the environment accepts every command. *)
Module Sample.

Definition hsi : hsi_defs := {|
  RTE_BIG_ENDIAN := false;
  INVALID_VNIC_ID := 0xFFFF;
  INVALID_HW_RING_ID := 0xFFFF;
  HW_HASH_INDEX_SIZE := 128;
  HW_HASH_KEY_SIZE := 40;
  DEV_RX_OFFLOAD_VLAN_STRIP := 0x1;
  ETH_MQ_RX_RSS := 0x1;
  bnxt_rte_to_hwrm_hash_types := fun t => t;
  NTUPLE_FLTR_ALLOC_INPUT_EN_ETHERTYPE := 0x2;
  EM_FLOW_ALLOC_INPUT_EN_ETHERTYPE := 0x80;
  NTUPLE_FLTR_ALLOC_INPUT_EN_DST_MACADDR := 0x40000;
  EM_FLOW_ALLOC_INPUT_EN_DST_MACADDR := 0x10;
  NTUPLE_FLTR_ALLOC_INPUT_EN_SRC_MACADDR := 0x8;
  EM_FLOW_ALLOC_INPUT_EN_SRC_MACADDR := 0x8;
  EM_FLOW_ALLOC_INPUT_EN_OVLAN_VID := 0x20;
  NTUPLE_FLTR_ALLOC_INPUT_EN_SRC_IPADDR := 0x20;
  NTUPLE_FLTR_ALLOC_INPUT_EN_DST_IPADDR := 0x80;
  EM_FLOW_ALLOC_INPUT_EN_SRC_IPADDR := 0x100;
  EM_FLOW_ALLOC_INPUT_EN_DST_IPADDR := 0x200;
  NTUPLE_FLTR_ALLOC_INPUT_EN_SRC_IPADDR_MASK := 0x40;
  NTUPLE_FLTR_ALLOC_INPUT_EN_DST_IPADDR_MASK := 0x100;
  NTUPLE_FLTR_ALLOC_IN_EN_IP_PROTO := 0x200;
  EM_FLOW_ALLOC_INPUT_EN_IP_PROTO := 0x800;
  NTUPLE_FLTR_ALLOC_INPUT_EN_SRC_PORT := 0x400;
  NTUPLE_FLTR_ALLOC_INPUT_EN_DST_PORT := 0x1000;
  EM_FLOW_ALLOC_INPUT_EN_SRC_PORT := 0x1000;
  EM_FLOW_ALLOC_INPUT_EN_DST_PORT := 0x2000;
  NTUPLE_FLTR_ALLOC_INPUT_EN_SRC_PORT_MASK := 0x800;
  NTUPLE_FLTR_ALLOC_INPUT_EN_DST_PORT_MASK := 0x2000;
  NTUPLE_FLTR_ALLOC_INPUT_EN_MIRROR_VNIC_ID := 0x20000;
  HWRM_CFA_EM_FLOW_ALLOC_INPUT_ENABLES_L2_FILTER_ID := 0x1;
  HWRM_CFA_NTUPLE_FILTER_ALLOC_INPUT_ENABLES_L2_FILTER_ID := 0x1;
  HWRM_CFA_L2_FILTER_ALLOC_INPUT_ENABLES_L2_ADDR := 0x1;
  L2_FILTER_ALLOC_INPUT_EN_L2_ADDR_MASK := 0x2;
  BNXT_FLOW_L2_DST_VALID_FLAG := 0x4;
  BNXT_FLOW_L2_SRC_VALID_FLAG := 0x2;
  BNXT_FLOW_L2_INNER_SRC_VALID_FLAG := 0x8;
  BNXT_FLOW_L2_INNER_DST_VALID_FLAG := 0x10;
  HWRM_CFA_NTUPLE_FILTER_ALLOC_INPUT_IP_ADDR_TYPE_IPV4 := 0x4;
  HWRM_CFA_EM_FLOW_ALLOC_INPUT_IP_ADDR_TYPE_IPV4 := 0x4;
  NTUPLE_FLTR_ALLOC_INPUT_IP_ADDR_TYPE_IPV6 := 0x6;
  EM_FLOW_ALLOC_INPUT_IP_ADDR_TYPE_IPV6 := 0x6;
  CFA_NTUPLE_FILTER_ALLOC_REQ_TUNNEL_TYPE_VXLAN := 0x1;
  CFA_NTUPLE_FILTER_ALLOC_REQ_TUNNEL_TYPE_NVGRE := 0x2;
  CFA_NTUPLE_FILTER_ALLOC_REQ_TUNNEL_TYPE_IPGRE := 0x8;
  HWRM_CFA_L2_FILTER_ALLOC_INPUT_FLAGS_XDP_DISABLE := 0x40;
  HWRM_CFA_L2_FILTER_ALLOC_INPUT_FLAGS_PATH_RX := 0x1;
  HWRM_CFA_L2_FILTER_ALLOC_INPUT_FLAGS_OUTERMOST := 0x8;
  HWRM_CFA_L2_FILTER_ALLOC_INPUT_FLAGS_SOURCE_VALID := 0x80;
  HWRM_CFA_L2_FILTER_ALLOC_INPUT_PRI_HINT_BELOW_FILTER := 0x2;
  HWRM_CFA_EM_FLOW_ALLOC_INPUT_FLAGS_PATH_RX := 0x1;
  HWRM_CFA_EM_FLOW_ALLOC_INPUT_FLAGS_DROP := 0x4;
  HWRM_CFA_NTUPLE_FILTER_ALLOC_INPUT_FLAGS_DROP := 0x2;
  HWRM_CFA_NTUPLE_FILTER_ALLOC_INPUT_FLAGS_METER := 0x4 |}.

Definition ok (v : Z) : env_resp :=
  {| resp_rc := 0; resp_val := v; resp_bytes := [] |}.

(** Every command succeeds; identifiers are derived from the object named
    in the command. *)
Definition env (log : list env_call) (c : env_call) : env_resp :=
  match c with
  | call_hwrm_vnic_alloc v => ok (100 + Z.of_nat v mod 0x1000)
  | call_hwrm_set_l2_filter _ p => ok (1000 + Z.of_nat p)
  | call_hwrm_func_qcfg_vf_dflt_vnic_id vf => ok (200 + vf)
  | call_prandom_bytes n =>
      {| resp_rc := 0; resp_val := 0;
         resp_bytes := replicate (Z.to_nat n) 0x5a |}
  | _ => ok 0
  end.

Definition zero_filter : bnxt_filter_info := {|
  filter_type := HWRM_CFA_L2_FILTER; flags := 0; enables := 0;
  l2_addr := 0; l2_addr_mask := 0; src_macaddr := 0; dst_macaddr := 0;
  ethertype := 0; l2_ovlan := 0; l2_ovlan_mask := 0; l2_ivlan := 0;
  l2_ivlan_mask := 0;
  src_ipaddr := (0, 0, 0, 0); src_ipaddr_mask := (0, 0, 0, 0);
  dst_ipaddr := (0, 0, 0, 0); dst_ipaddr_mask := (0, 0, 0, 0);
  src_port := 0; src_port_mask := 0; dst_port := 0; dst_port_mask := 0;
  ip_protocol := 0; ip_addr_type := 0; vni := 0; tunnel_type := 0;
  dst_id := 0; mirror_vnic_id := 0; f_priority := 0; pri_hint := 0;
  l2_filter_id_hint := 0; valid_flags := 0; fw_l2_filter_id := UINT64_MAX;
  l2_ref_cnt := 0; matching_l2_fltr_ptr := None |}.

(** The port's own MAC filter, first on the default VNIC's filter list. *)
Definition port_mac : rte_ether_addr := 0x001122334455.
Definition port_filter : bnxt_filter_info :=
  set_l2_ref_cnt 1
    (set_fw_l2_filter_id 1000
       (set_l2_addr_mask 0xFFFFFFFFFFFF (set_l2_addr port_mac zero_filter))).

Definition unused_vnic : bnxt_vnic_info := {|
  fw_vnic_id := 0xFFFF; rx_queue_cnt := 0; start_grp_id := 0;
  end_grp_id := 0; func_default := 0; ff_pool_idx := 0; vlan_strip := false;
  fw_grp_ids := []; rss_table := replicate 128 0; rss_hash_key := replicate 40 0;
  hash_type := 0; vnic_filter := []; flow_list := [] |}.

(** The default VNIC serves ring 0; rings 1 to 3 are left to flow rules. *)
Definition default_vnic : bnxt_vnic_info :=
  set_vnic_filter [0%nat]
    (set_fw_grp_ids [10; 0xFFFF; 0xFFFF; 0xFFFF]
       (set_func_default 1
          (set_rx_queue_cnt 1 (set_fw_vnic_id 100 unused_vnic)))).

Definition no_error : rte_flow_error :=
  {| err_type := RTE_FLOW_ERROR_TYPE_NONE; err_code := 0; err_message := "" |}.

Definition bp0 : bnxt := {|
  is_pf := true; is_vf := false; vf_is_trusted := false; max_vfs := 4;
  fw_fid := 1; first_vf_id := 128; dev_started := true; rx_offloads := 0;
  mq_mode := 1; rx_nr_rings := 4; nr_vnics := 1;
  vnic_info := [default_vnic; unused_vnic; unused_vnic; unused_vnic];
  rx_queues := replicate 4 (Some {| rxq_vnic := 0%nat; rx_started := 0 |});
  grp_info := [10; 11; 12; 13];
  filter_info := port_filter :: replicate 7 zero_filter;
  free_filter_list := [1; 2; 3; 4; 5; 6; 7]%nat;
  next_flow := 0; rte_errno := 0; flow_error := no_error; env_log := [] |}.

Definition attr_in : rte_flow_attr :=
  {| group := 0; priority := 0; ingress := true; egress := false;
     transfer := false |}.

Definition conf_of {T} (s m : T) : item_conf T :=
  {| spec := Some s; last := None; mask := Some m |}.

Definition eth_dst_item (mac : rte_ether_addr) : rte_flow_item :=
  ITEM_ETH (conf_of {| eth_dst := mac; eth_src := 0; eth_type := 0 |}
                    {| eth_dst := 0xFFFFFFFFFFFF; eth_src := 0; eth_type := 0 |}).

Definition ipv4_hdr (src dst : Z) : rte_ipv4_hdr :=
  {| version_ihl := 0; type_of_service := 0; total_length := 0;
     packet_id := 0; fragment_offset := 0; time_to_live := 0;
     next_proto_id := 0; hdr_checksum := 0;
     v4_src_addr := src; v4_dst_addr := dst |}.
Definition ipv4_dst_item (dst : Z) : rte_flow_item :=
  ITEM_IPV4 (conf_of (ipv4_hdr 0 dst) (ipv4_hdr 0 0xFFFFFFFF)).

Definition queue (q : Z) : list rte_flow_action :=
  [ACTION_QUEUE {| queue_index := q |}; ACTION_END].

Definition create := bnxt_flow_create hsi env.
Definition validate := bnxt_flow_validate hsi env.
Definition destroy := bnxt_flow_destroy hsi env.
Definition flush := bnxt_flow_flush hsi env.

(** The state after a computation, [bp0] if it faults. *)
Definition state_of {A} (r : result A) : bnxt :=
  match r with Done _ bp => bp | Fault => bp0 end.
Definition value_of {A} (r : result A) : option A :=
  match r with Done a _ => Some a | Fault => None end.

End Sample.

(** * Properties *)

(** ** The filter-kind selector *)

Definition is_l2_item (it : rte_flow_item) : bool :=
  match it with
  | ITEM_ANY _ | ITEM_ETH _ | ITEM_VLAN _ => true
  | _ => false
  end.
Definition is_l34_item (it : rte_flow_item) : bool :=
  match it with
  | ITEM_IPV4 _ | ITEM_IPV6 _ | ITEM_TCP _ | ITEM_UDP _ => true
  | _ => false
  end.
Definition is_vlan_item (it : rte_flow_item) : bool :=
  match it with ITEM_VLAN _ => true | _ => false end.
Definition is_end_item (it : rte_flow_item) : bool :=
  match it with ITEM_END => true | _ => false end.

(** The pattern has an Ethernet/Any/VLAN matcher that no IPv4/IPv6/TCP/UDP
    matcher refines, that is, follows. *)
Definition plain_l2 (body : list rte_flow_item) : Prop :=
  exists pre it post,
    body = pre ++ it :: post /\
    is_l2_item it = true /\
    forallb (fun x => negb (is_l34_item x)) post = true.

Fixpoint plain_l2b (body : list rte_flow_item) : bool :=
  match body with
  | [] => false
  | it :: post =>
      (is_l2_item it && forallb (fun x => negb (is_l34_item x)) post)
      || plain_l2b post
  end.

Lemma plain_l2b_correct body : plain_l2b body = true <-> plain_l2 body.
Proof.
  induction body as [|it post IH]; simpl.
  - split; [discriminate|]. intros (pre & x & q & E & _).
    destruct pre; discriminate.
  - rewrite orb_true_iff, andb_true_iff, IH. split.
    + intros [[Hl2 Hpost] | (pre & x & q & E & Hx & Hq)].
      * exists [], it, post. auto.
      * exists (it :: pre), x, q. subst post. auto.
    + intros (pre & x & q & E & Hx & Hq). destruct pre as [|p pre].
      * simpl in E. injection E as -> ->. auto.
      * simpl in E. injection E as -> ->. right. exists pre, x, q. auto.
Qed.

(** What the loop leaves in [use_ntuple] and [has_vlan]. *)
Definition kind_after (u : Z) (body : list rte_flow_item) : Z :=
  if plain_l2b body then 0
  else if existsb is_l34_item body then 1
  else u.

Lemma filter_type_check_loop_body body rest u h :
  (u = 0 \/ u = 1) ->
  forallb (fun x => negb (is_end_item x)) body = true ->
  filter_type_check_loop (body ++ ITEM_END :: rest) u h =
  Some (kind_after u body, h || existsb is_vlan_item body).
Proof.
  revert u h. induction body as [|it body IH]; intros u h Hu Hend.
  - simpl. unfold kind_after. simpl. now rewrite orb_false_r.
  - simpl in Hend. apply andb_true_iff in Hend as [Hit Hend].
    assert (Hl : forall v, (v = 0 \/ v = 1) -> Z.lor v 1 = 1)
      by (intros v [-> | ->]; reflexivity).
    assert (K0 : forall v, (v = 0 \/ v = 1) ->
               is_l2_item it = true ->
               kind_after v (it :: body) = kind_after 0 body).
    { intros v Hv Hl2. unfold kind_after. simpl. rewrite Hl2. simpl.
      destruct (plain_l2b body) eqn:Hp.
      - now rewrite orb_true_r.
      - rewrite orb_false_r.
        destruct (forallb (fun x => negb (is_l34_item x)) body) eqn:Hf.
        + assert (existsb is_l34_item body = false) as ->.
          { apply not_true_is_false. intros He.
            apply existsb_exists in He as (x & Hin & Hx).
            rewrite forallb_forall in Hf. specialize (Hf x Hin).
            rewrite Hx in Hf. discriminate. }
          now destruct (is_l34_item it).
        + assert (existsb is_l34_item body = true) as ->.
          { apply not_false_is_true. intros He.
            apply not_true_iff_false in Hf. apply Hf.
            apply forallb_forall. intros x Hin.
            destruct (is_l34_item x) eqn:Hx; [|reflexivity].
            exfalso. apply not_true_iff_false in He. apply He.
            apply existsb_exists. eauto. }
          now rewrite orb_true_r. }
    assert (K1 : forall v, (v = 0 \/ v = 1) ->
               is_l34_item it = true -> is_l2_item it = false ->
               kind_after v (it :: body) = kind_after 1 body).
    { intros v Hv Hl34 Hl2. unfold kind_after. simpl.
      rewrite Hl2, Hl34. simpl.
      destruct (plain_l2b body); [reflexivity|].
      now destruct (existsb is_l34_item body). }
    assert (K2 : forall v,
               is_l34_item it = false -> is_l2_item it = false ->
               kind_after v (it :: body) = kind_after v body).
    { intros v Hl34 Hl2. unfold kind_after. simpl.
      now rewrite Hl2, Hl34. }
    destruct it; try discriminate Hit; simpl;
      rewrite ?(Hl u Hu), ?Z.lor_0_r, IH by auto;
      rewrite ?orb_true_r, ?orb_false_r;
      first [ rewrite (K0 u Hu) by reflexivity
            | rewrite (K1 u Hu) by reflexivity
            | rewrite (K2 u) by reflexivity ];
      try reflexivity.
Qed.

Lemma non_void_item_body body rest :
  forallb (fun x => negb (is_end_item x)) body = true ->
  exists body',
    bnxt_flow_non_void_item (body ++ ITEM_END :: rest) =
      Some (body' ++ ITEM_END :: rest) /\
    forallb (fun x => negb (is_end_item x)) body' = true /\
    plain_l2b body' = plain_l2b body /\
    (forall P : rte_flow_item -> bool,
        (forall c, P (ITEM_VOID c) = false) ->
        existsb P body' = existsb P body).
Proof.
  induction body as [|it body IH]; intros Hend.
  - exists []. simpl. auto.
  - simpl in Hend. apply andb_true_iff in Hend as [Hit Hend].
    destruct it; try discriminate Hit;
      try (eexists (_ :: _); simpl; split;
           [reflexivity | rewrite Hend; now auto]).
    destruct (IH Hend) as (body' & E & H1 & H2 & H3).
    exists body'. simpl. repeat split; auto.
    intros P HP. rewrite HP. simpl. auto.
Qed.

(** The state after [rte_flow_error_set(error, code, type, ..., msg)]. *)
Definition with_error (code : Z) (ty : rte_flow_error_type) (msg : string)
    (bp : bnxt) : bnxt :=
  set_flow_error {| err_type := ty; err_code := code; err_message := msg |}
    (set_rte_errno code bp).

Lemma bnxt_filter_type_check_eq body rest bp :
  forallb (fun x => negb (is_end_item x)) body = true ->
  bnxt_filter_type_check (body ++ ITEM_END :: rest) bp =
  (if existsb is_vlan_item body && nz (kind_after 1 body)
   then Done (- EINVAL)
          (with_error EINVAL RTE_FLOW_ERROR_TYPE_ITEM
             "Cannot use VLAN with NTUPLE" bp)
   else Done (kind_after 1 body) bp).
Proof.
  intros Hend.
  destruct (non_void_item_body body rest Hend) as (body' & E & Hend' & Hp & HP).
  unfold bnxt_filter_type_check, bind at 1, lift_opt.
  rewrite E. unfold ret at 1. unfold bind at 1.
  rewrite (filter_type_check_loop_body body' rest 1 false) by auto.
  unfold ret at 1. unfold kind_after.
  rewrite Hp, !HP by reflexivity. simpl.
  now destruct (existsb is_vlan_item body && _).
Qed.

Lemma kind_after_cases body :
  kind_after 1 body = 0 \/ kind_after 1 body = 1.
Proof.
  unfold kind_after. destruct (plain_l2b body); auto.
  destruct (existsb is_l34_item body); auto.
Qed.

(** C6. [bnxt_filter_type_check] answers "use the tuple (ntuple) match"
    (1) unless the pattern contains a plain Ethernet/Any/VLAN matcher that no
    IPv4/IPv6/TCP/UDP matcher refines, in which case it answers exact-match
    (0); and when a VLAN matcher would combine with tuple matching it
    returns the error [-EINVAL] instead of a kind. *)
Theorem bnxt_filter_type_check_kind
    (body rest : list rte_flow_item) (bp : bnxt) :
  forallb (fun x => negb (is_end_item x)) body = true ->
  (plain_l2 body ->
     bnxt_filter_type_check (body ++ ITEM_END :: rest) bp = Done 0 bp) /\
  (~ plain_l2 body -> existsb is_vlan_item body = false ->
     bnxt_filter_type_check (body ++ ITEM_END :: rest) bp = Done 1 bp) /\
  (~ plain_l2 body -> existsb is_vlan_item body = true ->
     bnxt_filter_type_check (body ++ ITEM_END :: rest) bp =
     Done (- EINVAL)
       (with_error EINVAL RTE_FLOW_ERROR_TYPE_ITEM
          "Cannot use VLAN with NTUPLE" bp)).
Proof.
  intros Hend. rewrite (bnxt_filter_type_check_eq body rest bp Hend).
  unfold kind_after.
  split; [|split].
  - intros H. apply plain_l2b_correct in H. rewrite H.
    now rewrite andb_false_r.
  - intros H Hv'. assert (plain_l2b body = false) as ->.
    { apply not_true_is_false. now rewrite plain_l2b_correct. }
    rewrite Hv'. simpl. now destruct (existsb is_l34_item body).
  - intros H Hv'. assert (Hpb : plain_l2b body = false).
    { apply not_true_is_false. now rewrite plain_l2b_correct. }
    rewrite Hpb, Hv'.
    assert (existsb is_l34_item body = true) as ->.
    { clear - Hpb Hv'. induction body as [|it body IH]; [discriminate|].
      simpl in *. apply orb_false_iff in Hpb as [H1 H2].
      destruct (is_l34_item it) eqn:E34; [reflexivity|]. simpl.
      destruct (is_vlan_item it) eqn:Ev.
      - assert (is_l2_item it = true) as Hl2 by now destruct it.
        rewrite Hl2 in H1. simpl in H1.
        apply not_false_is_true. intros He.
        apply not_true_iff_false in H1. apply H1.
        apply forallb_forall. intros x Hin.
        destruct (is_l34_item x) eqn:Hx; [|reflexivity].
        exfalso. apply not_true_iff_false in He. apply He.
        apply existsb_exists. eauto.
      - simpl in Hv'. auto. }
    reflexivity.
Qed.

Lemma bnxt_filter_type_check_kind_witness :
  let any_ip := ITEM_IPV4 (Conf None None None) in
  let any_eth := ITEM_ETH (Conf None None None) in
  let any_vlan := ITEM_VLAN (Conf None None None) in
  bnxt_filter_type_check [any_eth; ITEM_END] Sample.bp0 = Done 0 Sample.bp0 /\
  bnxt_filter_type_check [any_eth; any_ip; ITEM_END] Sample.bp0 =
    Done 1 Sample.bp0 /\
  bnxt_filter_type_check [any_vlan; any_ip; ITEM_END] Sample.bp0 =
    Done (- EINVAL)
      (with_error EINVAL RTE_FLOW_ERROR_TYPE_ITEM
         "Cannot use VLAN with NTUPLE" Sample.bp0).
Proof.
  intros any_ip any_eth any_vlan. split; [|split].
  - apply (proj1 (bnxt_filter_type_check_kind [any_eth] [] Sample.bp0 eq_refl)).
    apply plain_l2b_correct. reflexivity.
  - apply (proj1 (proj2 (bnxt_filter_type_check_kind [any_eth; any_ip] []
                           Sample.bp0 eq_refl))).
    + intros H. apply plain_l2b_correct in H. discriminate.
    + reflexivity.
  - apply (proj2 (proj2 (bnxt_filter_type_check_kind [any_vlan; any_ip] []
                           Sample.bp0 eq_refl))).
    + intros H. apply plain_l2b_correct in H. discriminate.
    + reflexivity.
Defined.

(** ** Reasoning about computations *)

(** [wp m Q bp]: from [bp], [m] returns and the result satisfies [Q];
    [wlp m Q bp]: if [m] returns from [bp], the result satisfies [Q]. *)
Definition wp {A} (m : M A) (Q : A -> bnxt -> Prop) (bp : bnxt) : Prop :=
  match m bp with Fault => False | Done a bp' => Q a bp' end.
Definition wlp {A} (m : M A) (Q : A -> bnxt -> Prop) (bp : bnxt) : Prop :=
  match m bp with Fault => True | Done a bp' => Q a bp' end.

Section Hoare.
Context {A B : Type}.
Implicit Types (m : M A) (k : A -> M B).

Lemma wp_done m Q bp : wp m Q bp <-> exists a bp', m bp = Done a bp' /\ Q a bp'.
Proof.
  unfold wp. destruct (m bp) as [|a bp']; split.
  - intros [].
  - intros (? & ? & ? & _). discriminate.
  - eauto.
  - intros (? & ? & [= <- <-] & ?). assumption.
Qed.

Lemma wlp_done m Q bp :
  wlp m Q bp <-> forall a bp', m bp = Done a bp' -> Q a bp'.
Proof.
  unfold wlp. destruct (m bp) as [|a bp']; split; auto; try discriminate.
  - intros H ? ? [= <- <-]. assumption.
Qed.

Lemma wp_wlp m Q bp : wp m Q bp -> wlp m Q bp.
Proof. unfold wp, wlp. now destruct (m bp). Qed.

Lemma wp_mono m (Q Q' : A -> bnxt -> Prop) bp :
  (forall a bp', Q a bp' -> Q' a bp') -> wp m Q bp -> wp m Q' bp.
Proof. unfold wp. destruct (m bp); auto. Qed.

Lemma wlp_mono m (Q Q' : A -> bnxt -> Prop) bp :
  (forall a bp', Q a bp' -> Q' a bp') -> wlp m Q bp -> wlp m Q' bp.
Proof. unfold wlp. destruct (m bp); auto. Qed.

Lemma wp_bind m k Q bp :
  wp m (fun a bp' => wp (k a) Q bp') bp -> wp (bind m k) Q bp.
Proof. unfold wp, bind. now destruct (m bp). Qed.

Lemma wlp_bind m k Q bp :
  wlp m (fun a bp' => wlp (k a) Q bp') bp -> wlp (bind m k) Q bp.
Proof. unfold wlp, bind. now destruct (m bp). Qed.

Lemma wp_ret (a : A) Q bp : Q a bp -> wp (ret a) Q bp.
Proof. auto. Qed.
Lemma wlp_ret (a : A) Q bp : Q a bp -> wlp (ret a) Q bp.
Proof. auto. Qed.

Lemma wp_gets (f : bnxt -> A) Q bp : Q (f bp) bp -> wp (gets f) Q bp.
Proof. auto. Qed.
Lemma wlp_gets (f : bnxt -> A) Q bp : Q (f bp) bp -> wlp (gets f) Q bp.
Proof. auto. Qed.

Lemma wlp_fault (Q : A -> bnxt -> Prop) bp : wlp fault Q bp.
Proof. exact I. Qed.

Lemma wp_lift_opt (o : option A) Q bp :
  (exists a, o = Some a /\ Q a bp) -> wp (lift_opt o) Q bp.
Proof. intros (a & -> & H). exact H. Qed.
Lemma wlp_lift_opt (o : option A) Q bp :
  (forall a, o = Some a -> Q a bp) -> wlp (lift_opt o) Q bp.
Proof. destruct o; simpl; intros H; [apply H; reflexivity | exact I]. Qed.

End Hoare.

Lemma wp_modify f (Q : unit -> bnxt -> Prop) bp :
  Q tt (f bp) -> wp (modify f) Q bp.
Proof. auto. Qed.
Lemma wlp_modify f (Q : unit -> bnxt -> Prop) bp :
  Q tt (f bp) -> wlp (modify f) Q bp.
Proof. auto. Qed.

Lemma wp_bind_cont {T U} (m : M (Z + T)) (k : T -> M (Z + U)) Q bp :
  wp m (fun x bp' => match x with
                     | inl rc => Q (inl rc) bp'
                     | inr v => wp (k v) Q bp'
                     end) bp ->
  wp (bind_cont m k) Q bp.
Proof.
  intros H. unfold bind_cont. apply wp_bind. revert H. apply wp_mono.
  intros [rc|v] bp' H; auto.
Qed.
Lemma wlp_bind_cont {T U} (m : M (Z + T)) (k : T -> M (Z + U)) Q bp :
  wlp m (fun x bp' => match x with
                      | inl rc => Q (inl rc) bp'
                      | inr v => wlp (k v) Q bp'
                      end) bp ->
  wlp (bind_cont m k) Q bp.
Proof.
  intros H. unfold bind_cont. apply wlp_bind. revert H. apply wlp_mono.
  intros [rc|v] bp' H; auto.
Qed.

Lemma wp_error_set code ty msg (Q : Z -> bnxt -> Prop) bp :
  Q (- code) (with_error code ty msg bp) ->
  wp (rte_flow_error_set code ty msg) Q bp.
Proof. auto. Qed.
Lemma wlp_error_set code ty msg (Q : Z -> bnxt -> Prop) bp :
  Q (- code) (with_error code ty msg bp) ->
  wlp (rte_flow_error_set code ty msg) Q bp.
Proof. auto. Qed.

Lemma wp_fail_with {T} code ty msg (Q : Z + T -> bnxt -> Prop) bp :
  Q (inl (- code)) (with_error code ty msg bp) ->
  wp (fail_with code ty msg) Q bp.
Proof. auto. Qed.
Lemma wlp_fail_with {T} code ty msg (Q : Z + T -> bnxt -> Prop) bp :
  Q (inl (- code)) (with_error code ty msg bp) ->
  wlp (fail_with code ty msg) Q bp.
Proof. auto. Qed.

Lemma wp_call_env env c (Q : env_resp -> bnxt -> Prop) bp :
  Q (env (env_log bp) c) (set_env_log (c :: env_log bp) bp) ->
  wp (call_env env c) Q bp.
Proof. auto. Qed.
Lemma wlp_call_env env c (Q : env_resp -> bnxt -> Prop) bp :
  Q (env (env_log bp) c) (set_env_log (c :: env_log bp) bp) ->
  wlp (call_env env c) Q bp.
Proof. auto. Qed.

(** A filter pointer is valid when it lies inside the pool. *)
Definition fvalid (p : nat) (bp : bnxt) : Prop :=
  (p < length (filter_info bp))%nat.

Lemma read_filter_eq p bp f :
  filter_info bp !! p = Some f -> read_filter p bp = Done f bp.
Proof. intros H. unfold read_filter, bind, gets, lift_opt. now rewrite H. Qed.

Lemma filter_upd_eq p g bp f :
  filter_info bp !! p = Some f ->
  filter_upd p g bp =
  Done tt (set_filter_info (<[p := g f]> (filter_info bp)) bp).
Proof.
  intros H. unfold filter_upd, bind. now rewrite (read_filter_eq _ _ _ H).
Qed.

Lemma wp_read_filter p (Q : bnxt_filter_info -> bnxt -> Prop) bp :
  fvalid p bp ->
  (forall f, filter_info bp !! p = Some f -> Q f bp) ->
  wp (read_filter p) Q bp.
Proof.
  intros Hv HQ. destruct (lookup_lt_is_Some_2 _ _ Hv) as [f Hf].
  unfold wp. rewrite (read_filter_eq _ _ _ Hf). auto.
Qed.

Lemma wp_filter_upd p g (Q : unit -> bnxt -> Prop) bp :
  fvalid p bp ->
  (forall f, filter_info bp !! p = Some f ->
     Q tt (set_filter_info (<[p := g f]> (filter_info bp)) bp)) ->
  wp (filter_upd p g) Q bp.
Proof.
  intros Hv HQ. destruct (lookup_lt_is_Some_2 _ _ Hv) as [f Hf].
  unfold wp. rewrite (filter_upd_eq _ _ _ _ Hf). auto.
Qed.

Lemma fvalid_set_filter_info p q x bp :
  fvalid p bp ->
  fvalid p (set_filter_info (<[q := x]> (filter_info bp)) bp).
Proof. unfold fvalid. simpl. now rewrite length_insert. Qed.

Lemma wlp_read_filter p (Q : bnxt_filter_info -> bnxt -> Prop) bp :
  (forall f, filter_info bp !! p = Some f -> Q f bp) ->
  wlp (read_filter p) Q bp.
Proof.
  intros HQ. unfold wlp, read_filter, bind, gets, lift_opt.
  destruct (filter_info bp !! p); simpl; auto.
Qed.

Lemma wlp_filter_upd p g (Q : unit -> bnxt -> Prop) bp :
  (forall f, filter_info bp !! p = Some f ->
     Q tt (set_filter_info (<[p := g f]> (filter_info bp)) bp)) ->
  wlp (filter_upd p g) Q bp.
Proof.
  intros HQ. unfold wlp, filter_upd, read_filter, bind, gets, lift_opt.
  destruct (filter_info bp !! p); simpl; auto.
Qed.

(** ** The field extractor: maskability *)

(** A MAC mask that is neither all-zero nor all-ones. *)
Definition partial_mac_mask (m : rte_ether_addr) : bool :=
  negb (rte_is_zero_ether_addr m) && negb (rte_is_broadcast_ether_addr m).

(** An item whose mask is outside the allow-list: a partial MAC mask, an
    ethertype mask other than 0 and 0xffff, a mask on an IPv4/IPv6 field
    other than the addresses, a mask on a TCP/UDP field other than the
    ports. *)
Definition bad_mask_item (it : rte_flow_item) : bool :=
  match it with
  | ITEM_ETH c =>
      match mask c with
      | Some m =>
          (partial_mac_mask (eth_src m) || partial_mac_mask (eth_dst m)) ||
          (nz (eth_type m) && negb (eth_type m =? 0xffff))
      | None => false
      end
  | ITEM_IPV4 c =>
      match mask c with
      | Some m =>
          nz (version_ihl m) || nz (type_of_service m) ||
          nz (total_length m) || nz (packet_id m) ||
          nz (fragment_offset m) || nz (time_to_live m) ||
          nz (next_proto_id m) || nz (hdr_checksum m)
      | None => false
      end
  | ITEM_IPV6 c =>
      match mask c with
      | Some m =>
          nz (vtc_flow m) || nz (payload_len m) || nz (proto m) ||
          nz (hop_limits m)
      | None => false
      end
  | ITEM_TCP c =>
      match mask c with
      | Some m =>
          nz (sent_seq m) || nz (recv_ack m) || nz (data_off m) ||
          nz (tcp_flags m) || nz (rx_win m) || nz (cksum m) || nz (tcp_urp m)
      | None => false
      end
  | ITEM_UDP c =>
      match mask c with
      | Some m => nz (dgram_len m) || nz (dgram_cksum m)
      | None => false
      end
  | _ => false
  end.

(** The call failed with a validation error, recorded for the caller. *)
Definition validation_error (rc : Z) (bp : bnxt) : Prop :=
  (rc = - EINVAL \/ rc = - ENOTSUP) /\
  rte_errno bp = - rc /\
  err_code (flow_error bp) = - rc.

Lemma RTE_BE16_ffff hsi : RTE_BE16 hsi 0xffff = 0xffff.
Proof. unfold RTE_BE16. now destruct (RTE_BIG_ENDIAN hsi). Qed.

Ltac solve_fvalid :=
  unfold fvalid in *; simpl; rewrite ?length_insert; assumption.

Ltac wp_step :=
  cbv beta;
  lazymatch goal with
  | |- wp (bind _ _) _ _ => apply wp_bind
  | |- wp (bind_cont _ _) _ _ => apply wp_bind_cont
  | |- wp (ret _) _ _ => apply wp_ret
  | |- wp (gets _) _ _ => apply wp_gets
  | |- wp (modify _) _ _ => apply wp_modify
  | |- wp (fail_with _ _ _) _ _ => apply wp_fail_with
  | |- wp (rte_flow_error_set _ _ _) _ _ => apply wp_error_set
  | |- wp (call_env _ _) _ _ => apply wp_call_env
  | |- wp (filter_upd _ _) _ _ =>
      apply wp_filter_upd; [solve_fvalid | intros ? _]
  | |- wp (read_filter _) _ _ =>
      apply wp_read_filter; [solve_fvalid | intros ? _]
  | |- wp (if ?c then _ else _) _ _ => destruct c eqn:?
  | |- wp (match ?x with _ => _ end) _ _ => destruct x eqn:?
  end.

Section FieldExtractor.
Variable hsi : hsi_defs.
Variable env : list env_call -> env_call -> env_resp.

Lemma parse_item_masks attr filter use_ntuple en_ethertype it lv bp :
  fvalid filter bp ->
  wp (parse_item hsi env attr filter use_ntuple en_ethertype it lv)
     (fun r bp' =>
        fvalid filter bp' /\
        match r with
        | inl rc => validation_error rc bp'
        | inr _ => bad_mask_item it = false
        end) bp.
Proof.
  intros Hv. unfold parse_item.
  destruct (item_has_last it) eqn:Hlast.
  { apply wp_fail_with. split; [solve_fvalid|]. repeat split; auto. }
  destruct (negb (item_has_spec it) || negb (item_has_mask it)) eqn:Hsm.
  { apply wp_fail_with. split; [solve_fvalid|]. repeat split; auto. }
  apply orb_false_iff in Hsm as [Hs Hm].
  apply negb_false_iff in Hs, Hm.
  destruct it; try (apply wp_ret; split; [assumption | reflexivity]);
    destruct c as [[s|] l [m|]]; try discriminate Hs; try discriminate Hm;
    clear Hs Hm Hlast.
  - (* ANY *) unfold parse_any. simpl. apply wp_ret. auto.
  - (* VF *)
    unfold parse_vf, bnxt_hwrm_func_qcfg_vf_dflt_vnic_id. simpl.
    repeat wp_step; (split; [solve_fvalid|]);
      first [reflexivity | repeat split; auto].
  - (* ETH *)
    unfold parse_eth. simpl. rewrite RTE_BE16_ffff.
    repeat wp_step; (split; [solve_fvalid|]);
      try (repeat split; auto; fail).
    all: unfold partial_mac_mask;
      repeat match goal with
             | H : ?x = _ |- context [?x] => rewrite H
             end;
      repeat match goal with
             | H : context [rte_is_zero_ether_addr ?a] |- _ =>
                 destruct (rte_is_zero_ether_addr a)
             | H : context [?a =? 65535] |- _ => destruct (a =? 65535)
             end;
      simpl in *; congruence.
  - (* VLAN *)
    unfold parse_vlan. simpl.
    repeat wp_step; (split; [solve_fvalid|]);
      first [reflexivity | repeat split; auto].
  - (* IPV4 *)
    unfold parse_ipv4. simpl.
    repeat wp_step; (split; [solve_fvalid|]);
      first [assumption | repeat split; auto].
  - (* IPV6 *)
    unfold parse_ipv6. simpl.
    repeat wp_step; (split; [solve_fvalid|]);
      first [assumption | repeat split; auto].
  - (* TCP *)
    unfold parse_tcp, parse_ports. simpl.
    repeat wp_step; (split; [solve_fvalid|]);
      first [assumption | repeat split; auto].
  - (* UDP *)
    unfold parse_udp, parse_ports. simpl.
    repeat wp_step; (split; [solve_fvalid|]);
      first [assumption | repeat split; auto].
  - (* VXLAN *)
    unfold parse_vxlan. simpl.
    repeat wp_step; (split; [solve_fvalid|]);
      first [reflexivity | repeat split; auto].
  - (* NVGRE *)
    unfold parse_nvgre. simpl.
    repeat wp_step; (split; [solve_fvalid|]);
      first [reflexivity | repeat split; auto].
  - (* GRE *)
    unfold parse_gre. simpl. apply wp_ret. auto.
Qed.

Lemma parse_items_cons attr filter use_ntuple en_ethertype it next lv :
  is_end_item it = false ->
  parse_items hsi env attr filter use_ntuple en_ethertype (it :: next) lv =
  bind_cont (parse_item hsi env attr filter use_ntuple en_ethertype it lv)
    (fun lv' =>
       parse_items hsi env attr filter use_ntuple en_ethertype next lv').
Proof. destruct it; intros H; try discriminate H; reflexivity. Qed.

Lemma parse_items_masks attr filter use_ntuple en_ethertype body rest :
  forall lv bp,
  forallb (fun x => negb (is_end_item x)) body = true ->
  fvalid filter bp ->
  wp (parse_items hsi env attr filter use_ntuple en_ethertype
        (body ++ ITEM_END :: rest) lv)
     (fun r bp' =>
        fvalid filter bp' /\
        match r with
        | inl rc => validation_error rc bp'
        | inr _ => existsb bad_mask_item body = false
        end) bp.
Proof.
  induction body as [|it body IH]; intros lv bp Hend Hv.
  - simpl. apply wp_ret. auto.
  - simpl in Hend. apply andb_true_iff in Hend as [Hit Hend].
    apply negb_true_iff in Hit.
    simpl app. rewrite parse_items_cons by assumption.
    apply wp_bind_cont.
    eapply wp_mono; [|apply parse_item_masks; assumption].
    intros [rc|lv'] bp' [Hv' H]; [auto|].
    eapply wp_mono; [|apply IH; assumption].
    intros [rc|lv''] bp'' [Hv'' H']; [auto|].
    split; [assumption|]. simpl. now rewrite H, H'.
Qed.

Lemma bad_mask_item_void c : bad_mask_item (ITEM_VOID c) = false.
Proof. reflexivity. Qed.

Lemma parse_flow_type_masks attr filter body rest bp :
  forallb (fun x => negb (is_end_item x)) body = true ->
  existsb bad_mask_item body = true ->
  fvalid filter bp ->
  wp (bnxt_validate_and_parse_flow_type hsi env attr
        (body ++ ITEM_END :: rest) filter)
     (fun rc bp' => fvalid filter bp' /\ validation_error rc bp') bp.
Proof.
  intros Hend Hbad Hv. unfold bnxt_validate_and_parse_flow_type.
  destruct (non_void_item_body body rest Hend) as (body' & E & Hend' & _ & HP).
  rewrite E. apply wp_bind. apply wp_ret. apply wp_bind.
  unfold wp at 1. rewrite (bnxt_filter_type_check_eq body rest bp Hend).
  destruct (existsb is_vlan_item body && nz (kind_after 1 body)).
  { apply wp_ret. split; [solve_fvalid|]. repeat split; auto. }
  assert ((kind_after 1 body <? 0) = false) as ->
    by (destruct (kind_after_cases body) as [-> | ->]; reflexivity).
  repeat wp_step.
  eapply wp_mono; [|apply parse_items_masks; [assumption | solve_fvalid]].
  intros [rc|lv] bp' [Hv' H].
  - apply wp_ret. auto.
  - rewrite (HP bad_mask_item bad_mask_item_void), Hbad in H. discriminate.
Qed.

Lemma filter_upd_invalid p g bp : ~ fvalid p bp -> filter_upd p g bp = Fault.
Proof.
  intros H. unfold filter_upd, read_filter, bind, gets, lift_opt.
  rewrite (proj2 (lookup_ge_None (filter_info bp) p)); [reflexivity|].
  unfold fvalid in H. lia.
Qed.

Lemma parse_flow_type_masks_nonzero attr filter body rest bp :
  forallb (fun x => negb (is_end_item x)) body = true ->
  existsb bad_mask_item body = true ->
  wlp (bnxt_validate_and_parse_flow_type hsi env attr
         (body ++ ITEM_END :: rest) filter)
      (fun rc _ => rc <> 0) bp.
Proof.
  intros Hend Hbad.
  destruct (lt_dec filter (length (filter_info bp))) as [Hv | Hv].
  - apply wp_wlp.
    eapply wp_mono;
      [|apply (parse_flow_type_masks attr filter body rest bp Hend Hbad Hv)].
    intros rc bp' [_ ([-> | ->] & _)]; discriminate.
  - unfold bnxt_validate_and_parse_flow_type.
    destruct (non_void_item_body body rest Hend) as (body' & E & _).
    rewrite E. apply wlp_bind. apply wlp_ret. apply wlp_bind.
    unfold wlp at 1. rewrite (bnxt_filter_type_check_eq body rest bp Hend).
    destruct (existsb is_vlan_item body && nz (kind_after 1 body)).
    { apply wlp_ret. discriminate. }
    assert ((kind_after 1 body <? 0) = false) as ->
      by (destruct (kind_after_cases body) as [-> | ->]; reflexivity).
    apply wlp_bind. unfold wlp at 1.
    now rewrite filter_upd_invalid.
Qed.

End FieldExtractor.

Lemma parse_flow_ret_none rc bp : parse_flow_ret None None rc bp = Done rc bp.
Proof.
  unfold parse_flow_ret, bind, gets. now destruct (nz (rte_errno bp)).
Qed.

Ltac wlp_step :=
  cbv beta;
  lazymatch goal with
  | |- wlp (bind _ _) _ _ => apply wlp_bind
  | |- wlp (bind_cont _ _) _ _ => apply wlp_bind_cont
  | |- wlp (ret _) _ _ => apply wlp_ret
  | |- wlp (gets _) _ _ => apply wlp_gets
  | |- wlp (modify _) _ _ => apply wlp_modify
  | |- wlp fault _ _ => apply wlp_fault
  | |- wlp (lift_opt _) _ _ => apply wlp_lift_opt; intros ? ?
  | |- wlp (fail_with _ _ _) _ _ => apply wlp_fail_with
  | |- wlp (rte_flow_error_set _ _ _) _ _ => apply wlp_error_set
  | |- wlp (call_env _ _) _ _ => apply wlp_call_env
  | |- wlp (filter_upd _ _) _ _ => apply wlp_filter_upd; intros ? ?
  | |- wlp (read_filter _) _ _ => apply wlp_read_filter; intros ? ?
  | |- wlp (if ?c then _ else _) _ _ => destruct c eqn:?
  | |- wlp (match ?x with _ => _ end) _ _ => destruct x eqn:?
  end.

(** A rejected compilation is never a successful validation. *)
Lemma validate_of_rejected hsi env attr pattern actions bp :
  (forall filter bp1,
     wlp (bnxt_validate_and_parse_flow hsi env pattern actions attr filter)
         (fun rc _ => rc <> 0) bp1) ->
  wlp (bnxt_flow_validate hsi env (Some attr) (Some pattern) (Some actions))
      (fun rc _ => rc <> 0) bp.
Proof.
  intros H. unfold bnxt_flow_validate, bnxt_flow_args_validate. simpl.
  unfold bnxt_get_unused_filter.
  apply wlp_bind, wlp_ret. simpl.
  apply wlp_bind, wlp_bind, wlp_gets.
  destruct (free_filter_list bp) as [|filter fl].
  { apply wlp_ret, wlp_ret. discriminate. }
  apply wlp_bind, wlp_modify, wlp_ret.
  apply wlp_bind. eapply wlp_mono; [|apply H].
  intros rc bp1 Hrc. simpl.
  assert (nz rc = true) as ->.
  { unfold nz. apply negb_true_iff, Z.eqb_neq. assumption. }
  unfold bnxt_free_filter.
  repeat wlp_step. assumption.
Qed.

(** C4. A pattern that contains, before its end marker, a matcher with a
    partial MAC mask, an ethertype mask other than 0 and 0xffff, a mask on
    an IPv4/IPv6 field other than the addresses or a mask on a TCP/UDP field
    other than the ports is rejected by the field extractor with a validation
    error; consequently [validate] never accepts such a pattern. *)
Theorem partial_mask_rejected hsi env attr body rest filter it bp :
  forallb (fun x => negb (is_end_item x)) body = true ->
  In it body ->
  bad_mask_item it = true ->
  (fvalid filter bp ->
   exists rc bp',
     bnxt_validate_and_parse_flow_type hsi env attr
       (body ++ ITEM_END :: rest) filter bp = Done rc bp' /\
     validation_error rc bp') /\
  (forall actions bp',
     bnxt_flow_validate hsi env (Some attr) (Some (body ++ ITEM_END :: rest))
       (Some actions) bp <> Done 0 bp').
Proof.
  intros Hend Hin Hbad.
  assert (Hex : existsb bad_mask_item body = true)
    by (apply existsb_exists; eauto).
  split.
  - intros Hv.
    pose proof (parse_flow_type_masks hsi env attr filter body rest bp
                  Hend Hex Hv) as H.
    apply wp_done in H as (rc & bp' & E & _ & H). eauto.
  - intros actions bp' E.
    assert (H : wlp (bnxt_flow_validate hsi env (Some attr)
                       (Some (body ++ ITEM_END :: rest)) (Some actions))
                    (fun rc _ => rc <> 0) bp).
    { apply validate_of_rejected. intros f bp1.
      unfold bnxt_validate_and_parse_flow.
      apply wlp_bind, wlp_lift_opt. intros act _.
      apply wlp_bind.
      eapply wlp_mono; [|apply parse_flow_type_masks_nonzero; assumption].
      intros rc bp2 Hrc. simpl.
      assert (nz rc = true) as ->.
      { unfold nz. apply negb_true_iff, Z.eqb_neq. assumption. }
      unfold wlp. now rewrite parse_flow_ret_none. }
    unfold wlp in H. rewrite E in H. now apply H.
Qed.

Lemma partial_mask_rejected_witness :
  let half_mac :=
    ITEM_ETH (Sample.conf_of
                {| eth_dst := 0x00AABBCCDDEE; eth_src := 0; eth_type := 0 |}
                {| eth_dst := 0xFFFFFF000000; eth_src := 0; eth_type := 0 |}) in
  (exists rc bp',
     bnxt_validate_and_parse_flow_type Sample.hsi Sample.env Sample.attr_in
       [half_mac; ITEM_END] 1%nat Sample.bp0 = Done rc bp' /\
     validation_error rc bp') /\
  (forall actions bp',
     bnxt_flow_validate Sample.hsi Sample.env (Some Sample.attr_in)
       (Some [half_mac; ITEM_END]) (Some actions) Sample.bp0 <> Done 0 bp').
Proof.
  intros half_mac.
  pose proof (partial_mask_rejected Sample.hsi Sample.env Sample.attr_in
                [half_mac] [] 1%nat half_mac Sample.bp0 eq_refl
                (or_introl eq_refl) eq_refl) as [H1 H2].
  split; [apply H1; unfold fvalid; simpl; lia | exact H2].
Defined.

(** ** Tunnel matchers *)

Definition is_tunnel_item (it : rte_flow_item) : bool :=
  match it with
  | ITEM_VXLAN _ | ITEM_NVGRE _ | ITEM_GRE _ => true
  | _ => false
  end.

(** C5 (what the code does). A tunnel matcher whose spec and mask are both
    absent never reaches its arm of the switch: the check made for every
    item rejects it with "spec/mask is NULL", and no tunnel type is
    recorded. *)
Theorem tunnel_item_without_spec_rejected hsi env attr filter use_ntuple
    en_ethertype it lv bp :
  is_tunnel_item it = true ->
  item_has_spec it = false ->
  item_has_mask it = false ->
  item_has_last it = false ->
  parse_item hsi env attr filter use_ntuple en_ethertype it lv bp =
  Done (inl (- EINVAL))
    (with_error EINVAL RTE_FLOW_ERROR_TYPE_ITEM "spec/mask is NULL" bp).
Proof.
  intros _ Hs Hm Hl. unfold parse_item. rewrite Hl, Hs. reflexivity.
Qed.

Lemma tunnel_item_without_spec_rejected_witness :
  parse_item Sample.hsi Sample.env Sample.attr_in 1%nat 1 0x2
    (ITEM_VXLAN (Conf None None None))
    {| en := 0; lv_valid_flags := 0; inner := false |} Sample.bp0 =
  Done (inl (- EINVAL))
    (with_error EINVAL RTE_FLOW_ERROR_TYPE_ITEM "spec/mask is NULL"
       Sample.bp0).
Proof.
  apply tunnel_item_without_spec_rejected; reflexivity.
Defined.

(** The whole pipeline on the pattern [VXLAN (no spec, no mask); END] with a
    redirect to VF 0: the extractor fails and the filter keeps the tunnel
    type it had. *)
Example vxlan_protocol_item_rejected :
  let pattern := [ITEM_VXLAN (Conf None None None); ITEM_END] in
  let r := bnxt_validate_and_parse_flow_type Sample.hsi Sample.env
             Sample.attr_in pattern 1%nat Sample.bp0 in
  Sample.value_of r = Some (- EINVAL) /\
  err_message (flow_error (Sample.state_of r)) = "spec/mask is NULL" /\
  (tunnel_type <$> filter_info (Sample.state_of r) !! 1%nat) = Some 0 /\
  Sample.value_of
    (Sample.validate (Some Sample.attr_in) (Some pattern)
       (Some [ACTION_VF {| act_vf_id := 0 |}; ACTION_END]) Sample.bp0) =
  Some (- EINVAL).
Proof. vm_compute. repeat split; reflexivity. Qed.

(** ** Queue 0 is never a flow destination *)

Lemma wlp_any {A} (m : M A) (Q : A -> bnxt -> Prop) bp :
  (forall a bp', Q a bp') -> wlp m Q bp.
Proof. intros H. unfold wlp. destruct (m bp); auto. Qed.

Lemma nz_true rc : nz rc = true <-> rc <> 0.
Proof. unfold nz. now rewrite negb_true_iff, Z.eqb_neq. Qed.

Lemma nz_false rc : nz rc = false <-> rc = 0.
Proof. unfold nz. now rewrite negb_false_iff, Z.eqb_eq. Qed.

(** The selector reads the pattern only. *)
Lemma bnxt_filter_type_check_pure pattern bp u bp' :
  bnxt_filter_type_check pattern bp = Done u bp' ->
  0 <= u ->
  forall bp2, bnxt_filter_type_check pattern bp2 = Done u bp2.
Proof.
  unfold bnxt_filter_type_check, bind, lift_opt.
  destruct (bnxt_flow_non_void_item pattern) as [item|]; [|discriminate].
  simpl. destruct (filter_type_check_loop item 1 false) as [[v h]|];
    [|discriminate].
  simpl. destruct (h && nz v).
  - intros [= <- _] H. unfold EINVAL in H. lia.
  - intros [= <- _] _ bp2. reflexivity.
Qed.

Section QueueZero.
Variable hsi : hsi_defs.
Variable env : list env_call -> env_call -> env_resp.

Lemma parse_items_fvalid attr filter use_ntuple en_ethertype items :
  forall lv bp,
  fvalid filter bp ->
  wlp (parse_items hsi env attr filter use_ntuple en_ethertype items lv)
      (fun _ bp' => fvalid filter bp') bp.
Proof.
  induction items as [|it next IH]; intros lv bp Hv.
  - exact I.
  - destruct (is_end_item it) eqn:Hend.
    + destruct it; try discriminate Hend. apply wlp_ret. assumption.
    + rewrite parse_items_cons by assumption.
      apply wlp_bind_cont, wp_wlp.
      eapply wp_mono; [|apply parse_item_masks; assumption].
      intros [rc|lv'] bp' [Hv' _]; [assumption|]. now apply IH.
Qed.

Lemma parse_flow_type_success attr pattern filter bp bp1 :
  bnxt_validate_and_parse_flow_type hsi env attr pattern filter bp =
    Done 0 bp1 ->
  fvalid filter bp1 /\
  exists u, forall bp2, bnxt_filter_type_check pattern bp2 = Done u bp2.
Proof.
  unfold bnxt_validate_and_parse_flow_type. unfold bind at 1, lift_opt.
  destruct (bnxt_flow_non_void_item pattern) as [item|]; [|discriminate].
  unfold ret at 1. unfold bind at 1.
  destruct (bnxt_filter_type_check pattern bp) as [|u bpu] eqn:Hu;
    [discriminate|].
  destruct (u <? 0) eqn:Hneg.
  { intros [= -> _]. discriminate. }
  apply Z.ltb_ge in Hneg.
  pose proof (bnxt_filter_type_check_pure _ _ _ _ Hu Hneg) as Hpure.
  rewrite Hpure in Hu. injection Hu as <-.
  intros H. split; [|eauto].
  destruct (lt_dec filter (length (filter_info bp))) as [Hv|Hv].
  - revert H. unfold bind at 1.
    destruct (filter_upd _ _ bp) as [|[] bp2] eqn:Hupd; [discriminate|].
    assert (Hv2 : fvalid filter bp2).
    { destruct (lookup_lt_is_Some_2 _ _ Hv) as [f Hf].
      rewrite (filter_upd_eq _ _ _ _ Hf) in Hupd. injection Hupd as <-.
      solve_fvalid. }
    unfold bind at 1.
    pose proof (parse_items_fvalid attr filter u
                  (if nz u then NTUPLE_FLTR_ALLOC_INPUT_EN_ETHERTYPE hsi
                   else EM_FLOW_ALLOC_INPUT_EN_ETHERTYPE hsi) item
                  {| en := 0; lv_valid_flags := 0; inner := false |}
                  bp2 Hv2) as Hitems.
    unfold wlp in Hitems.
    destruct (parse_items _ _ _ _ _ _ _ _ bp2) as [|[rc|lv] bp3];
      [discriminate| |].
    + intros [= _ <-]. assumption.
    + intros H.
      assert (Hw : wp (bind (filter_upd filter (set_enables (en lv)))
                         (fun _ => bind (filter_upd filter
                                           (set_valid_flags (lv_valid_flags lv)))
                                     (fun _ => ret 0)))
                      (fun _ bp' => fvalid filter bp') bp3).
      { repeat wp_step. solve_fvalid. }
      unfold wp in Hw. rewrite H in Hw. assumption.
  - unfold bind at 1 in H.
    rewrite filter_upd_invalid in H by assumption. discriminate.
Qed.

Lemma parse_queue_zero_nonzero attr pattern actions rest filter bp :
  bnxt_flow_non_void_action actions =
    Some (ACTION_QUEUE {| queue_index := 0 |} :: rest) ->
  wlp (bnxt_validate_and_parse_flow hsi env pattern actions attr filter)
      (fun rc _ => rc <> 0) bp.
Proof.
  intros Hact. unfold bnxt_validate_and_parse_flow. rewrite Hact.
  apply wlp_bind, wlp_ret. apply wlp_bind, wlp_any. intros rc bp1.
  destruct (nz rc) eqn:Hrc.
  { unfold wlp. rewrite parse_flow_ret_none. now apply nz_true. }
  unfold bnxt_flow_parse_attr.
  assert (Hq : forall rc' bp',
    wlp (bind (read_filter filter)
          (fun f =>
           bind (if filter_kind_eqb (filter_type f) HWRM_CFA_EM_FILTER
                 then filter_upd filter
                        (set_flags (HWRM_CFA_EM_FLOW_ALLOC_INPUT_FLAGS_PATH_RX hsi))
                 else ret tt)
             (fun _ =>
              bind (bnxt_filter_type_check pattern)
                (fun use_ntuple =>
                 parse_action_queue hsi env attr filter use_ntuple
                   (ACTION_QUEUE {| queue_index := 0 |} :: rest)
                   {| queue_index := 0 |} rc'))))
        (fun rc _ => rc <> 0) bp').
  { intros rc' bp'. repeat wlp_step.
    all: apply wlp_any; intros u bp2; unfold parse_action_queue;
      apply wlp_bind, wlp_gets; simpl; unfold goto_ret_error;
      repeat wlp_step; unfold wlp; rewrite parse_flow_ret_none;
      discriminate. }
  destruct (negb (ingress attr)); [|destruct (egress attr)].
  - apply wlp_bind, wlp_bind, wlp_error_set, wlp_bind, wlp_gets, wlp_ret.
    cbv beta. change (nz _) with true. cbv iota.
    unfold wlp. rewrite parse_flow_ret_none. discriminate.
  - apply wlp_bind, wlp_bind, wlp_error_set, wlp_bind, wlp_gets, wlp_ret.
    cbv beta. change (nz _) with true. cbv iota.
    unfold wlp. rewrite parse_flow_ret_none. discriminate.
  - apply wlp_bind, wlp_ret. simpl. apply Hq.
Qed.

Lemma parse_queue_zero_invalid attr pattern actions rest filter bp bp1 :
  bnxt_flow_non_void_action actions =
    Some (ACTION_QUEUE {| queue_index := 0 |} :: rest) ->
  bnxt_validate_and_parse_flow_type hsi env attr pattern filter bp =
    Done 0 bp1 ->
  ingress attr = true ->
  egress attr = false ->
  exists bp2,
    bnxt_validate_and_parse_flow hsi env pattern actions attr filter bp =
    Done (- EINVAL)
      (with_error EINVAL RTE_FLOW_ERROR_TYPE_ACTION "Invalid queue ID." bp2).
Proof.
  intros Hact Hty Hin Heg.
  destruct (parse_flow_type_success _ _ _ _ _ Hty) as (Hv & u & Hu).
  destruct (lookup_lt_is_Some_2 _ _ Hv) as [f Hf].
  unfold bnxt_validate_and_parse_flow. rewrite Hact.
  unfold bind at 1, lift_opt, ret at 1. unfold bind at 1. rewrite Hty.
  simpl. unfold bnxt_flow_parse_attr. rewrite Hin, Heg. simpl.
  unfold bind at 1, ret at 1. simpl.
  unfold bind at 1. rewrite (read_filter_eq _ _ _ Hf).
  set (m := if filter_kind_eqb (filter_type f) HWRM_CFA_EM_FILTER
            then _ else _).
  assert (Hm : exists bp2, m bp1 = Done tt bp2).
  { subst m. destruct (filter_kind_eqb _ _).
    - rewrite (filter_upd_eq _ _ _ _ Hf). eauto.
    - eauto. }
  destruct Hm as (bp2 & Hm). unfold bind at 1. rewrite Hm.
  unfold bind at 1. rewrite Hu.
  exists bp2. unfold parse_action_queue, bind at 1, gets. simpl.
  unfold goto_ret_error, bind, rte_flow_error_set, modify, gets, ret.
  simpl. rewrite parse_flow_ret_none. reflexivity.
Qed.

Lemma create_of_rejected attr pattern actions bp :
  (forall filter bp1,
     wlp (bnxt_validate_and_parse_flow hsi env pattern actions attr filter)
         (fun rc _ => rc <> 0) bp1) ->
  wlp (bnxt_flow_create hsi env (Some attr) (Some pattern) (Some actions))
      (fun r _ => r = None) bp.
Proof.
  intros H. unfold bnxt_flow_create, rte_zmalloc_flow,
    bnxt_flow_args_validate, bnxt_get_unused_filter, create_free_flow.
  simpl.
  do 3 (apply wlp_bind, wlp_gets).
  destruct (is_vf bp && negb (vf_is_trusted bp)); [repeat wlp_step; reflexivity|].
  destruct (negb (dev_started bp)); [repeat wlp_step; reflexivity|].
  apply wlp_bind, wlp_bind, wlp_call_env.
  destruct (nz _); [repeat wlp_step; reflexivity|].
  do 6 wlp_step. simpl.
  apply wlp_bind, wlp_bind, wlp_gets.
  destruct (free_filter_list _) as [|filter fl];
    [repeat wlp_step; reflexivity|].
  apply wlp_bind, wlp_modify, wlp_ret.
  apply wlp_bind. eapply wlp_mono; [|apply H].
  intros rc bp1 Hrc. simpl. apply nz_true in Hrc. rewrite Hrc.
  unfold create_free_filter, create_free_flow, bnxt_free_filter.
  repeat wlp_step; reflexivity.
Qed.

End QueueZero.



(** ** Scenarios on the sample device *)

Module Scenario.
Import Sample.

Definition mac1 : rte_ether_addr := 0x00AABBCCDDEE.

(** One rule installed: Ethernet destination [mac1] to queue 1. *)
Definition one_flow : bnxt :=
  state_of (create (Some attr_in) (Some [eth_dst_item mac1; ITEM_END])
              (Some (queue 1)) bp0).

Definition flow_ids (bp : bnxt) : list (list nat) :=
  map (fun v => map flow_id (flow_list v)) (vnic_info bp).
Definition ref_cnt (bp : bnxt) (p : nat) : option Z :=
  l2_ref_cnt <$> filter_info bp !! p.
Definition vnic_hw (bp : bnxt) (i : nat) : option (Z * Z) :=
  (fun v => (fw_vnic_id v, rx_queue_cnt v)) <$> vnic_info bp !! i.

(** A VXLAN tunnel matcher with VNI 5, fully masked. *)
Definition vxlan_item : rte_flow_item :=
  ITEM_VXLAN
    (conf_of
       {| vxlan_flags := 8; vxlan_rsvd0_0 := 0; vxlan_rsvd0_1 := 0;
          vxlan_rsvd0_2 := 0; vxlan_vni := 5; vxlan_rsvd1 := 0 |}
       {| vxlan_flags := 0; vxlan_rsvd0_0 := 0; vxlan_rsvd0_1 := 0;
          vxlan_rsvd0_2 := 0; vxlan_vni := 0xFFFFFF; vxlan_rsvd1 := 0 |}).

End Scenario.

(** C7 (what the code does). With the rule "dst [mac1] -> queue 1" installed,
    validating the same pattern with the malformed action list
    [QUEUE 1; DROP; END] fails with [-EINVAL] and leaves the installed flows
    as they were, but the reference count of the shared L2 filter (filter 1,
    owned by the installed flow) has gone from 1 to 2: the count taken by
    [bnxt_get_l2_filter] is not given back on this error path. *)
Example validate_keeps_l2_reference :
  let s := Scenario.one_flow in
  let r := Sample.validate (Some Sample.attr_in)
             (Some [Sample.eth_dst_item Scenario.mac1; ITEM_END])
             (Some [ACTION_QUEUE {| queue_index := 1 |}; ACTION_DROP;
                    ACTION_END]) s in
  Sample.value_of r = Some (- EINVAL) /\
  map flow_list (vnic_info (Sample.state_of r)) = map flow_list (vnic_info s) /\
  Scenario.flow_ids s = [[]; [0%nat]; []; []] /\
  Scenario.ref_cnt s 1 = Some 1 /\
  Scenario.ref_cnt (Sample.state_of r) 1 = Some 2.
Proof. vm_compute. repeat split; reflexivity. Qed.

(** C8 (what the code does). [flush] returns 0 and empties the flow lists,
    but it tears no receive context down.  After flushing the state with one
    rule on queue 1, VNIC 1 has no flow left and still holds its hardware
    context (101) and its queue, and no VNIC command was sent.  After a
    failed [create] that left VNIC 2 allocated with no queue, [flush] returns
    0 and VNIC 2, not the default one and without queues, still holds its
    hardware context (102). *)
Example flush_keeps_receive_contexts :
  let s := Scenario.one_flow in
  let r := Sample.flush s in
  let s2 := Sample.state_of
              (Sample.create (Some Sample.attr_in)
                 (Some [Sample.eth_dst_item Scenario.mac1; ITEM_END])
                 (Some [ACTION_QUEUE {| queue_index := 2 |}; ACTION_DROP;
                        ACTION_END]) Sample.bp0) in
  let r2 := Sample.flush s2 in
  (Sample.value_of r = Some 0 /\
   Scenario.flow_ids s = [[]; [0%nat]; []; []] /\
   Scenario.flow_ids (Sample.state_of r) = [[]; []; []; []] /\
   Scenario.vnic_hw (Sample.state_of r) 1 = Some (101, 1) /\
   env_log (Sample.state_of r) = env_log s) /\
  (Sample.value_of r2 = Some 0 /\
   Scenario.flow_ids (Sample.state_of r2) = [[]; []; []; []] /\
   (func_default <$> vnic_info (Sample.state_of r2) !! 2%nat) = Some 0 /\
   Scenario.vnic_hw (Sample.state_of r2) 2 = Some (102, 0) /\
   env_log (Sample.state_of r2) = env_log s2).
Proof. vm_compute. repeat split; reflexivity. Qed.

(** C9 (what the code does). A VXLAN tunnel redirected to VF 0 is installed
    as a flow of the default VNIC (index 0).  Destroying that flow empties
    the default VNIC's flow list, and [bnxt_flow_destroy] then frees the
    default VNIC: it sends [bnxt_hwrm_vnic_free] for VNIC 0, whose hardware
    identifier becomes the invalid sentinel and whose queue count becomes
    0. *)
Example destroy_frees_default_vnic :
  let r := Sample.create (Some Sample.attr_in)
             (Some [Scenario.vxlan_item; ITEM_END])
             (Some [ACTION_VF {| act_vf_id := 0 |}; ACTION_END]) Sample.bp0 in
  let s := Sample.state_of r in
  let d := Sample.destroy (Some 0%nat) s in
  Sample.value_of r = Some (Some 0%nat) /\
  Scenario.flow_ids s = [[0%nat]; []; []; []] /\
  Scenario.vnic_hw s 0 = Some (100, 1) /\
  Sample.value_of d = Some 0 /\
  Scenario.flow_ids (Sample.state_of d) = [[]; []; []; []] /\
  Scenario.vnic_hw (Sample.state_of d) 0 = Some (0xFFFF, 0) /\
  head (env_log (Sample.state_of d)) = Some (call_hwrm_vnic_free 0).
Proof. vm_compute. repeat split; reflexivity. Qed.

(** ** Frames: what a computation leaves alone *)

Section Preserves.
Variable R : bnxt -> bnxt -> Prop.
Context `{!PreOrder R}.

(** Whenever [m] returns, the state it returns is related to the state it
    started from. *)
Definition preserves {A} (m : M A) : Prop :=
  forall bp, wlp m (fun _ bp' => R bp bp') bp.

Lemma preserves_ret {A} (a : A) : preserves (ret a).
Proof. intros bp. apply wlp_ret. reflexivity. Qed.

Lemma preserves_gets {A} (f : bnxt -> A) : preserves (gets f).
Proof. intros bp. apply wlp_gets. reflexivity. Qed.

Lemma preserves_fault {A} : preserves (@fault A).
Proof. intros bp. exact I. Qed.

Lemma preserves_lift_opt {A} (o : option A) : preserves (lift_opt o).
Proof. intros bp. apply wlp_lift_opt. intros. reflexivity. Qed.

Lemma preserves_modify f : (forall bp, R bp (f bp)) -> preserves (modify f).
Proof. intros H bp. apply wlp_modify, H. Qed.

Lemma preserves_bind {A B} (m : M A) (k : A -> M B) :
  preserves m -> (forall a, preserves (k a)) -> preserves (bind m k).
Proof.
  intros Hm Hk bp. apply wlp_bind.
  eapply wlp_mono; [|apply Hm]. intros a bp1 H1. cbv beta.
  eapply wlp_mono; [|apply Hk]. intros b bp2 H2. cbv beta.
  exact (PreOrder_Transitive _ _ _ H1 H2).
Qed.

Lemma preserves_bind_cont {T U} (m : M (Z + T)) (k : T -> M (Z + U)) :
  preserves m -> (forall a, preserves (k a)) -> preserves (bind_cont m k).
Proof.
  intros Hm Hk. unfold bind_cont. apply preserves_bind; [assumption|].
  intros [rc|v]; [apply preserves_ret | apply Hk].
Qed.

(** Running a preserving computation inside a larger proof. *)
Lemma wlp_frame {A} (m : M A) (Q : A -> bnxt -> Prop) bp0 bp :
  preserves m ->
  R bp0 bp ->
  (forall a bp', R bp0 bp' -> Q a bp') ->
  wlp m Q bp.
Proof.
  intros Hm H0 HQ. eapply wlp_mono; [|apply Hm].
  intros a bp' H. apply HQ. exact (PreOrder_Transitive _ _ _ H0 H).
Qed.

End Preserves.

Create HintDb frame discriminated.

Ltac frame_step :=
  lazymatch goal with
  | |- preserves _ (bind _ _) =>
      apply preserves_bind; [exact _ | | intros ?]
  | |- preserves _ (bind_cont _ _) =>
      apply preserves_bind_cont; [exact _ | | intros ?]
  | |- preserves _ (ret _) => apply preserves_ret; exact _
  | |- preserves _ (gets _) => apply preserves_gets; exact _
  | |- preserves _ fault => apply preserves_fault
  | |- preserves _ (lift_opt _) => apply preserves_lift_opt; exact _
  | |- preserves _ (if ?c then _ else _) => destruct c
  | |- preserves _ (match ?x with _ => _ end) => destruct x
  | |- preserves _ _ => solve [auto with frame]
  end.
Ltac frame := repeat frame_step.

(** *** The flow lists *)

Definition same_flows (bp bp' : bnxt) : Prop :=
  map flow_list (vnic_info bp') = map flow_list (vnic_info bp).

#[local] Instance same_flows_preorder : PreOrder same_flows.
Proof.
  split.
  - intros bp. reflexivity.
  - intros a b c Hab Hbc. unfold same_flows in *. congruence.
Qed.

Lemma map_insert_same {A B} (f : A -> B) (l : list A) i x y :
  l !! i = Some y -> f x = f y -> map f (<[i := x]> l) = map f l.
Proof.
  revert i. induction l as [|a l IH]; intros [|i] Hl Hf; simpl in *;
    try discriminate.
  - injection Hl as ->. now rewrite Hf.
  - f_equal. now apply IH.
Qed.

Lemma same_flows_filter_upd p g : preserves same_flows (filter_upd p g).
Proof. intros bp. apply wlp_filter_upd. intros f _. reflexivity. Qed.

Lemma wlp_vnic_upd i g (Q : unit -> bnxt -> Prop) bp :
  (forall vn, vnic_info bp !! i = Some vn ->
     Q tt (set_vnic_info (<[i := g vn]> (vnic_info bp)) bp)) ->
  wlp (vnic_upd i g) Q bp.
Proof.
  intros HQ. unfold wlp, vnic_upd, read_vnic, bind, gets, lift_opt.
  destruct (vnic_info bp !! i); simpl; auto.
Qed.

Lemma wlp_read_vnic i (Q : bnxt_vnic_info -> bnxt -> Prop) bp :
  (forall vn, vnic_info bp !! i = Some vn -> Q vn bp) ->
  wlp (read_vnic i) Q bp.
Proof.
  intros HQ. unfold wlp, read_vnic, bind, gets, lift_opt.
  destruct (vnic_info bp !! i); simpl; auto.
Qed.

Lemma same_flows_vnic_upd i g :
  (forall vn, flow_list (g vn) = flow_list vn) ->
  preserves same_flows (vnic_upd i g).
Proof.
  intros Hg bp. apply wlp_vnic_upd. intros vn Hvn.
  unfold same_flows. simpl. eapply map_insert_same; eauto.
Qed.

Lemma same_flows_rxq_upd q g : preserves same_flows (rxq_upd q g).
Proof.
  intros bp. unfold rxq_upd, read_rxq_slot.
  repeat wlp_step; unfold same_flows; reflexivity.
Qed.

Lemma same_flows_call_env env c : preserves same_flows (call_env env c).
Proof. intros bp. apply wlp_call_env. reflexivity. Qed.

Lemma same_flows_error_set code ty msg :
  preserves same_flows (rte_flow_error_set code ty msg).
Proof. intros bp. apply wlp_error_set. reflexivity. Qed.

Lemma same_flows_fail_with {T} code ty msg :
  preserves same_flows (@fail_with T code ty msg).
Proof. intros bp. apply wlp_fail_with. reflexivity. Qed.

Lemma same_flows_free_filter p : preserves same_flows (bnxt_free_filter p).
Proof. intros bp. apply wlp_modify. reflexivity. Qed.

Lemma same_flows_get_unused_filter : preserves same_flows bnxt_get_unused_filter.
Proof.
  intros bp. unfold bnxt_get_unused_filter.
  repeat wlp_step; unfold same_flows; reflexivity.
Qed.

Lemma same_flows_read_filter p : preserves same_flows (read_filter p).
Proof. intros bp. apply wlp_read_filter. reflexivity. Qed.

Lemma same_flows_read_vnic i : preserves same_flows (read_vnic i).
Proof. intros bp. apply wlp_read_vnic. reflexivity. Qed.

Lemma same_flows_read_rxq_slot q : preserves same_flows (read_rxq_slot q).
Proof. unfold read_rxq_slot. frame. Qed.

Lemma same_flows_set_nr_vnics f :
  preserves same_flows (modify (fun bp => set_nr_vnics (f bp) bp)).
Proof. apply preserves_modify. intros bp. reflexivity. Qed.

#[local] Hint Resolve same_flows_filter_upd same_flows_rxq_upd
  same_flows_call_env same_flows_error_set same_flows_fail_with
  same_flows_free_filter same_flows_get_unused_filter same_flows_read_filter
  same_flows_read_vnic same_flows_read_rxq_slot same_flows_set_nr_vnics
  : frame.
#[local] Hint Extern 1 (preserves same_flows (vnic_upd _ _)) =>
  apply same_flows_vnic_upd; intros; reflexivity : frame.

Section FlowFrame.
Variable hsi : hsi_defs.
Variable env : list env_call -> env_call -> env_resp.

Lemma same_flows_type_check pattern :
  preserves same_flows (bnxt_filter_type_check pattern).
Proof. unfold bnxt_filter_type_check. frame. Qed.

Lemma same_flows_parse_item attr filter u ee it lv :
  preserves same_flows (parse_item hsi env attr filter u ee it lv).
Proof.
  unfold parse_item, parse_any, parse_eth, parse_vlan, parse_ipv4, parse_ipv6,
    parse_tcp, parse_udp, parse_ports, parse_vxlan, parse_nvgre, parse_gre,
    parse_vf, bnxt_hwrm_func_qcfg_vf_dflt_vnic_id.
  frame.
Qed.

Lemma same_flows_parse_items attr filter u ee items :
  forall lv, preserves same_flows (parse_items hsi env attr filter u ee items lv).
Proof.
  induction items as [|it next IH]; intros lv.
  - apply preserves_fault.
  - destruct (is_end_item it) eqn:Hend.
    + destruct it; try discriminate Hend. apply preserves_ret. exact _.
    + rewrite parse_items_cons by assumption.
      apply preserves_bind_cont;
        [exact _ | apply same_flows_parse_item | apply IH].
Qed.

Lemma same_flows_parse_flow_type attr pattern filter :
  preserves same_flows
    (bnxt_validate_and_parse_flow_type hsi env attr pattern filter).
Proof.
  pose proof same_flows_type_check. pose proof same_flows_parse_items.
  unfold bnxt_validate_and_parse_flow_type. frame.
Qed.

Lemma same_flows_parse_attr attr :
  preserves same_flows (bnxt_flow_parse_attr attr).
Proof. unfold bnxt_flow_parse_attr. frame. Qed.

Lemma same_flows_find_l2 nf :
  preserves same_flows (bnxt_find_matching_l2_filter hsi nf).
Proof. unfold bnxt_find_matching_l2_filter. frame. Qed.

Lemma same_flows_set_l2_filter dst p :
  preserves same_flows (bnxt_hwrm_set_l2_filter env dst p).
Proof. unfold bnxt_hwrm_set_l2_filter. frame. Qed.

Lemma same_flows_clear_l2_filter p :
  preserves same_flows (bnxt_hwrm_clear_l2_filter env p).
Proof. unfold bnxt_hwrm_clear_l2_filter. frame. Qed.

Lemma same_flows_create_l2 nf vnic :
  preserves same_flows (bnxt_create_l2_filter hsi env nf vnic).
Proof.
  pose proof same_flows_set_l2_filter.
  unfold bnxt_create_l2_filter. frame.
Qed.

Lemma same_flows_get_l2 nf vnic :
  preserves same_flows (bnxt_get_l2_filter hsi env nf vnic).
Proof.
  pose proof same_flows_find_l2. pose proof same_flows_create_l2.
  unfold bnxt_get_l2_filter. frame.
Qed.

Lemma same_flows_vnic_prep vnic :
  preserves same_flows (bnxt_vnic_prep hsi env vnic).
Proof.
  unfold bnxt_vnic_prep, bnxt_vnic_grp_alloc, bnxt_hwrm_vnic_alloc,
    bnxt_hwrm_vnic_ctx_alloc, bnxt_hwrm_vnic_cfg, bnxt_hwrm_vnic_plcmode_cfg.
  frame.
Qed.

Lemma same_flows_match_rss vnic rss :
  preserves same_flows (match_vnic_rss_cfg vnic rss).
Proof. unfold match_vnic_rss_cfg. frame. Qed.

Lemma same_flows_update_flags_en filter filter1 u :
  preserves same_flows (bnxt_update_filter_flags_en hsi filter filter1 u).
Proof. unfold bnxt_update_filter_flags_en. frame. Qed.

Lemma same_flows_parse_flow_ret vnic rxq rc :
  preserves same_flows (parse_flow_ret vnic rxq rc).
Proof. unfold parse_flow_ret. frame. Qed.

Lemma same_flows_goto_ret_error vnic rxq code ty msg :
  preserves same_flows (goto_ret_error vnic rxq code ty msg).
Proof.
  pose proof same_flows_parse_flow_ret. unfold goto_ret_error. frame.
Qed.

Lemma same_flows_parse_flow_done act vnic rxq rc :
  preserves same_flows (parse_flow_done act vnic rxq rc).
Proof.
  pose proof same_flows_goto_ret_error. unfold parse_flow_done. frame.
Qed.

Lemma same_flows_parse_flow_break filter filter1 act vnic rxq rc :
  preserves same_flows (parse_flow_break filter filter1 act vnic rxq rc).
Proof.
  pose proof same_flows_parse_flow_done. unfold parse_flow_break. frame.
Qed.

Lemma same_flows_use_vnic filter u act b vnic_id rxq rc e msg :
  preserves same_flows
    (parse_flow_use_vnic hsi env filter u act b vnic_id rxq rc e msg).
Proof.
  pose proof same_flows_get_l2. pose proof same_flows_update_flags_en.
  pose proof same_flows_parse_flow_break. pose proof same_flows_parse_flow_ret.
  unfold parse_flow_use_vnic. frame.
Qed.

Lemma same_flows_action_queue attr filter u act act_q rc :
  preserves same_flows (parse_action_queue hsi env attr filter u act act_q rc).
Proof.
  pose proof same_flows_use_vnic. pose proof same_flows_goto_ret_error.
  pose proof same_flows_vnic_prep.
  unfold parse_action_queue, read_vnic_at. frame.
Qed.

Lemma same_flows_action_dflt_l2 filter act report e finish rc :
  preserves same_flows
    (parse_action_dflt_l2 hsi env filter act report e finish rc).
Proof.
  pose proof same_flows_get_l2. pose proof same_flows_parse_flow_break.
  pose proof same_flows_parse_flow_ret.
  unfold parse_action_dflt_l2. frame.
Qed.

Lemma same_flows_action_vf filter act act_vf rc :
  preserves same_flows (parse_action_vf hsi env filter act act_vf rc).
Proof.
  pose proof same_flows_action_dflt_l2. pose proof same_flows_goto_ret_error.
  pose proof same_flows_parse_flow_done.
  unfold parse_action_vf, bnxt_hwrm_func_qcfg_vf_dflt_vnic_id. frame.
Qed.

Lemma same_flows_rss_bind_queues v rss idx :
  forall rxq, preserves same_flows (rss_bind_queues hsi v rss idx rxq).
Proof.
  induction idx as [|i rest IH]; intros rxq; simpl; frame.
Qed.

Lemma same_flows_rss_take_rings v rss idx :
  preserves same_flows (rss_take_rings hsi v rss idx).
Proof. induction idx as [|i rest IH]; simpl; frame. Qed.

Lemma same_flows_action_rss attr filter u act rss rc :
  preserves same_flows (parse_action_rss hsi env attr filter u act rss rc).
Proof.
  pose proof same_flows_use_vnic. pose proof same_flows_goto_ret_error.
  pose proof same_flows_vnic_prep. pose proof same_flows_match_rss.
  pose proof same_flows_rss_bind_queues. pose proof same_flows_rss_take_rings.
  pose proof same_flows_parse_flow_ret.
  unfold parse_action_rss, read_vnic_at, bnxt_hwrm_vnic_rss_cfg. frame.
Qed.

Lemma same_flows_parse_flow pattern actions attr filter :
  preserves same_flows
    (bnxt_validate_and_parse_flow hsi env pattern actions attr filter).
Proof.
  pose proof same_flows_parse_flow_type.
  pose proof same_flows_parse_attr.
  pose proof same_flows_type_check.
  pose proof same_flows_action_queue. pose proof same_flows_action_dflt_l2.
  pose proof same_flows_action_vf. pose proof same_flows_action_rss.
  pose proof same_flows_parse_flow_ret. pose proof same_flows_goto_ret_error.
  unfold bnxt_validate_and_parse_flow. frame.
Qed.

Lemma same_flows_validate attr pattern actions :
  preserves same_flows (bnxt_flow_validate hsi env attr pattern actions).
Proof.
  pose proof same_flows_parse_flow. pose proof same_flows_clear_l2_filter.
  unfold bnxt_flow_validate, bnxt_flow_args_validate, find_matching_vnic,
    free_fw_grp_ids, bnxt_hwrm_vnic_ctx_free, bnxt_hwrm_vnic_free,
    bnxt_hwrm_clear_em_filter, bnxt_hwrm_clear_ntuple_filter.
  frame.
Qed.

End FlowFrame.

(** ** The flow table: duplicate detection and destination update *)

(** [F], queued on the live VNIC [i], owns filter [mf] whose contents are
    [mfr]. *)
Definition installed (hsi : hsi_defs) (bp : bnxt) (i : nat) (F : rte_flow)
    (mf : nat) (mfr : bnxt_filter_info) : Prop :=
  exists vn,
    vnic_info bp !! i = Some vn /\
    fw_vnic_id vn <> INVALID_VNIC_ID hsi /\
    In F (flow_list vn) /\
    flow_filter F = Some mf /\
    filter_info bp !! mf = Some mfr.

(** Every queued flow owns a filter of the pool. *)
Definition flows_have_filters (bp : bnxt) : Prop :=
  forall i vn F,
    vnic_info bp !! i = Some vn ->
    In F (flow_list vn) ->
    exists p r, flow_filter F = Some p /\ filter_info bp !! p = Some r.

(** [create] has passed its checks, allocated flow object [flow] and filter
    [nf], and compiled the request into [nf]; [bp_c] is the state in which
    the flow table is searched. *)
Definition compiles_to (hsi : hsi_defs)
    (env : list env_call -> env_call -> env_resp)
    (attr : rte_flow_attr) (pattern : list rte_flow_item)
    (actions : list rte_flow_action) (bp : bnxt) (flow nf : nat)
    (bp_c : bnxt) : Prop :=
  is_vf bp && negb (vf_is_trusted bp) = false /\
  dev_started bp = true /\
  exists bp_a bp_b,
    rte_zmalloc_flow env bp = Done (Some flow) bp_a /\
    bnxt_get_unused_filter bp_a = Done (Some nf) bp_b /\
    bnxt_validate_and_parse_flow hsi env pattern actions attr nf bp_b =
      Done 0 bp_c.

Lemma indexed_lookup {A} (l : list A) i x :
  In (i, x) (indexed l) <-> l !! i = Some x.
Proof.
  unfold indexed.
  assert (H : forall s, In (i, x) (combine (seq s (length l)) l) <->
                        (s <= i)%nat /\ l !! (i - s)%nat = Some x).
  { induction l as [|a l IH]; intros s; simpl.
    - split; [intros [] | intros [_ H]; discriminate].
    - rewrite IH. split.
      + intros [[= <- <-] | [Hle Hl]].
        * split; [lia|]. now rewrite Nat.sub_diag.
        * split; [lia|]. replace (i - s)%nat with (S (i - S s)) by lia.
          assumption.
      + intros [Hle Hl]. destruct (Nat.eq_dec s i) as [-> | Hne].
        * left. rewrite Nat.sub_diag in Hl. simpl in Hl. congruence.
        * right. split; [lia|].
          replace (i - s)%nat with (S (i - S s)) in Hl by lia. assumption. }
  rewrite H, Nat.sub_0_r. split; [now intros [_ ?] | split; [lia|assumption]].
Qed.

Section Scan.
Variable hsi : hsi_defs.

Lemma match_scan_flows_spec fi nfr flows :
  (forall F, In F flows ->
     exists p r, flow_filter F = Some p /\ fi !! p = Some r) ->
  exists res,
    match_scan_flows fi nfr flows = Some res /\
    match res with
    | None =>
        forall F p r, In F flows -> flow_filter F = Some p ->
                      fi !! p = Some r -> filter_match r nfr = false
    | Some (F, p) =>
        In F flows /\ flow_filter F = Some p /\
        exists r, fi !! p = Some r /\ filter_match r nfr = true
    end.
Proof.
  induction flows as [|G flows IH]; intros Hwf.
  - exists None. split; [reflexivity|]. intros ? ? ? [].
  - destruct (Hwf G (or_introl eq_refl)) as (p & r & Hp & Hr).
    simpl. rewrite Hp, Hr.
    destruct (filter_match r nfr) eqn:Hm.
    + exists (Some (G, p)). split; [reflexivity|]. eauto 6.
    + destruct IH as (res & Hres & Hspec).
      { intros F HF. apply Hwf. now right. }
      exists res. split; [assumption|].
      destruct res as [[F q]|].
      * destruct Hspec as (HF & Hq & Hr'). split; [now right|]. auto.
      * intros F q r' [<- | HF] Hq Hr'.
        -- congruence.
        -- eauto.
Qed.

Lemma match_scan_vnics_spec fi nfr (l : list (nat * bnxt_vnic_info)) :
  (forall i vn F, In (i, vn) l -> In F (flow_list vn) ->
     exists p r, flow_filter F = Some p /\ fi !! p = Some r) ->
  exists res,
    match_scan_vnics hsi fi nfr l = Some res /\
    match res with
    | None =>
        forall i vn F p r,
          In (i, vn) l -> fw_vnic_id vn <> INVALID_VNIC_ID hsi ->
          In F (flow_list vn) -> flow_filter F = Some p ->
          fi !! p = Some r -> filter_match r nfr = false
    | Some (i, F, p) =>
        exists vn r,
          In (i, vn) l /\ fw_vnic_id vn <> INVALID_VNIC_ID hsi /\
          In F (flow_list vn) /\ flow_filter F = Some p /\
          fi !! p = Some r /\ filter_match r nfr = true
    end.
Proof.
  induction l as [|[j vnj] l IH]; intros Hwf.
  - exists None. split; [reflexivity|]. intros ? ? ? ? ? [].
  - destruct IH as (res & Hres & Hspec).
    { intros i vn F Hin HF. apply (Hwf i vn F); [now right | assumption]. }
    simpl. destruct (fw_vnic_id vnj =? INVALID_VNIC_ID hsi) eqn:Hid.
    + apply Z.eqb_eq in Hid.
      exists res. split; [assumption|].
      destruct res as [[[i F] p]|].
      * destruct Hspec as (vn & r & Hin & H). exists vn, r.
        split; [now right | assumption].
      * intros i vn F p r [[= <- <-] | Hin] Hv; [congruence|]. eauto.
    + apply Z.eqb_neq in Hid.
      destruct (match_scan_flows_spec fi nfr (flow_list vnj))
        as (res1 & Hres1 & Hspec1).
      { intros F HF. apply (Hwf j vnj); [now left | assumption]. }
      rewrite Hres1. destruct res1 as [[F p]|].
      * exists (Some (j, F, p)). split; [reflexivity|].
        destruct Hspec1 as (HF & Hp & r & Hr & Hm).
        exists vnj, r. split; [now left | auto].
      * exists res. split; [assumption|].
        destruct res as [[[i F] p]|].
        -- destruct Hspec as (vn & r & Hin & H). exists vn, r.
           split; [now right | assumption].
        -- intros i vn F p r [[= <- <-] | Hin] Hv; eauto.
Qed.

(** The search of [bnxt_match_filter] on a well-formed table: it returns an
    installed flow whose filter compares equal to the candidate, if there is
    one, and nothing if there is none. *)
Lemma match_scan_table bp nfr :
  flows_have_filters bp ->
  exists res,
    match_scan_vnics hsi (filter_info bp) nfr (rev (indexed (vnic_info bp))) =
      Some res /\
    match res with
    | None =>
        forall i F p r, installed hsi bp i F p r -> filter_match r nfr = false
    | Some (i, F, p) =>
        exists r, installed hsi bp i F p r /\ filter_match r nfr = true
    end.
Proof.
  intros Hwf.
  destruct (match_scan_vnics_spec (filter_info bp) nfr
              (rev (indexed (vnic_info bp)))) as (res & Hres & Hspec).
  { intros i vn F Hin. apply in_rev, indexed_lookup in Hin. eauto. }
  exists res. split; [assumption|].
  destruct res as [[[i F] p]|].
  - destruct Hspec as (vn & r & Hin & Hv & HF & Hp & Hr & Hm).
    apply in_rev, indexed_lookup in Hin.
    exists r. split; [|assumption]. exists vn. auto.
  - intros i F p r (vn & Hvn & Hv & HF & Hp & Hr).
    apply (Hspec i vn F p r); auto.
    rewrite <- in_rev. now apply indexed_lookup.
Qed.

End Scan.

Lemma preserves_done R {A} (m : M A) bp a bp' :
  preserves R m -> m bp = Done a bp' -> R bp bp'.
Proof. intros H E. specialize (H bp). unfold wlp in H. now rewrite E in H. Qed.

Section FlowTable.
Variable hsi : hsi_defs.
Variable env : list env_call -> env_call -> env_resp.

Lemma same_flows_zmalloc : preserves same_flows (rte_zmalloc_flow env).
Proof.
  unfold rte_zmalloc_flow. frame.
  apply preserves_modify. intros bp. reflexivity.
Qed.

(** What is left of [bnxt_flow_create] once the request is compiled. *)
Definition create_after_compile (flow nf : nat) : M (option nat) :=
  bind (bnxt_match_filter hsi env nf) (fun rc =>
    if rc =? - EEXIST then
      bind (bnxt_hwrm_clear_l2_filter env nf) (fun _ =>
        create_free_filter nf rc)
    else create_install hsi env flow nf rc (rc =? - EXDEV)).

Lemma create_compiles attr pattern actions bp flow nf bp_c :
  compiles_to hsi env attr pattern actions bp flow nf bp_c ->
  bnxt_flow_create hsi env (Some attr) (Some pattern) (Some actions) bp =
    create_after_compile flow nf bp_c /\
  same_flows bp bp_c.
Proof.
  intros (Hvf & Hst & bp_a & bp_b & Ha & Hb & Hc). split.
  - unfold bnxt_flow_create.
    unfold bind at 1, gets at 1. unfold bind at 1, gets at 1.
    unfold bind at 1, gets at 1. rewrite Hvf, Hst. cbn [negb].
    unfold bind at 1. rewrite Ha.
    unfold bnxt_flow_args_validate. simpl.
    unfold bind at 1, ret at 1. simpl.
    unfold bind at 1. rewrite Hb.
    unfold bind at 1. rewrite Hc. reflexivity.
  - pose proof (preserves_done _ _ _ _ _ same_flows_zmalloc Ha) as H1.
    pose proof (preserves_done _ _ _ _ _ same_flows_get_unused_filter Hb) as H2.
    pose proof (preserves_done _ _ _ _ _
                  (same_flows_parse_flow hsi env pattern actions attr nf) Hc)
      as H3.
    unfold same_flows in *. congruence.
Qed.

Lemma same_flows_create_free_filter nf rc :
  preserves same_flows (create_free_filter nf rc).
Proof. unfold create_free_filter, create_free_flow. frame. Qed.

(** The duplicate check: an installed flow with the candidate's pattern and
    no installed flow with that pattern and another destination. *)
Lemma match_filter_duplicate bp nf nfr i F mf mfr :
  filter_info bp !! nf = Some nfr ->
  flows_have_filters bp ->
  installed hsi bp i F mf mfr ->
  filter_match mfr nfr = true ->
  (forall i' G p r, installed hsi bp i' G p r -> filter_match r nfr = true ->
                    dst_id r = dst_id nfr) ->
  bnxt_match_filter hsi env nf bp = Done (- EEXIST) bp.
Proof.
  intros Hnf Hwf HF Hm Hdst.
  destruct (match_scan_table hsi bp nfr Hwf) as (res & Hres & Hspec).
  unfold bnxt_match_filter.
  unfold bind at 1. rewrite (read_filter_eq _ _ _ Hnf).
  unfold bind at 1, gets at 1. unfold bind at 1, gets at 1.
  unfold bind at 1. rewrite Hres. simpl.
  destruct res as [[[i' G] p]|].
  - destruct Hspec as (r & HG & Hr).
    pose proof (Hdst _ _ _ _ HG Hr) as Hd.
    destruct HG as (vn & _ & _ & _ & _ & Hp).
    unfold bind at 1. rewrite (read_filter_eq _ _ _ Hp).
    apply Z.eqb_eq in Hd. now rewrite Hd.
  - rewrite (Hspec _ _ _ _ HF) in Hm. discriminate.
Qed.

(** C1. When an installed flow has the very match descriptor the request
    compiles to, destination included (and no installed flow has that
    pattern with another destination), [create] returns NULL, reports
    "Matching Flow exists." with the code derived from EEXIST, and leaves
    every flow list as it was. *)
Theorem duplicate_rule_rejected attr pattern actions bp flow nf bp_c nfr
    i F mf mfr :
  compiles_to hsi env attr pattern actions bp flow nf bp_c ->
  filter_info bp_c !! nf = Some nfr ->
  flows_have_filters bp_c ->
  installed hsi bp_c i F mf mfr ->
  filter_match mfr nfr = true ->
  dst_id mfr = dst_id nfr ->
  (forall i' G p r, installed hsi bp_c i' G p r ->
                    filter_match r nfr = true -> dst_id r = dst_id nfr) ->
  (forall q, matching_l2_fltr_ptr nfr = Some q -> fvalid q bp_c) ->
  exists bp',
    bnxt_flow_create hsi env (Some attr) (Some pattern) (Some actions) bp =
      Done None bp' /\
    flow_error bp' =
      {| err_type := RTE_FLOW_ERROR_TYPE_HANDLE;
         err_code := - EEXIST;
         err_message := "Matching Flow exists." |} /\
    map flow_list (vnic_info bp') = map flow_list (vnic_info bp).
Proof.
  intros Hc Hnf Hwf HF Hm Hd Hdst Hl2.
  destruct (create_compiles _ _ _ _ _ _ _ Hc) as [-> Hfl].
  unfold create_after_compile. unfold bind at 1.
  rewrite (match_filter_duplicate _ _ _ _ _ _ _ Hnf Hwf HF Hm Hdst).
  change (- EEXIST =? - EEXIST) with true. cbv iota.
  assert (Hv : fvalid nf bp_c) by (eapply lookup_lt_Some; eassumption).
  assert (Htail :
    wp (bind (bnxt_hwrm_clear_l2_filter env nf)
          (fun _ => create_free_filter nf (- EEXIST)))
       (fun r bp' =>
          r = None /\
          flow_error bp' =
            {| err_type := RTE_FLOW_ERROR_TYPE_HANDLE;
               err_code := - EEXIST;
               err_message := "Matching Flow exists." |}) bp_c).
  { unfold bnxt_hwrm_clear_l2_filter, create_free_filter, create_free_flow,
      bnxt_free_filter.
    apply wp_bind, wp_bind.
    unfold wp at 1. rewrite (read_filter_eq _ _ _ Hnf).
    assert (Hq : fvalid (match matching_l2_fltr_ptr nfr with
                         | Some q => q
                         | None => nf
                         end) bp_c).
    { destruct (matching_l2_fltr_ptr nfr); auto. }
    repeat wp_step; auto;
      match goal with
      | H : (?x =? ?x) = false |- _ => rewrite Z.eqb_refl in H; discriminate
      end. }
  apply wp_done in Htail as (r & bp' & E & -> & Herr).
  exists bp'. split; [assumption|]. split; [assumption|].
  assert (Hpres : preserves same_flows
            (bind (bnxt_hwrm_clear_l2_filter env nf)
               (fun _ => create_free_filter nf (- EEXIST)))).
  { pose proof (same_flows_clear_l2_filter env).
    pose proof same_flows_create_free_filter. frame. }
  pose proof (preserves_done _ _ _ _ _ Hpres E) as H.
  unfold same_flows in *. congruence.
Qed.

End FlowTable.

Module DuplicateScenario.
Import Sample.

(** The request of [Scenario.one_flow]'s rule, submitted a second time. *)
Definition pattern : list rte_flow_item :=
  [eth_dst_item Scenario.mac1; ITEM_END].

(** The state in which [bnxt_match_filter] runs for a request on
    [Scenario.one_flow]: flow object 1 and filter 3 are allocated and the
    request is compiled into filter 3. *)
Definition compiled (actions : list rte_flow_action) : bnxt :=
  state_of
    (bnxt_validate_and_parse_flow hsi env pattern actions attr_in 3
       (state_of
          (bnxt_get_unused_filter
             (state_of (rte_zmalloc_flow env Scenario.one_flow))))).

Definition record (bp : bnxt) (p : nat) : bnxt_filter_info :=
  default zero_filter (filter_info bp !! p).

(** The flow installed in [Scenario.one_flow]. *)
Definition flow0 : rte_flow :=
  {| flow_id := 0; flow_filter := Some 1%nat; flow_vnic := Some 1%nat |}.

End DuplicateScenario.

Ltac concrete_vnic H :=
  vm_compute in H;
  first [discriminate H | injection H as <-].

Ltac concrete_flow i vn Hvn HIn Hff Hp :=
  destruct i as [|[|[|[|i]]]]; concrete_vnic Hvn; simpl in HIn;
  try contradiction;
  destruct HIn as [<- | []];
  try (simpl in Hff; injection Hff as <-; vm_compute in Hp;
       injection Hp as <-).

Lemma duplicate_rule_rejected_witness :
  exists bp',
    bnxt_flow_create Sample.hsi Sample.env (Some Sample.attr_in)
      (Some DuplicateScenario.pattern) (Some (Sample.queue 1))
      Scenario.one_flow = Done None bp' /\
    flow_error bp' =
      {| err_type := RTE_FLOW_ERROR_TYPE_HANDLE;
         err_code := - EEXIST;
         err_message := "Matching Flow exists." |} /\
    map flow_list (vnic_info bp') =
      map flow_list (vnic_info Scenario.one_flow).
Proof.
  pose (bp_c := DuplicateScenario.compiled (Sample.queue 1)).
  apply (duplicate_rule_rejected Sample.hsi Sample.env Sample.attr_in
           DuplicateScenario.pattern (Sample.queue 1) Scenario.one_flow
           1%nat 3%nat bp_c (DuplicateScenario.record bp_c 3) 1%nat
           DuplicateScenario.flow0 1%nat (DuplicateScenario.record bp_c 1)).
  - split; [reflexivity|]. split; [reflexivity|].
    exists (Sample.state_of (rte_zmalloc_flow Sample.env Scenario.one_flow)).
    exists (Sample.state_of
              (bnxt_get_unused_filter
                 (Sample.state_of
                    (rte_zmalloc_flow Sample.env Scenario.one_flow)))).
    split; [vm_compute; reflexivity|].
    split; vm_compute; reflexivity.
  - vm_compute. reflexivity.
  - intros i vn G Hvn HIn. concrete_flow i vn Hvn HIn Hff Hp.
    exists 1%nat, (DuplicateScenario.record bp_c 1).
    split; vm_compute; reflexivity.
  - eexists. split; [vm_compute; reflexivity|].
    split; [vm_compute; discriminate|].
    split; [simpl; left; reflexivity|].
    split; vm_compute; reflexivity.
  - vm_compute. reflexivity.
  - vm_compute. reflexivity.
  - intros i G p r (vn & Hvn & _ & HIn & Hff & Hp) _.
    concrete_flow i vn Hvn HIn Hff Hp. vm_compute. reflexivity.
  - intros q Hq. vm_compute in Hq. injection Hq as <-.
    unfold fvalid. vm_compute. lia.
Defined.

(** ** Observations that a computation leaves alone *)

(** [same obs]: the observation [obs] of the state has the value it had. *)
Definition same {X : Type} (obs : bnxt -> X) (bp bp' : bnxt) : Prop :=
  obs bp' = obs bp.

#[global] Instance same_preorder {X : Type} (obs : bnxt -> X) :
  PreOrder (same obs).
Proof.
  split.
  - intros bp. reflexivity.
  - intros a b c Hab Hbc. unfold same in *. congruence.
Qed.

Section Observed.
Context {X : Type} (obs : bnxt -> X).

Lemma same_modify f :
  (forall bp, obs (f bp) = obs bp) -> preserves (same obs) (modify f).
Proof. intros H. apply preserves_modify. exact H. Qed.

Lemma same_filter_upd p g :
  (forall bp f, filter_info bp !! p = Some f ->
     obs (set_filter_info (<[p := g f]> (filter_info bp)) bp) = obs bp) ->
  preserves (same obs) (filter_upd p g).
Proof. intros H bp. apply wlp_filter_upd. intros f Hf. now apply H. Qed.

Lemma same_vnic_upd i g :
  (forall bp vn, vnic_info bp !! i = Some vn ->
     obs (set_vnic_info (<[i := g vn]> (vnic_info bp)) bp) = obs bp) ->
  preserves (same obs) (vnic_upd i g).
Proof. intros H bp. apply wlp_vnic_upd. intros vn Hvn. now apply H. Qed.

Lemma same_rxq_upd q g :
  (forall bp v, obs (set_rx_queues v bp) = obs bp) ->
  preserves (same obs) (rxq_upd q g).
Proof.
  intros H bp. unfold rxq_upd, read_rxq_slot.
  repeat wlp_step; unfold same; auto.
Qed.

Lemma same_call_env env c :
  (forall bp, obs (set_env_log (c :: env_log bp) bp) = obs bp) ->
  preserves (same obs) (call_env env c).
Proof. intros H bp. apply wlp_call_env. apply H. Qed.

Lemma same_error_set code ty msg :
  (forall bp, obs (with_error code ty msg bp) = obs bp) ->
  preserves (same obs) (rte_flow_error_set code ty msg).
Proof. intros H bp. apply wlp_error_set. apply H. Qed.

Lemma same_fail_with {T} code ty msg :
  (forall bp, obs (with_error code ty msg bp) = obs bp) ->
  preserves (same obs) (@fail_with T code ty msg).
Proof. intros H bp. apply wlp_fail_with. apply H. Qed.

Lemma same_read_filter p : preserves (same obs) (read_filter p).
Proof. intros bp. apply wlp_read_filter. reflexivity. Qed.

Lemma same_read_vnic i : preserves (same obs) (read_vnic i).
Proof. intros bp. apply wlp_read_vnic. reflexivity. Qed.

Lemma same_read_rxq_slot q : preserves (same obs) (read_rxq_slot q).
Proof. unfold read_rxq_slot. frame. Qed.

End Observed.

(** Side conditions of the rules above: the update does not reach the
    observation. *)
Create HintDb obs discriminated.

Ltac solve_same :=
  intros; unfold same; autounfold with obs; simpl;
  repeat first
    [ reflexivity
    | eapply map_insert_same; [eassumption | reflexivity]
    | progress f_equal ].

#[global] Hint Resolve same_read_filter same_read_vnic same_read_rxq_slot
  : frame.
#[global] Hint Extern 1 (preserves (same _) (modify _)) =>
  apply same_modify; solve_same : frame.
#[global] Hint Extern 1 (preserves (same _) (filter_upd _ _)) =>
  apply same_filter_upd; solve_same : frame.
#[global] Hint Extern 1 (preserves (same _) (vnic_upd _ _)) =>
  apply same_vnic_upd; solve_same : frame.
#[global] Hint Extern 1 (preserves (same _) (rxq_upd _ _)) =>
  apply same_rxq_upd; solve_same : frame.
#[global] Hint Extern 1 (preserves (same _) (call_env _ _)) =>
  apply same_call_env; solve_same : frame.
#[global] Hint Extern 1 (preserves (same _) (rte_flow_error_set _ _ _)) =>
  apply same_error_set; solve_same : frame.
#[global] Hint Extern 1 (preserves (same _) (fail_with _ _ _)) =>
  apply same_fail_with; solve_same : frame.

(** *** What the flow table compares *)

(** A filter without its hardware identifier, its enabled-field mask and its
    reference count: the fields [bnxt_match_filter] compares, the
    destination and the L2 back-reference are all kept. *)
Definition fkey (f : bnxt_filter_info) : bnxt_filter_info :=
  set_enables 0 (set_fw_l2_filter_id 0 (set_l2_ref_cnt 0 f)).

(** The hardware identifiers of the VNICs and the compared part of every
    filter of the pool. *)
Definition table_obs (bp : bnxt) : list Z * list bnxt_filter_info :=
  (map fw_vnic_id (vnic_info bp), map fkey (filter_info bp)).

#[global] Hint Unfold table_obs : obs.

Lemma map_lookup_same {A B} (f : A -> B) (l l' : list A) i x :
  map f l' = map f l -> l !! i = Some x ->
  exists x', l' !! i = Some x' /\ f x' = f x.
Proof.
  revert l' i. induction l as [|a l IH]; intros [|a' l'] [|i] H Hl;
    simpl in *; try discriminate.
  - injection H as H1 H2. injection Hl as <-. eauto.
  - injection H as H1 H2. eauto.
Qed.

Lemma table_obs_filter bp bp' p r :
  same table_obs bp bp' -> filter_info bp !! p = Some r ->
  exists r', filter_info bp' !! p = Some r' /\ fkey r' = fkey r.
Proof.
  intros H. unfold same, table_obs in H. injection H as _ H.
  now apply map_lookup_same.
Qed.

Lemma table_obs_vnic bp bp' i vn :
  same table_obs bp bp' -> vnic_info bp !! i = Some vn ->
  exists vn', vnic_info bp' !! i = Some vn' /\ fw_vnic_id vn' = fw_vnic_id vn.
Proof.
  intros H. unfold same, table_obs in H. injection H as H _.
  now apply map_lookup_same.
Qed.

Lemma same_sym {X} (obs : bnxt -> X) bp bp' : same obs bp bp' -> same obs bp' bp.
Proof. unfold same. congruence. Qed.

Lemma fkey_match r r' x :
  fkey r' = fkey r -> filter_match r' x = filter_match r x.
Proof.
  intros H. change (filter_match (fkey r') x = filter_match (fkey r) x).
  now rewrite H.
Qed.

Lemma fkey_dst_id r r' : fkey r' = fkey r -> dst_id r' = dst_id r.
Proof.
  intros H. change (dst_id (fkey r') = dst_id (fkey r)). now rewrite H.
Qed.

Lemma fkey_filter_type r r' : fkey r' = fkey r -> filter_type r' = filter_type r.
Proof.
  intros H. change (filter_type (fkey r') = filter_type (fkey r)).
  now rewrite H.
Qed.

Lemma wp_read_vnic i vn (Q : bnxt_vnic_info -> bnxt -> Prop) bp :
  vnic_info bp !! i = Some vn -> Q vn bp -> wp (read_vnic i) Q bp.
Proof.
  intros H HQ. unfold wp, read_vnic, bind, gets, lift_opt. now rewrite H.
Qed.

Lemma wp_vnic_upd i g vn (Q : unit -> bnxt -> Prop) bp :
  vnic_info bp !! i = Some vn ->
  Q tt (set_vnic_info (<[i := g vn]> (vnic_info bp)) bp) ->
  wp (vnic_upd i g) Q bp.
Proof.
  intros H HQ. unfold wp, vnic_upd, read_vnic, bind, gets, lift_opt, modify.
  now rewrite H.
Qed.

(** A computation that returns, and keeps [R], may be followed from a state
    about which only [R] is known. *)
Lemma wp_framed (R : bnxt -> bnxt -> Prop) {A} (m : M A)
    (Q : A -> bnxt -> Prop) bp :
  wp m (fun _ _ => True) bp ->
  preserves R m ->
  (forall a bp', R bp bp' -> Q a bp') ->
  wp m Q bp.
Proof.
  intros Ht Hp HQ. apply wp_done in Ht as (a & bp' & E & _).
  apply wp_done. exists a, bp'. split; [assumption|].
  apply HQ. exact (preserves_done R m bp a bp' Hp E).
Qed.

Lemma stailq_remove_in (x : nat) l :
  In x l -> exists q, stailq_remove Nat.eqb x l = Some q.
Proof.
  induction l as [|y l IH]; intros HIn; [contradiction|].
  simpl. destruct (Nat.eqb y x) eqn:E; [eauto|].
  destruct HIn as [-> | HIn]; [now rewrite Nat.eqb_refl in E|].
  destruct (IH HIn) as [q ->]. eauto.
Qed.

Section DestinationUpdate.
Variable hsi : hsi_defs.
Variable env : list env_call -> env_call -> env_resp.

Lemma find_vnic_from_ids d (l l' : list bnxt_vnic_info) :
  map fw_vnic_id l' = map fw_vnic_id l ->
  forall i, find_vnic_from hsi d l' i = find_vnic_from hsi d l i.
Proof.
  revert l'. induction l as [|a l IH]; intros [|a' l'] H i; simpl in *;
    try discriminate; [reflexivity|].
  injection H as H1 H2. rewrite H1. now rewrite (IH _ H2).
Qed.

Lemma find_vnic_from_live d (l : list bnxt_vnic_info) j vn :
  l !! j = Some vn -> fw_vnic_id vn = d ->
  fw_vnic_id vn <> INVALID_VNIC_ID hsi ->
  forall i, exists v, find_vnic_from hsi d l i = Some v.
Proof.
  revert j. induction l as [|a l IH]; intros [|j] Hl Hd Hv i; simpl in *;
    try discriminate.
  - injection Hl as ->. apply Z.eqb_neq in Hv. rewrite Hv, Hd, Z.eqb_refl.
    simpl. eauto.
  - destruct (_ && _); eauto.
Qed.

(** **** Frames of the code that follows compilation *)

Section Frames.
Context {X : Type} (obs : bnxt -> X).
Hypothesis obs_env : forall bp v, obs (set_env_log v bp) = obs bp.
Hypothesis obs_error :
  forall bp code ty msg, obs (with_error code ty msg bp) = obs bp.
Hypothesis obs_free : forall bp v, obs (set_free_filter_list v bp) = obs bp.
Hypothesis obs_filter :
  forall bp p g f,
    (forall x, fkey (g x) = fkey x) ->
    filter_info bp !! p = Some f ->
    obs (set_filter_info (<[p := g f]> (filter_info bp)) bp) = obs bp.

Lemma obs_call_env c : preserves (same obs) (call_env env c).
Proof. apply same_call_env. auto. Qed.

Lemma obs_error_set code ty msg :
  preserves (same obs) (rte_flow_error_set code ty msg).
Proof. apply same_error_set. auto. Qed.

Lemma obs_free_filter p : preserves (same obs) (bnxt_free_filter p).
Proof. apply same_modify. auto. Qed.

Lemma obs_filter_upd p g :
  (forall x, fkey (g x) = fkey x) -> preserves (same obs) (filter_upd p g).
Proof. intros Hg. apply same_filter_upd. auto. Qed.

#[local] Hint Resolve obs_call_env obs_error_set obs_free_filter : frame.
#[local] Hint Extern 0 (preserves (same obs) (filter_upd _ _)) =>
  apply obs_filter_upd; intros; reflexivity : frame.

Lemma obs_clear_l2_filter p :
  preserves (same obs) (bnxt_hwrm_clear_l2_filter env p).
Proof. unfold bnxt_hwrm_clear_l2_filter. frame. Qed.

Lemma obs_set_l2_filter dst p :
  preserves (same obs) (bnxt_hwrm_set_l2_filter env dst p).
Proof. unfold bnxt_hwrm_set_l2_filter. frame. Qed.

Lemma obs_update_filter mf nf :
  preserves (same obs) (bnxt_update_filter env mf nf).
Proof.
  pose proof obs_clear_l2_filter. pose proof obs_set_l2_filter.
  unfold bnxt_update_filter, bnxt_hwrm_clear_em_filter,
    bnxt_hwrm_clear_ntuple_filter.
  frame.
Qed.

Lemma obs_create_free_flow rc : preserves (same obs) (create_free_flow rc).
Proof. unfold create_free_flow. frame. Qed.

Lemma obs_create_free_filter nf rc :
  preserves (same obs) (create_free_filter nf rc).
Proof.
  pose proof obs_create_free_flow. unfold create_free_filter. frame.
Qed.

End Frames.


Lemma table_obs_filter_upd bp p g f :
  (forall x, fkey (g x) = fkey x) ->
  filter_info bp !! p = Some f ->
  table_obs (set_filter_info (<[p := g f]> (filter_info bp)) bp) =
    table_obs bp.
Proof.
  intros Hg Hf. unfold table_obs. simpl. f_equal.
  eapply map_insert_same; eauto.
Qed.

(** Discharges the side conditions of a frame lemma of [Frames] for an
    observation that the log, the error, the free list and the uncompared
    filter fields do not reach. *)
Ltac obs_side H :=
  repeat
    lazymatch type of H with
    | ?P -> _ =>
        let a := fresh in
        assert (a : P)
          by first [exact table_obs_filter_upd | intros; reflexivity];
        specialize (H a); clear a
    end.

Lemma same_table_vnic_upd i g :
  (forall x, fw_vnic_id (g x) = fw_vnic_id x) ->
  preserves (same table_obs) (vnic_upd i g).
Proof.
  intros Hg. apply same_vnic_upd. intros bp vn Hvn.
  unfold table_obs. simpl. f_equal. eapply map_insert_same; eauto.
Qed.

Lemma same_table_match_filter nf :
  preserves (same table_obs) (bnxt_match_filter hsi env nf).
Proof.
  pose proof (obs_update_filter table_obs) as Hu. obs_side Hu.
  pose proof (obs_free_filter table_obs) as Hf. obs_side Hf.
  unfold bnxt_match_filter. frame.
  all: apply same_table_vnic_upd; reflexivity.
Qed.

Lemma same_table_create_install_update flow nf rc :
  preserves (same table_obs) (create_install hsi env flow nf rc true).
Proof.
  pose proof (obs_create_free_filter table_obs) as Hff. obs_side Hff.
  pose proof (obs_create_free_flow table_obs) as Hfl. obs_side Hfl.
  unfold create_install, create_done, find_matching_vnic,
    bnxt_hwrm_tunnel_redirect_query, bnxt_hwrm_tunnel_redirect_free,
    bnxt_hwrm_tunnel_redirect, bnxt_hwrm_set_em_filter,
    bnxt_hwrm_set_ntuple_filter.
  frame.
Qed.

Lemma same_flows_create_install_update flow nf rc :
  preserves same_flows (create_install hsi env flow nf rc true).
Proof.
  pose proof (same_flows_create_free_filter nf).
  unfold create_install, create_done, find_matching_vnic,
    bnxt_hwrm_tunnel_redirect_query, bnxt_hwrm_tunnel_redirect_free,
    bnxt_hwrm_tunnel_redirect, bnxt_hwrm_set_em_filter,
    bnxt_hwrm_set_ntuple_filter, create_free_flow.
  frame.
Qed.


(** **** The update of an installed flow *)

Lemma update_filter_returns mf nf bp mfr :
  fvalid nf bp ->
  filter_info bp !! mf = Some mfr ->
  (forall q, matching_l2_fltr_ptr mfr = Some q -> fvalid q bp) ->
  wp (bnxt_update_filter env mf nf) (fun _ _ => True) bp.
Proof.
  intros Hnf Hmf Hl2.
  assert (Hvm : fvalid mf bp) by (eapply lookup_lt_Some; eassumption).
  assert (Hq : fvalid (match matching_l2_fltr_ptr mfr with
                       | Some q => q
                       | None => mf
                       end) bp).
  { destruct (matching_l2_fltr_ptr mfr); auto. }
  unfold bnxt_update_filter, bnxt_hwrm_clear_l2_filter,
    bnxt_hwrm_set_l2_filter, bnxt_hwrm_clear_em_filter,
    bnxt_hwrm_clear_ntuple_filter.
  apply wp_bind, wp_read_filter; [assumption | intros f _].
  destruct (filter_type f).
  - apply wp_bind, wp_bind.
    unfold wp at 1. rewrite (read_filter_eq _ _ _ Hmf).
    repeat wp_step; auto.
  - repeat wp_step; auto.
  - repeat wp_step; auto.
  - repeat wp_step; auto.
Qed.

Lemma map_insert {A B} (f : A -> B) (l : list A) i x :
  map f (<[i := x]> l) = <[i := f x]> (map f l).
Proof.
  revert i. induction l as [|a l IH]; intros [|i]; simpl; try reflexivity.
  now rewrite IH.
Qed.

Lemma map_lookup {A B} (f : A -> B) (l : list A) i :
  map f l !! i = f <$> l !! i.
Proof.
  revert i. induction l as [|a l IH]; intros [|i]; simpl; try reflexivity.
  apply IH.
Qed.

(** [bnxt_match_filter] on a table that holds the candidate's pattern once,
    with another destination: the flow is given the candidate filter. *)
Lemma match_filter_update bp nf nfr i vn F mf mfr :
  filter_info bp !! nf = Some nfr ->
  flows_have_filters bp ->
  vnic_info bp !! i = Some vn ->
  installed hsi bp i F mf mfr ->
  In mf (vnic_filter vn) ->
  filter_match mfr nfr = true ->
  dst_id mfr <> dst_id nfr ->
  (forall i' G p r, installed hsi bp i' G p r -> filter_match r nfr = true ->
                    i' = i /\ G = F) ->
  (forall q, matching_l2_fltr_ptr mfr = Some q -> fvalid q bp) ->
  exists bp_m,
    bnxt_match_filter hsi env nf bp = Done (- EXDEV) bp_m /\
    map flow_list (vnic_info bp_m) =
      <[i := flow_set_filter F nf (flow_list vn)]>
        (map flow_list (vnic_info bp)).
Proof.
  intros Hnf Hwf Hvn HF Hin Hm Hd Huniq Hl2.
  destruct (match_scan_table hsi bp nfr Hwf) as (res & Hres & Hspec).
  assert (Hmf : filter_info bp !! mf = Some mfr)
    by (destruct HF as (? & _ & _ & _ & _ & H); exact H).
  assert (Hv : fvalid nf bp) by (eapply lookup_lt_Some; eassumption).
  destruct res as [[[i' G] p]|];
    [|rewrite (Hspec _ _ _ _ HF) in Hm; discriminate].
  destruct Hspec as (r & HG & Hr).
  destruct (Huniq _ _ _ _ HG Hr) as [-> ->].
  assert (p = mf) as ->.
  { destruct HG as (? & _ & _ & _ & Hp & _).
    destruct HF as (? & _ & _ & _ & Hp' & _). congruence. }
  cut (wp (bnxt_match_filter hsi env nf)
         (fun rc bp_m =>
            rc = - EXDEV /\
            map flow_list (vnic_info bp_m) =
              <[i := flow_set_filter F nf (flow_list vn)]>
                (map flow_list (vnic_info bp))) bp).
  { intros Hwp. apply wp_done in Hwp as (a & bp_m & E & -> & H). eauto. }
  unfold bnxt_match_filter.
  apply wp_bind. unfold wp at 1. rewrite (read_filter_eq _ _ _ Hnf).
  apply wp_bind, wp_gets, wp_bind, wp_gets, wp_bind, wp_lift_opt.
  eexists. split; [exact Hres|]. cbv beta iota.
  apply wp_bind. unfold wp at 1. rewrite (read_filter_eq _ _ _ Hmf).
  apply Z.eqb_neq in Hd. rewrite Hd.
  apply wp_bind.
  apply (wp_framed (same vnic_info)).
  { eapply update_filter_returns; eauto. }
  { pose proof (obs_update_filter vnic_info) as Hu. obs_side Hu. apply Hu. }
  intros _ bp1 H1. unfold same in H1.
  apply wp_bind, (wp_read_vnic i vn); [now rewrite H1|].
  destruct (stailq_remove_in mf (vnic_filter vn) Hin) as [q Hq].
  apply wp_bind, wp_lift_opt. exists q. split; [assumption|].
  apply wp_bind, (wp_vnic_upd i _ vn); [now rewrite H1|].
  apply wp_bind. unfold bnxt_free_filter. apply wp_modify.
  apply wp_bind. eapply wp_vnic_upd.
  { simpl. apply list_lookup_insert_eq. rewrite H1.
    eapply lookup_lt_Some; eassumption. }
  apply wp_ret. split; [reflexivity|]. simpl.
  rewrite list_insert_insert_eq, map_insert, H1. reflexivity.
Qed.


(** The candidate [nf] is compiled as [nfr] and its destination is the
    hardware identifier [d] of a live VNIC. *)
Definition update_ready (nf : nat) (nfr : bnxt_filter_info) (ids : list Z)
    (bp : bnxt) : Prop :=
  map fw_vnic_id (vnic_info bp) = ids /\
  exists r, filter_info bp !! nf = Some r /\ fkey r = fkey nfr.

Lemma update_ready_same nf nfr ids bp bp' :
  update_ready nf nfr ids bp -> same table_obs bp bp' ->
  update_ready nf nfr ids bp'.
Proof.
  intros [Hids (r & Hr & Hk)] H. split.
  - unfold same, table_obs in H. injection H as H _. congruence.
  - destruct (table_obs_filter _ _ _ _ H Hr) as (r' & Hr' & Hk').
    exists r'. split; [assumption | congruence].
Qed.

Lemma update_ready_fvalid nf nfr ids bp :
  update_ready nf nfr ids bp -> fvalid nf bp.
Proof. intros [_ (r & Hr & _)]. eapply lookup_lt_Some; eassumption. Qed.

(** With [update_flow] set, the rest of [bnxt_flow_create] releases the new
    flow object, reports the update and returns NULL. *)
Lemma create_install_update_returns flow nf rc bp nfr j vnj :
  filter_info bp !! nf = Some nfr ->
  filter_type nfr <> HWRM_CFA_TUNNEL_REDIRECT_FILTER ->
  vnic_info bp !! j = Some vnj ->
  fw_vnic_id vnj = dst_id nfr ->
  fw_vnic_id vnj <> INVALID_VNIC_ID hsi ->
  wp (create_install hsi env flow nf rc true)
     (fun r bp' =>
        r = None /\
        flow_error bp' =
          {| err_type := RTE_FLOW_ERROR_TYPE_NONE;
             err_code := 0;
             err_message :=
               "Flow with pattern exists, updating destination queue" |} /\
        rte_errno bp' = 0) bp.
Proof.
  intros Hnf Hty Hj Hd Hlive.
  assert (Hrdy : update_ready nf nfr (map fw_vnic_id (vnic_info bp)) bp).
  { split; [reflexivity|]. eauto. }
  destruct (find_vnic_from_live (dst_id nfr) (vnic_info bp) j vnj Hj Hd Hlive
              0%nat) as [v Hfind].
  unfold create_install.
  apply wp_bind. unfold wp at 1. rewrite (read_filter_eq _ _ _ Hnf).
  replace (filter_kind_eqb (filter_type nfr) HWRM_CFA_TUNNEL_REDIRECT_FILTER)
    with false by (destruct (filter_type nfr); try reflexivity; contradiction).
  cbn [andb].
  apply wp_bind, (wp_framed (same table_obs)).
  { pose proof (update_ready_fvalid _ _ _ _ Hrdy).
    unfold bnxt_hwrm_set_em_filter. repeat wp_step; auto. }
  { unfold bnxt_hwrm_set_em_filter. frame. }
  intros rc1 bp1 H1.
  pose proof (update_ready_same _ _ _ _ _ Hrdy H1) as Hrdy1.
  apply wp_bind, wp_read_filter;
    [eapply update_ready_fvalid; eassumption | intros f1 _].
  apply wp_bind, (wp_framed (same table_obs)).
  { pose proof (update_ready_fvalid _ _ _ _ Hrdy1).
    unfold bnxt_hwrm_set_ntuple_filter. repeat wp_step; auto. }
  { unfold bnxt_hwrm_set_ntuple_filter. frame. }
  intros rc2 bp2 H2.
  pose proof (update_ready_same _ _ _ _ _ Hrdy1 H2) as [Hids (r2 & Hr2 & Hk2)].
  unfold find_matching_vnic.
  apply wp_bind, wp_bind. unfold wp at 1. rewrite (read_filter_eq _ _ _ Hr2).
  apply wp_bind, wp_gets, wp_ret.
  rewrite (fkey_dst_id _ _ Hk2), (find_vnic_from_ids _ _ _ Hids), Hfind.
  unfold create_done. rewrite orb_true_r.
  unfold create_free_flow.
  change (- EXDEV =? - EEXIST) with false.
  change (- EXDEV =? - EXDEV) with true. cbv iota.
  repeat wp_step. auto.
Qed.


(** **** The table after the update *)

(** [flow->filter = nf]: the flow object [F] with its new filter. *)
Definition with_filter (F : rte_flow) (nf : nat) : rte_flow :=
  {| flow_id := flow_id F; flow_filter := Some nf; flow_vnic := flow_vnic F |}.

(** The identifiers of the flows queued on each VNIC. *)
Definition flow_ids_of (bp : bnxt) : list (list nat) :=
  map (fun v => map flow_id (flow_list v)) (vnic_info bp).

Lemma filter_match_refl r : filter_match r r = true.
Proof.
  unfold filter_match, ipaddr_eqb.
  destruct (src_ipaddr r) as [[[? ?] ?] ?], (src_ipaddr_mask r) as [[[? ?] ?] ?],
    (dst_ipaddr r) as [[[? ?] ?] ?], (dst_ipaddr_mask r) as [[[? ?] ?] ?].
  rewrite !Z.eqb_refl. now destruct (filter_type r).
Qed.

Lemma flow_set_filter_ids F nf l :
  map flow_id (flow_set_filter F nf l) = map flow_id l.
Proof.
  unfold flow_set_filter. rewrite List.map_map. apply List.map_ext.
  intros x. now destruct (flow_eqb x F).
Qed.

Lemma flow_ids_of_flows bp bp' :
  map flow_list (vnic_info bp') = map flow_list (vnic_info bp) ->
  flow_ids_of bp' = flow_ids_of bp.
Proof.
  intros H. unfold flow_ids_of.
  rewrite <- !(List.map_map flow_list (map flow_id)). now rewrite H.
Qed.

Section TableAfterUpdate.
Variables (bp_c bp' : bnxt) (nf : nat) (nfr : bnxt_filter_info) (i : nat).
Variables (vn : bnxt_vnic_info) (F : rte_flow) (mf : nat).
Variable mfr : bnxt_filter_info.
Hypothesis Hnf : filter_info bp_c !! nf = Some nfr.
Hypothesis Hvn : vnic_info bp_c !! i = Some vn.
Hypothesis HF : installed hsi bp_c i F mf mfr.
Hypothesis Huniq :
  forall i' G p r, installed hsi bp_c i' G p r -> filter_match r nfr = true ->
                   i' = i /\ G = F.
Hypothesis Hids :
  forall G, In G (flow_list vn) -> flow_id G = flow_id F -> G = F.
Hypothesis HT : same table_obs bp_c bp'.
Hypothesis HFL :
  map flow_list (vnic_info bp') =
    <[i := flow_set_filter F nf (flow_list vn)]>
      (map flow_list (vnic_info bp_c)).

Lemma updated_vnic i' vn' :
  vnic_info bp' !! i' = Some vn' ->
  exists vn_c,
    vnic_info bp_c !! i' = Some vn_c /\
    fw_vnic_id vn' = fw_vnic_id vn_c /\
    flow_list vn' = if decide (i' = i)
                    then flow_set_filter F nf (flow_list vn)
                    else flow_list vn_c.
Proof.
  intros Hl.
  destruct (table_obs_vnic _ _ _ _ (same_sym _ _ _ HT) Hl)
    as (vn_c & Hc & Hid).
  exists vn_c. split; [assumption|]. split; [congruence|].
  pose proof (f_equal (fun l => l !! i') HFL) as H. cbv beta in H.
  rewrite map_lookup, Hl in H. simpl in H.
  destruct (decide (i' = i)) as [-> | Hne].
  - rewrite list_lookup_insert_eq in H; [congruence|].
    rewrite length_map. eapply lookup_lt_Some; eassumption.
  - rewrite list_lookup_insert_ne, map_lookup, Hc in H by auto.
    simpl in H. congruence.
Qed.

Lemma updated_ids : flow_ids_of bp' = flow_ids_of bp_c.
Proof.
  unfold flow_ids_of.
  rewrite <- !(List.map_map flow_list (map flow_id)), HFL, map_insert,
    flow_set_filter_ids.
  apply list_insert_id. now rewrite !map_lookup, Hvn.
Qed.

Lemma updated_flow :
  exists r', installed hsi bp' i (with_filter F nf) nf r' /\
             filter_match r' nfr = true /\ dst_id r' = dst_id nfr.
Proof.
  destruct (table_obs_filter _ _ _ _ HT Hnf) as (r' & Hr' & Hk).
  destruct (table_obs_vnic _ _ _ _ HT Hvn) as (vn' & Hvn' & Hid).
  destruct (updated_vnic _ _ Hvn') as (vn_c & Hc & _ & Hfl).
  destruct (decide (i = i)) as [_|]; [|congruence].
  destruct HF as (vn0 & Hvn0 & Hlive & HIn & _).
  assert (vn0 = vn) as -> by congruence.
  exists r'. split; [|split].
  - exists vn'. split; [assumption|]. split; [congruence|].
    split; [|split; [reflexivity | assumption]].
    rewrite Hfl. unfold flow_set_filter. apply in_map_iff.
    exists F. split; [|assumption].
    unfold flow_eqb. now rewrite Nat.eqb_refl.
  - rewrite (fkey_match _ _ _ Hk). apply filter_match_refl.
  - now apply fkey_dst_id.
Qed.

Lemma updated_flow_only i' G p r :
  installed hsi bp' i' G p r -> filter_match r nfr = true ->
  i' = i /\ G = with_filter F nf.
Proof.
  intros (vn' & Hvn' & Hlive & HIn & Hp & Hr) Hm.
  destruct (updated_vnic _ _ Hvn') as (vn_c & Hc & Hid & Hfl).
  destruct (table_obs_filter _ _ _ _ (same_sym _ _ _ HT) Hr)
    as (r_c & Hr_c & Hk).
  assert (Hm_c : filter_match r_c nfr = true)
    by (rewrite (fkey_match _ _ _ Hk); assumption).
  destruct (decide (i' = i)) as [-> | Hne].
  - split; [reflexivity|].
    assert (vn_c = vn) as -> by congruence.
    rewrite Hfl in HIn. unfold flow_set_filter in HIn.
    apply in_map_iff in HIn as (G0 & HG & HIn0).
    destruct (flow_eqb G0 F) eqn:Heq.
    + apply Nat.eqb_eq in Heq. rewrite (Hids G0 HIn0 Heq) in HG.
      now rewrite <- HG.
    + subst G.
      assert (HG0 : installed hsi bp_c i G0 p r_c).
      { exists vn. split; [assumption|]. split; [congruence|]. auto. }
      destruct (Huniq _ _ _ _ HG0 Hm_c) as [_ ->].
      unfold flow_eqb in Heq. now rewrite Nat.eqb_refl in Heq.
  - rewrite Hfl in HIn.
    assert (HG : installed hsi bp_c i' G p r_c).
    { exists vn_c. split; [assumption|]. split; [congruence|]. auto. }
    destruct (Huniq _ _ _ _ HG Hm_c) as [-> _]. congruence.
Qed.

End TableAfterUpdate.


(** C2 (as the code has it). An installed flow [F] is the only flow whose
    filter has the match descriptor the request compiles to, and the request
    names another destination, the hardware identifier of a live VNIC.  Then
    [create] returns NULL: no handle is given to the caller, and the error
    structure says "no error" (type NONE, code 0).  No flow is added or
    removed; [F] keeps its identity and its place, owns the new filter, whose
    destination is the requested one, and it is the only flow with that
    pattern. *)
Theorem destination_update attr pattern actions bp flow nf bp_c nfr i vn F
    mf mfr j vnj :
  compiles_to hsi env attr pattern actions bp flow nf bp_c ->
  filter_info bp_c !! nf = Some nfr ->
  flows_have_filters bp_c ->
  vnic_info bp_c !! i = Some vn ->
  installed hsi bp_c i F mf mfr ->
  In mf (vnic_filter vn) ->
  filter_match mfr nfr = true ->
  dst_id mfr <> dst_id nfr ->
  (forall i' G p r, installed hsi bp_c i' G p r -> filter_match r nfr = true ->
                    i' = i /\ G = F) ->
  (forall G, In G (flow_list vn) -> flow_id G = flow_id F -> G = F) ->
  (forall q, matching_l2_fltr_ptr mfr = Some q -> fvalid q bp_c) ->
  filter_type nfr <> HWRM_CFA_TUNNEL_REDIRECT_FILTER ->
  vnic_info bp_c !! j = Some vnj ->
  fw_vnic_id vnj = dst_id nfr ->
  fw_vnic_id vnj <> INVALID_VNIC_ID hsi ->
  exists bp',
    bnxt_flow_create hsi env (Some attr) (Some pattern) (Some actions) bp =
      Done None bp' /\
    flow_error bp' =
      {| err_type := RTE_FLOW_ERROR_TYPE_NONE;
         err_code := 0;
         err_message :=
           "Flow with pattern exists, updating destination queue" |} /\
    rte_errno bp' = 0 /\
    flow_ids_of bp' = flow_ids_of bp /\
    (exists r', installed hsi bp' i (with_filter F nf) nf r' /\
                filter_match r' nfr = true /\ dst_id r' = dst_id nfr) /\
    (forall i' G p r, installed hsi bp' i' G p r ->
                      filter_match r nfr = true ->
                      i' = i /\ G = with_filter F nf).
Proof.
  intros Hc Hnf Hwf Hvn HF Hin Hm Hd Huniq Hids Hl2 Hty Hj Hdj Hlive.
  destruct (create_compiles _ _ _ _ _ _ _ _ _ Hc) as [-> Hfl].
  destruct (match_filter_update _ _ _ _ _ _ _ _ Hnf Hwf Hvn HF Hin Hm Hd
              Huniq Hl2) as (bp_m & Em & HFLm).
  pose proof (preserves_done _ _ _ _ _ (same_table_match_filter nf) Em) as HTm.
  unfold create_after_compile. unfold bind at 1. rewrite Em.
  change (- EXDEV =? - EEXIST) with false.
  change (- EXDEV =? - EXDEV) with true. cbv iota.
  destruct (table_obs_filter _ _ _ _ HTm Hnf) as (nfr_m & Hnfm & Hkm).
  destruct (table_obs_vnic _ _ _ _ HTm Hj) as (vnj_m & Hjm & Hidm).
  assert (Hwp : wp (create_install hsi env flow nf (- EXDEV) true)
            (fun r bp' =>
               r = None /\
               flow_error bp' =
                 {| err_type := RTE_FLOW_ERROR_TYPE_NONE;
                    err_code := 0;
                    err_message :=
                      "Flow with pattern exists, updating destination queue" |} /\
               rte_errno bp' = 0) bp_m).
  { apply (create_install_update_returns flow nf (- EXDEV) bp_m nfr_m j vnj_m);
      try assumption.
    - now rewrite (fkey_filter_type _ _ Hkm).
    - rewrite (fkey_dst_id _ _ Hkm). congruence.
    - congruence. }
  apply wp_done in Hwp as (r & bp' & E & -> & Herr & Herrno).
  pose proof (preserves_done _ _ _ _ _
                (same_table_create_install_update flow nf (- EXDEV)) E) as HT'.
  pose proof (preserves_done _ _ _ _ _
                (same_flows_create_install_update flow nf (- EXDEV)) E) as HF'.
  assert (HT : same table_obs bp_c bp')
    by (unfold same in *; congruence).
  assert (HFL : map flow_list (vnic_info bp') =
                <[i := flow_set_filter F nf (flow_list vn)]>
                  (map flow_list (vnic_info bp_c)))
    by (unfold same_flows in HF'; congruence).
  exists bp'. split; [assumption|]. split; [assumption|].
  split; [assumption|]. split; [|split].
  - rewrite (updated_ids bp_c bp' nf i vn F Hvn HFL).
    now apply flow_ids_of_flows.
  - eapply updated_flow; eassumption.
  - eapply updated_flow_only; eassumption.
Qed.

End DestinationUpdate.

Module UpdateScenario.
Import Sample.

(** [Scenario.one_flow]'s pattern, now sent to queue 2. *)
Definition bp_c : bnxt := DuplicateScenario.compiled (queue 2).

Definition vnic (bp : bnxt) (i : nat) : bnxt_vnic_info :=
  default unused_vnic (vnic_info bp !! i).

Definition request : result (option nat) :=
  create (Some attr_in) (Some DuplicateScenario.pattern) (Some (queue 2))
    Scenario.one_flow.

End UpdateScenario.

Lemma destination_update_witness :
  exists bp',
    UpdateScenario.request = Done None bp' /\
    flow_error bp' =
      {| err_type := RTE_FLOW_ERROR_TYPE_NONE;
         err_code := 0;
         err_message :=
           "Flow with pattern exists, updating destination queue" |} /\
    rte_errno bp' = 0 /\
    flow_ids_of bp' = flow_ids_of Scenario.one_flow /\
    (exists r',
       installed Sample.hsi bp' 1
         (with_filter DuplicateScenario.flow0 3) 3 r' /\
       filter_match r'
         (DuplicateScenario.record UpdateScenario.bp_c 3) = true /\
       dst_id r' = dst_id (DuplicateScenario.record UpdateScenario.bp_c 3)) /\
    (forall i' G p r,
       installed Sample.hsi bp' i' G p r ->
       filter_match r (DuplicateScenario.record UpdateScenario.bp_c 3) = true ->
       i' = 1%nat /\ G = with_filter DuplicateScenario.flow0 3).
Proof.
  pose (bp_c := UpdateScenario.bp_c).
  apply (destination_update Sample.hsi Sample.env Sample.attr_in
           DuplicateScenario.pattern (Sample.queue 2) Scenario.one_flow
           1%nat 3%nat bp_c (DuplicateScenario.record bp_c 3) 1%nat
           (UpdateScenario.vnic bp_c 1) DuplicateScenario.flow0 1%nat
           (DuplicateScenario.record bp_c 1) 2%nat
           (UpdateScenario.vnic bp_c 2)).
  - split; [reflexivity|]. split; [reflexivity|].
    exists (Sample.state_of (rte_zmalloc_flow Sample.env Scenario.one_flow)).
    exists (Sample.state_of
              (bnxt_get_unused_filter
                 (Sample.state_of
                    (rte_zmalloc_flow Sample.env Scenario.one_flow)))).
    split; [vm_compute; reflexivity|].
    split; vm_compute; reflexivity.
  - vm_compute. reflexivity.
  - intros i vn G Hvn HIn. concrete_flow i vn Hvn HIn Hff Hp.
    exists 1%nat, (DuplicateScenario.record bp_c 1).
    split; vm_compute; reflexivity.
  - vm_compute. reflexivity.
  - eexists. split; [vm_compute; reflexivity|].
    split; [vm_compute; discriminate|].
    split; [simpl; left; reflexivity|].
    split; vm_compute; reflexivity.
  - vm_compute. left. reflexivity.
  - vm_compute. reflexivity.
  - vm_compute. discriminate.
  - intros i G p r (vn & Hvn & _ & HIn & Hff & Hp) _.
    concrete_flow i vn Hvn HIn Hff Hp. split; reflexivity.
  - intros G HIn _. vm_compute in HIn. destruct HIn as [<- | []]. reflexivity.
  - intros q Hq. vm_compute in Hq. discriminate.
  - vm_compute. discriminate.
  - vm_compute. reflexivity.
  - vm_compute. reflexivity.
  - vm_compute. discriminate.
Defined.

(** C2 (the claim as stated). The second request of the scenario is not a
    successful [create] for its caller: the call returns NULL, which
    [rte_flow_create] documents as failure, while the table is updated. *)
Example superseding_create_returns_null :
  Sample.value_of UpdateScenario.request = Some None /\
  flow_ids_of (Sample.state_of UpdateScenario.request) =
    [[]; [0%nat]; []; []] /\
  (dst_id <$> filter_info Scenario.one_flow !! 1%nat) = Some 101 /\
  (flow_list <$> vnic_info (Sample.state_of UpdateScenario.request) !! 1%nat) =
    Some [with_filter DuplicateScenario.flow0 3] /\
  (dst_id <$> filter_info (Sample.state_of UpdateScenario.request) !! 3%nat) =
    Some 102.
Proof. vm_compute. repeat split; reflexivity. Qed.

(** ** Shared L2 filters *)

(** The L2 match fields [bnxt_find_matching_l2_filter] compares. *)
Definition l2key (f : bnxt_filter_info) : Z * Z * Z * Z * Z * Z * Z :=
  (ethertype f, l2_ovlan f, l2_ovlan_mask f, l2_ivlan f, l2_ivlan_mask f,
   src_macaddr f, dst_macaddr f).

Lemma l2_fields_match_key mf nf :
  l2_fields_match mf nf = true <-> l2key mf = l2key nf.
Proof.
  unfold l2_fields_match, l2key. rewrite !andb_true_iff, !Z.eqb_eq.
  split.
  - intros [[[[[[-> ->] ->] ->] ->] ->] ->]. reflexivity.
  - intros [= -> -> -> -> -> -> ->]. auto 10.
Qed.

(** A VNIC the scans of the flow table visit. *)
Definition live (hsi : hsi_defs) (vn : bnxt_vnic_info) : Prop :=
  fw_vnic_id vn <> INVALID_VNIC_ID hsi.

(** Every VNIC that was live is still there, and live. *)
Definition live_mono (hsi : hsi_defs) (bp bp' : bnxt) : Prop :=
  forall i vn, vnic_info bp !! i = Some vn -> live hsi vn ->
               exists vn', vnic_info bp' !! i = Some vn' /\ live hsi vn'.

#[global] Instance live_mono_preorder hsi : PreOrder (live_mono hsi).
Proof.
  split.
  - intros bp i vn Hvn Hl. eauto.
  - intros a b c Hab Hbc i vn Hvn Hl.
    destruct (Hab i vn Hvn Hl) as (vn' & Hvn' & Hl'). eauto.
Qed.

(** The hardware identifiers of the VNICs. *)
Definition fw_ids (bp : bnxt) : list Z := map fw_vnic_id (vnic_info bp).

#[global] Hint Unfold fw_ids : obs.

Lemma same_fw_ids_live hsi bp bp' :
  same fw_ids bp bp' -> live_mono hsi bp bp'.
Proof.
  intros H i vn Hvn Hl. unfold same, fw_ids in H.
  destruct (map_lookup_same fw_vnic_id _ _ i vn H Hvn) as (vn' & Hvn' & Hid).
  exists vn'. split; [assumption|]. unfold live in *. congruence.
Qed.

Lemma preserves_weaken (R R' : bnxt -> bnxt -> Prop) {A} (m : M A) :
  (forall bp bp', R bp bp' -> R' bp bp') -> preserves R m -> preserves R' m.
Proof.
  intros HR Hm bp. eapply wlp_mono; [|apply Hm]. intros a bp' H. now apply HR.
Qed.

Lemma preserves_conj (R R' : bnxt -> bnxt -> Prop) {A} (m : M A) :
  preserves R m -> preserves R' m ->
  preserves (fun bp bp' => R bp bp' /\ R' bp bp') m.
Proof.
  intros H H' bp. specialize (H bp). specialize (H' bp).
  unfold wlp in *. destruct (m bp); auto.
Qed.

#[global] Hint Extern 5 (preserves (live_mono _) _) =>
  apply (preserves_weaken (same fw_ids));
    [apply same_fw_ids_live | solve [auto with frame]] : frame.

(** The number of L2 filters the driver has asked the firmware to
    install. *)
Fixpoint l2_install_count (log : list env_call) : nat :=
  match log with
  | [] => 0
  | call_hwrm_set_l2_filter _ _ :: rest => S (l2_install_count rest)
  | _ :: rest => l2_install_count rest
  end.

Definition l2_installs (bp : bnxt) : nat := l2_install_count (env_log bp).

#[global] Hint Unfold l2_installs : obs.

(** The state around a filter [nf] that is being compiled: the flow lists,
    the filter lists of the VNICs, the free list, every other filter, the
    part [proj] of [nf] itself, and the L2 installs made so far. *)
Definition blank_filter : bnxt_filter_info := Sample.zero_filter.

Definition nf_obs {X : Type} (nf : nat) (proj : bnxt_filter_info -> X)
    (bp : bnxt) :=
  (map flow_list (vnic_info bp), map vnic_filter (vnic_info bp),
   free_filter_list bp, <[nf := blank_filter]> (filter_info bp),
   proj <$> filter_info bp !! nf, l2_installs bp).

#[global] Hint Unfold nf_obs : obs.

Ltac solve_same ::=
  intros; unfold same; autounfold with obs; simpl;
  rewrite ?list_insert_insert_eq;
  try (rewrite list_lookup_insert_eq by (eapply lookup_lt_Some; eassumption));
  try match goal with
      | H : _ !! _ = Some _ |- _ => rewrite H
      end;
  repeat first
    [ reflexivity
    | eapply map_insert_same; [eassumption | reflexivity]
    | progress f_equal ].

Section SharedFrames.
Variable hsi : hsi_defs.
Variable env : list env_call -> env_call -> env_resp.

(** The firmware never hands out the invalid-VNIC sentinel as the
    identifier of an allocated VNIC. *)
Hypothesis vnic_alloc_valid :
  forall log v,
    resp_rc (env log (call_hwrm_vnic_alloc v)) = 0 ->
    resp_val (env log (call_hwrm_vnic_alloc v)) <> INVALID_VNIC_ID hsi.

Lemma live_mono_vnic_alloc v :
  preserves (live_mono hsi) (bnxt_hwrm_vnic_alloc env v).
Proof.
  intros bp. unfold bnxt_hwrm_vnic_alloc.
  apply wlp_bind, wlp_call_env, wlp_bind.
  destruct (resp_rc _ =? 0) eqn:Hrc.
  - apply Z.eqb_eq in Hrc. apply wlp_vnic_upd. intros vn Hvn.
    apply wlp_ret. intros i x Hx Hl. simpl in *.
    destruct (decide (i = v)) as [-> | Hne].
    + eexists. split.
      * apply list_lookup_insert_eq. eapply lookup_lt_Some; eassumption.
      * unfold live. simpl. now apply vnic_alloc_valid.
    + exists x. split; [|assumption].
      now rewrite list_lookup_insert_ne by auto.
  - apply wlp_ret, wlp_ret. intros i x Hx Hl. eauto.
Qed.

Lemma live_mono_vnic_prep v :
  preserves (live_mono hsi) (bnxt_vnic_prep hsi env v).
Proof.
  pose proof live_mono_vnic_alloc.
  unfold bnxt_vnic_prep, bnxt_vnic_grp_alloc, bnxt_hwrm_vnic_ctx_alloc,
    bnxt_hwrm_vnic_cfg, bnxt_hwrm_vnic_plcmode_cfg.
  frame.
Qed.


(** *** Code that leaves the filters alone *)

Section AroundFilter.
Context {X : Type} (nf : nat) (proj : bnxt_filter_info -> X).

Lemma around_parse_attr attr :
  preserves (same (nf_obs nf proj)) (bnxt_flow_parse_attr attr).
Proof. unfold bnxt_flow_parse_attr. frame. Qed.

Lemma around_type_check pattern :
  preserves (same (nf_obs nf proj)) (bnxt_filter_type_check pattern).
Proof. unfold bnxt_filter_type_check. frame. Qed.

Lemma around_vnic_prep v :
  preserves (same (nf_obs nf proj)) (bnxt_vnic_prep hsi env v).
Proof.
  unfold bnxt_vnic_prep, bnxt_vnic_grp_alloc, bnxt_hwrm_vnic_alloc,
    bnxt_hwrm_vnic_ctx_alloc, bnxt_hwrm_vnic_cfg, bnxt_hwrm_vnic_plcmode_cfg.
  frame.
Qed.

Lemma around_parse_flow_ret vnic rxq rc :
  preserves (same (nf_obs nf proj)) (parse_flow_ret vnic rxq rc).
Proof. unfold parse_flow_ret. frame. Qed.

Lemma around_goto_ret_error vnic rxq code ty msg :
  preserves (same (nf_obs nf proj)) (goto_ret_error vnic rxq code ty msg).
Proof.
  pose proof around_parse_flow_ret. unfold goto_ret_error. frame.
Qed.

Lemma around_parse_flow_done act vnic rxq rc :
  preserves (same (nf_obs nf proj)) (parse_flow_done act vnic rxq rc).
Proof.
  pose proof around_goto_ret_error. unfold parse_flow_done. frame.
Qed.

Lemma around_zmalloc : preserves (same (nf_obs nf proj)) (rte_zmalloc_flow env).
Proof. unfold rte_zmalloc_flow. frame. Qed.

End AroundFilter.

(** *** The field extractor writes the candidate filter only *)

(** The state around [nf] while the pattern is compiled: no VNIC changes. *)
Definition type_obs {X : Type} (nf : nat) (proj : bnxt_filter_info -> X)
    (bp : bnxt) :=
  (vnic_info bp, free_filter_list bp, <[nf := blank_filter]> (filter_info bp),
   proj <$> filter_info bp !! nf, l2_installs bp).

#[local] Hint Unfold type_obs : obs.

Lemma type_obs_weaken {X Y} nf (proj : bnxt_filter_info -> X)
    (proj' : bnxt_filter_info -> Y) bp bp' :
  (forall r r', proj r = proj r' -> proj' r = proj' r') ->
  same (type_obs nf proj) bp bp' ->
  same (nf_obs nf proj') bp bp' /\ same vnic_info bp bp'.
Proof.
  unfold same, type_obs, nf_obs. intros Hp [= H1 H2 H3 H4 H5].
  assert (Hq : proj' <$> filter_info bp' !! nf =
               proj' <$> filter_info bp !! nf).
  { destruct (filter_info bp' !! nf), (filter_info bp !! nf); simpl in *;
      try discriminate; [|reflexivity].
    injection H4 as H4. f_equal. now apply Hp. }
  rewrite H1, H2, H3, H5, Hq. split; reflexivity.
Qed.

Lemma type_obs_type_check nf pattern :
  preserves (same (type_obs nf filter_type)) (bnxt_filter_type_check pattern).
Proof. unfold bnxt_filter_type_check. frame. Qed.

Lemma type_obs_parse_item nf attr u ee it lv :
  preserves (same (type_obs nf filter_type))
    (parse_item hsi env attr nf u ee it lv).
Proof.
  unfold parse_item, parse_any, parse_eth, parse_vlan, parse_ipv4, parse_ipv6,
    parse_tcp, parse_udp, parse_ports, parse_vxlan, parse_nvgre, parse_gre,
    parse_vf, bnxt_hwrm_func_qcfg_vf_dflt_vnic_id.
  frame.
Qed.

Lemma type_obs_parse_items nf attr u ee items :
  forall lv,
    preserves (same (type_obs nf filter_type))
      (parse_items hsi env attr nf u ee items lv).
Proof.
  induction items as [|it next IH]; intros lv.
  - apply preserves_fault.
  - destruct (is_end_item it) eqn:Hend.
    + destruct it; try discriminate Hend. apply preserves_ret. exact _.
    + rewrite parse_items_cons by assumption.
      apply preserves_bind_cont;
        [exact _ | apply type_obs_parse_item | apply IH].
Qed.


Lemma type_obs_proj {X Y} nf (proj : bnxt_filter_info -> X)
    (proj' : bnxt_filter_info -> Y) bp bp' :
  (forall r r', proj r = proj r' -> proj' r = proj' r') ->
  same (type_obs nf proj) bp bp' -> same (type_obs nf proj') bp bp'.
Proof.
  unfold same, type_obs. intros Hp [= H1 H2 H3 H4 H5].
  assert (Hq : proj' <$> filter_info bp' !! nf =
               proj' <$> filter_info bp !! nf).
  { destruct (filter_info bp' !! nf), (filter_info bp !! nf); simpl in *;
      try discriminate; [|reflexivity].
    injection H4 as H4. f_equal. now apply Hp. }
  rewrite H1, H2, H3, H5, Hq. reflexivity.
Qed.

(** The candidate filter is not a tunnel-redirect filter. *)
Definition not_tunnel (nf : nat) (bp : bnxt) : Prop :=
  exists r, filter_info bp !! nf = Some r /\
            filter_type r <> HWRM_CFA_TUNNEL_REDIRECT_FILTER.

Lemma not_tunnel_same nf bp bp' :
  not_tunnel nf bp -> same (type_obs nf filter_type) bp bp' ->
  not_tunnel nf bp'.
Proof.
  intros (r & Hr & Hty) H. unfold same, type_obs in H.
  injection H as _ _ _ H _. rewrite Hr in H. simpl in H.
  destruct (filter_info bp' !! nf) as [r'|] eqn:E; [|discriminate].
  injection H as H. exists r'. split; [assumption | congruence].
Qed.

(** [bnxt_validate_and_parse_flow_type] writes the candidate filter only,
    and leaves it an exact-match or tuple filter. *)
Lemma parse_flow_type_effect nf attr pattern bp :
  wlp (bnxt_validate_and_parse_flow_type hsi env attr pattern nf)
    (fun rc bp' =>
       same (type_obs nf (fun _ => tt)) bp bp' /\
       (rc = 0 -> not_tunnel nf bp')) bp.
Proof.
  assert (Hforget : forall a b,
            same (type_obs nf filter_type) a b ->
            same (type_obs nf (fun _ => tt)) a b).
  { intros a b. now apply type_obs_proj. }
  unfold bnxt_validate_and_parse_flow_type.
  apply wlp_bind, wlp_lift_opt. intros item _.
  apply wlp_bind.
  apply (wlp_frame (same (type_obs nf filter_type)) _ _ bp bp);
    [apply type_obs_type_check | reflexivity |].
  intros u bp1 H1. destruct (u <? 0) eqn:Hu.
  - apply wlp_ret. split; [auto|]. intros ->. discriminate.
  - apply wlp_bind, wlp_filter_upd. intros f Hf.
    match goal with
    | |- wlp _ _ ?s => set (bp2 := s)
    end.
    assert (H2 : same (type_obs nf (fun _ => tt)) bp bp2).
    { transitivity bp1; [auto|]. subst bp2. solve_same. }
    assert (Hty : not_tunnel nf bp2).
    { eexists. split.
      - subst bp2. simpl. apply list_lookup_insert_eq.
        eapply lookup_lt_Some; eassumption.
      - simpl. now destruct (nz u). }
    clearbody bp2.
    apply wlp_bind.
    apply (wlp_frame (same (type_obs nf filter_type)) _ _ bp2 bp2);
      [apply type_obs_parse_items | reflexivity |].
    intros [rc|lv] bp3 H3.
    + apply wlp_ret. split.
      * transitivity bp2; auto.
      * intros _. eapply not_tunnel_same; eassumption.
    + apply wlp_bind.
      apply (wlp_frame (same (type_obs nf filter_type)) _ _ bp2 bp3);
        [auto with frame | assumption |].
      intros _ bp4 H4. apply wlp_bind.
      apply (wlp_frame (same (type_obs nf filter_type)) _ _ bp2 bp4);
        [auto with frame | assumption |].
      intros _ bp5 H5. apply wlp_ret. split.
      * transitivity bp2; auto.
      * intros _. eapply not_tunnel_same; eassumption.
Qed.


End SharedFrames.

#[global] Hint Unfold type_obs : obs.

(** *** Filters other than the ones being written *)

(** The pool has the size it had, and every filter outside [S] has the
    contents it had. *)
Definition others_same (S : list nat) (bp bp' : bnxt) : Prop :=
  length (filter_info bp') = length (filter_info bp) /\
  forall q, ~ In q S -> filter_info bp' !! q = filter_info bp !! q.

#[global] Instance others_same_preorder S : PreOrder (others_same S).
Proof.
  split.
  - intros bp. split; auto.
  - intros a b c [Hl1 H1] [Hl2 H2]. split; [congruence|].
    intros q Hq. rewrite H2, H1; auto.
Qed.

Lemma others_same_incl S S' bp bp' :
  (forall q, In q S -> In q S') ->
  others_same S bp bp' -> others_same S' bp bp'.
Proof. intros Hi [Hl H]. split; [assumption|]. intros q Hq. apply H. auto. Qed.

Lemma others_same_filter_upd S p g :
  In p S -> preserves (others_same S) (filter_upd p g).
Proof.
  intros Hp bp. apply wlp_filter_upd. intros f Hf. split; simpl.
  - apply length_insert.
  - intros q Hq. apply list_lookup_insert_ne. congruence.
Qed.

Lemma others_same_of_same S bp bp' :
  same filter_info bp bp' -> others_same S bp bp'.
Proof. unfold same. intros H. split; now rewrite H. Qed.

#[global] Hint Extern 1 (preserves (others_same _) (filter_upd _ _)) =>
  apply others_same_filter_upd; simpl; auto : frame.
#[global] Hint Extern 5 (preserves (others_same _) _) =>
  apply (preserves_weaken (same filter_info));
    [apply others_same_of_same | solve [auto with frame]] : frame.

(** The part [proj] of filter [q]. *)
Definition rec_obs {X : Type} (q : nat) (proj : bnxt_filter_info -> X)
    (bp : bnxt) : option X :=
  proj <$> filter_info bp !! q.

Lemma rec_obs_filter_upd_eq {X} q (proj : bnxt_filter_info -> X) g :
  (forall x, proj (g x) = proj x) ->
  preserves (same (rec_obs q proj)) (filter_upd q g).
Proof.
  intros Hg bp. apply wlp_filter_upd. intros f Hf.
  unfold same, rec_obs. simpl.
  rewrite list_lookup_insert_eq by (eapply lookup_lt_Some; eassumption).
  rewrite Hf. simpl. now rewrite Hg.
Qed.

Lemma rec_obs_filter_upd_ne {X} q (proj : bnxt_filter_info -> X) p g :
  p <> q -> preserves (same (rec_obs q proj)) (filter_upd p g).
Proof.
  intros Hne bp. apply wlp_filter_upd. intros f Hf.
  unfold same, rec_obs. simpl. now rewrite list_lookup_insert_ne.
Qed.

Lemma rec_obs_of_same {X} q (proj : bnxt_filter_info -> X) bp bp' :
  same filter_info bp bp' -> same (rec_obs q proj) bp bp'.
Proof. unfold same, rec_obs. now intros ->. Qed.

#[global] Hint Extern 1 (preserves (same (rec_obs _ _)) (filter_upd _ _)) =>
  first [ apply rec_obs_filter_upd_eq; intros; reflexivity
        | apply rec_obs_filter_upd_ne; first [assumption | congruence] ]
  : frame.
#[global] Hint Extern 5 (preserves (same (rec_obs _ _)) _) =>
  apply (preserves_weaken (same filter_info));
    [apply rec_obs_of_same | solve [auto with frame]] : frame.

Lemma rec_obs_lookup {X} q (proj : bnxt_filter_info -> X) bp bp' r :
  same (rec_obs q proj) bp bp' -> filter_info bp !! q = Some r ->
  exists r', filter_info bp' !! q = Some r' /\ proj r' = proj r.
Proof.
  unfold same, rec_obs. intros H Hr. rewrite Hr in H. simpl in H.
  destruct (filter_info bp' !! q) as [r'|] eqn:E; [|discriminate].
  injection H as H. eauto.
Qed.

Section SharedFrames2.
Variable hsi : hsi_defs.
Variable env : list env_call -> env_call -> env_resp.


(** *** The search for a shared L2 filter *)

(** Some queued flow owns [p], whose contents [pr] carry no back-reference
    and have the L2 fields of [nfr]. *)
Definition l2_candidate (bp : bnxt) (p : nat) (pr nfr : bnxt_filter_info)
  : Prop :=
  exists i vn G,
    vnic_info bp !! i = Some vn /\ In G (flow_list vn) /\
    flow_filter G = Some p /\
    matching_l2_fltr_ptr pr = None /\ l2_fields_match pr nfr = true.

(** No flow queued on a live VNIC owns a filter without back-reference that
    has the L2 fields of [nfr]. *)
Definition no_l2_candidate (bp : bnxt) (nfr : bnxt_filter_info) : Prop :=
  forall i vn G p r,
    vnic_info bp !! i = Some vn -> live hsi vn -> In G (flow_list vn) ->
    flow_filter G = Some p -> filter_info bp !! p = Some r ->
    matching_l2_fltr_ptr r = None -> l2_fields_match r nfr = false.

Lemma l2_scan_flows_spec fi nfr flows res :
  l2_scan_flows fi nfr flows = Some res ->
  match res with
  | Some p =>
      exists G r, In G flows /\ flow_filter G = Some p /\ fi !! p = Some r /\
                  matching_l2_fltr_ptr r = None /\
                  l2_fields_match r nfr = true
  | None =>
      forall G p r, In G flows -> flow_filter G = Some p -> fi !! p = Some r ->
                    matching_l2_fltr_ptr r = None ->
                    l2_fields_match r nfr = false
  end.
Proof.
  revert res. induction flows as [|F flows IH]; intros res H; simpl in H.
  - injection H as <-. intros ? ? ? [].
  - destruct (flow_filter F) as [p|] eqn:Hp; [|discriminate].
    destruct (fi !! p) as [mf|] eqn:Hmf; [|discriminate].
    destruct (matching_l2_fltr_ptr mf) as [b|] eqn:Hb; simpl in H.
    + specialize (IH _ H). destruct res as [q|].
      * destruct IH as (G & r & HG & H'). exists G, r.
        split; [now right | assumption].
      * intros G q r [<- | HG] Hq Hr Hm; [congruence | eauto].
    + destruct (l2_fields_match mf nfr) eqn:Hm.
      * injection H as <-. exists F, mf.
        split; [now left | auto].
      * specialize (IH _ H). destruct res as [q|].
        -- destruct IH as (G & r & HG & H'). exists G, r.
           split; [now right | assumption].
        -- intros G q r [<- | HG] Hq Hr Hm'; [congruence | eauto].
Qed.

Lemma l2_scan_vnics_spec fi nfr vnics res :
  l2_scan_vnics hsi fi nfr vnics = Some res ->
  match res with
  | Some p =>
      exists vn G r, In vn vnics /\ In G (flow_list vn) /\
                     flow_filter G = Some p /\ fi !! p = Some r /\
                     matching_l2_fltr_ptr r = None /\
                     l2_fields_match r nfr = true
  | None =>
      forall vn G p r, In vn vnics -> live hsi vn -> In G (flow_list vn) ->
                       flow_filter G = Some p -> fi !! p = Some r ->
                       matching_l2_fltr_ptr r = None ->
                       l2_fields_match r nfr = false
  end.
Proof.
  revert res. induction vnics as [|vnic rest IH]; intros res H; simpl in H.
  - injection H as <-. intros ? ? ? ? [].
  - assert (Hrest : forall res',
              l2_scan_vnics hsi fi nfr rest = Some res' ->
              (forall G p r, live hsi vnic -> In G (flow_list vnic) ->
                             flow_filter G = Some p -> fi !! p = Some r ->
                             matching_l2_fltr_ptr r = None ->
                             l2_fields_match r nfr = false) ->
              match res' with
              | Some p =>
                  exists vn G r, In vn (vnic :: rest) /\ In G (flow_list vn) /\
                                 flow_filter G = Some p /\ fi !! p = Some r /\
                                 matching_l2_fltr_ptr r = None /\
                                 l2_fields_match r nfr = true
              | None =>
                  forall vn G p r, In vn (vnic :: rest) -> live hsi vn ->
                                   In G (flow_list vn) ->
                                   flow_filter G = Some p -> fi !! p = Some r ->
                                   matching_l2_fltr_ptr r = None ->
                                   l2_fields_match r nfr = false
              end).
    { intros res' H' Hhere. specialize (IH _ H'). destruct res' as [q|].
      - destruct IH as (vn & G & r & Hvn & H''). exists vn, G, r.
        split; [now right | assumption].
      - intros vn G p r [<- | Hvn]; eauto. }
    destruct (fw_vnic_id vnic =? INVALID_VNIC_ID hsi) eqn:Hid.
    + apply Z.eqb_eq in Hid. apply Hrest; [assumption|].
      intros G p r Hl. contradiction.
    + destruct (l2_scan_flows fi nfr (flow_list vnic)) as [[q|]|] eqn:Hs;
        [| |discriminate].
      * injection H as <-.
        destruct (l2_scan_flows_spec _ _ _ _ Hs) as (G & r & HG & H').
        exists vnic, G, r. split; [now left | auto].
      * apply Hrest; [assumption|]. intros G p r _.
        apply (l2_scan_flows_spec _ _ _ _ Hs).
Qed.


(** What [bnxt_find_matching_l2_filter] reads first: the head [f0] of the
    default VNIC's filter list and the candidate [nf]. *)
Definition l2_context (nf : nat) (bp : bnxt) (f0 : nat)
    (f0r nfr : bnxt_filter_info) : Prop :=
  exists vn0,
    vnic_info bp !! 0%nat = Some vn0 /\ head (vnic_filter vn0) = Some f0 /\
    filter_info bp !! f0 = Some f0r /\ filter_info bp !! nf = Some nfr.

Lemma In_lookup {A} (l : list A) x : In x l <-> exists i, l !! i = Some x.
Proof.
  rewrite <- list_elem_of_In. apply list_elem_of_lookup.
Qed.

Lemma find_matching_l2_spec nf bp :
  wlp (bnxt_find_matching_l2_filter hsi nf)
    (fun o bp' =>
       bp' = bp /\
       exists f0 f0r nfr,
         l2_context nf bp f0 f0r nfr /\
         match o with
         | Some p =>
             exists pr, filter_info bp !! p = Some pr /\
               (p = f0 /\ l2_addr f0r = dst_macaddr nfr \/
                l2_candidate bp p pr nfr)
         | None =>
             l2_addr f0r <> dst_macaddr nfr /\ no_l2_candidate bp nfr
         end) bp.
Proof.
  unfold bnxt_find_matching_l2_filter.
  apply wlp_bind, wlp_read_vnic. intros vn0 Hvn0.
  apply wlp_bind, wlp_lift_opt. intros f0 Hf0.
  apply wlp_bind, wlp_read_filter. intros f0r Hf0r.
  apply wlp_bind, wlp_read_filter. intros nfr Hnfr.
  assert (Hctx : l2_context nf bp f0 f0r nfr) by (exists vn0; auto).
  destruct (l2_addr f0r =? dst_macaddr nfr) eqn:Haddr.
  - apply Z.eqb_eq in Haddr. apply wlp_ret. split; [reflexivity|].
    exists f0, f0r, nfr. split; [assumption|]. exists f0r. auto.
  - apply Z.eqb_neq in Haddr.
    apply wlp_bind, wlp_gets, wlp_bind, wlp_gets, wlp_lift_opt.
    intros res Hres. split; [reflexivity|].
    exists f0, f0r, nfr. split; [assumption|].
    apply l2_scan_vnics_spec in Hres. destruct res as [p|].
    + destruct Hres as (vn & G & r & Hvn & HG & Hp & Hr & Hm & Hk).
      apply in_rev, In_lookup in Hvn as [i Hi].
      exists r. split; [assumption|]. right. exists i, vn, G. auto.
    + split; [assumption|]. intros i vn G p r Hi Hl HG Hp Hr Hm.
      apply (Hres vn G p r); auto.
      apply in_rev. rewrite rev_involutive. apply In_lookup. eauto.
Qed.

(** [bnxt_get_l2_filter] found the filter [x] to share: its count goes up
    by one and the candidate points at it; nothing else changes. *)
Definition l2_shared (nf x : nat) (bp bp' : bnxt) : Prop :=
  exists f0 f0r nfr xr,
    l2_context nf bp f0 f0r nfr /\ filter_info bp !! x = Some xr /\
    (x = f0 /\ l2_addr f0r = dst_macaddr nfr \/ l2_candidate bp x xr nfr) /\
    bp' =
      set_filter_info
        (<[nf := set_matching_l2_fltr_ptr (Some x) nfr]>
           (<[x := set_l2_ref_cnt ((l2_ref_cnt xr + 1) mod UINT32_MOD) xr]>
              (filter_info bp))) bp.

(** [bnxt_get_l2_filter] found nothing to share: it took [x] from the free
    list, had it installed, and counted the first reference. *)
Definition l2_created (nf x : nat) (bp bp' : bnxt) : Prop :=
  exists f0 f0r nfr xr rest,
    l2_context nf bp f0 f0r nfr /\ filter_info bp !! x = Some xr /\
    l2_addr f0r <> dst_macaddr nfr /\ no_l2_candidate bp nfr /\
    free_filter_list bp = x :: rest /\ free_filter_list bp' = rest /\
    vnic_info bp' = vnic_info bp /\
    others_same [nf; x] bp bp' /\
    (exists xr', filter_info bp' !! x = Some xr' /\
                 l2_ref_cnt xr' = (l2_ref_cnt xr + 1) mod UINT32_MOD) /\
    filter_info bp' !! nf = Some (set_matching_l2_fltr_ptr None nfr) /\
    l2_installs bp' = S (l2_installs bp).


End SharedFrames2.

(** *** Several relations at once *)

Definition rel_and (R R' : bnxt -> bnxt -> Prop) (bp bp' : bnxt) : Prop :=
  R bp bp' /\ R' bp bp'.

#[global] Instance rel_and_preorder R R' :
  PreOrder R -> PreOrder R' -> PreOrder (rel_and R R').
Proof.
  intros H H'. split.
  - intros bp. split; reflexivity.
  - intros a b c [H1 H1'] [H2 H2']. split; etransitivity; eassumption.
Qed.

Lemma preserves_rel_and (R R' : bnxt -> bnxt -> Prop) {A} (m : M A) :
  preserves R m -> preserves R' m -> preserves (rel_and R R') m.
Proof. apply preserves_conj. Qed.

Ltac rel_frame :=
  lazymatch goal with
  | |- preserves (rel_and _ _) _ => apply preserves_rel_and; rel_frame
  | |- _ => frame
  end.

(** One statement of a computation whose effect is within [R]; the state
    before the statements is [bp0]. *)
Ltac hstep R bp0 :=
  apply wlp_bind;
  lazymatch goal with
  | Hcur : R bp0 ?b |- wlp _ _ ?b =>
      eapply (wlp_frame R _ _ bp0);
      [solve [rel_frame] | exact Hcur | clear Hcur; intros ? ? ?]
  end.

Section SharedFrames3.
Variable hsi : hsi_defs.
Variable env : list env_call -> env_call -> env_resp.

(** The writes of [bnxt_create_l2_filter] to the new filter [x], the
    firmware command and the count of the first reference apart. *)
Abbreviation l2_setup nf x :=
  (rel_and (others_same [nf%nat; x%nat])
     (rel_and (same (rec_obs nf id))
        (rel_and (same (rec_obs x l2_ref_cnt))
           (same (fun bp =>
                    (vnic_info bp, free_filter_list bp, l2_installs bp)))))).

Lemma l2_setup_facts nf x bp bp' :
  l2_setup nf x bp bp' ->
  others_same [nf; x] bp bp' /\
  filter_info bp' !! nf = filter_info bp !! nf /\
  (forall r', filter_info bp' !! x = Some r' ->
     exists r, filter_info bp !! x = Some r /\ l2_ref_cnt r' = l2_ref_cnt r) /\
  vnic_info bp' = vnic_info bp /\
  free_filter_list bp' = free_filter_list bp /\
  l2_installs bp' = l2_installs bp.
Proof.
  intros (Ho & Hn & Hx & Hs). split; [assumption|].
  unfold same in Hs. injection Hs as Hv Hp Hi.
  split; [|split; [|auto]].
  - unfold same, rec_obs in Hn.
    destruct (filter_info bp' !! nf), (filter_info bp !! nf); simpl in Hn;
      congruence.
  - intros r' Hr'.
    destruct (rec_obs_lookup _ _ _ _ _ (same_sym _ _ _ Hx) Hr')
      as (r & Hr & Hc).
    eauto.
Qed.

Lemma create_l2_filter_effect nf v bp :
  ~ In nf (free_filter_list bp) ->
  wlp (bnxt_create_l2_filter hsi env nf v)
    (fun o bp' =>
       forall x, o = Some x ->
         x <> nf /\
         exists xr rest,
           filter_info bp !! x = Some xr /\
           free_filter_list bp = x :: rest /\ free_filter_list bp' = rest /\
           vnic_info bp' = vnic_info bp /\
           others_same [nf; x] bp bp' /\
           (exists xr', filter_info bp' !! x = Some xr' /\
                        l2_ref_cnt xr' = (l2_ref_cnt xr + 1) mod UINT32_MOD) /\
           filter_info bp' !! nf = filter_info bp !! nf /\
           l2_installs bp' = S (l2_installs bp)) bp.
Proof.
  intros Hpool. unfold bnxt_create_l2_filter, bnxt_get_unused_filter.
  apply wlp_bind, wlp_bind, wlp_gets.
  destruct (free_filter_list bp) as [|x rest] eqn:Hfl.
  { apply wlp_ret, wlp_ret. intros ? [=]. }
  assert (Hne : x <> nf) by (intros ->; apply Hpool; now left).
  apply wlp_bind, wlp_modify, wlp_ret.
  match goal with
  | |- wlp _ _ ?s => set (bp0 := s)
  end.
  assert (H0 : l2_setup nf x bp0 bp0) by reflexivity.
  assert (Hi0 : l2_installs bp0 = l2_installs bp) by reflexivity.
  assert (Hv0 : vnic_info bp0 = vnic_info bp) by reflexivity.
  assert (Hf0 : filter_info bp0 = filter_info bp) by reflexivity.
  assert (Hp0 : free_filter_list bp0 = rest) by reflexivity.
  clearbody bp0.
  apply wlp_bind, wlp_read_filter. intros nfr Hnfr.
  repeat hstep (l2_setup nf x) bp0.
  lazymatch goal with
  | H : rel_and _ _ bp0 ?b |- wlp _ _ ?b =>
      apply l2_setup_facts in H as (Ho1 & Hn1 & Hx1 & Hv1 & Hp1 & Hi1);
      revert Ho1 Hn1 Hx1 Hv1 Hp1 Hi1; generalize b; intros bp1; intros
  end.
  unfold bnxt_hwrm_set_l2_filter.
  apply wlp_bind, wlp_bind, wlp_call_env.
  lazymatch goal with
  | |- wlp _ _ ?s => set (bp2 := s)
  end.
  assert (H2 : l2_setup nf x bp2 bp2) by reflexivity.
  assert (Hi2 : l2_installs bp2 = S (l2_installs bp1)) by reflexivity.
  assert (Hv2 : vnic_info bp2 = vnic_info bp1) by reflexivity.
  assert (Hf2 : filter_info bp2 = filter_info bp1) by reflexivity.
  assert (Hp2 : free_filter_list bp2 = free_filter_list bp1) by reflexivity.
  lazymatch goal with
  | |- context [resp_rc ?e] => generalize e
  end.
  clearbody bp2. intros r.
  hstep (l2_setup nf x) bp2.
  lazymatch goal with
  | H : rel_and _ _ bp2 ?b |- wlp _ _ ?b =>
      apply l2_setup_facts in H as (Ho3 & Hn3 & Hx3 & Hv3 & Hp3 & Hi3);
      revert Ho3 Hn3 Hx3 Hv3 Hp3 Hi3; generalize b; intros bp3; intros
  end.
  apply wlp_ret. destruct (nz (resp_rc r)).
  { apply wlp_bind, wlp_modify, wlp_ret. intros ? [=]. }
  apply wlp_bind, wlp_filter_upd. intros f Hf. apply wlp_ret.
  intros ? [= <-]. split; [assumption|].
  destruct (Hx3 _ Hf) as (f2 & Hf2' & Hc2). rewrite Hf2 in Hf2'.
  destruct (Hx1 _ Hf2') as (f0 & Hf0' & Hc0). rewrite Hf0 in Hf0'.
  exists f0, rest. simpl.
  split; [assumption|]. split; [reflexivity|].
  split; [congruence|]. split; [congruence|].
  split; [|split; [|split]].
  - split; simpl.
    + rewrite length_insert. destruct Ho3 as [-> _]. rewrite Hf2.
      destruct Ho1 as [-> _]. now rewrite Hf0.
    + intros q Hq. rewrite list_lookup_insert_ne by (simpl in Hq; tauto).
      destruct Ho3 as [_ ->]; [|assumption]. rewrite Hf2.
      destruct Ho1 as [_ ->]; [|assumption]. now rewrite Hf0.
  - eexists. split.
    + apply list_lookup_insert_eq. eapply lookup_lt_Some; eassumption.
    + simpl. now rewrite Hc2, Hc0.
  - rewrite list_lookup_insert_ne by assumption.
    now rewrite Hn3, Hf2, Hn1, Hf0.
  - change (l2_installs bp3 = S (l2_installs bp)).
    now rewrite Hi3, Hi2, Hi1, Hi0.
Qed.


(** No flow owns [nf], it does not head the default VNIC's filter list and
    it is not free: the filter a caller has just taken from the free list of
    a well-formed pool. *)
Definition fresh_filter (nf : nat) (bp : bnxt) : Prop :=
  ~ In nf (free_filter_list bp) /\
  (forall i vn G, vnic_info bp !! i = Some vn -> In G (flow_list vn) ->
                  flow_filter G <> Some nf) /\
  (forall vn0, vnic_info bp !! 0%nat = Some vn0 ->
               head (vnic_filter vn0) <> Some nf).

Lemma get_l2_filter_effect nf v bp :
  fresh_filter nf bp ->
  wlp (bnxt_get_l2_filter hsi env nf v)
    (fun o bp' =>
       forall x, o = Some x ->
                 x <> nf /\
                 (l2_shared nf x bp bp' \/ l2_created hsi nf x bp bp')) bp.
Proof.
  intros (Hpool & Hown & Hhead). unfold bnxt_get_l2_filter. apply wlp_bind.
  eapply wlp_mono; [|apply find_matching_l2_spec].
  intros o bp1 [-> (f0 & f0r & nfr & Hctx & Ho)]. destruct o as [p|].
  - destruct Ho as (pr & Hpr & Hcase).
    assert (Hne : p <> nf).
    { destruct Hcase as [[-> _] | (i & vn & G & Hvn & HG & Hp & _)].
      - destruct Hctx as (vn0 & Hvn0 & Hh & _). intros ->.
        exact (Hhead _ Hvn0 Hh).
      - intros ->. exact (Hown _ _ _ Hvn HG Hp). }
    apply wlp_bind, wlp_filter_upd. intros f Hf.
    apply wlp_bind, wlp_filter_upd. intros g Hg. apply wlp_ret.
    intros x [= <-]. split; [assumption|]. left. exists f0, f0r, nfr, pr.
    split; [assumption|]. split; [assumption|]. split; [assumption|].
    simpl in Hg. rewrite list_lookup_insert_ne in Hg by assumption.
    destruct Hctx as (vn0 & _ & _ & _ & Hnf).
    assert (g = nfr) as -> by congruence.
    assert (f = pr) as -> by congruence.
    reflexivity.
  - destruct Ho as [Haddr Hnone].
    apply wlp_bind.
    eapply wlp_mono; [|apply create_l2_filter_effect; assumption].
    intros o bp2 Ho2. apply wlp_bind, wlp_filter_upd. intros g Hg.
    apply wlp_ret. intros x ->.
    destruct (Ho2 x eq_refl)
      as (Hne & xr & rest & Hxr & Hfl & Hfl2 & Hv & Hos & Hx & Hn & Hi).
    split; [assumption|].
    right. exists f0, f0r, nfr, xr, rest.
    destruct Hctx as (vn0 & Hvn0 & Hh & Hf0 & Hnf).
    split; [exists vn0; auto|]. simpl.
    split; [assumption|]. split; [assumption|]. split; [assumption|].
    split; [assumption|]. split; [assumption|]. split; [assumption|].
    split; [|split; [|split]].
    + destruct Hos as [Hl Hq]. split; simpl.
      * now rewrite length_insert.
      * intros q Hin. rewrite list_lookup_insert_ne by (simpl in Hin; tauto).
        now apply Hq.
    + destruct Hx as (xr' & Hxr' & Hc). exists xr'.
      rewrite list_lookup_insert_ne by auto. auto.
    + rewrite list_lookup_insert_eq
        by (eapply lookup_lt_Some; eassumption).
      do 2 f_equal. congruence.
    + assumption.
Qed.


End SharedFrames3.

(** *** After the shared filter is known *)

Lemma parse_flow_ret_value vnic rxq rc bp :
  wlp (parse_flow_ret vnic rxq rc) (fun r _ => r = rc) bp.
Proof.
  unfold parse_flow_ret. apply wlp_bind, wlp_gets, wlp_bind, wlp_any.
  intros _ bp'. now apply wlp_ret.
Qed.

Lemma goto_ret_error_nonzero vnic rxq code ty msg bp :
  code <> 0 ->
  wlp (goto_ret_error vnic rxq code ty msg) (fun rc _ => rc <> 0) bp.
Proof.
  intros Hc. unfold goto_ret_error.
  apply wlp_bind, wlp_error_set, wlp_bind, wlp_gets.
  eapply wlp_mono; [|apply parse_flow_ret_value].
  intros r bp' ->. simpl. lia.
Qed.

(** An error exit, in a proof about the successful returns. *)
Ltac error_exit :=
  eapply wlp_mono;
  [|apply goto_ret_error_nonzero; unfold EINVAL, ENOSPC; lia];
  let H := fresh in intros ? ? H ?; exfalso; apply H; assumption.

Lemma parse_flow_done_effect act vnic rxq rc bp :
  wlp (parse_flow_done act vnic rxq rc)
    (fun rc' bp' => rc' = 0 -> bp' = bp) bp.
Proof.
  unfold parse_flow_done. apply wlp_bind, wlp_lift_opt. intros act' _.
  destruct act' as [|[] ?]; try error_exit.
  apply wlp_ret. reflexivity.
Qed.

(** The candidate filter stays other than a tunnel-redirect filter. *)
Definition keeps_kind (nf : nat) (bp bp' : bnxt) : Prop :=
  not_tunnel nf bp -> not_tunnel nf bp'.

#[global] Instance keeps_kind_preorder nf : PreOrder (keeps_kind nf).
Proof.
  split.
  - intros bp H. exact H.
  - intros a b c Hab Hbc H. auto.
Qed.

Lemma keeps_kind_filter_upd nf p g :
  (forall x, filter_type x <> HWRM_CFA_TUNNEL_REDIRECT_FILTER ->
             filter_type (g x) <> HWRM_CFA_TUNNEL_REDIRECT_FILTER) ->
  preserves (keeps_kind nf) (filter_upd p g).
Proof.
  intros Hg bp. apply wlp_filter_upd. intros f Hf (r & Hr & Ht).
  unfold not_tunnel. simpl. destruct (decide (p = nf)) as [-> | Hne].
  - exists (g f). split.
    + apply list_lookup_insert_eq. eapply lookup_lt_Some; eassumption.
    + apply Hg. congruence.
  - exists r. split; [|assumption]. now rewrite list_lookup_insert_ne.
Qed.

Lemma keeps_kind_of_same nf bp bp' :
  same filter_info bp bp' -> keeps_kind nf bp bp'.
Proof. unfold same, keeps_kind, not_tunnel. now intros ->. Qed.

#[global] Hint Extern 1 (preserves (keeps_kind _) (filter_upd _ _)) =>
  apply keeps_kind_filter_upd; intros ? ?; simpl;
  first [assumption | discriminate] : frame.
#[global] Hint Extern 5 (preserves (keeps_kind _) _) =>
  apply (preserves_weaken (same filter_info));
    [apply keeps_kind_of_same | solve [auto with frame]] : frame.

Section SharedFrames4.
Variable hsi : hsi_defs.
Variable env : list env_call -> env_call -> env_resp.


(** The L2 fields of a filter and its back-reference. *)
Definition l2_part (r : bnxt_filter_info) :=
  (l2key r, matching_l2_fltr_ptr r).

Lemma update_flags_en_effect nf x u bp :
  wlp (bnxt_update_filter_flags_en hsi nf x u)
    (fun _ bp' =>
       same (nf_obs nf l2_part) bp bp' /\ keeps_kind nf bp bp' /\
       vnic_info bp' = vnic_info bp /\
       exists xr r', filter_info bp !! x = Some xr /\
                     filter_info bp' !! nf = Some r' /\
                     l2_ref_cnt r' = l2_ref_cnt xr) bp.
Proof.
  unfold bnxt_update_filter_flags_en.
  apply wlp_bind, wlp_read_filter. intros f Hf.
  apply wlp_bind, wlp_read_filter. intros xr Hxr.
  pose (R := rel_and (same (nf_obs nf l2_part))
               (rel_and (keeps_kind nf) (same vnic_info))).
  assert (H0 : R bp bp) by reflexivity.
  unfold R in H0.
  do 2 hstep (rel_and (same (nf_obs nf l2_part))
                (rel_and (keeps_kind nf) (same vnic_info))) bp.
  lazymatch goal with
  | H : rel_and _ _ bp ?b |- wlp _ _ ?b =>
      destruct H as (Hs & Hk & Hv); revert Hs Hk Hv; generalize b;
      intros bp2; intros
  end.
  apply wlp_filter_upd. intros g Hg.
  split; [|split; [|split]].
  - transitivity bp2; [assumption|]. unfold l2_part. solve_same.
  - intros H. specialize (Hk H). destruct Hk as (r & Hr & Ht).
    exists (set_l2_ref_cnt (l2_ref_cnt xr) g). split.
    + simpl. apply list_lookup_insert_eq. eapply lookup_lt_Some; eassumption.
    + simpl. congruence.
  - simpl. exact Hv.
  - exists xr. eexists. split; [assumption|]. split.
    + simpl. apply list_lookup_insert_eq. eapply lookup_lt_Some; eassumption.
    + reflexivity.
Qed.


Lemma nf_obs_facts {X} nf (proj : bnxt_filter_info -> X) bp bp' :
  same (nf_obs nf proj) bp bp' ->
  map flow_list (vnic_info bp') = map flow_list (vnic_info bp) /\
  map vnic_filter (vnic_info bp') = map vnic_filter (vnic_info bp) /\
  free_filter_list bp' = free_filter_list bp /\
  others_same [nf] bp bp' /\
  same (rec_obs nf proj) bp bp' /\
  l2_installs bp' = l2_installs bp.
Proof.
  unfold same, nf_obs. intros [= H1 H2 H3 H4 H5 H6].
  repeat split; try assumption.
  - apply (f_equal length) in H4. now rewrite !length_insert in H4.
  - intros q Hq. apply (f_equal (fun l => l !! q)) in H4.
    rewrite !list_lookup_insert_ne in H4 by (simpl in Hq; tauto).
    exact H4.
Qed.

(** From the state [bp] in which [bnxt_get_l2_filter] returned [x] to the
    end of the action compiler. *)
Definition l2_tail (nf x : nat) (bp bp' : bnxt) : Prop :=
  vnic_info bp' = vnic_info bp /\
  l2_installs bp' = l2_installs bp /\
  keeps_kind nf bp bp' /\
  exists nfr xr nfr',
    filter_info bp !! nf = Some nfr /\ filter_info bp !! x = Some xr /\
    filter_info bp' !! nf = Some nfr' /\
    l2_part nfr' = l2_part nfr /\ l2_ref_cnt nfr' = l2_ref_cnt xr /\
    match matching_l2_fltr_ptr nfr with
    | Some _ =>
        free_filter_list bp' = free_filter_list bp /\
        others_same [nf] bp bp'
    | None =>
        free_filter_list bp' = free_filter_list bp ++ [x] /\
        others_same [nf; x] bp bp'
    end.

Lemma l2_tail_effect nf x u act vnic rxq rc bp :
  x <> nf ->
  wlp (bind (bnxt_update_filter_flags_en hsi nf x u)
         (fun _ => parse_flow_break nf (Some x) act vnic rxq rc))
    (fun rc' bp' => rc' = 0 -> l2_tail nf x bp bp') bp.
Proof.
  intros Hne. apply wlp_bind.
  eapply wlp_mono; [|apply update_flags_en_effect].
  intros _ bp3 (Hs & Hk & Hv & xr & r3 & Hxr & Hr3 & Hc).
  destruct (nf_obs_facts _ _ _ _ Hs) as (_ & _ & Hp & Ho & Hn & Hi).
  destruct (rec_obs_lookup _ _ _ _ _ (same_sym _ _ _ Hn) Hr3)
    as (nfr & Hnfr & Hpart).
  unfold parse_flow_break.
  apply wlp_bind, wlp_read_filter. intros f Hf.
  assert (f = r3) as -> by congruence.
  assert (Hm : matching_l2_fltr_ptr r3 = matching_l2_fltr_ptr nfr)
    by (unfold l2_part in Hpart; congruence).
  destruct (matching_l2_fltr_ptr r3) as [b|] eqn:Hb; simpl.
  - apply wlp_bind, wlp_ret.
    eapply wlp_mono; [|apply parse_flow_done_effect].
    intros rc' bp4 H Hrc. rewrite (H Hrc).
    split; [assumption|]. split; [assumption|]. split; [assumption|].
    exists nfr, xr, r3. rewrite <- Hm. auto 10.
  - unfold bnxt_free_filter.
    apply wlp_bind, wlp_bind, wlp_modify, wlp_filter_upd. intros g Hg.
    eapply wlp_mono; [|apply parse_flow_done_effect].
    intros rc' bp4 H Hrc. rewrite (H Hrc). simpl in Hg.
    split; [assumption|]. split; [assumption|]. split.
    { intros Hnt. destruct (Hk Hnt) as (r & Hr & Ht). exists r.
      split; [|assumption]. simpl. now rewrite list_lookup_insert_ne. }
    exists nfr, xr, r3. rewrite <- Hm. simpl.
    split; [assumption|]. split; [assumption|].
    split; [now rewrite list_lookup_insert_ne|].
    split; [now symmetry|]. split; [assumption|].
    split; [unfold stailq_insert_tail; congruence|].
    destruct Ho as [Hl Hq]. split; simpl.
    + now rewrite length_insert.
    + intros q Hin. rewrite list_lookup_insert_ne by (simpl in Hin; tauto).
      apply Hq. simpl in *. tauto.
Qed.


(** *** The action compiler, for a rule that is accepted *)

(** What the code around [bnxt_get_l2_filter] keeps: the flow lists, the
    filter lists, the free list, the other filters, the L2 fields of the
    candidate, the installs made, the kind of the candidate, and the live
    VNICs. *)
Abbreviation around_l2 nf :=
  (rel_and (same (nf_obs nf%nat l2key))
     (rel_and (keeps_kind nf%nat) (live_mono hsi))).

(** The action compiler has accepted the rule: it looked for a shared L2
    filter in [bp1] and got [x]. *)
Definition l2_compiled (nf : nat) (bp bp' : bnxt) : Prop :=
  exists bp1 bp2 x,
    around_l2 nf bp bp1 /\ x <> nf /\
    (l2_shared nf x bp1 bp2 \/ l2_created hsi nf x bp1 bp2) /\
    l2_tail nf x bp2 bp'.

Lemma fresh_filter_same {X} nf (proj : bnxt_filter_info -> X) bp bp' :
  fresh_filter nf bp -> same (nf_obs nf proj) bp bp' -> fresh_filter nf bp'.
Proof.
  intros (Hp & Ho & Hh) H.
  destruct (nf_obs_facts _ _ _ _ H) as (Hfl & Hvf & Hpool & _).
  split; [now rewrite Hpool|]. split.
  - intros i vn G Hvn HG.
    destruct (map_lookup_same flow_list _ _ i vn (eq_sym Hfl) Hvn)
      as (vn' & Hvn' & Hl).
    apply (Ho i vn' G Hvn'). now rewrite Hl.
  - intros vn0 Hvn0.
    destruct (map_lookup_same vnic_filter _ _ 0%nat vn0 (eq_sym Hvf) Hvn0)
      as (vn' & Hvn' & Hl).
    rewrite <- Hl. now apply Hh.
Qed.

Lemma use_vnic_effect nf u act b vnic_id rxq rc e msg bp0 bp :
  fresh_filter nf bp0 ->
  around_l2 nf bp0 bp ->
  (forall r, e = Some r -> r <> 0) ->
  wlp (parse_flow_use_vnic hsi env nf u act b vnic_id rxq rc e msg)
    (fun rc' bp' => rc' = 0 -> l2_compiled nf bp0 bp') bp.
Proof.
  intros Hfresh H0 He. unfold parse_flow_use_vnic.
  do 3 hstep (around_l2 nf) bp0.
  lazymatch goal with
  | H : rel_and _ _ bp0 ?b |- wlp _ _ ?b =>
      revert H; generalize b; intros bp1 H1
  end.
  assert (Hfresh1 : fresh_filter nf bp1).
  { destruct H1 as [H1 _]. eapply fresh_filter_same; eassumption. }
  apply wlp_bind.
  eapply wlp_mono; [|apply get_l2_filter_effect; assumption].
  intros [x|] bp2 Hx.
  - destruct (Hx x eq_refl) as [Hne Hcase].
    eapply wlp_mono; [|apply l2_tail_effect; assumption].
    intros rc' s' Ht Hrc. exists bp1, bp2, x. auto.
  - apply wlp_bind, wlp_error_set, wlp_bind, wlp_gets.
    eapply wlp_mono; [|apply parse_flow_ret_value].
    intros r' s' -> Hrc. exfalso. destruct e as [r|].
    + now apply (He r).
    + simpl in Hrc. unfold ENOSPC in Hrc. lia.
Qed.


(** The firmware never hands out the invalid-VNIC sentinel as the
    identifier of an allocated VNIC. *)
Hypothesis vnic_alloc_valid :
  forall log v,
    resp_rc (env log (call_hwrm_vnic_alloc v)) = 0 ->
    resp_val (env log (call_hwrm_vnic_alloc v)) <> INVALID_VNIC_ID hsi.

Lemma keeps_kind_vnic_prep nf v :
  preserves (keeps_kind nf) (bnxt_vnic_prep hsi env v).
Proof.
  apply (preserves_weaken (same filter_info));
    [apply keeps_kind_of_same|].
  unfold bnxt_vnic_prep, bnxt_vnic_grp_alloc, bnxt_hwrm_vnic_alloc,
    bnxt_hwrm_vnic_ctx_alloc, bnxt_hwrm_vnic_cfg, bnxt_hwrm_vnic_plcmode_cfg.
  frame.
Qed.

Lemma action_queue_effect nf attr u act act_q rc bp0 bp :
  fresh_filter nf bp0 ->
  around_l2 nf bp0 bp ->
  wlp (parse_action_queue hsi env attr nf u act act_q rc)
    (fun rc' bp' => rc' = 0 -> l2_compiled nf bp0 bp') bp.
Proof.
  intros Hfresh H0.
  pose proof (around_vnic_prep hsi env nf l2key) as Hp1.
  pose proof (keeps_kind_vnic_prep nf) as Hp2.
  pose proof (live_mono_vnic_prep hsi env vnic_alloc_valid) as Hp3.
  unfold parse_action_queue, read_vnic_at.
  repeat first
    [ lazymatch goal with
      | |- wlp (goto_ret_error _ _ _ _ _) _ _ => error_exit
      | |- wlp (parse_flow_use_vnic _ _ _ _ _ _ _ _ _ _ _) _ _ =>
          eapply use_vnic_effect; [assumption | eassumption | intros ? [=]]
      | |- wlp (if ?c then _ else _) _ _ => destruct c
      end
    | hstep (around_l2 nf) bp0 ].
Qed.


(** [bnxt_validate_and_parse_flow] has accepted a Queue rule: the pattern
    was compiled into [nf], which left the state [bpt], and the action
    compiler took its L2 filter from there. *)
Definition queue_rule_compiled (nf : nat) (bp bp' : bnxt) : Prop :=
  exists bpt,
    same (type_obs nf (fun _ => tt)) bp bpt /\ not_tunnel nf bpt /\
    l2_compiled nf bpt bp'.

Lemma parse_flow_queue_effect nf pattern actions attr act_q rest bp :
  bnxt_flow_non_void_action actions = Some (ACTION_QUEUE act_q :: rest) ->
  fresh_filter nf bp ->
  wlp (bnxt_validate_and_parse_flow hsi env pattern actions attr nf)
    (fun rc bp' => rc = 0 -> queue_rule_compiled nf bp bp') bp.
Proof.
  intros Hact Hfresh.
  unfold bnxt_validate_and_parse_flow. rewrite Hact.
  apply wlp_bind, wlp_ret, wlp_bind.
  eapply wlp_mono; [|apply parse_flow_type_effect].
  intros rc1 bpt [Ht Hnt].
  destruct (nz rc1) eqn:E1.
  { eapply wlp_mono; [|apply parse_flow_ret_value].
    intros ? ? -> Hrc. apply nz_true in E1. contradiction. }
  apply nz_false in E1. specialize (Hnt E1).
  assert (Hfresh' : fresh_filter nf bpt).
  { destruct (type_obs_weaken nf (fun _ => tt) (fun _ => tt) bp bpt
                (fun _ _ _ => eq_refl) Ht) as [H _].
    eapply fresh_filter_same; eassumption. }
  assert (H0 : around_l2 nf bpt bpt) by reflexivity.
  cut (wlp
         (rc <- bnxt_flow_parse_attr attr;;
          if nz rc
          then parse_flow_ret None None rc
          else
           f <- read_filter nf;;
           (if filter_kind_eqb (filter_type f) HWRM_CFA_EM_FILTER
            then
             filter_upd nf
               (set_flags (HWRM_CFA_EM_FLOW_ALLOC_INPUT_FLAGS_PATH_RX hsi))
            else ret tt);;
           use_ntuple <- bnxt_filter_type_check pattern;;
           parse_action_queue hsi env attr nf use_ntuple
             (ACTION_QUEUE act_q :: rest) act_q rc)
         (fun rc bp' => rc = 0 -> l2_compiled nf bpt bp') bpt).
  { apply wlp_mono. intros rc s' H Hrc. exists bpt. auto. }
  unfold bnxt_flow_parse_attr, bnxt_filter_type_check.
  hstep (around_l2 nf) bpt.
  lazymatch goal with
  | |- wlp (if nz ?rc then _ else _) _ _ => destruct (nz rc) eqn:E2
  end.
  { eapply wlp_mono; [|apply parse_flow_ret_value].
    intros ? ? -> Hrc. apply nz_true in E2. contradiction. }
  do 3 hstep (around_l2 nf) bpt.
  eapply action_queue_effect; eassumption.
Qed.


(** *** Installing the compiled rule *)

Lemma create_free_flow_none rc bp :
  wlp (create_free_flow rc) (fun r _ => r = None) bp.
Proof.
  unfold create_free_flow. apply wlp_bind, wlp_any. intros _ s'.
  now apply wlp_ret.
Qed.

Lemma create_free_filter_none nf rc bp :
  wlp (create_free_filter nf rc) (fun r _ => r = None) bp.
Proof.
  unfold create_free_filter. apply wlp_bind, wlp_any. intros _ s'.
  apply create_free_flow_none.
Qed.

Lemma create_done_update_none flow nf vnic rc bp :
  wlp (create_done flow nf vnic rc true) (fun r _ => r = None) bp.
Proof.
  unfold create_done. rewrite orb_true_r.
  destruct vnic; [apply create_free_flow_none | exact I].
Qed.

Lemma create_install_update_none flow nf rc bp :
  wlp (create_install hsi env flow nf rc true) (fun r _ => r = None) bp.
Proof.
  unfold create_install.
  repeat first
    [ apply create_done_update_none
    | apply create_free_filter_none
    | lazymatch goal with
      | |- wlp (if ?c then _ else _) _ _ => destruct c
      | |- wlp (let '(_, _) := ?q in _) _ _ => destruct q
      | |- wlp (bind _ _) _ _ =>
          apply wlp_bind, wlp_any; intros ? ?
      end ].
Qed.

(** Unless it updates a flow, [bnxt_match_filter] changes nothing. *)
Lemma match_filter_pure nf bp :
  wlp (bnxt_match_filter hsi env nf)
    (fun rc bp' => rc = - EXDEV \/ bp' = bp) bp.
Proof.
  unfold bnxt_match_filter.
  apply wlp_bind, wlp_read_filter. intros nfr _.
  apply wlp_bind, wlp_gets, wlp_bind, wlp_gets, wlp_bind, wlp_lift_opt.
  intros [[[i F] mf]|] _.
  - apply wlp_bind, wlp_read_filter. intros mfr _.
    destruct (dst_id mfr =? dst_id nfr).
    + apply wlp_ret. now right.
    + repeat (apply wlp_bind, wlp_any; intros ? ?).
      apply wlp_ret. now left.
  - apply wlp_ret. now right.
Qed.

Lemma find_vnic_from_spec d (l : list bnxt_vnic_info) i v :
  find_vnic_from hsi d l i = Some v ->
  exists vn, l !! (v - i)%nat = Some vn /\ live hsi vn /\ (i <= v)%nat.
Proof.
  revert i. induction l as [|a l IH]; intros i H; simpl in H; [discriminate|].
  destruct (negb (fw_vnic_id a =? INVALID_VNIC_ID hsi) &&
            (d =? fw_vnic_id a)) eqn:E.
  - injection H as <-. rewrite Nat.sub_diag. exists a.
    apply andb_true_iff in E as [E _].
    apply negb_true_iff, Z.eqb_neq in E. auto.
  - destruct (IH _ H) as (vn & Hvn & Hl & Hle).
    exists vn. replace (v - i)%nat with (S (v - S i)) by lia.
    split; [exact Hvn|]. split; [assumption | lia].
Qed.


(** The L2 fields of a filter, its back-reference and its count. *)
Definition l2_full (r : bnxt_filter_info) :=
  (l2key r, matching_l2_fltr_ptr r, l2_ref_cnt r).

(** The flow object [bnxt_flow_create] queues. *)
Definition new_flow (flow nf v : nat) : rte_flow :=
  {| flow_id := flow; flow_filter := Some nf; flow_vnic := Some v |}.

(** [bnxt_flow_create] has queued flow [flow], owner of [nf], on a live
    VNIC. *)
Definition rule_installed (nf flow : nat) (bp bp' : bnxt) : Prop :=
  exists v vn,
    vnic_info bp !! v = Some vn /\ live hsi vn /\
    vnic_info bp' =
      <[v := set_flow_list
               (stailq_insert_tail (new_flow flow nf v) (flow_list vn))
               (set_vnic_filter (stailq_insert_tail nf (vnic_filter vn)) vn)]>
        (vnic_info bp) /\
    free_filter_list bp' = free_filter_list bp /\
    l2_installs bp' = l2_installs bp /\
    others_same [nf] bp bp' /\
    same (rec_obs nf l2_full) bp bp'.

Lemma create_install_effect flow nf rc bp :
  not_tunnel nf bp ->
  wlp (create_install hsi env flow nf rc false)
    (fun r bp' =>
       forall fl, r = Some fl -> fl = flow /\ rule_installed nf flow bp bp')
    bp.
Proof.
  intros (r0 & Hr0 & Hty). unfold create_install.
  apply wlp_bind, wlp_read_filter. intros f Hf.
  assert (f = r0) as -> by congruence.
  replace (filter_kind_eqb (filter_type r0) HWRM_CFA_TUNNEL_REDIRECT_FILTER)
    with false by (destruct (filter_type r0); try reflexivity; contradiction).
  cbn [andb].
  unfold bnxt_hwrm_set_em_filter, bnxt_hwrm_set_ntuple_filter,
    find_matching_vnic.
  assert (H0 : rel_and (same (nf_obs nf l2_full)) (same vnic_info) bp bp)
    by reflexivity.
  do 3 hstep (rel_and (same (nf_obs nf l2_full)) (same vnic_info)) bp.
  lazymatch goal with
  | H : rel_and _ _ bp ?b |- wlp _ _ ?b =>
      destruct H as (Hs & Hv); revert Hs Hv; generalize b; intros bpi; intros
  end.
  destruct (nf_obs_facts _ _ _ _ Hs) as (_ & _ & Hp & Ho & Hn & Hi).
  unfold same in Hv.
  apply wlp_bind, wlp_bind, wlp_read_filter. intros f' _.
  apply wlp_bind, wlp_gets, wlp_ret.
  unfold create_done. rewrite orb_false_r.
  lazymatch goal with
  | |- wlp (if negb (nz ?c) then _ else _) _ _ => destruct (negb (nz c))
  end.
  - destruct (find_vnic_from hsi (dst_id f') (vnic_info bpi) 0) as [v|] eqn:Hfind;
      [|exact I].
    destruct (find_vnic_from_spec _ _ _ _ Hfind) as (vn & Hvn & Hlive & _).
    rewrite Nat.sub_0_r in Hvn.
    apply wlp_bind, wlp_vnic_upd. intros vn1 Hvn1.
    assert (vn1 = vn) as -> by congruence.
    apply wlp_bind, wlp_vnic_upd. intros vn2 Hvn2.
    simpl in Hvn2.
    rewrite list_lookup_insert_eq in Hvn2
      by (eapply lookup_lt_Some; eassumption).
    injection Hvn2 as <-.
    apply wlp_ret. intros fl [= <-]. split; [reflexivity|].
    exists v, vn. simpl.
    split; [congruence|]. split; [assumption|].
    split; [now rewrite list_insert_insert_eq, Hv|].
    split; [assumption|]. split; [assumption|]. split; assumption.
  - eapply wlp_mono; [|apply create_free_filter_none].
    intros ? ? -> ? [=].
Qed.


Lemma l2_compiled_not_tunnel nf bp bp' :
  not_tunnel nf bp -> l2_compiled nf bp bp' -> not_tunnel nf bp'.
Proof.
  intros Hnt (bp1 & bp2 & x & (_ & Hk & _) & Hne & Hcase & Ht).
  destruct Ht as (_ & _ & Hk' & _). apply Hk'.
  destruct (Hk Hnt) as (r & Hr & Hty).
  destruct Hcase as [(f0 & f0r & nfr & xr & Hctx & _ & _ & ->)
                    | (f0 & f0r & nfr & xr & rest & Hctx & H)].
  - destruct Hctx as (vn0 & _ & _ & _ & Hnf).
    exists (set_matching_l2_fltr_ptr (Some x) nfr). split.
    + simpl. apply list_lookup_insert_eq. rewrite length_insert.
      eapply lookup_lt_Some; eassumption.
    + simpl. congruence.
  - destruct Hctx as (vn0 & _ & _ & _ & Hnf).
    destruct H as (_ & _ & _ & _ & _ & _ & _ & _ & Hnf' & _).
    exists (set_matching_l2_fltr_ptr None nfr). split; [assumption|].
    simpl. congruence.
Qed.

(** The free list holds each free filter once, and neither a filter owned
    by a flow nor the head of the default VNIC's filter list. *)
Definition pool_fresh (bp : bnxt) : Prop :=
  NoDup (free_filter_list bp) /\
  (forall i vn G p,
     vnic_info bp !! i = Some vn -> In G (flow_list vn) ->
     flow_filter G = Some p -> ~ In p (free_filter_list bp)) /\
  (forall vn0 f0,
     vnic_info bp !! 0%nat = Some vn0 -> head (vnic_filter vn0) = Some f0 ->
     ~ In f0 (free_filter_list bp)).

(** A successful [bnxt_flow_create] of a Queue rule: filter [nf] was taken
    from the free list, the rule was compiled into it and flow [flow] was
    queued. *)
Definition queue_rule_created (nf flow : nat) (bp bp' : bnxt) : Prop :=
  exists rest bp_b bp_c,
    free_filter_list bp = nf :: rest /\
    vnic_info bp_b = vnic_info bp /\ filter_info bp_b = filter_info bp /\
    l2_installs bp_b = l2_installs bp /\ free_filter_list bp_b = rest /\
    queue_rule_compiled nf bp_b bp_c /\
    rule_installed nf flow bp_c bp'.

Lemma create_queue_effect attr pattern actions act_q rest bp :
  bnxt_flow_non_void_action actions = Some (ACTION_QUEUE act_q :: rest) ->
  pool_fresh bp ->
  wlp (bnxt_flow_create hsi env (Some attr) (Some pattern) (Some actions))
    (fun r bp' =>
       forall flow, r = Some flow ->
                    exists nf, queue_rule_created nf flow bp bp') bp.
Proof.
  intros Hact (Hnd & Hown & Hhead). unfold bnxt_flow_create.
  apply wlp_bind, wlp_gets, wlp_bind, wlp_gets, wlp_bind, wlp_gets.
  destruct (is_vf bp && negb (vf_is_trusted bp)).
  { apply wlp_bind, wlp_error_set, wlp_ret. intros ? [=]. }
  destruct (negb (dev_started bp)).
  { apply wlp_bind, wlp_error_set, wlp_ret. intros ? [=]. }
  unfold rte_zmalloc_flow.
  apply wlp_bind, wlp_bind, wlp_call_env.
  lazymatch goal with
  | |- wlp (if nz ?c then _ else _) _ _ => destruct (nz c)
  end.
  { apply wlp_ret, wlp_bind, wlp_error_set, wlp_ret. intros ? [=]. }
  apply wlp_bind, wlp_gets, wlp_bind, wlp_modify, wlp_ret.
  unfold bnxt_flow_args_validate. simpl negb. cbv iota.
  apply wlp_bind, wlp_ret.
  change (nz 0) with false. cbv iota.
  unfold bnxt_get_unused_filter.
  apply wlp_bind, wlp_bind, wlp_gets. simpl free_filter_list.
  destruct (free_filter_list bp) as [|nf pool] eqn:Hpool.
  { apply wlp_ret. eapply wlp_mono; [|apply create_free_flow_none].
    intros ? ? -> ? [=]. }
  apply wlp_bind, wlp_modify, wlp_ret.
  lazymatch goal with
  | |- wlp _ _ ?s => set (bp_b := s)
  end.
  assert (Hb1 : vnic_info bp_b = vnic_info bp) by reflexivity.
  assert (Hb2 : filter_info bp_b = filter_info bp) by reflexivity.
  assert (Hb3 : l2_installs bp_b = l2_installs bp) by reflexivity.
  assert (Hb4 : free_filter_list bp_b = pool) by reflexivity.
  set (flow := next_flow bp) in *.
  clearbody bp_b.
  assert (Hfresh : fresh_filter nf bp_b).
  { apply NoDup_cons in Hnd as [Hnf _]. split; [|split].
    - rewrite Hb4. now rewrite <- list_elem_of_In.
    - intros i vn G Hvn HG Hp. rewrite Hb1 in Hvn.
      apply (Hown i vn G nf Hvn HG Hp). now left.
    - intros vn0 Hvn0 Hh. rewrite Hb1 in Hvn0.
      apply (Hhead vn0 nf Hvn0 Hh). now left. }
  apply wlp_bind.
  eapply wlp_mono; [|eapply parse_flow_queue_effect; eassumption].
  intros rc bp_c Hc.
  destruct (nz rc) eqn:Erc.
  { eapply wlp_mono; [|apply create_free_filter_none]. intros ? ? -> ? [=]. }
  apply nz_false in Erc. specialize (Hc Erc).
  assert (Hnt : not_tunnel nf bp_c).
  { destruct Hc as (bpt & _ & Hnt & Hl2).
    eapply l2_compiled_not_tunnel; eassumption. }
  apply wlp_bind.
  eapply wlp_mono; [|apply match_filter_pure].
  intros rc2 bp_m [-> | ->].
  { change (- EXDEV =? - EEXIST) with false.
    change (- EXDEV =? - EXDEV) with true. cbv iota.
    eapply wlp_mono; [|apply create_install_update_none].
    intros ? ? -> ? [=]. }
  destruct (rc2 =? - EEXIST).
  { apply wlp_bind, wlp_any. intros _ s'.
    eapply wlp_mono; [|apply create_free_filter_none]. intros ? ? -> ? [=]. }
  destruct (rc2 =? - EXDEV).
  { eapply wlp_mono; [|apply create_install_update_none].
    intros ? ? -> ? [=]. }
  eapply wlp_mono; [|apply create_install_effect; assumption].
  intros r s' H fl Hr. destruct (H fl Hr) as [-> Hinst].
  exists nf, pool, bp_b, bp_c. auto 10.
Qed.


(** *** What a successful create of a Queue rule has done *)

Lemma type_obs_facts {X} nf (proj : bnxt_filter_info -> X) bp bp' :
  same (type_obs nf proj) bp bp' ->
  vnic_info bp' = vnic_info bp /\
  free_filter_list bp' = free_filter_list bp /\
  others_same [nf] bp bp' /\
  l2_installs bp' = l2_installs bp.
Proof.
  unfold same, type_obs. intros [= H1 H2 H3 H4 H5].
  repeat split; try assumption.
  - apply (f_equal length) in H3. now rewrite !length_insert in H3.
  - intros q Hq. apply (f_equal (fun l => l !! q)) in H3.
    rewrite !list_lookup_insert_ne in H3 by (simpl in Hq; tauto).
    exact H3.
Qed.

(** The VNICs of [bp1] queue the flows and filters they queued in [bp], and
    those that were live are live. *)
Definition vnics_kept (bp bp1 : bnxt) : Prop :=
  map flow_list (vnic_info bp1) = map flow_list (vnic_info bp) /\
  map vnic_filter (vnic_info bp1) = map vnic_filter (vnic_info bp) /\
  live_mono hsi bp bp1.

Lemma vnics_kept_fwd bp bp1 i vn :
  vnics_kept bp bp1 -> vnic_info bp !! i = Some vn ->
  exists vn1, vnic_info bp1 !! i = Some vn1 /\
              flow_list vn1 = flow_list vn /\
              vnic_filter vn1 = vnic_filter vn /\
              (live hsi vn -> live hsi vn1).
Proof.
  intros (Hf & Hv & Hl) Hvn.
  destruct (map_lookup_same flow_list _ _ i vn Hf Hvn) as (vn1 & Hvn1 & Hf1).
  destruct (map_lookup_same vnic_filter _ _ i vn Hv Hvn) as (vn2 & Hvn2 & Hv2).
  assert (vn2 = vn1) as -> by congruence.
  exists vn1. repeat split; try assumption.
  intros Hlive. destruct (Hl i vn Hvn Hlive) as (vn3 & Hvn3 & Hl3).
  congruence.
Qed.

Lemma vnics_kept_back bp bp1 i vn1 :
  vnics_kept bp bp1 -> vnic_info bp1 !! i = Some vn1 ->
  exists vn, vnic_info bp !! i = Some vn /\
             flow_list vn1 = flow_list vn /\
             vnic_filter vn1 = vnic_filter vn /\
             (live hsi vn -> live hsi vn1).
Proof.
  intros Hk Hvn1. pose proof Hk as (Hf & _ & _).
  destruct (map_lookup_same flow_list _ _ i vn1 (eq_sym Hf) Hvn1)
    as (vn & Hvn & _).
  destruct (vnics_kept_fwd _ _ _ _ Hk Hvn) as (vn1' & Hvn1' & H).
  assert (vn1' = vn1) as -> by congruence. eauto.
Qed.

(** The state in which the shared L2 filter was looked for, seen from the
    state before the call. *)
Lemma queue_rule_scan nf flow bp bp' :
  queue_rule_created nf flow bp bp' ->
  exists rest bp1 bp2 x bp_c,
    free_filter_list bp = nf :: rest /\
    vnics_kept bp bp1 /\ free_filter_list bp1 = rest /\
    others_same [nf] bp bp1 /\ l2_installs bp1 = l2_installs bp /\
    x <> nf /\
    (l2_shared nf x bp1 bp2 \/ l2_created hsi nf x bp1 bp2) /\
    l2_tail nf x bp2 bp_c /\
    rule_installed nf flow bp_c bp'.
Proof.
  intros (rest & bp_b & bp_c & Hpool & Hb1 & Hb2 & Hb3 & Hb4 & Hc & Hinst).
  destruct Hc as (bpt & Ht & _ & bp1 & bp2 & x & Ha & Hne & Hcase & Htail).
  destruct (type_obs_facts _ _ _ _ Ht) as (Ht1 & Ht2 & Ht3 & Ht4).
  destruct Ha as (Ha & _ & Hlive).
  destruct (nf_obs_facts _ _ _ _ Ha) as (Ha1 & Ha2 & Ha3 & Ha4 & _ & Ha6).
  exists rest, bp1, bp2, x, bp_c.
  split; [assumption|]. split; [|split; [|split; [|split]]].
  - split; [|split].
    + rewrite Ha1, Ht1, Hb1. reflexivity.
    + rewrite Ha2, Ht1, Hb1. reflexivity.
    + intros i vn Hvn Hl. apply (Hlive i vn); [|assumption].
      now rewrite Ht1, Hb1.
  - congruence.
  - transitivity bpt; [|assumption].
    destruct Ht3 as [Hl Hq]. split; [congruence|].
    intros q Hin. rewrite Hq by assumption. now rewrite Hb2.
  - congruence.
  - auto.
Qed.


(** The VNIC [vn] with the new flow and its filter queued. *)
Definition with_rule (flow nf v : nat) (vn : bnxt_vnic_info)
  : bnxt_vnic_info :=
  set_flow_list (stailq_insert_tail (new_flow flow nf v) (flow_list vn))
    (set_vnic_filter (stailq_insert_tail nf (vnic_filter vn)) vn).

Lemma shared_then_installed nf x flow bp1 bp2 bp_c bp' :
  x <> nf ->
  l2_shared nf x bp1 bp2 -> l2_tail nf x bp2 bp_c ->
  rule_installed nf flow bp_c bp' ->
  exists f0 f0r nfr1 xr nfr' v vn1,
    l2_context nf bp1 f0 f0r nfr1 /\ filter_info bp1 !! x = Some xr /\
    (x = f0 /\ l2_addr f0r = dst_macaddr nfr1 \/ l2_candidate bp1 x xr nfr1) /\
    filter_info bp' !! nf = Some nfr' /\ l2key nfr' = l2key nfr1 /\
    matching_l2_fltr_ptr nfr' = Some x /\
    free_filter_list bp' = free_filter_list bp1 /\
    l2_installs bp' = l2_installs bp1 /\
    (forall q, q <> nf ->
       filter_info bp' !! q =
         if decide (q = x)
         then Some (set_l2_ref_cnt ((l2_ref_cnt xr + 1) mod UINT32_MOD) xr)
         else filter_info bp1 !! q) /\
    vnic_info bp1 !! v = Some vn1 /\ live hsi vn1 /\
    vnic_info bp' = <[v := with_rule flow nf v vn1]> (vnic_info bp1).
Proof.
  intros Hne (f0 & f0r & nfr1 & xr & Hctx & Hxr & Hcase & ->)
    (Hv & Hi & _ & nfr2 & xr2 & nfr_c & Hn2 & Hx2 & Hnc & Hpart & Hcnt & Hm)
    (v & vn & Hvn & Hl & Hvi & Hp & Hi' & Ho & Hrec).
  pose proof Hctx as (vn0 & _ & _ & _ & Hnf1).
  simpl in Hn2.
  rewrite list_lookup_insert_eq in Hn2
    by (rewrite length_insert; eapply lookup_lt_Some; eassumption).
  injection Hn2 as <-. simpl in Hm. destruct Hm as [Hp2 Ho2].
  destruct (rec_obs_lookup _ _ _ _ _ Hrec Hnc) as (nfr' & Hnfr' & Hfull).
  unfold l2_full in Hfull. unfold l2_part in Hpart.
  apply pair_equal_spec in Hfull as [Hfull Hf3].
  apply pair_equal_spec in Hfull as [Hf1 Hf2].
  apply pair_equal_spec in Hpart as [Hq1 Hq2].
  exists f0, f0r, nfr1, xr, nfr', v, vn.
  split; [assumption|]. split; [assumption|]. split; [assumption|].
  split; [assumption|]. split; [now rewrite Hf1, Hq1|].
  split; [now rewrite Hf2, Hq2|].
  split; [simpl in Hp2; congruence|].
  split; [now rewrite Hi', Hi|].
  split; [|split; [|split]].
  - intros q Hq. destruct Ho as [_ Ho]. destruct Ho2 as [_ Ho2].
    rewrite Ho, Ho2 by (simpl; intuition). simpl.
    rewrite list_lookup_insert_ne by auto.
    destruct (decide (q = x)) as [-> | Hqx].
    + apply list_lookup_insert_eq. eapply lookup_lt_Some; eassumption.
    + now rewrite list_lookup_insert_ne.
  - simpl in Hv. congruence.
  - assumption.
  - simpl in Hv. rewrite Hvi. unfold with_rule. now rewrite Hv.
Qed.

Lemma created_then_installed nf x flow bp1 bp2 bp_c bp' :
  x <> nf ->
  l2_created hsi nf x bp1 bp2 -> l2_tail nf x bp2 bp_c ->
  rule_installed nf flow bp_c bp' ->
  exists f0 f0r nfr1 xr rest' nfr' v vn1,
    l2_context nf bp1 f0 f0r nfr1 /\ filter_info bp1 !! x = Some xr /\
    l2_addr f0r <> dst_macaddr nfr1 /\ no_l2_candidate hsi bp1 nfr1 /\
    free_filter_list bp1 = x :: rest' /\
    free_filter_list bp' = rest' ++ [x] /\
    filter_info bp' !! nf = Some nfr' /\ l2key nfr' = l2key nfr1 /\
    matching_l2_fltr_ptr nfr' = None /\
    l2_ref_cnt nfr' = (l2_ref_cnt xr + 1) mod UINT32_MOD /\
    l2_installs bp' = S (l2_installs bp1) /\
    (forall q, q <> nf -> q <> x ->
               filter_info bp' !! q = filter_info bp1 !! q) /\
    vnic_info bp1 !! v = Some vn1 /\ live hsi vn1 /\
    vnic_info bp' = <[v := with_rule flow nf v vn1]> (vnic_info bp1).
Proof.
  intros Hne
    (f0 & f0r & nfr1 & xr & rest' & Hctx & Hxr & Haddr & Hnone & Hp1 & Hp2 &
     Hv2 & Ho2 & (xr2' & Hxr2' & Hc2) & Hn2' & Hi2)
    (Hv & Hi & _ & nfr2 & xr2 & nfr_c & Hn2 & Hx2 & Hnc & Hpart & Hcnt & Hm)
    (v & vn & Hvn & Hl & Hvi & Hp & Hi' & Ho & Hrec).
  assert (nfr2 = set_matching_l2_fltr_ptr None nfr1) as -> by congruence.
  assert (xr2' = xr2) as -> by congruence.
  simpl in Hm. destruct Hm as [Hpc Hoc].
  destruct (rec_obs_lookup _ _ _ _ _ Hrec Hnc) as (nfr' & Hnfr' & Hfull).
  unfold l2_full in Hfull. unfold l2_part in Hpart.
  apply pair_equal_spec in Hfull as [Hfull Hf3].
  apply pair_equal_spec in Hfull as [Hf1 Hf2].
  apply pair_equal_spec in Hpart as [Hq1 Hq2].
  exists f0, f0r, nfr1, xr, rest', nfr', v, vn.
  split; [assumption|]. split; [assumption|]. split; [assumption|].
  split; [assumption|]. split; [assumption|].
  split; [congruence|]. split; [assumption|].
  split; [now rewrite Hf1, Hq1|]. split; [now rewrite Hf2, Hq2|].
  split; [congruence|]. split; [congruence|].
  split; [|split; [|split]].
  - intros q Hq Hqx. destruct Ho as [_ Ho]. destruct Hoc as [_ Hoc].
    destruct Ho2 as [_ Ho2].
    rewrite Ho, Hoc, Ho2 by (simpl; intuition). reflexivity.
  - congruence.
  - assumption.
  - rewrite Hvi. unfold with_rule. congruence.
Qed.

(** *** The flow table before and after a created rule *)

(** Flow [G] is queued on VNIC [i]. *)
Definition queued (bp : bnxt) (i : nat) (G : rte_flow) : Prop :=
  exists vn, vnic_info bp !! i = Some vn /\ In G (flow_list vn).

(** Flow [G] is queued on VNIC [i], which the scans visit. *)
Definition queued_live (bp : bnxt) (i : nat) (G : rte_flow) : Prop :=
  exists vn, vnic_info bp !! i = Some vn /\ live hsi vn /\
             In G (flow_list vn).

(** [f0] heads the default VNIC's filter list. *)
Definition default_head (bp : bnxt) (f0 : nat) : Prop :=
  exists vn0, vnic_info bp !! 0%nat = Some vn0 /\
              head (vnic_filter vn0) = Some f0.

(** The flow table of [bp'] is that of [bp] with flow [flow], owner of
    [nf], queued on the live VNIC [v]. *)
Definition flow_queued (nf flow v : nat) (bp bp' : bnxt) : Prop :=
  (forall i G, queued bp' i G ->
               G = new_flow flow nf v \/ queued bp i G) /\
  queued_live bp' v (new_flow flow nf v) /\
  (forall i G, queued_live bp i G -> queued_live bp' i G) /\
  (forall f, default_head bp' f -> default_head bp f).

Lemma head_app_some {A} (l : list A) (x y : A) :
  head l = Some x -> head (l ++ [y]) = Some x.
Proof. destruct l; simpl; congruence. Qed.

Lemma flow_queued_intro nf flow v vn1 f0 bp bp1 bp' :
  vnics_kept bp bp1 -> default_head bp1 f0 ->
  vnic_info bp1 !! v = Some vn1 -> live hsi vn1 ->
  vnic_info bp' = <[v := with_rule flow nf v vn1]> (vnic_info bp1) ->
  flow_queued nf flow v bp bp'.
Proof.
  intros Hk (vn0 & Hvn0 & Hh0) Hv Hl Hvi.
  assert (Hlt : (v < length (vnic_info bp1))%nat)
    by (eapply lookup_lt_Some; eassumption).
  split; [|split; [|split]].
  - intros i G (vn' & Hvn' & HG). rewrite Hvi in Hvn'.
    destruct (decide (i = v)) as [-> | Hiv].
    + rewrite list_lookup_insert_eq in Hvn' by assumption.
      injection Hvn' as <-. simpl in HG.
      unfold stailq_insert_tail in HG. apply in_app_or in HG.
      destruct HG as [HG | [<- | []]]; [|now left].
      right. destruct (vnics_kept_back _ _ _ _ Hk Hv)
        as (vn & Hvn & Hfl & _).
      exists vn. split; [assumption|]. now rewrite <- Hfl.
    + rewrite list_lookup_insert_ne in Hvn' by auto.
      right. destruct (vnics_kept_back _ _ _ _ Hk Hvn')
        as (vn & Hvn & Hfl & _).
      exists vn. split; [assumption|]. now rewrite <- Hfl.
  - exists (with_rule flow nf v vn1). rewrite Hvi.
    split; [now apply list_lookup_insert_eq|]. split; [exact Hl|].
    simpl. unfold stailq_insert_tail. apply in_or_app. right. now left.
  - intros i G (vn & Hvn & Hlv & HG).
    destruct (vnics_kept_fwd _ _ _ _ Hk Hvn) as (vn' & Hvn' & Hfl & _ & Hl').
    destruct (decide (i = v)) as [-> | Hiv].
    + assert (vn' = vn1) as -> by congruence.
      exists (with_rule flow nf v vn1). rewrite Hvi.
      split; [now apply list_lookup_insert_eq|]. split; [exact Hl|].
      simpl. unfold stailq_insert_tail. apply in_or_app. left.
      now rewrite Hfl.
    + exists vn'. rewrite Hvi.
      split; [now rewrite list_lookup_insert_ne by auto|].
      split; [auto|]. now rewrite Hfl.
  - intros f (vn' & Hvn' & Hh). rewrite Hvi in Hvn'.
    assert (Hf : head (vnic_filter vn0) = Some f).
    { destruct (decide (v = 0%nat)) as [-> | Hv0].
      - rewrite list_lookup_insert_eq in Hvn' by assumption.
        injection Hvn' as <-. assert (vn1 = vn0) as -> by congruence.
        simpl in Hh. unfold stailq_insert_tail in Hh.
        rewrite (head_app_some _ f0) in Hh by assumption. congruence.
      - rewrite list_lookup_insert_ne in Hvn' by auto. congruence. }
    destruct (vnics_kept_back _ _ _ _ Hk Hvn0) as (vn & Hvn & _ & Hvf & _).
    exists vn. split; [assumption|]. now rewrite <- Hvf.
Qed.

Lemma l2key_dst r r' : l2key r = l2key r' -> dst_macaddr r = dst_macaddr r'.
Proof. unfold l2key. now intros [= _ _ _ _ _ _ H]. Qed.

(** The created rule shares an L2 filter [x] that was there: the head of
    the default VNIC's filter list when its address is the destination MAC
    of the rule, else a filter some queued flow owns, without
    back-reference and with the L2 fields of the rule.  Its count goes up
    by one, the rule's filter points at it, and nothing is installed. *)
Definition l2_found (nf : nat) (nfr' : bnxt_filter_info) (bp bp' : bnxt)
  : Prop :=
  exists x xr,
    x <> nf /\ filter_info bp !! x = Some xr /\
    (default_head bp x /\ l2_addr xr = dst_macaddr nfr' \/
     exists i G, queued bp i G /\ flow_filter G = Some x /\
                 matching_l2_fltr_ptr xr = None /\ l2key xr = l2key nfr') /\
    matching_l2_fltr_ptr nfr' = Some x /\
    free_filter_list bp' = tail (free_filter_list bp) /\
    l2_installs bp' = l2_installs bp /\
    forall q, q <> nf ->
      filter_info bp' !! q =
        if decide (q = x)
        then Some (set_l2_ref_cnt ((l2_ref_cnt xr + 1) mod UINT32_MOD) xr)
        else filter_info bp !! q.

(** The created rule found no L2 filter to share: no flow queued on a live
    VNIC owns a filter without back-reference that has its L2 fields.  One
    L2 filter was installed through the scratch filter [x], which is back
    on the free list; the rule's filter has no back-reference and the
    count of [x] plus one. *)
Definition l2_new (nf : nat) (nfr' : bnxt_filter_info) (bp bp' : bnxt)
  : Prop :=
  exists x xr rest',
    free_filter_list bp = nf :: x :: rest' /\
    filter_info bp !! x = Some xr /\
    (forall i G p r,
       queued_live bp i G -> flow_filter G = Some p ->
       filter_info bp !! p = Some r -> matching_l2_fltr_ptr r = None ->
       l2key r <> l2key nfr') /\
    free_filter_list bp' = rest' ++ [x] /\
    matching_l2_fltr_ptr nfr' = None /\
    l2_ref_cnt nfr' = (l2_ref_cnt xr + 1) mod UINT32_MOD /\
    l2_installs bp' = S (l2_installs bp) /\
    forall q, q <> nf -> q <> x ->
              filter_info bp' !! q = filter_info bp !! q.

(** What a successful create of a Queue rule does to the flow table and
    the pool. *)
Definition rule_added (nf flow : nat) (bp bp' : bnxt) : Prop :=
  exists v nfr',
    head (free_filter_list bp) = Some nf /\
    filter_info bp' !! nf = Some nfr' /\
    flow_queued nf flow v bp bp' /\
    (l2_found nf nfr' bp bp' \/ l2_new nf nfr' bp bp').

Lemma default_head_kept f0 bp bp1 :
  vnics_kept bp bp1 -> default_head bp1 f0 -> default_head bp f0.
Proof.
  intros Hk (vn0 & Hvn0 & Hh).
  destruct (vnics_kept_back _ _ _ _ Hk Hvn0) as (vn & Hvn & _ & Hvf & _).
  exists vn. split; [assumption|]. now rewrite <- Hvf.
Qed.

Lemma queued_kept i G bp bp1 :
  vnics_kept bp bp1 -> queued bp1 i G -> queued bp i G.
Proof.
  intros Hk (vn1 & Hvn1 & HG).
  destruct (vnics_kept_back _ _ _ _ Hk Hvn1) as (vn & Hvn & Hfl & _).
  exists vn. split; [assumption|]. now rewrite <- Hfl.
Qed.

Lemma queued_live_fwd i G bp bp1 :
  vnics_kept bp bp1 -> queued_live bp i G -> queued_live bp1 i G.
Proof.
  intros Hk (vn & Hvn & Hl & HG).
  destruct (vnics_kept_fwd _ _ _ _ Hk Hvn) as (vn1 & Hvn1 & Hfl & _ & Hl1).
  exists vn1. split; [assumption|]. split; [auto|]. now rewrite Hfl.
Qed.

Lemma rule_added_intro nf flow bp bp' :
  pool_fresh bp -> queue_rule_created nf flow bp bp' ->
  rule_added nf flow bp bp'.
Proof.
  intros (Hnd & Hown & Hhead) Hc.
  destruct (queue_rule_scan _ _ _ _ Hc)
    as (rest & bp1 & bp2 & x & bp_c & Hpool & Hk & Hfree1 & Ho1 & Hi1 &
        Hne & Hcase & Htail & Hinst).
  assert (Hsame : forall q, q <> nf ->
                            filter_info bp1 !! q = filter_info bp !! q).
  { intros q Hq. destruct Ho1 as [_ Ho1]. apply Ho1. simpl. intuition. }
  destruct Hcase as [Hs | Hcr].
  - destruct (shared_then_installed _ _ _ _ _ _ _ Hne Hs Htail Hinst)
      as (f0 & f0r & nfr1 & xr & nfr' & v & vn1 & Hctx & Hxr & Hcs & Hnfr' &
          Hkey & Hm & Hfree' & Hin' & Hq & Hv & Hl & Hvi).
    assert (Hd1 : default_head bp1 f0).
    { destruct Hctx as (vn0 & ? & ? & _). exists vn0. auto. }
    exists v, nfr'. split; [now rewrite Hpool|]. split; [assumption|].
    split; [eapply flow_queued_intro; eassumption|].
    left. exists x, xr. split; [assumption|].
    split; [now rewrite <- Hsame|]. split; [|split; [assumption|split; [|split]]].
    + destruct Hcs as [[-> Haddr] | (i & vn & G & Hvn & HG & Hp & Hmx & Hf)].
      * left. split; [eapply default_head_kept; eassumption|].
        destruct Hctx as (_ & _ & _ & Hf0 & _).
        assert (xr = f0r) as -> by congruence.
        rewrite Haddr. symmetry. now apply l2key_dst.
      * right. exists i, G. split.
        { eapply queued_kept; [eassumption|]. exists vn. auto. }
        split; [assumption|]. split; [assumption|].
        apply l2_fields_match_key in Hf. congruence.
    + rewrite Hfree', Hfree1, Hpool. reflexivity.
    + congruence.
    + intros q Hqn. rewrite Hq by assumption.
      destruct (decide (q = x)); [reflexivity|]. now apply Hsame.
  - destruct (created_then_installed _ _ _ _ _ _ _ Hne Hcr Htail Hinst)
      as (f0 & f0r & nfr1 & xr & rest' & nfr' & v & vn1 & Hctx & Hxr & Haddr &
          Hnone & Hf1 & Hfree' & Hnfr' & Hkey & Hm & Hcnt & Hin' & Hq & Hv &
          Hl & Hvi).
    assert (Hd1 : default_head bp1 f0).
    { destruct Hctx as (vn0 & ? & ? & _). exists vn0. auto. }
    exists v, nfr'. split; [now rewrite Hpool|]. split; [assumption|].
    split; [eapply flow_queued_intro; eassumption|].
    right. exists x, xr, rest'. split; [congruence|].
    split; [now rewrite <- Hsame|].
    split; [|split; [assumption|split; [assumption|split; [assumption|split]]]].
    + intros i G p r HG Hp Hr Hmr Hkr.
      destruct (queued_live_fwd _ _ _ _ Hk HG) as (vn' & Hvn' & Hl' & HG').
      assert (Hpn : p <> nf).
      { intros ->. destruct HG as (vn & Hvn & _ & HIn).
        apply (Hown _ _ _ _ Hvn HIn Hp). rewrite Hpool. now left. }
      rewrite <- Hsame in Hr by assumption.
      pose proof (Hnone i vn' G p r Hvn' Hl' HG' Hp Hr Hmr) as Hff.
      assert (Ht : l2_fields_match r nfr1 = true)
        by (apply l2_fields_match_key; congruence).
      congruence.
    + congruence.
    + intros q Hqn Hqx. rewrite Hq by assumption. now apply Hsame.
Qed.

(** *** One shared filter for an L2 key *)

(** The address of the filter that heads the default VNIC's filter list
    is not the destination MAC of the key [K]. *)
Definition head_differs (K : Z * Z * Z * Z * Z * Z * Z) (bp : bnxt) : Prop :=
  forall f0 f0r,
    default_head bp f0 -> filter_info bp !! f0 = Some f0r ->
    l2_addr f0r <> snd K.

Definition table_ok (K : Z * Z * Z * Z * Z * Z * Z) (bp : bnxt) : Prop :=
  pool_fresh bp /\ head_differs K bp.

(** Free filters count no reference. *)
Definition pool_clean (bp : bnxt) : Prop :=
  forall q r,
    In q (free_filter_list bp) -> filter_info bp !! q = Some r ->
    l2_ref_cnt r = 0.

(** No queued flow owns a filter with the L2 fields [K]. *)
Definition no_rule_with (K : Z * Z * Z * Z * Z * Z * Z) (bp : bnxt) : Prop :=
  forall i G p r,
    queued bp i G -> flow_filter G = Some p ->
    filter_info bp !! p = Some r -> l2key r <> K.

(** [p1] is the one shared L2 filter for the L2 fields [K]: it has these
    fields, no back-reference and reference count [k]; a flow queued on a
    live VNIC owns it; and the filter of every queued flow with the fields
    [K] is [p1] or points back at [p1]. *)
Definition shared_by (K : Z * Z * Z * Z * Z * Z * Z) (k : Z) (p1 : nat)
    (bp : bnxt) : Prop :=
  (exists r1, filter_info bp !! p1 = Some r1 /\ l2key r1 = K /\
              matching_l2_fltr_ptr r1 = None /\ l2_ref_cnt r1 = k) /\
  (exists i G, queued_live bp i G /\ flow_filter G = Some p1) /\
  forall i G p r,
    queued bp i G -> flow_filter G = Some p ->
    filter_info bp !! p = Some r -> l2key r = K ->
    p = p1 \/ matching_l2_fltr_ptr r = Some p1.

Lemma pool_fresh_queued bp i G p :
  pool_fresh bp -> queued bp i G -> flow_filter G = Some p ->
  ~ In p (free_filter_list bp).
Proof. intros (_ & H & _) (vn & Hvn & HG) Hp. eauto. Qed.

Lemma pool_fresh_head bp f0 :
  pool_fresh bp -> default_head bp f0 -> ~ In f0 (free_filter_list bp).
Proof. intros (_ & _ & H) (vn & Hvn & Hh). eauto. Qed.

Lemma queued_live_queued bp i G : queued_live bp i G -> queued bp i G.
Proof. intros (vn & ? & _ & ?). exists vn. auto. Qed.

(** The free list after a created rule: part of the one before, without the
    rule's filter. *)
Lemma rule_added_free nf flow bp bp' :
  pool_fresh bp -> rule_added nf flow bp bp' ->
  exists rest,
    free_filter_list bp = nf :: rest /\ ~ In nf rest /\
    NoDup (free_filter_list bp') /\
    forall q, In q (free_filter_list bp') -> In q rest.
Proof.
  intros (Hnd & _) (v & nfr' & Hh & _ & _ & Hcase).
  destruct (free_filter_list bp) as [|nf0 rest] eqn:Hfree; [discriminate|].
  injection Hh as ->. exists rest. split; [reflexivity|].
  apply NoDup_cons in Hnd as [Hnin Hnd]. rewrite list_elem_of_In in Hnin.
  split; [assumption|].
  destruct Hcase as [(x & xr & _ & _ & _ & _ & Hf & _) |
                     (x & xr & rest' & Hf & _ & _ & Hf' & _)].
  - rewrite Hf, Hfree. simpl. auto.
  - rewrite Hfree in Hf. injection Hf as ->. rewrite Hf'. split.
    + now rewrite <- Permutation.Permutation_cons_append.
    + intros q Hq. apply in_app_or in Hq as [Hq | [<- | []]];
        [now right | now left].
Qed.

Lemma table_ok_step K nf flow bp bp' :
  table_ok K bp -> rule_added nf flow bp bp' -> table_ok K bp'.
Proof.
  intros [Hpf Hhd] Hadd.
  destruct (rule_added_free _ _ _ _ Hpf Hadd)
    as (rest & Hfree & Hnin & Hnd' & Hsub).
  destruct Hadd as (v & nfr' & _ & Hnfr' & (Hq1 & Hq2 & Hq3 & Hq4) & Hcase).
  split; [split; [assumption|split]|].
  - intros i vn G p Hvn HG Hp Hin. apply Hsub in Hin.
    destruct (Hq1 i G) as [-> | Hold]; [exists vn; auto| |].
    + simpl in Hp. injection Hp as <-. contradiction.
    + apply (pool_fresh_queued _ _ _ _ Hpf Hold Hp). rewrite Hfree.
      now right.
  - intros vn0 f0 Hvn0 Hh Hin. apply Hsub in Hin.
    apply (pool_fresh_head bp f0 Hpf); [|rewrite Hfree; now right].
    apply Hq4. exists vn0. auto.
  - intros f0 f0r Hd' Hf0. apply Hq4 in Hd'.
    pose proof (pool_fresh_head _ _ Hpf Hd') as Hnf. rewrite Hfree in Hnf.
    assert (Hne : f0 <> nf) by (intros ->; apply Hnf; now left).
    destruct Hcase as [(x & xr & _ & Hxr & _ & _ & _ & _ & Hq) |
                       (x & xr & rest' & Hf & _ & _ & _ & _ & _ & _ & Hq)].
    + rewrite Hq in Hf0 by assumption.
      destruct (decide (f0 = x)) as [-> | Hfx].
      * injection Hf0 as <-. simpl. eapply Hhd; eassumption.
      * eapply Hhd; eassumption.
    + rewrite Hq in Hf0; [eapply Hhd; eassumption | assumption |].
      intros ->. apply Hnf. rewrite Hfree in Hf. injection Hf as ->.
      right. now left.
Qed.

(** The first rule with the fields [K]: one L2 filter is installed, and the
    rule's filter becomes the shared filter, counting one reference. *)
Lemma first_rule K nf flow bp bp' :
  table_ok K bp -> pool_clean bp -> no_rule_with K bp ->
  rule_added nf flow bp bp' ->
  (forall r, filter_info bp' !! nf = Some r -> l2key r = K) ->
  shared_by K 1 nf bp' /\ l2_installs bp' = S (l2_installs bp).
Proof.
  intros [Hpf Hhd] Hclean Hnone Hadd Hkey.
  destruct Hadd as (v & nfr' & Hh & Hnfr' & (Hq1 & Hq2 & Hq3 & Hq4) & Hcase).
  pose proof (Hkey _ Hnfr') as HK.
  destruct Hcase as [(x & xr & Hne & Hxr & Hcs & _) |
                     (x & xr & rest' & Hf & Hxr & _ & _ & Hm & Hcnt & Hin &
                      Hq)].
  - exfalso. destruct Hcs as [[Hd Haddr] | (i & G & HG & Hp & _ & Hkx)].
    + apply (Hhd _ _ Hd Hxr). rewrite Haddr, <- HK. reflexivity.
    + apply (Hnone _ _ _ _ HG Hp Hxr). congruence.
  - split; [|assumption]. split; [|split].
    + exists nfr'. split; [assumption|]. split; [assumption|].
      split; [assumption|]. rewrite Hcnt.
      rewrite (Hclean x xr); [reflexivity| |assumption].
      rewrite Hf. right. now left.
    + exists v, (new_flow flow nf v). auto.
    + intros i G p r HG Hp Hr Hkr.
      destruct (Hq1 _ _ HG) as [-> | Hold].
      * left. simpl in Hp. congruence.
      * exfalso.
        pose proof (pool_fresh_queued _ _ _ _ Hpf Hold Hp) as Hnin.
        rewrite Hf in Hnin.
        rewrite Hq in Hr.
        { apply (Hnone _ _ _ _ Hold Hp Hr Hkr). }
        { intros ->. apply Hnin. now left. }
        { intros ->. apply Hnin. right. now left. }
Qed.

(** A later rule with the fields [K]: the shared filter is found, its count
    goes up by one, the rule's filter points back at it, and nothing is
    installed. *)
Lemma next_rule K k p1 nf flow bp bp' :
  table_ok K bp -> shared_by K k p1 bp -> 0 <= k -> k + 1 < UINT32_MOD ->
  rule_added nf flow bp bp' ->
  (forall r, filter_info bp' !! nf = Some r -> l2key r = K) ->
  shared_by K (k + 1) p1 bp' /\ l2_installs bp' = l2_installs bp.
Proof.
  intros [Hpf Hhd] ((r1 & Hr1 & Hk1 & Hm1 & Hc1) & (i1 & G1 & HG1 & Hp1) & Hu)
    Hk0 Hk Hadd Hkey.
  destruct Hadd as (v & nfr' & Hh & Hnfr' & (Hq1 & Hq2 & Hq3 & Hq4) & Hcase).
  pose proof (Hkey _ Hnfr') as HK.
  assert (Hfree : exists rest, free_filter_list bp = nf :: rest).
  { destruct (free_filter_list bp) as [|? rest]; [discriminate|].
    injection Hh as ->. eauto. }
  destruct Hfree as [rest Hfree].
  destruct Hcase as [(x & xr & Hne & Hxr & Hcs & Hm & _ & Hin & Hq) |
                     (x & xr & rest' & _ & _ & Hnc & _)].
  - assert (x = p1) as ->.
    { destruct Hcs as [[Hd Haddr] | (i & G & HG & Hp & Hmx & Hkx)].
      - exfalso. apply (Hhd _ _ Hd Hxr). rewrite Haddr, <- HK. reflexivity.
      - assert (Hkx' : l2key xr = K) by congruence.
        destruct (Hu _ _ _ _ HG Hp Hxr Hkx') as [? | Hb]; congruence. }
    assert (xr = r1) as -> by congruence.
    split; [|assumption]. split; [|split].
    + exists (set_l2_ref_cnt ((l2_ref_cnt r1 + 1) mod UINT32_MOD) r1).
      split; [|split; [assumption|split; [assumption|]]].
      * rewrite Hq by assumption. now destruct (decide (p1 = p1)).
      * simpl. rewrite Hc1. apply Z.mod_small. lia.
    + exists i1, G1. auto.
    + intros i G p r HG Hp Hr Hkr.
      destruct (Hq1 _ _ HG) as [-> | Hold].
      * right. simpl in Hp. injection Hp as <-. congruence.
      * pose proof (pool_fresh_queued _ _ _ _ Hpf Hold Hp) as Hnin.
        rewrite Hfree in Hnin.
        rewrite Hq in Hr by (intros ->; apply Hnin; now left).
        destruct (decide (p = p1)); [now left|]. eauto.
  - exfalso. apply (Hnc _ _ _ _ HG1 Hp1 Hr1 Hm1). congruence.
Qed.

(** *** A series of rules with the same L2 fields *)

(** The L2 fields that a create call has left in the filter it took from
    the head of the free list. *)
Definition compiled_key (bp bp' : bnxt) : option (Z * Z * Z * Z * Z * Z * Z) :=
  match head (free_filter_list bp) with
  | Some nf => l2key <$> filter_info bp' !! nf
  | None => None
  end.

(** [bnxt_flow_create] has created a Queue rule with the L2 fields [K]. *)
Definition queue_rule_with (K : Z * Z * Z * Z * Z * Z * Z) (bp bp' : bnxt)
  : Prop :=
  exists attr pattern actions act_q rest flow,
    bnxt_flow_non_void_action actions = Some (ACTION_QUEUE act_q :: rest) /\
    bnxt_flow_create hsi env (Some attr) (Some pattern) (Some actions) bp =
      Done (Some flow) bp' /\
    compiled_key bp bp' = Some K.

(** [n] such rules have been created, one after the other. *)
Inductive queue_rules_with (K : Z * Z * Z * Z * Z * Z * Z)
  : nat -> bnxt -> bnxt -> Prop :=
| no_more_rules bp : queue_rules_with K 0 bp bp
| one_more_rule n bp bp1 bp' :
    queue_rules_with K n bp bp1 -> queue_rule_with K bp1 bp' ->
    queue_rules_with K (S n) bp bp'.

Lemma queue_rule_with_added K bp bp' :
  pool_fresh bp -> queue_rule_with K bp bp' ->
  exists nf flow,
    rule_added nf flow bp bp' /\
    forall r, filter_info bp' !! nf = Some r -> l2key r = K.
Proof.
  intros Hpf (attr & pattern & actions & act_q & rest & flow & Hact & Hc & Hk).
  pose proof (create_queue_effect attr pattern actions act_q rest bp Hact Hpf)
    as Hw.
  rewrite wlp_done in Hw. destruct (Hw _ _ Hc flow eq_refl) as [nf Hq].
  pose proof (rule_added_intro _ _ _ _ Hpf Hq) as Hadd.
  exists nf, flow. split; [assumption|].
  destruct Hadd as (_ & _ & Hh & _). unfold compiled_key in Hk.
  rewrite Hh in Hk. intros r Hr. rewrite Hr in Hk. simpl in Hk. congruence.
Qed.

Lemma later_rules K n p1 bp1 bp' :
  table_ok K bp1 -> shared_by K 1 p1 bp1 ->
  queue_rules_with K n bp1 bp' -> Z.of_nat (S n) < UINT32_MOD ->
  table_ok K bp' /\ shared_by K (Z.of_nat (S n)) p1 bp' /\
  l2_installs bp' = l2_installs bp1.
Proof.
  intros Hok Hs Hn. induction Hn as [bp1 | n bp1 bp2 bp' Hn IH Hstep];
    intros Hlt.
  - auto.
  - destruct IH as (Hok2 & Hs2 & Hi2); [assumption|assumption|lia|].
    destruct (queue_rule_with_added _ _ _ (proj1 Hok2) Hstep)
      as (nf & flow & Hadd & Hkey).
    split; [eapply table_ok_step; eassumption|].
    destruct (next_rule K (Z.of_nat (S n)) p1 nf flow bp2 bp')
      as [Hs' Hi']; try assumption; try lia.
    split; [|congruence].
    replace (Z.of_nat (S (S n))) with (Z.of_nat (S n) + 1) by lia.
    assumption.
Qed.


End SharedFrames4.


Module SharedScenario.
Import Sample.

(** Rules for the Ethernet destination [mac], told apart by the IPv4
    destination. *)
Definition pattern (mac : rte_ether_addr) (ip : Z) : list rte_flow_item :=
  [eth_dst_item mac; ipv4_dst_item ip; ITEM_END].

(** The L2 fields of such a rule: only the destination MAC is set. *)
Definition key (mac : rte_ether_addr) : Z * Z * Z * Z * Z * Z * Z :=
  (0, 0, 0, 0, 0, 0, mac).

(** Two rules for [Scenario.mac1], both to queue 1. *)
Definition first : bnxt :=
  state_of (create (Some attr_in) (Some (pattern Scenario.mac1 1))
              (Some (queue 1)) bp0).
Definition second : bnxt :=
  state_of (create (Some attr_in) (Some (pattern Scenario.mac1 2))
              (Some (queue 1)) first).

(** One rule for the port's own address. *)
Definition own_address : result (option nat) :=
  create (Some attr_in) (Some (pattern port_mac 1)) (Some (queue 1)) bp0.

Definition count (bp : bnxt) (p : nat) : option Z :=
  l2_ref_cnt <$> filter_info bp !! p.
Definition back_reference (bp : bnxt) (p : nat) : option (option nat) :=
  matching_l2_fltr_ptr <$> filter_info bp !! p.

End SharedScenario.

(** The firmware of the sample never hands out the invalid identifier. *)
Lemma sample_vnic_alloc_valid log v :
  resp_rc (Sample.env log (call_hwrm_vnic_alloc v)) = 0 ->
  resp_val (Sample.env log (call_hwrm_vnic_alloc v)) <>
    INVALID_VNIC_ID Sample.hsi.
Proof.
  intros _. simpl.
  pose proof (Z.mod_pos_bound (Z.of_nat v) 0x1000 eq_refl). lia.
Qed.



(** * Further properties of the driver *)

(** ** The device configuration

    What the flow operations read about the device and never write: the
    role of the function, the ring counts and modes, the ring groups, and
    the sizes of the VNIC table, of the queue table and of the filter
    pool. *)
Definition config (bp : bnxt) :=
  (is_pf bp, is_vf bp, vf_is_trusted bp, max_vfs bp, fw_fid bp,
   first_vf_id bp, dev_started bp, rx_offloads bp, mq_mode bp,
   rx_nr_rings bp, grp_info bp,
   (length (vnic_info bp), length (rx_queues bp), length (filter_info bp))).

#[global] Hint Unfold config : obs.

Ltac solve_same ::=
  intros; unfold same; autounfold with obs; simpl;
  rewrite ?list_insert_insert_eq, ?length_insert;
  try (rewrite list_lookup_insert_eq by (eapply lookup_lt_Some; eassumption));
  try match goal with
      | H : _ !! _ = Some _ |- _ => rewrite H
      end;
  repeat first
    [ reflexivity
    | eapply map_insert_same; [eassumption | reflexivity]
    | progress f_equal ].

Lemma config_rxq_upd q g : preserves (same config) (rxq_upd q g).
Proof.
  intros bp. unfold rxq_upd, read_rxq_slot.
  repeat wlp_step; unfold same, config; simpl; rewrite ?length_insert;
    reflexivity.
Qed.

#[global] Hint Resolve config_rxq_upd : frame.

Section Config.
Variable hsi : hsi_defs.
Variable env : list env_call -> env_call -> env_resp.

Lemma config_free_filter p : preserves (same config) (bnxt_free_filter p).
Proof. unfold bnxt_free_filter. frame. Qed.

Lemma config_get_unused_filter :
  preserves (same config) bnxt_get_unused_filter.
Proof. unfold bnxt_get_unused_filter. frame. Qed.

Lemma config_type_check pattern :
  preserves (same config) (bnxt_filter_type_check pattern).
Proof. unfold bnxt_filter_type_check. frame. Qed.

Lemma config_parse_item attr nf u ee it lv :
  preserves (same config) (parse_item hsi env attr nf u ee it lv).
Proof.
  unfold parse_item, parse_any, parse_eth, parse_vlan, parse_ipv4, parse_ipv6,
    parse_tcp, parse_udp, parse_ports, parse_vxlan, parse_nvgre, parse_gre,
    parse_vf, bnxt_hwrm_func_qcfg_vf_dflt_vnic_id.
  frame.
Qed.

Lemma config_parse_items attr nf u ee items :
  forall lv,
    preserves (same config) (parse_items hsi env attr nf u ee items lv).
Proof.
  induction items as [|it next IH]; intros lv.
  - apply preserves_fault.
  - destruct (is_end_item it) eqn:Hend.
    + destruct it; try discriminate Hend. apply preserves_ret. exact _.
    + rewrite parse_items_cons by assumption.
      apply preserves_bind_cont;
        [exact _ | apply config_parse_item | apply IH].
Qed.

Lemma config_parse_flow_type attr pattern nf :
  preserves (same config)
    (bnxt_validate_and_parse_flow_type hsi env attr pattern nf).
Proof.
  pose proof config_type_check. pose proof config_parse_items.
  unfold bnxt_validate_and_parse_flow_type. frame.
Qed.

Lemma config_parse_attr attr :
  preserves (same config) (bnxt_flow_parse_attr attr).
Proof. unfold bnxt_flow_parse_attr. frame. Qed.


Lemma config_find_l2 nf :
  preserves (same config) (bnxt_find_matching_l2_filter hsi nf).
Proof. unfold bnxt_find_matching_l2_filter. frame. Qed.

Lemma config_set_l2_filter dst p :
  preserves (same config) (bnxt_hwrm_set_l2_filter env dst p).
Proof. unfold bnxt_hwrm_set_l2_filter. frame. Qed.

Lemma config_clear_l2_filter p :
  preserves (same config) (bnxt_hwrm_clear_l2_filter env p).
Proof. unfold bnxt_hwrm_clear_l2_filter. frame. Qed.

Lemma config_create_l2 nf vnic :
  preserves (same config) (bnxt_create_l2_filter hsi env nf vnic).
Proof.
  pose proof config_set_l2_filter. pose proof config_free_filter.
  pose proof config_get_unused_filter.
  unfold bnxt_create_l2_filter. frame.
Qed.

Lemma config_get_l2 nf vnic :
  preserves (same config) (bnxt_get_l2_filter hsi env nf vnic).
Proof.
  pose proof config_find_l2. pose proof config_create_l2.
  unfold bnxt_get_l2_filter. frame.
Qed.

Lemma config_vnic_prep vnic :
  preserves (same config) (bnxt_vnic_prep hsi env vnic).
Proof.
  unfold bnxt_vnic_prep, bnxt_vnic_grp_alloc, bnxt_hwrm_vnic_alloc,
    bnxt_hwrm_vnic_ctx_alloc, bnxt_hwrm_vnic_cfg, bnxt_hwrm_vnic_plcmode_cfg.
  frame.
Qed.

Lemma config_match_rss vnic rss :
  preserves (same config) (match_vnic_rss_cfg vnic rss).
Proof. unfold match_vnic_rss_cfg. frame. Qed.

Lemma config_update_flags_en filter filter1 u :
  preserves (same config) (bnxt_update_filter_flags_en hsi filter filter1 u).
Proof. unfold bnxt_update_filter_flags_en. frame. Qed.

Lemma config_parse_flow_ret vnic rxq rc :
  preserves (same config) (parse_flow_ret vnic rxq rc).
Proof. unfold parse_flow_ret. frame. Qed.

Lemma config_goto_ret_error vnic rxq code ty msg :
  preserves (same config) (goto_ret_error vnic rxq code ty msg).
Proof. pose proof config_parse_flow_ret. unfold goto_ret_error. frame. Qed.

Lemma config_parse_flow_done act vnic rxq rc :
  preserves (same config) (parse_flow_done act vnic rxq rc).
Proof. pose proof config_goto_ret_error. unfold parse_flow_done. frame. Qed.

Lemma config_parse_flow_break filter filter1 act vnic rxq rc :
  preserves (same config) (parse_flow_break filter filter1 act vnic rxq rc).
Proof.
  pose proof config_parse_flow_done. pose proof config_free_filter.
  unfold parse_flow_break. frame.
Qed.

Lemma config_use_vnic filter u act b vnic_id rxq rc e msg :
  preserves (same config)
    (parse_flow_use_vnic hsi env filter u act b vnic_id rxq rc e msg).
Proof.
  pose proof config_get_l2. pose proof config_update_flags_en.
  pose proof config_parse_flow_break. pose proof config_parse_flow_ret.
  unfold parse_flow_use_vnic. frame.
Qed.

Lemma config_action_queue attr filter u act act_q rc :
  preserves (same config)
    (parse_action_queue hsi env attr filter u act act_q rc).
Proof.
  pose proof config_use_vnic. pose proof config_goto_ret_error.
  pose proof config_vnic_prep.
  unfold parse_action_queue, read_vnic_at. frame.
Qed.

Lemma config_action_dflt_l2 filter act report e finish rc :
  preserves (same config)
    (parse_action_dflt_l2 hsi env filter act report e finish rc).
Proof.
  pose proof config_get_l2. pose proof config_parse_flow_break.
  pose proof config_parse_flow_ret.
  unfold parse_action_dflt_l2. frame.
Qed.

Lemma config_action_vf filter act act_vf rc :
  preserves (same config) (parse_action_vf hsi env filter act act_vf rc).
Proof.
  pose proof config_action_dflt_l2. pose proof config_goto_ret_error.
  pose proof config_parse_flow_done.
  unfold parse_action_vf, bnxt_hwrm_func_qcfg_vf_dflt_vnic_id. frame.
Qed.

Lemma config_rss_bind_queues v rss idx :
  forall rxq, preserves (same config) (rss_bind_queues hsi v rss idx rxq).
Proof. induction idx as [|i rest IH]; intros rxq; simpl; frame. Qed.

Lemma config_rss_take_rings v rss idx :
  preserves (same config) (rss_take_rings hsi v rss idx).
Proof. induction idx as [|i rest IH]; simpl; frame. Qed.

Lemma config_action_rss attr filter u act rss rc :
  preserves (same config)
    (parse_action_rss hsi env attr filter u act rss rc).
Proof.
  pose proof config_use_vnic. pose proof config_goto_ret_error.
  pose proof config_vnic_prep. pose proof config_match_rss.
  pose proof config_rss_bind_queues. pose proof config_rss_take_rings.
  pose proof config_parse_flow_ret.
  unfold parse_action_rss, read_vnic_at, bnxt_hwrm_vnic_rss_cfg. frame.
Qed.

Lemma config_parse_flow pattern actions attr filter :
  preserves (same config)
    (bnxt_validate_and_parse_flow hsi env pattern actions attr filter).
Proof.
  pose proof config_parse_flow_type. pose proof config_parse_attr.
  pose proof config_type_check.
  pose proof config_action_queue. pose proof config_action_dflt_l2.
  pose proof config_action_vf. pose proof config_action_rss.
  pose proof config_parse_flow_ret. pose proof config_goto_ret_error.
  unfold bnxt_validate_and_parse_flow. frame.
Qed.

Lemma config_validate attr pattern actions :
  preserves (same config) (bnxt_flow_validate hsi env attr pattern actions).
Proof.
  pose proof config_parse_flow. pose proof config_clear_l2_filter.
  pose proof config_get_unused_filter. pose proof config_free_filter.
  unfold bnxt_flow_validate, bnxt_flow_args_validate, find_matching_vnic,
    free_fw_grp_ids, bnxt_hwrm_vnic_ctx_free, bnxt_hwrm_vnic_free,
    bnxt_hwrm_clear_em_filter, bnxt_hwrm_clear_ntuple_filter.
  frame.
Qed.

Lemma config_update_filter old_filter new_filter :
  preserves (same config) (bnxt_update_filter env old_filter new_filter).
Proof.
  pose proof config_clear_l2_filter. pose proof config_set_l2_filter.
  unfold bnxt_update_filter, bnxt_hwrm_clear_em_filter,
    bnxt_hwrm_clear_ntuple_filter.
  frame.
Qed.

Lemma config_match_filter nf :
  preserves (same config) (bnxt_match_filter hsi env nf).
Proof.
  pose proof config_update_filter. pose proof config_free_filter.
  unfold bnxt_match_filter. frame.
Qed.

Lemma config_create_free_flow rc :
  preserves (same config) (create_free_flow rc).
Proof. unfold create_free_flow. frame. Qed.

Lemma config_create_free_filter nf rc :
  preserves (same config) (create_free_filter nf rc).
Proof.
  pose proof config_create_free_flow. pose proof config_free_filter.
  unfold create_free_filter. frame.
Qed.

Lemma config_create_done flow nf vnic rc upd :
  preserves (same config) (create_done flow nf vnic rc upd).
Proof.
  pose proof config_create_free_flow. pose proof config_create_free_filter.
  unfold create_done. frame.
Qed.

Lemma config_create_install flow nf rc upd :
  preserves (same config) (create_install hsi env flow nf rc upd).
Proof.
  pose proof config_create_done. pose proof config_create_free_filter.
  unfold create_install, bnxt_hwrm_tunnel_redirect_query,
    bnxt_hwrm_tunnel_redirect_free, bnxt_hwrm_tunnel_redirect,
    bnxt_hwrm_set_em_filter, bnxt_hwrm_set_ntuple_filter, find_matching_vnic.
  frame.
Qed.

Lemma config_zmalloc : preserves (same config) (rte_zmalloc_flow env).
Proof. unfold rte_zmalloc_flow. frame. Qed.

Lemma config_create attr pattern actions :
  preserves (same config) (bnxt_flow_create hsi env attr pattern actions).
Proof.
  pose proof config_zmalloc. pose proof config_get_unused_filter.
  pose proof config_parse_flow. pose proof config_match_filter.
  pose proof config_clear_l2_filter. pose proof config_create_free_flow.
  pose proof config_create_free_filter. pose proof config_create_install.
  unfold bnxt_flow_create, bnxt_flow_args_validate. frame.
Qed.

Lemma config_tunnel_destroy nf :
  preserves (same config) (bnxt_handle_tunnel_redirect_destroy env nf).
Proof.
  unfold bnxt_handle_tunnel_redirect_destroy, bnxt_hwrm_tunnel_redirect_query,
    bnxt_hwrm_tunnel_redirect_info, bnxt_hwrm_tunnel_redirect_free.
  frame.
Qed.

Lemma config_destroy_done flow nf rc :
  preserves (same config) (destroy_done hsi env flow nf rc).
Proof.
  pose proof config_free_filter.
  unfold destroy_done, free_fw_grp_ids, bnxt_hwrm_vnic_ctx_free,
    bnxt_hwrm_vnic_free.
  frame.
Qed.

Lemma config_destroy handle :
  preserves (same config) (bnxt_flow_destroy hsi env handle).
Proof.
  pose proof config_tunnel_destroy. pose proof config_destroy_done.
  pose proof config_match_filter. pose proof config_clear_l2_filter.
  unfold bnxt_flow_destroy, bnxt_hwrm_clear_em_filter,
    bnxt_hwrm_clear_ntuple_filter.
  frame.
Qed.

Lemma config_flush_flows i flows :
  preserves (same config) (flush_flows env i flows).
Proof.
  pose proof config_tunnel_destroy. pose proof config_free_filter.
  pose proof config_clear_l2_filter.
  induction flows as [|flow rest IH]; simpl;
    unfold bnxt_hwrm_clear_em_filter, bnxt_hwrm_clear_ntuple_filter; frame.
Qed.

Lemma config_flush_vnics idx :
  preserves (same config) (flush_vnics hsi env idx).
Proof.
  pose proof config_flush_flows.
  induction idx as [|i rest IH]; simpl; frame.
Qed.

Lemma config_flush : preserves (same config) (bnxt_flow_flush hsi env).
Proof. pose proof config_flush_vnics. unfold bnxt_flow_flush. frame. Qed.

End Config.

(** X1. The four flow operations never write the device configuration:
    whatever the request and whatever they return, the role of the function
    (PF, VF, trusted), the number of VFs, the function identifiers, the
    started flag, the receive offloads, the multi-queue mode, the number of
    receive rings, the ring groups, and the sizes of the VNIC table, of the
    receive-queue table and of the filter pool are what they were. *)
Theorem flow_ops_keep_config hsi env bp :
  (forall attr pattern actions rc bp',
     bnxt_flow_validate hsi env attr pattern actions bp = Done rc bp' ->
     config bp' = config bp) /\
  (forall attr pattern actions r bp',
     bnxt_flow_create hsi env attr pattern actions bp = Done r bp' ->
     config bp' = config bp) /\
  (forall handle rc bp',
     bnxt_flow_destroy hsi env handle bp = Done rc bp' ->
     config bp' = config bp) /\
  (forall rc bp',
     bnxt_flow_flush hsi env bp = Done rc bp' -> config bp' = config bp).
Proof.
  split; [|split; [|split]].
  - intros attr pattern actions rc bp' E.
    exact (preserves_done _ _ _ _ _ (config_validate hsi env _ _ _) E).
  - intros attr pattern actions r bp' E.
    exact (preserves_done _ _ _ _ _ (config_create hsi env _ _ _) E).
  - intros handle rc bp' E.
    exact (preserves_done _ _ _ _ _ (config_destroy hsi env _) E).
  - intros rc bp' E.
    exact (preserves_done _ _ _ _ _ (config_flush hsi env) E).
Qed.

Lemma flow_ops_keep_config_witness :
  config Scenario.one_flow = config Sample.bp0 /\
  config (Sample.state_of (Sample.flush Scenario.one_flow)) =
    config Scenario.one_flow.
Proof.
  split.
  - apply (proj1 (proj2 (flow_ops_keep_config Sample.hsi Sample.env
                           Sample.bp0))
             (Some Sample.attr_in)
             (Some [Sample.eth_dst_item Scenario.mac1; ITEM_END])
             (Some (Sample.queue 1)) (Some 0%nat)).
    vm_compute. reflexivity.
  - apply (proj2 (proj2 (proj2 (flow_ops_keep_config Sample.hsi Sample.env
                                  Scenario.one_flow))) 0).
    vm_compute. reflexivity.
Defined.

(** ** Requests that are never accepted *)

(** On the device state [bp] the request is not accepted: [validate] does
    not return 0 and [create] does not return a flow. *)
Definition never_accepted (hsi : hsi_defs)
    (env : list env_call -> env_call -> env_resp) (attr : rte_flow_attr)
    (pattern : list rte_flow_item) (actions : list rte_flow_action)
    (bp : bnxt) : Prop :=
  (forall bp',
     bnxt_flow_validate hsi env (Some attr) (Some pattern) (Some actions) bp
     <> Done 0 bp') /\
  (forall flow bp',
     bnxt_flow_create hsi env (Some attr) (Some pattern) (Some actions) bp
     <> Done (Some flow) bp').

(** [m] fails whenever it returns. *)
Definition fails (m : M Z) (bp : bnxt) : Prop :=
  wlp m (fun rc _ => rc <> 0) bp.

Lemma fails_bind {A} (m : M A) (k : A -> M Z) bp :
  (forall a bp', fails (k a) bp') -> fails (bind m k) bp.
Proof. intros H. apply wlp_bind, wlp_any. exact H. Qed.

Lemma fails_parse_flow_ret vnic rxq rc bp :
  rc <> 0 -> fails (parse_flow_ret vnic rxq rc) bp.
Proof.
  intros H. eapply wlp_mono; [|apply parse_flow_ret_value].
  intros r _ ->. exact H.
Qed.

Lemma fails_goto_ret_error vnic rxq code ty msg bp :
  code <> 0 -> fails (goto_ret_error vnic rxq code ty msg) bp.
Proof. apply goto_ret_error_nonzero. Qed.

Section NeverAccepted.
Variable hsi : hsi_defs.
Variable env : list env_call -> env_call -> env_resp.

(** A request whose compilation fails on every state with the configuration
    of [bp] is not accepted on [bp]. *)
Lemma never_accepted_intro attr pattern actions bp :
  (forall filter bp1,
     config bp1 = config bp ->
     fails (bnxt_validate_and_parse_flow hsi env pattern actions attr filter)
       bp1) ->
  never_accepted hsi env attr pattern actions bp.
Proof.
  intros H. split.
  - assert (Hw : fails (bnxt_flow_validate hsi env (Some attr) (Some pattern)
                          (Some actions)) bp).
    { unfold fails, bnxt_flow_validate, bnxt_flow_args_validate. simpl.
      apply wlp_bind, wlp_ret. simpl. apply wlp_bind.
      eapply (wlp_frame (same config));
        [apply config_get_unused_filter | reflexivity |].
      intros [filter|] bp1 Hc; [|apply wlp_ret; discriminate].
      apply wlp_bind. eapply wlp_mono; [|apply H; exact Hc].
      intros rc bp2 Hrc. simpl.
      assert (nz rc = true) as -> by now apply nz_true.
      unfold bnxt_free_filter. repeat wlp_step. assumption. }
    intros bp' E. unfold fails, wlp in Hw. rewrite E in Hw. now apply Hw.
  - assert (Hw : wlp (bnxt_flow_create hsi env (Some attr) (Some pattern)
                        (Some actions)) (fun r _ => r = None) bp).
    { unfold bnxt_flow_create, bnxt_flow_args_validate, create_free_flow.
      simpl. do 3 (apply wlp_bind, wlp_gets).
      destruct (is_vf bp && negb (vf_is_trusted bp));
        [repeat wlp_step; reflexivity|].
      destruct (negb (dev_started bp)); [repeat wlp_step; reflexivity|].
      apply wlp_bind.
      eapply (wlp_frame (same config)); [apply config_zmalloc | reflexivity |].
      intros [flow|] bp1 Hc1; [|repeat wlp_step; reflexivity].
      apply wlp_bind, wlp_ret. simpl. apply wlp_bind.
      eapply (wlp_frame (same config));
        [apply config_get_unused_filter | exact Hc1 |].
      intros [filter|] bp2 Hc2; [|repeat wlp_step; reflexivity].
      apply wlp_bind. eapply wlp_mono; [|apply H; exact Hc2].
      intros rc bp3 Hrc. simpl.
      assert (nz rc = true) as -> by now apply nz_true.
      unfold create_free_filter, create_free_flow, bnxt_free_filter.
      repeat wlp_step; reflexivity. }
    intros flow bp' E. unfold wlp in Hw. rewrite E in Hw. discriminate.
Qed.

(** The [switch] on the action. *)
Definition parse_action (attr : rte_flow_attr) (filter : nat)
    (use_ntuple : Z) (act : list rte_flow_action) (rc : Z) : M Z :=
  match act with
  | ACTION_QUEUE act_q :: _ =>
      parse_action_queue hsi env attr filter use_ntuple act act_q rc
  | ACTION_DROP :: _ =>
      parse_action_dflt_l2 hsi env filter act false (Some (- ENOSPC))
        (fun _ x =>
           if filter_kind_eqb (filter_type x) HWRM_CFA_EM_FILTER
           then set_flags (HWRM_CFA_EM_FLOW_ALLOC_INPUT_FLAGS_DROP hsi) x
           else set_flags (HWRM_CFA_NTUPLE_FILTER_ALLOC_INPUT_FLAGS_DROP hsi) x)
        rc
  | ACTION_COUNT :: _ =>
      parse_action_dflt_l2 hsi env filter act true None
        (fun _ x =>
           set_flags (HWRM_CFA_NTUPLE_FILTER_ALLOC_INPUT_FLAGS_METER hsi) x)
        rc
  | ACTION_VF act_vf :: _ => parse_action_vf hsi env filter act act_vf rc
  | ACTION_RSS rss :: _ =>
      parse_action_rss hsi env attr filter use_ntuple act rss rc
  | _ =>
      goto_ret_error None None EINVAL RTE_FLOW_ERROR_TYPE_ACTION
        "Invalid action."
  end.

(** A request fails when its action fails on every state that has the
    configuration of the state the compilation started from. *)
Lemma fails_by_action pattern actions attr filter act bp :
  bnxt_flow_non_void_action actions = Some act ->
  (forall u rc bp', config bp' = config bp ->
                    fails (parse_action attr filter u act rc) bp') ->
  fails (bnxt_validate_and_parse_flow hsi env pattern actions attr filter) bp.
Proof.
  intros Hact H. unfold fails, bnxt_validate_and_parse_flow. rewrite Hact.
  apply wlp_bind, wlp_ret. apply wlp_bind.
  eapply (wlp_frame (same config));
    [apply config_parse_flow_type | reflexivity |].
  intros rc bp1 Hc1. cbv beta.
  destruct (nz rc) eqn:Hrc.
  { apply fails_parse_flow_ret. now apply nz_true. }
  apply wlp_bind.
  eapply (wlp_frame (same config)); [apply config_parse_attr | exact Hc1 |].
  intros rc2 bp2 Hc2. cbv beta.
  destruct (nz rc2) eqn:Hrc2.
  { apply fails_parse_flow_ret. now apply nz_true. }
  apply wlp_bind.
  eapply (wlp_frame (same config)); [apply same_read_filter | exact Hc2 |].
  intros f bp3 Hc3. cbv beta. apply wlp_bind.
  eapply (wlp_frame (same config)); [|exact Hc3|].
  { destruct (filter_kind_eqb _ _); frame. }
  intros [] bp4 Hc4. cbv beta. apply wlp_bind.
  eapply (wlp_frame (same config)); [apply config_type_check | exact Hc4 |].
  intros u bp5 Hc5. cbv beta.
  apply (H u rc2 bp5 Hc5).
Qed.

End NeverAccepted.

Section ActionRules.
Variable hsi : hsi_defs.
Variable env : list env_call -> env_call -> env_resp.

Lemma goto_ret_error_none code ty msg bp :
  goto_ret_error None None code ty msg bp =
  Done (- code) (with_error code ty msg bp).
Proof.
  unfold goto_ret_error, bind, rte_flow_error_set, modify, gets, ret.
  simpl. now rewrite parse_flow_ret_none.
Qed.

(** With the pattern and the attributes accepted, the compilation of the
    request is the compilation of its first action, from a state with the
    configuration of the first. *)
Lemma parse_flow_at_action pattern actions attr filter act bp bp1 :
  bnxt_flow_non_void_action actions = Some act ->
  bnxt_validate_and_parse_flow_type hsi env attr pattern filter bp =
    Done 0 bp1 ->
  ingress attr = true -> egress attr = false ->
  exists u bp2,
    bnxt_validate_and_parse_flow hsi env pattern actions attr filter bp =
      parse_action hsi env attr filter u act 0 bp2 /\
    config bp2 = config bp /\ fvalid filter bp2.
Proof.
  intros Hact Hty Hin Heg.
  destruct (parse_flow_type_success _ _ _ _ _ _ _ Hty) as (Hv & u & Hu).
  destruct (lookup_lt_is_Some_2 _ _ Hv) as [f Hf].
  pose proof (preserves_done _ _ _ _ _
                (config_parse_flow_type hsi env attr pattern filter) Hty)
    as Hc1.
  set (m := if filter_kind_eqb (filter_type f) HWRM_CFA_EM_FILTER
            then filter_upd filter
                   (set_flags (HWRM_CFA_EM_FLOW_ALLOC_INPUT_FLAGS_PATH_RX hsi))
            else ret tt).
  assert (Hm : exists bp2, m bp1 = Done tt bp2 /\ config bp2 = config bp1 /\
                           fvalid filter bp2).
  { subst m. destruct (filter_kind_eqb _ _).
    - rewrite (filter_upd_eq _ _ _ _ Hf). eexists. split; [reflexivity|].
      split; [|solve_fvalid].
      unfold config. simpl. now rewrite length_insert.
    - exists bp1. auto. }
  destruct Hm as (bp2 & Hm & Hc2 & Hv2).
  exists u, bp2. split; [|split; [congruence | assumption]].
  unfold bnxt_validate_and_parse_flow. rewrite Hact.
  unfold bind at 1, lift_opt, ret at 1. unfold bind at 1. rewrite Hty.
  simpl. unfold bnxt_flow_parse_attr. rewrite Hin, Heg. simpl.
  unfold bind at 1, ret at 1. simpl.
  unfold bind at 1. rewrite (read_filter_eq _ _ _ Hf).
  fold m. unfold bind at 1. rewrite Hm.
  unfold bind at 1. rewrite Hu. reflexivity.
Qed.

End ActionRules.

(** X2. Only ingress rules are supported: a request whose attributes do not
    ask for ingress, or ask for egress, is never accepted by [validate] or
    [create]; when its pattern is accepted, the compilation fails with
    [-EINVAL] and the error "Only support ingress." (type ATTR_INGRESS) or
    "No support for egress." (type ATTR_EGRESS), and nothing else of the
    state changes after the pattern is parsed. *)
Theorem non_ingress_rejected hsi env attr pattern actions bp :
  ingress attr = false \/ egress attr = true ->
  never_accepted hsi env attr pattern actions bp /\
  (forall filter act bp1,
     bnxt_flow_non_void_action actions = Some act ->
     bnxt_validate_and_parse_flow_type hsi env attr pattern filter bp =
       Done 0 bp1 ->
     bnxt_validate_and_parse_flow hsi env pattern actions attr filter bp =
       Done (- EINVAL)
         (if ingress attr
          then with_error EINVAL RTE_FLOW_ERROR_TYPE_ATTR_EGRESS
                 "No support for egress." bp1
          else with_error EINVAL RTE_FLOW_ERROR_TYPE_ATTR_INGRESS
                 "Only support ingress." bp1)).
Proof.
  intros Hattr. split.
  - apply never_accepted_intro. intros filter bp1 _.
    unfold fails, bnxt_validate_and_parse_flow.
    apply wlp_bind, wlp_lift_opt. intros act _.
    apply fails_bind. intros rc bp2.
    destruct (nz rc) eqn:Hrc.
    { apply fails_parse_flow_ret. now apply nz_true. }
    unfold fails, bnxt_flow_parse_attr.
    destruct (negb (ingress attr)) eqn:Hin; [|destruct (egress attr) eqn:Heg].
    + apply wlp_bind, wlp_bind, wlp_error_set, wlp_bind, wlp_gets, wlp_ret.
      cbv beta. change (nz _) with true. cbv iota.
      apply fails_parse_flow_ret. discriminate.
    + apply wlp_bind, wlp_bind, wlp_error_set, wlp_bind, wlp_gets, wlp_ret.
      cbv beta. change (nz _) with true. cbv iota.
      apply fails_parse_flow_ret. discriminate.
    + apply negb_false_iff in Hin. destruct Hattr; congruence.
  - intros filter act bp1 Hact Hty.
    unfold bnxt_validate_and_parse_flow. rewrite Hact.
    unfold bind at 1, lift_opt, ret at 1. unfold bind at 1. rewrite Hty.
    simpl. unfold bnxt_flow_parse_attr.
    destruct (ingress attr) eqn:Hin; simpl.
    + destruct (egress attr) eqn:Heg; [|destruct Hattr; congruence].
      unfold bind, rte_flow_error_set, modify, gets, ret. simpl.
      now rewrite parse_flow_ret_none.
    + unfold bind, rte_flow_error_set, modify, gets, ret. simpl.
      now rewrite parse_flow_ret_none.
Qed.

Module RuleSamples.
Import Sample.

Definition attr_egress : rte_flow_attr :=
  {| group := 0; priority := 0; ingress := true; egress := true;
     transfer := false |}.

Definition pattern : list rte_flow_item :=
  [eth_dst_item Scenario.mac1; ITEM_END].

(** The state in which the actions of a request for [pattern] are
    compiled into filter 1. *)
Definition parsed : bnxt :=
  state_of (bnxt_validate_and_parse_flow_type hsi env attr_in pattern 1 bp0).

End RuleSamples.

Lemma non_ingress_rejected_witness :
  never_accepted Sample.hsi Sample.env RuleSamples.attr_egress
    RuleSamples.pattern (Sample.queue 1) Sample.bp0 /\
  bnxt_validate_and_parse_flow Sample.hsi Sample.env RuleSamples.pattern
    (Sample.queue 1) RuleSamples.attr_egress 1%nat Sample.bp0 =
  Done (- EINVAL)
    (with_error EINVAL RTE_FLOW_ERROR_TYPE_ATTR_EGRESS
       "No support for egress." RuleSamples.parsed).
Proof.
  destruct (non_ingress_rejected Sample.hsi Sample.env
              RuleSamples.attr_egress RuleSamples.pattern (Sample.queue 1)
              Sample.bp0 (or_intror eq_refl)) as [H1 H2].
  split; [exact H1|].
  apply (H2 1%nat (Sample.queue 1)); [reflexivity | vm_compute; reflexivity].
Defined.

(** The first action fails with the same error on every state that has the
    configuration of [bp]: the request is not accepted on [bp], and when
    its pattern and attributes are accepted that error is the result of
    the compilation. *)
Definition rejected_with (hsi : hsi_defs)
    (env : list env_call -> env_call -> env_resp) (attr : rte_flow_attr)
    (pattern : list rte_flow_item) (actions : list rte_flow_action)
    (code : Z) (ty : rte_flow_error_type) (msg : string) (bp : bnxt)
  : Prop :=
  never_accepted hsi env attr pattern actions bp /\
  forall filter bp1,
    bnxt_validate_and_parse_flow_type hsi env attr pattern filter bp =
      Done 0 bp1 ->
    ingress attr = true -> egress attr = false ->
    exists bp2,
      bnxt_validate_and_parse_flow hsi env pattern actions attr filter bp =
        Done (- code) (with_error code ty msg bp2) /\
      config bp2 = config bp.

Lemma rejected_with_intro hsi env attr pattern actions act code ty msg bp :
  bnxt_flow_non_void_action actions = Some act ->
  code <> 0 ->
  (forall filter u rc bp',
     config bp' = config bp ->
     parse_action hsi env attr filter u act rc bp' =
       Done (- code) (with_error code ty msg bp')) ->
  rejected_with hsi env attr pattern actions code ty msg bp.
Proof.
  intros Hact Hcode H. split.
  - apply never_accepted_intro. intros filter bp1 Hc1.
    apply (fails_by_action hsi env pattern actions attr filter act bp1 Hact).
    intros u rc bp' Hc'. unfold fails, wlp.
    rewrite H by congruence. lia.
  - intros filter bp1 Hty Hin Heg.
    destruct (parse_flow_at_action hsi env pattern actions attr filter act
                bp bp1 Hact Hty Hin Heg) as (u & bp2 & E & Hc & _).
    exists bp2. split; [|assumption]. rewrite E. now apply H.
Qed.

Lemma config_rx_nr_rings bp bp' :
  config bp' = config bp -> rx_nr_rings bp' = rx_nr_rings bp.
Proof. unfold config. now intros [= _ _ _ _ _ _ _ _ _ H _ _ _ _]. Qed.

(** The actions the driver compiles. *)
Definition supported_action (a : rte_flow_action) : bool :=
  match a with
  | ACTION_QUEUE _ | ACTION_DROP | ACTION_COUNT | ACTION_VF _
  | ACTION_RSS _ => true
  | _ => false
  end.

(** X3. A request whose first action that is not VOID is the end marker (no
    action at all) or an action other than QUEUE, DROP, COUNT, VF and RSS is
    never accepted; when its pattern and attributes are accepted the
    compilation fails with [-EINVAL], "Invalid action." (type ACTION). *)
Theorem unsupported_action_rejected hsi env attr pattern actions a rest bp :
  bnxt_flow_non_void_action actions = Some (a :: rest) ->
  supported_action a = false ->
  rejected_with hsi env attr pattern actions EINVAL
    RTE_FLOW_ERROR_TYPE_ACTION "Invalid action." bp.
Proof.
  intros Hact Ha.
  apply (rejected_with_intro _ _ _ _ _ (a :: rest)); [assumption|discriminate|].
  intros filter u rc bp' _.
  destruct a; try discriminate Ha; apply goto_ret_error_none.
Qed.

Lemma unsupported_action_rejected_witness :
  rejected_with Sample.hsi Sample.env Sample.attr_in RuleSamples.pattern
    [ACTION_VOID; ACTION_END] EINVAL RTE_FLOW_ERROR_TYPE_ACTION
    "Invalid action." Sample.bp0.
Proof.
  apply (unsupported_action_rejected Sample.hsi Sample.env Sample.attr_in
           RuleSamples.pattern [ACTION_VOID; ACTION_END] ACTION_END []);
    reflexivity.
Defined.

(** X4. A QUEUE action whose index is not below the number of receive rings
    is never accepted; when the pattern and attributes are accepted the
    compilation fails with [-EINVAL], "Invalid queue ID." (type ACTION). *)
Theorem queue_out_of_range_rejected hsi env attr pattern actions act_q rest
    bp :
  bnxt_flow_non_void_action actions = Some (ACTION_QUEUE act_q :: rest) ->
  rx_nr_rings bp <= queue_index act_q ->
  rejected_with hsi env attr pattern actions EINVAL
    RTE_FLOW_ERROR_TYPE_ACTION "Invalid queue ID." bp.
Proof.
  intros Hact Hq.
  apply (rejected_with_intro _ _ _ _ _ (ACTION_QUEUE act_q :: rest));
    [assumption|discriminate|].
  intros filter u rc bp' Hc. simpl. unfold parse_action_queue.
  unfold bind at 1, gets at 1. rewrite (config_rx_nr_rings _ _ Hc).
  assert ((rx_nr_rings bp <=? queue_index act_q) = true) as ->
    by now apply Z.leb_le.
  rewrite orb_true_r. apply goto_ret_error_none.
Qed.

Lemma queue_out_of_range_rejected_witness :
  rejected_with Sample.hsi Sample.env Sample.attr_in RuleSamples.pattern
    (Sample.queue 4) EINVAL RTE_FLOW_ERROR_TYPE_ACTION "Invalid queue ID."
    Sample.bp0.
Proof.
  apply (queue_out_of_range_rejected Sample.hsi Sample.env Sample.attr_in
           RuleSamples.pattern (Sample.queue 4) {| queue_index := 4 |}
           [ACTION_END]); [reflexivity | simpl; lia].
Defined.

(** X5. An RSS action needs a VNIC group: with group 0 in the attributes the
    request is never accepted; when the pattern and attributes are accepted
    the compilation fails with [-EINVAL], "Group id cannot be 0" (type
    ATTR), whatever the queues of the action. *)
Theorem rss_without_group_rejected hsi env attr pattern actions rss rest bp :
  bnxt_flow_non_void_action actions = Some (ACTION_RSS rss :: rest) ->
  group attr = 0 ->
  rejected_with hsi env attr pattern actions EINVAL
    RTE_FLOW_ERROR_TYPE_ATTR "Group id cannot be 0" bp.
Proof.
  intros Hact Hg.
  apply (rejected_with_intro _ _ _ _ _ (ACTION_RSS rss :: rest));
    [assumption|discriminate|].
  intros filter u rc bp' _. simpl. unfold parse_action_rss.
  rewrite Hg. apply goto_ret_error_none.
Qed.

Lemma rss_without_group_rejected_witness :
  let rss := {| rss_types := 0; rss_key_len := 0; rss_queue_num := 2;
                rss_key := []; rss_queue := [1; 2] |} in
  rejected_with Sample.hsi Sample.env Sample.attr_in RuleSamples.pattern
    [ACTION_RSS rss; ACTION_END] EINVAL RTE_FLOW_ERROR_TYPE_ATTR
    "Group id cannot be 0" Sample.bp0.
Proof.
  intros rss.
  apply (rss_without_group_rejected Sample.hsi Sample.env Sample.attr_in
           RuleSamples.pattern [ACTION_RSS rss; ACTION_END] rss
           [ACTION_END]); reflexivity.
Defined.

(** ** One action for each rule *)

Section OneAction.
Variable hsi : hsi_defs.
Variable env : list env_call -> env_call -> env_resp.
Variables (rest rest' : list rte_flow_action) (b : rte_flow_action).
Hypothesis Hnext : bnxt_flow_non_void_action rest = Some (b :: rest').
Hypothesis Hb : b <> ACTION_END.

Lemma fails_done a vnic rxq rc bp :
  fails (parse_flow_done (a :: rest) vnic rxq rc) bp.
Proof.
  unfold fails, parse_flow_done. simpl tail. rewrite Hnext.
  apply wlp_bind, wlp_ret.
  destruct b; try (apply fails_goto_ret_error; discriminate).
  now contradiction Hb.
Qed.

Lemma fails_break filter filter1 a vnic rxq rc bp :
  fails (parse_flow_break filter filter1 (a :: rest) vnic rxq rc) bp.
Proof.
  unfold parse_flow_break. apply fails_bind. intros f bp1.
  apply fails_bind. intros _ bp2. apply fails_done.
Qed.

Lemma fails_use_vnic filter u a set_idx vnic_id rxq rc e msg bp :
  (forall r, e = Some r -> r <> 0) ->
  fails (parse_flow_use_vnic hsi env filter u (a :: rest) set_idx vnic_id rxq
           rc e msg) bp.
Proof.
  intros He. unfold parse_flow_use_vnic. cbv zeta.
  do 4 (apply fails_bind; intros ? ?).
  lazymatch goal with
  | |- fails (match ?x with _ => _ end) _ => destruct x
  end.
  - apply fails_bind. intros _ bp1. apply fails_break.
  - unfold fails. apply wlp_bind, wlp_error_set, wlp_bind, wlp_gets.
    apply fails_parse_flow_ret. destruct e as [r|]; [auto|discriminate].
Qed.

Lemma fails_dflt_l2 filter a report e finish rc bp :
  (forall r, e = Some r -> r <> 0) -> (e = None -> report = true) ->
  fails (parse_action_dflt_l2 hsi env filter (a :: rest) report e finish rc)
    bp.
Proof.
  intros He Hr. unfold parse_action_dflt_l2.
  apply fails_bind. intros [f1|] bp1.
  - do 3 (apply fails_bind; intros ? ?). apply fails_break.
  - destruct e as [r|].
    + do 2 (apply fails_bind; intros ? ?).
      apply fails_parse_flow_ret. auto.
    + rewrite Hr by reflexivity. unfold fails.
      apply wlp_bind, wlp_bind, wlp_error_set, wlp_ret, wlp_bind, wlp_gets.
      apply fails_parse_flow_ret. discriminate.
Qed.

Lemma rss_bind_queues_failed v rss idx :
  forall rxq bp,
    wlp (rss_bind_queues hsi v rss idx rxq)
      (fun r bp' => snd r = true -> rte_errno bp' = EINVAL) bp.
Proof.
  induction idx as [|i idx IH]; intros rxq bp; simpl.
  - apply wlp_ret. discriminate.
  - apply wlp_bind, wlp_any. intros q bp1.
    apply wlp_bind, wlp_any. intros nr bp2.
    apply wlp_bind, wlp_any. intros [|] bp3.
    + apply wlp_bind, wlp_error_set, wlp_ret. reflexivity.
    + apply wlp_bind, wlp_any. intros vnic0 bp4.
      apply wlp_bind, wlp_any. intros g bp5.
      destruct (negb (g =? INVALID_HW_RING_ID hsi)).
      * apply wlp_bind, wlp_error_set, wlp_ret. reflexivity.
      * apply wlp_bind, wlp_any. intros _ bp6.
        apply wlp_bind, wlp_any. intros _ bp7. apply IH.
Qed.

Ltac fails_step :=
  cbv beta zeta;
  lazymatch goal with
  | |- fails (goto_ret_error _ _ _ _ _) _ =>
      apply fails_goto_ret_error; discriminate
  | |- fails (parse_flow_use_vnic _ _ _ _ _ _ _ _ _ _ _) _ =>
      apply fails_use_vnic; intros ? [= <-]; discriminate
  | |- fails (parse_flow_done _ _ _ _) _ => apply fails_done
  | |- fails (parse_action_dflt_l2 _ _ _ _ _ _ _ _) _ =>
      apply fails_dflt_l2;
        [intros ? [= <-]; discriminate | first [reflexivity | discriminate]]
  | |- fails (bind _ _) _ => apply fails_bind; intros ? ?
  | |- fails (if ?c then _ else _) _ => destruct c
  | |- fails (match ?x with _ => _ end) _ => destruct x
  end.

Lemma fails_action_queue attr filter u a act_q rc bp :
  fails (parse_action_queue hsi env attr filter u (a :: rest) act_q rc) bp.
Proof. unfold parse_action_queue. repeat fails_step. Qed.

Lemma fails_action_vf filter a act_vf rc bp :
  fails (parse_action_vf hsi env filter (a :: rest) act_vf rc) bp.
Proof. unfold parse_action_vf. repeat fails_step. Qed.

Lemma fails_action_rss attr filter u a rss rc bp :
  fails (parse_action_rss hsi env attr filter u (a :: rest) rss rc) bp.
Proof.
  unfold parse_action_rss. cbv zeta.
  destruct (negb (nz (group attr))); [fails_step|].
  apply fails_bind. intros vn bp1.
  destruct (nz (rx_queue_cnt vn)); [repeat fails_step|].
  unfold fails. apply wlp_bind.
  eapply wlp_mono; [|apply rss_bind_queues_failed].
  intros [rxq [|]] bp2 Hf; cbv beta iota.
  - apply wlp_bind, wlp_gets. apply fails_parse_flow_ret.
    rewrite (Hf eq_refl). discriminate.
  - lazymatch goal with |- wlp ?m _ ?s => change (fails m s) end.
    do 6 (apply fails_bind; intros ? ?).
    lazymatch goal with
    | |- fails (if ?c then _ else _) _ => destruct c
    end; [fails_step|].
    do 7 (apply fails_bind; intros ? ?). fails_step.
Qed.

Lemma fails_action attr filter u a rc bp :
  fails (parse_action hsi env attr filter u (a :: rest) rc) bp.
Proof.
  destruct a; simpl; try (apply fails_goto_ret_error; discriminate).
  - apply fails_action_queue.
  - fails_step.
  - fails_step.
  - apply fails_action_vf.
  - apply fails_action_rss.
Qed.

End OneAction.

(** X6. A rule carries one action: when the first action that is not VOID
    is followed by another action that is neither VOID nor the end marker,
    the request is never accepted, whatever the two actions are and
    whatever the state of the device. *)
Theorem second_action_rejected hsi env attr pattern actions a rest b rest'
    bp :
  bnxt_flow_non_void_action actions = Some (a :: rest) ->
  bnxt_flow_non_void_action rest = Some (b :: rest') ->
  b <> ACTION_END ->
  never_accepted hsi env attr pattern actions bp.
Proof.
  intros Hact Hnext Hb. apply never_accepted_intro. intros filter bp1 _.
  apply (fails_by_action hsi env pattern actions attr filter (a :: rest) bp1
           Hact).
  intros u rc bp' _. now apply (fails_action hsi env rest rest' b).
Qed.

Lemma second_action_rejected_witness :
  never_accepted Sample.hsi Sample.env Sample.attr_in RuleSamples.pattern
    [ACTION_QUEUE {| queue_index := 1 |}; ACTION_VOID; ACTION_DROP;
     ACTION_END] Sample.bp0.
Proof.
  apply (second_action_rejected Sample.hsi Sample.env Sample.attr_in
           RuleSamples.pattern _ (ACTION_QUEUE {| queue_index := 1 |})
           [ACTION_VOID; ACTION_DROP; ACTION_END] ACTION_DROP [ACTION_END]);
    [reflexivity | reflexivity | discriminate].
Defined.

(** ** Pattern items that are never accepted *)

Lemma wp_conj {A} (m : M A) (Q1 Q2 : A -> bnxt -> Prop) bp :
  wp m Q1 bp -> wlp m Q2 bp -> wp m (fun a s => Q1 a s /\ Q2 a s) bp.
Proof. unfold wp, wlp. destruct (m bp); auto. Qed.

Definition is_void_item (it : rte_flow_item) : bool :=
  match it with ITEM_VOID _ => true | _ => false end.

(** [bnxt_flow_non_void_item] skips the VOID items the pattern starts
    with, and nothing else. *)
Lemma non_void_item_prefix pattern item :
  bnxt_flow_non_void_item pattern = Some item ->
  exists pre,
    pattern = pre ++ item /\ forallb is_void_item pre = true /\
    match item with it :: _ => is_void_item it = false | [] => False end.
Proof.
  induction pattern as [|it pattern IH]; simpl; [discriminate|].
  destruct it; try (intros [= <-]; exists []; simpl; auto; fail).
  intros H. destruct (IH H) as (pre & -> & Hpre & Hit).
  exists (ITEM_VOID c :: pre). simpl. auto.
Qed.

Section ItemRules.
Variable hsi : hsi_defs.
Variable env : list env_call -> env_call -> env_resp.
Variable attr : rte_flow_attr.
Variable bp0 : bnxt.

(** [P] holds of items that the loop body rejects on every state with the
    configuration of [bp0]. *)
Variable P : rte_flow_item -> bool.
Hypothesis P_rejects :
  forall filter u ee it lv bp,
    P it = true -> config bp = config bp0 -> fvalid filter bp ->
    wp (parse_item hsi env attr filter u ee it lv)
      (fun r _ => exists rc, r = inl rc) bp.

Lemma parse_items_rejected filter u ee body rest :
  forall lv bp,
    forallb (fun x => negb (is_end_item x)) body = true ->
    existsb P body = true ->
    config bp = config bp0 -> fvalid filter bp ->
    wp (parse_items hsi env attr filter u ee (body ++ ITEM_END :: rest) lv)
      (fun r bp' =>
         fvalid filter bp' /\ exists rc, r = inl rc /\ validation_error rc bp')
      bp.
Proof.
  induction body as [|it body IH]; intros lv bp Hend Hex Hc Hv;
    [discriminate|].
  simpl in Hend. apply andb_true_iff in Hend as [Hit Hend].
  apply negb_true_iff in Hit.
  simpl app. rewrite parse_items_cons by assumption.
  apply wp_bind_cont.
  pose proof (wp_conj _ _ _ _
                (parse_item_masks hsi env attr filter u ee it lv bp Hv)
                (config_parse_item hsi env attr filter u ee it lv bp)) as H1.
  destruct (P it) eqn:HP.
  - eapply wp_mono;
      [|exact (wp_conj _ _ _ _
                 (wp_conj _ _ _ _
                    (parse_item_masks hsi env attr filter u ee it lv bp Hv)
                    (wp_wlp _ _ _
                       (P_rejects filter u ee it lv bp HP Hc Hv)))
                 (config_parse_item hsi env attr filter u ee it lv bp))].
    intros r bp' [[[Hv' Hr] (rc & ->)] _]. eauto.
  - simpl in Hex. rewrite HP in Hex. simpl in Hex.
    eapply wp_mono; [|exact H1].
    intros [rc|lv'] bp' [[Hv' Hr] Hc']; [eauto|].
    apply IH; [assumption | assumption | | assumption].
    unfold same in Hc'. congruence.
Qed.

Lemma parse_flow_type_rejected filter pattern body rest bp :
  bnxt_flow_non_void_item pattern = Some (body ++ ITEM_END :: rest) ->
  forallb (fun x => negb (is_end_item x)) body = true ->
  existsb P body = true ->
  config bp = config bp0 ->
  (fvalid filter bp ->
   wp (bnxt_validate_and_parse_flow_type hsi env attr pattern filter)
     (fun rc bp' => validation_error rc bp') bp) /\
  wlp (bnxt_validate_and_parse_flow_type hsi env attr pattern filter)
    (fun rc _ => rc <> 0) bp.
Proof.
  intros Hitem Hend Hex Hc.
  destruct (non_void_item_prefix _ _ Hitem) as (pre & Hpat & Hpre & _).
  assert (Hend' : forallb (fun x => negb (is_end_item x)) (pre ++ body)
                  = true).
  { rewrite forallb_app, Hend, andb_true_r. apply forallb_forall.
    intros x Hx. rewrite forallb_forall in Hpre. specialize (Hpre x Hx).
    now destruct x. }
  assert (Hcheck :
    bnxt_filter_type_check pattern bp =
    (if existsb is_vlan_item (pre ++ body) && nz (kind_after 1 (pre ++ body))
     then Done (- EINVAL)
            (with_error EINVAL RTE_FLOW_ERROR_TYPE_ITEM
               "Cannot use VLAN with NTUPLE" bp)
     else Done (kind_after 1 (pre ++ body)) bp)).
  { rewrite Hpat, app_assoc. now apply bnxt_filter_type_check_eq. }
  assert (Hmain : fvalid filter bp ->
    wp (bnxt_validate_and_parse_flow_type hsi env attr pattern filter)
      (fun rc bp' => validation_error rc bp') bp).
  { intros Hv. unfold bnxt_validate_and_parse_flow_type. rewrite Hitem.
    apply wp_bind, wp_ret, wp_bind. unfold wp at 1. rewrite Hcheck.
    destruct (existsb is_vlan_item (pre ++ body) && _).
    { apply wp_ret. repeat split; auto. }
    assert ((kind_after 1 (pre ++ body) <? 0) = false) as ->
      by (destruct (kind_after_cases (pre ++ body)) as [-> | ->];
          reflexivity).
    apply wp_bind, wp_filter_upd; [assumption|]. intros f Hf.
    apply wp_bind.
    eapply wp_mono; [|apply parse_items_rejected; try assumption].
    - intros r bp' (_ & rc & -> & Hrc). now apply wp_ret.
    - unfold config in *. simpl. now rewrite length_insert.
    - solve_fvalid. }
  split; [exact Hmain|].
  destruct (lt_dec filter (length (filter_info bp))) as [Hv | Hv].
  - apply wp_wlp. eapply wp_mono; [|exact (Hmain Hv)].
    intros rc bp' ([-> | ->] & _); discriminate.
  - unfold bnxt_validate_and_parse_flow_type. rewrite Hitem.
    apply wlp_bind, wlp_ret, wlp_bind. unfold wlp at 1. rewrite Hcheck.
    destruct (existsb is_vlan_item (pre ++ body) && _).
    { apply wlp_ret. discriminate. }
    assert ((kind_after 1 (pre ++ body) <? 0) = false) as ->
      by (destruct (kind_after_cases (pre ++ body)) as [-> | ->];
          reflexivity).
    apply wlp_bind. unfold wlp at 1. now rewrite filter_upd_invalid.
Qed.

End ItemRules.

(** The pattern is rejected on [bp]: no request with this pattern is
    accepted, and the field extractor, given a filter of the pool, returns
    a validation error. *)
Definition pattern_rejected (hsi : hsi_defs)
    (env : list env_call -> env_call -> env_resp) (attr : rte_flow_attr)
    (pattern : list rte_flow_item) (bp : bnxt) : Prop :=
  (forall actions, never_accepted hsi env attr pattern actions bp) /\
  (forall filter,
     fvalid filter bp ->
     exists rc bp',
       bnxt_validate_and_parse_flow_type hsi env attr pattern filter bp =
         Done rc bp' /\
       validation_error rc bp').

Lemma pattern_rejected_intro hsi env attr pattern body rest bp
    (P : rte_flow_item -> bool) it :
  (forall filter u ee it lv bp',
     P it = true -> config bp' = config bp -> fvalid filter bp' ->
     wp (parse_item hsi env attr filter u ee it lv)
       (fun r _ => exists rc, r = inl rc) bp') ->
  bnxt_flow_non_void_item pattern = Some (body ++ ITEM_END :: rest) ->
  forallb (fun x => negb (is_end_item x)) body = true ->
  In it body -> P it = true ->
  pattern_rejected hsi env attr pattern bp.
Proof.
  intros HP Hitem Hend Hin Hit.
  assert (Hex : existsb P body = true) by (apply existsb_exists; eauto).
  split.
  - intros actions. apply never_accepted_intro. intros filter bp1 Hc.
    unfold fails, bnxt_validate_and_parse_flow.
    apply wlp_bind, wlp_lift_opt. intros act _. apply wlp_bind.
    eapply wlp_mono;
      [|apply (parse_flow_type_rejected hsi env attr bp P HP filter pattern
                 body rest bp1 Hitem Hend Hex Hc)].
    intros rc bp2 Hrc. cbv beta.
    assert (nz rc = true) as -> by now apply nz_true.
    now apply fails_parse_flow_ret.
  - intros filter Hv.
    destruct (parse_flow_type_rejected hsi env attr bp P HP filter pattern
                body rest bp Hitem Hend Hex eq_refl) as [H _].
    apply wp_done in H; [|assumption]. destruct H as (rc & bp' & E & H).
    eauto.
Qed.

(** An item with a range, or without spec or mask. *)
Definition malformed_item (it : rte_flow_item) : bool :=
  item_has_last it || negb (item_has_spec it) || negb (item_has_mask it).

(** X7. From the first item that is not VOID to the end marker, every item
    of a pattern must carry a spec and a mask and no [last] pointer, VOID
    items included: a pattern with an item that has a range, or lacks its
    spec or its mask, is rejected with a validation error and no request
    with this pattern is ever accepted. *)
Theorem malformed_item_rejected hsi env attr pattern body rest it bp :
  bnxt_flow_non_void_item pattern = Some (body ++ ITEM_END :: rest) ->
  forallb (fun x => negb (is_end_item x)) body = true ->
  In it body ->
  malformed_item it = true ->
  pattern_rejected hsi env attr pattern bp.
Proof.
  intros Hitem Hend Hin Hit.
  apply (pattern_rejected_intro hsi env attr pattern body rest bp
           malformed_item it); try assumption.
  intros filter u ee x lv bp' Hx _ _. unfold parse_item.
  destruct (item_has_last x) eqn:Hl; [apply wp_fail_with; eauto|].
  destruct (negb (item_has_spec x) || negb (item_has_mask x)) eqn:Hsm;
    [apply wp_fail_with; eauto|].
  unfold malformed_item in Hx. rewrite Hl in Hx. simpl in Hx.
  rewrite Hsm in Hx. discriminate Hx.
Qed.

Lemma malformed_item_rejected_witness :
  pattern_rejected Sample.hsi Sample.env Sample.attr_in
    [ITEM_VOID (Conf None None None); Sample.eth_dst_item Scenario.mac1;
     ITEM_VOID (Conf None None None); ITEM_END] Sample.bp0.
Proof.
  apply (malformed_item_rejected Sample.hsi Sample.env Sample.attr_in _
           [Sample.eth_dst_item Scenario.mac1; ITEM_VOID (Conf None None None)]
           [] (ITEM_VOID (Conf None None None)));
    [reflexivity | reflexivity | simpl; auto | reflexivity].
Defined.

(** An Ethernet item that asks for an exact match (mask all ones) on a
    destination or source address that is not unicast. *)
Definition group_mac_item (it : rte_flow_item) : bool :=
  match it with
  | ITEM_ETH c =>
      match spec c, mask c with
      | Some s, Some m =>
          (rte_is_broadcast_ether_addr (eth_dst m) &&
           negb (rte_is_unicast_ether_addr (eth_dst s))) ||
          (rte_is_broadcast_ether_addr (eth_src m) &&
           negb (rte_is_unicast_ether_addr (eth_src s)))
      | _, _ => false
      end
  | _ => false
  end.

(** X8. Only unicast MAC addresses can be matched: a pattern with an
    Ethernet item whose fully masked destination or source address has the
    group bit set (multicast or broadcast) is rejected with a validation
    error, and no request with this pattern is ever accepted. *)
Theorem group_mac_rejected hsi env attr pattern body rest it bp :
  bnxt_flow_non_void_item pattern = Some (body ++ ITEM_END :: rest) ->
  forallb (fun x => negb (is_end_item x)) body = true ->
  In it body ->
  group_mac_item it = true ->
  pattern_rejected hsi env attr pattern bp.
Proof.
  intros Hitem Hend Hin Hit.
  apply (pattern_rejected_intro hsi env attr pattern body rest bp
           group_mac_item it); try assumption.
  intros filter u ee x lv bp' Hx _ Hv. unfold parse_item.
  destruct (item_has_last x); [apply wp_fail_with; eauto|].
  destruct (negb (item_has_spec x) || negb (item_has_mask x));
    [apply wp_fail_with; eauto|].
  destruct x; try discriminate Hx.
  destruct c as [[s|] l [m|]]; try discriminate Hx.
  unfold group_mac_item in Hx. simpl in Hx.
  unfold parse_eth. simpl.
  repeat wp_step; try (eexists; reflexivity).
  all: destruct (rte_is_unicast_ether_addr (eth_dst s)),
         (rte_is_unicast_ether_addr (eth_src s)),
         (rte_is_broadcast_ether_addr (eth_dst m)),
         (rte_is_broadcast_ether_addr (eth_src m)); simpl in *; congruence.
Qed.

Lemma group_mac_rejected_witness :
  pattern_rejected Sample.hsi Sample.env Sample.attr_in
    [Sample.eth_dst_item 0x01005E000001; ITEM_END] Sample.bp0.
Proof.
  apply (group_mac_rejected Sample.hsi Sample.env Sample.attr_in _
           [Sample.eth_dst_item 0x01005E000001] []
           (Sample.eth_dst_item 0x01005E000001));
    [reflexivity | reflexivity | simpl; auto | reflexivity].
Defined.

(** A VLAN item whose TCI mask is not exactly the 12 bits of the VLAN
    identifier, or whose inner-ethertype mask is partial. *)
Definition bad_vlan_item (hsi : hsi_defs) (it : rte_flow_item) : bool :=
  match it with
  | ITEM_VLAN c =>
      match spec c, mask c with
      | Some _, Some m =>
          negb (nz (vlan_tci m) && (vlan_tci m =? RTE_BE16 hsi 0x0fff)) ||
          (nz (vlan_inner_type m) &&
           negb (vlan_inner_type m =? RTE_BE16 hsi 0xffff))
      | _, _ => false
      end
  | _ => false
  end.

(** X9. A VLAN item can match the VLAN identifier only, and must match it:
    a pattern with a VLAN item whose TCI mask is anything but the 12
    identifier bits (big-endian 0x0fff), or whose inner-ethertype mask is
    neither zero nor all ones, is rejected with a validation error, and no
    request with this pattern is ever accepted. *)
Theorem bad_vlan_rejected hsi env attr pattern body rest it bp :
  bnxt_flow_non_void_item pattern = Some (body ++ ITEM_END :: rest) ->
  forallb (fun x => negb (is_end_item x)) body = true ->
  In it body ->
  bad_vlan_item hsi it = true ->
  pattern_rejected hsi env attr pattern bp.
Proof.
  intros Hitem Hend Hin Hit.
  apply (pattern_rejected_intro hsi env attr pattern body rest bp
           (bad_vlan_item hsi) it); try assumption.
  intros filter u ee x lv bp' Hx _ Hv. unfold parse_item.
  destruct (item_has_last x); [apply wp_fail_with; eauto|].
  destruct (negb (item_has_spec x) || negb (item_has_mask x));
    [apply wp_fail_with; eauto|].
  destruct x; try discriminate Hx.
  destruct c as [[s|] l [m|]]; try discriminate Hx.
  unfold bad_vlan_item in Hx. simpl in Hx.
  unfold parse_vlan. simpl.
  repeat wp_step; try (eexists; reflexivity); simpl in *; congruence.
Qed.

Module VlanSample.
Import Sample.

(** A VLAN item matching the whole TCI, priority bits included. *)
Definition whole_tci : rte_flow_item :=
  ITEM_VLAN (conf_of {| vlan_tci := 0x6400; vlan_inner_type := 0 |}
                     {| vlan_tci := 0xffff; vlan_inner_type := 0 |}).

End VlanSample.

Lemma bad_vlan_rejected_witness :
  pattern_rejected Sample.hsi Sample.env Sample.attr_in
    [Sample.eth_dst_item Scenario.mac1; VlanSample.whole_tci; ITEM_END]
    Sample.bp0.
Proof.
  apply (bad_vlan_rejected Sample.hsi Sample.env Sample.attr_in _
           [Sample.eth_dst_item Scenario.mac1; VlanSample.whole_tci] []
           VlanSample.whole_tci);
    [reflexivity | reflexivity | simpl; auto | reflexivity].
Defined.

(** A VXLAN or NVGRE item whose header is not the one the driver expects,
    or whose network identifier is not fully masked. *)
Definition bad_tunnel_item (it : rte_flow_item) : bool :=
  match it with
  | ITEM_VXLAN c =>
      match spec c, mask c with
      | Some s, Some m =>
          nz (vxlan_rsvd1 s) || nz (vxlan_rsvd0_0 s) || nz (vxlan_rsvd0_1 s) ||
          nz (vxlan_rsvd0_2 s) || negb (vxlan_flags s =? 0x8) ||
          negb (vxlan_vni m =? 0xFFFFFF)
      | _, _ => false
      end
  | ITEM_NVGRE c =>
      match spec c, mask c with
      | Some s, Some m =>
          negb (c_k_s_rsvd0_ver s =? 0x2000) ||
          negb (nvgre_protocol s =? 0x6558) ||
          negb (nvgre_tni m =? 0xFFFFFF)
      | _, _ => false
      end
  | _ => false
  end.

(** X10. Tunnel items match the whole network identifier of a well-formed
    header: a pattern with a VXLAN item whose spec has a reserved field set
    or flags other than 0x8, or with an NVGRE item whose spec has a first
    word other than 0x2000 or a protocol other than 0x6558, or with either
    item and a VNI/TNI mask other than ff:ff:ff, is rejected with a
    validation error, and no request with this pattern is ever accepted. *)
Theorem bad_tunnel_rejected hsi env attr pattern body rest it bp :
  bnxt_flow_non_void_item pattern = Some (body ++ ITEM_END :: rest) ->
  forallb (fun x => negb (is_end_item x)) body = true ->
  In it body ->
  bad_tunnel_item it = true ->
  pattern_rejected hsi env attr pattern bp.
Proof.
  intros Hitem Hend Hin Hit.
  apply (pattern_rejected_intro hsi env attr pattern body rest bp
           bad_tunnel_item it); try assumption.
  intros filter u ee x lv bp' Hx _ Hv. unfold parse_item.
  destruct (item_has_last x); [apply wp_fail_with; eauto|].
  destruct (negb (item_has_spec x) || negb (item_has_mask x));
    [apply wp_fail_with; eauto|].
  destruct x; try discriminate Hx;
    destruct c as [[s|] l [m|]]; try discriminate Hx;
    unfold bad_tunnel_item in Hx; simpl in Hx.
  - unfold parse_vxlan. simpl.
    repeat wp_step; try (eexists; reflexivity); simpl in *; congruence.
  - unfold parse_nvgre. simpl.
    repeat wp_step; try (eexists; reflexivity); simpl in *; congruence.
Qed.

Module TunnelSample.
Import Sample.

(** A VXLAN item for VNI 5 that matches the low byte of the VNI only. *)
Definition partial_vni : rte_flow_item :=
  ITEM_VXLAN
    (conf_of
       {| vxlan_flags := 8; vxlan_rsvd0_0 := 0; vxlan_rsvd0_1 := 0;
          vxlan_rsvd0_2 := 0; vxlan_vni := 5; vxlan_rsvd1 := 0 |}
       {| vxlan_flags := 0; vxlan_rsvd0_0 := 0; vxlan_rsvd0_1 := 0;
          vxlan_rsvd0_2 := 0; vxlan_vni := 0xFF; vxlan_rsvd1 := 0 |}).

End TunnelSample.

Lemma bad_tunnel_rejected_witness :
  pattern_rejected Sample.hsi Sample.env Sample.attr_in
    [TunnelSample.partial_vni; ITEM_END] Sample.bp0.
Proof.
  apply (bad_tunnel_rejected Sample.hsi Sample.env Sample.attr_in _
           [TunnelSample.partial_vni] [] TunnelSample.partial_vni);
    [reflexivity | reflexivity | simpl; auto | reflexivity].
Defined.

Lemma config_is_pf bp bp' : config bp' = config bp -> is_pf bp' = is_pf bp.
Proof. unfold config. now intros [= H _ _ _ _ _ _ _ _ _ _ _ _ _]. Qed.

Lemma config_max_vfs bp bp' :
  config bp' = config bp -> max_vfs bp' = max_vfs bp.
Proof. unfold config. now intros [= _ _ _ H _ _ _ _ _ _ _ _ _ _]. Qed.

(** A VF item on a device that is not a physical function, or naming a VF
    the device does not have, or in a rule without the transfer
    attribute. *)
Definition bad_vf_item (attr : rte_flow_attr) (bp : bnxt)
    (it : rte_flow_item) : bool :=
  match it with
  | ITEM_VF c =>
      match spec c with
      | Some s =>
          negb (is_pf bp) || (max_vfs bp <=? vf_id s) || negb (transfer attr)
      | None => false
      end
  | _ => false
  end.

(** X11. Matching the traffic of a VF needs a physical function, a VF
    identifier below the number of VFs, and the transfer attribute: a
    pattern with a VF item is rejected with a validation error when one of
    the three is missing, and no request with this pattern is accepted. *)
Theorem bad_vf_item_rejected hsi env attr pattern body rest it bp :
  bnxt_flow_non_void_item pattern = Some (body ++ ITEM_END :: rest) ->
  forallb (fun x => negb (is_end_item x)) body = true ->
  In it body ->
  bad_vf_item attr bp it = true ->
  pattern_rejected hsi env attr pattern bp.
Proof.
  intros Hitem Hend Hin Hit.
  apply (pattern_rejected_intro hsi env attr pattern body rest bp
           (bad_vf_item attr bp) it); try assumption.
  intros filter u ee x lv bp' Hx Hc Hv. unfold parse_item.
  destruct (item_has_last x); [apply wp_fail_with; eauto|].
  destruct (negb (item_has_spec x) || negb (item_has_mask x));
    [apply wp_fail_with; eauto|].
  destruct x; try discriminate Hx.
  destruct c as [[s|] l m]; try discriminate Hx.
  unfold bad_vf_item in Hx. simpl in Hx.
  unfold parse_vf, bnxt_hwrm_func_qcfg_vf_dflt_vnic_id. simpl.
  apply wp_bind, wp_gets, wp_bind, wp_gets.
  rewrite (config_is_pf _ _ Hc), (config_max_vfs _ _ Hc).
  repeat wp_step; try (eexists; reflexivity); simpl in *; congruence.
Qed.

Module VfSample.
Import Sample.

Definition vf_item (vf : Z) : rte_flow_item :=
  ITEM_VF (conf_of {| vf_id := vf |} {| vf_id := 0xFFFFFFFF |}).

End VfSample.

Lemma bad_vf_item_rejected_witness :
  pattern_rejected Sample.hsi Sample.env Sample.attr_in
    [VfSample.vf_item 1; ITEM_END] Sample.bp0.
Proof.
  apply (bad_vf_item_rejected Sample.hsi Sample.env Sample.attr_in _
           [VfSample.vf_item 1] [] (VfSample.vf_item 1));
    [reflexivity | reflexivity | simpl; auto | reflexivity].
Defined.

(** ** Requests refused before they are compiled *)

(** The state after [rte_zmalloc] has handed out a flow object. *)
Definition flow_allocated (bp : bnxt) : bnxt :=
  set_next_flow (S (next_flow bp))
    (set_env_log (call_rte_zmalloc :: env_log bp) bp).

(** [create] gets past its first checks and obtains a flow object. *)
Definition create_admitted
    (env : list env_call -> env_call -> env_resp) (bp : bnxt) : Prop :=
  is_vf bp && negb (vf_is_trusted bp) = false /\
  dev_started bp = true /\
  resp_rc (env (env_log bp) call_rte_zmalloc) = 0.

Lemma create_admitted_eq hsi env attr pattern actions bp :
  create_admitted env bp ->
  bnxt_flow_create hsi env attr pattern actions bp =
  (rc <- bnxt_flow_args_validate attr pattern actions ;;
   if nz rc then create_free_flow rc
   else
     match attr, pattern, actions with
     | Some attr, Some pattern, Some actions =>
         o <- bnxt_get_unused_filter ;;
         match o with
         | None => create_free_flow rc
         | Some filter =>
             rc <- bnxt_validate_and_parse_flow hsi env pattern actions
                     attr filter ;;
             if nz rc then create_free_filter filter rc
             else
               rc <- bnxt_match_filter hsi env filter ;;
               if rc =? - EEXIST then
                 bnxt_hwrm_clear_l2_filter env filter ;;
                 create_free_filter filter rc
               else
                 create_install hsi env (next_flow bp) filter rc
                   (rc =? - EXDEV)
         end
     | _, _, _ => fault
     end) (flow_allocated bp).
Proof.
  intros (Hvf & Hst & Hz). unfold bnxt_flow_create.
  unfold bind at 1, gets at 1. unfold bind at 1, gets at 1.
  unfold bind at 1, gets at 1. rewrite Hvf, Hst. cbn [negb].
  unfold bind at 1, rte_zmalloc_flow, bind at 1, call_env.
  rewrite Hz. reflexivity.
Qed.

(** X12. A missing argument is refused before the device is touched.
    [validate] returns [-EINVAL] and reports "NULL pattern." (type
    ITEM_NUM) when there is no pattern; "NULL action." (type ACTION_NUM)
    when there is a pattern and no actions; "NULL attribute." (type ATTR)
    when only the attributes are missing.  [create], once it has obtained
    its flow object, returns NULL and replaces that report by "Failed to
    create flow." (type HANDLE, code EINVAL); the flow object is
    released.  In both cases only the error structure and [rte_errno] are
    written, and for [create] the allocator's bookkeeping. *)
Theorem null_arguments_refused hsi env attr pattern actions bp :
  pattern = None \/ actions = None \/ attr = None ->
  bnxt_flow_validate hsi env attr pattern actions bp =
    Done (- EINVAL)
      (match pattern, actions with
       | None, _ =>
           with_error EINVAL RTE_FLOW_ERROR_TYPE_ITEM_NUM "NULL pattern." bp
       | Some _, None =>
           with_error EINVAL RTE_FLOW_ERROR_TYPE_ACTION_NUM "NULL action." bp
       | Some _, Some _ =>
           with_error EINVAL RTE_FLOW_ERROR_TYPE_ATTR "NULL attribute." bp
       end) /\
  (create_admitted env bp ->
   bnxt_flow_create hsi env attr pattern actions bp =
     Done None
       (with_error EINVAL RTE_FLOW_ERROR_TYPE_HANDLE "Failed to create flow."
          (flow_allocated bp))).
Proof.
  intros H. split.
  - destruct pattern, actions, attr; try reflexivity.
    destruct H as [H | [H | H]]; discriminate H.
  - intros Ha. rewrite (create_admitted_eq _ _ _ _ _ _ Ha).
    destruct pattern, actions, attr; try reflexivity.
    destruct H as [H | [H | H]]; discriminate H.
Qed.

Lemma null_arguments_refused_witness :
  bnxt_flow_validate Sample.hsi Sample.env None (Some RuleSamples.pattern)
    None Sample.bp0 =
    Done (- EINVAL)
      (with_error EINVAL RTE_FLOW_ERROR_TYPE_ACTION_NUM "NULL action."
         Sample.bp0) /\
  bnxt_flow_create Sample.hsi Sample.env None (Some RuleSamples.pattern)
    None Sample.bp0 =
    Done None
      (with_error EINVAL RTE_FLOW_ERROR_TYPE_HANDLE "Failed to create flow."
         (flow_allocated Sample.bp0)).
Proof.
  destruct (null_arguments_refused Sample.hsi Sample.env None
              (Some RuleSamples.pattern) None Sample.bp0
              (or_intror (or_introl eq_refl))) as [H1 H2].
  split; [exact H1|]. apply H2. repeat split; reflexivity.
Defined.

(** What [create] can leave in the error structure when it returns NULL. *)
Definition create_reports : list (rte_flow_error_type * string) :=
  [(RTE_FLOW_ERROR_TYPE_HANDLE, "Failed to create flow, Not a Trusted VF!");
   (RTE_FLOW_ERROR_TYPE_UNSPECIFIED, "Device must be started");
   (RTE_FLOW_ERROR_TYPE_HANDLE, "Failed to allocate memory");
   (RTE_FLOW_ERROR_TYPE_HANDLE, "Matching Flow exists.");
   (RTE_FLOW_ERROR_TYPE_NONE,
    "Flow with pattern exists, updating destination queue");
   (RTE_FLOW_ERROR_TYPE_HANDLE, "Failed to create flow.")].

Definition reported (bp : bnxt) : Prop :=
  In (err_type (flow_error bp), err_message (flow_error bp)) create_reports /\
  rte_errno bp = err_code (flow_error bp).

Section CreateReports.
Variable hsi : hsi_defs.
Variable env : list env_call -> env_call -> env_resp.

Definition reports (m : M (option nat)) : Prop :=
  forall bp, wlp m (fun r bp' => r = None -> reported bp') bp.

Lemma reports_bind {A} (m : M A) (k : A -> M (option nat)) :
  (forall a, reports (k a)) -> reports (bind m k).
Proof. intros H bp. apply wlp_bind, wlp_any. intros a bp'. apply H. Qed.

Lemma reports_free_flow rc : reports (create_free_flow rc).
Proof.
  intros bp. unfold create_free_flow.
  destruct (rc =? - EEXIST); [|destruct (rc =? - EXDEV)];
    apply wlp_bind, wlp_error_set, wlp_ret; intros _;
    (split; [simpl; auto 10 | reflexivity]).
Qed.

Lemma reports_free_filter nf rc : reports (create_free_filter nf rc).
Proof.
  unfold create_free_filter. apply reports_bind. intros _.
  apply reports_free_flow.
Qed.

Ltac reports_step :=
  cbv beta zeta;
  lazymatch goal with
  | |- reports (create_free_flow _) => apply reports_free_flow
  | |- reports (create_free_filter _ _) => apply reports_free_filter
  | |- reports (ret (Some _)) => intros ?; apply wlp_ret; discriminate
  | |- reports fault => intros ?; exact I
  | |- reports (bind _ _) => apply reports_bind; intros ?
  | |- reports (if ?c then _ else _) => destruct c
  | |- reports (match ?x with _ => _ end) => destruct x
  | |- reports (let '(_, _) := ?x in _) => destruct x
  end.

Lemma reports_create_done flow nf vnic rc upd :
  reports (create_done flow nf vnic rc upd).
Proof. unfold create_done. repeat reports_step. Qed.

Lemma reports_create_install flow nf rc upd :
  reports (create_install hsi env flow nf rc upd).
Proof.
  pose proof reports_create_done.
  unfold create_install. repeat first [apply reports_create_done | reports_step].
Qed.

Lemma reports_create attr pattern actions :
  reports (bnxt_flow_create hsi env attr pattern actions).
Proof.
  intros bp. unfold bnxt_flow_create.
  do 3 (apply wlp_bind, wlp_gets).
  destruct (is_vf bp && negb (vf_is_trusted bp)).
  { apply wlp_bind, wlp_error_set, wlp_ret. intros _.
    split; [simpl; auto 10 | reflexivity]. }
  destruct (negb (dev_started bp)).
  { apply wlp_bind, wlp_error_set, wlp_ret. intros _.
    split; [simpl; auto 10 | reflexivity]. }
  apply wlp_bind, wlp_any. intros [flow|] bp1.
  - revert bp1.
    change (reports
      (rc <- bnxt_flow_args_validate attr pattern actions ;;
       if nz rc then create_free_flow rc
       else
         match attr, pattern, actions with
         | Some attr, Some pattern, Some actions =>
             o <- bnxt_get_unused_filter ;;
             match o with
             | None => create_free_flow rc
             | Some filter =>
                 rc <- bnxt_validate_and_parse_flow hsi env pattern actions
                         attr filter ;;
                 if nz rc then create_free_filter filter rc
                 else
                   rc <- bnxt_match_filter hsi env filter ;;
                   if rc =? - EEXIST then
                     bnxt_hwrm_clear_l2_filter env filter ;;
                     create_free_filter filter rc
                   else create_install hsi env flow filter rc (rc =? - EXDEV)
             end
         | _, _, _ => fault
         end)).
    repeat first [apply reports_create_install | reports_step].
  - apply wlp_bind, wlp_error_set, wlp_ret. intros _.
    split; [simpl; auto 10 | reflexivity].
Qed.

End CreateReports.

(** X13. Whatever makes [create] return NULL, the caller finds one of six
    reports in the error structure, with [rte_errno] equal to the code
    reported: the three refusals made before the request is looked at,
    "Matching Flow exists.", the notice of a destination update, or
    "Failed to create flow." (type HANDLE).  The item, action or attribute
    error that the compilation of the request had recorded is overwritten
    by the last. *)
Theorem create_failure_report hsi env attr pattern actions bp bp' :
  bnxt_flow_create hsi env attr pattern actions bp = Done None bp' ->
  reported bp'.
Proof.
  intros E. pose proof (reports_create hsi env attr pattern actions bp) as H.
  unfold wlp in H. rewrite E in H. now apply H.
Qed.

Lemma create_failure_report_witness :
  let r := Sample.create (Some Sample.attr_in) (Some RuleSamples.pattern)
             (Some (Sample.queue 0)) Sample.bp0 in
  Sample.value_of r = Some None /\
  flow_error (Sample.state_of r) =
    {| err_type := RTE_FLOW_ERROR_TYPE_HANDLE; err_code := EINVAL;
       err_message := "Failed to create flow." |} /\
  reported (Sample.state_of r).
Proof.
  intros r. split; [vm_compute; reflexivity|].
  split; [vm_compute; reflexivity|].
  apply (create_failure_report Sample.hsi Sample.env (Some Sample.attr_in)
           (Some RuleSamples.pattern) (Some (Sample.queue 0)) Sample.bp0).
  vm_compute. reflexivity.
Defined.

(** X14. [create] looks at the request only on a started device that is not
    an untrusted VF, and only after it has obtained a flow object.
    Otherwise it returns NULL whatever the request, even a NULL one,
    without touching a filter, a VNIC or the firmware: on an untrusted VF
    it reports "Failed to create flow, Not a Trusted VF!" (type HANDLE,
    code EINVAL), on a stopped device "Device must be started" (type
    UNSPECIFIED, code EINVAL), and when the allocator has no memory
    "Failed to allocate memory" (type HANDLE, code ENOMEM). *)
Theorem create_refused_unadmitted hsi env attr pattern actions bp :
  ~ create_admitted env bp ->
  bnxt_flow_create hsi env attr pattern actions bp =
  Done None
    (if is_vf bp && negb (vf_is_trusted bp) then
       with_error EINVAL RTE_FLOW_ERROR_TYPE_HANDLE
         "Failed to create flow, Not a Trusted VF!" bp
     else if negb (dev_started bp) then
       with_error EINVAL RTE_FLOW_ERROR_TYPE_UNSPECIFIED
         "Device must be started" bp
     else
       with_error ENOMEM RTE_FLOW_ERROR_TYPE_HANDLE
         "Failed to allocate memory"
         (set_env_log (call_rte_zmalloc :: env_log bp) bp)).
Proof.
  intros Hn. unfold bnxt_flow_create.
  unfold bind at 1, gets at 1. unfold bind at 1, gets at 1.
  unfold bind at 1, gets at 1.
  destruct (is_vf bp && negb (vf_is_trusted bp)) eqn:Hvf; [reflexivity|].
  destruct (dev_started bp) eqn:Hst; [|reflexivity]. cbn [negb].
  unfold bind at 1, rte_zmalloc_flow, bind at 1, call_env.
  destruct (nz (resp_rc (env (env_log bp) call_rte_zmalloc))) eqn:Hz;
    [reflexivity|].
  exfalso. apply Hn. apply nz_false in Hz. repeat split; assumption.
Qed.

Module Refused.
Import Sample.

(** The sample device, stopped. *)
Definition stopped : bnxt := {|
  is_pf := true; is_vf := false; vf_is_trusted := false; max_vfs := 4;
  fw_fid := 1; first_vf_id := 128; dev_started := false; rx_offloads := 0;
  mq_mode := 1; rx_nr_rings := 4; nr_vnics := 1;
  vnic_info := vnic_info bp0; rx_queues := rx_queues bp0;
  grp_info := grp_info bp0; filter_info := filter_info bp0;
  free_filter_list := free_filter_list bp0;
  next_flow := 0; rte_errno := 0; flow_error := no_error; env_log := [] |}.

(** The sample device with every filter of the pool in use. *)
Definition exhausted : bnxt := set_free_filter_list [] bp0.

End Refused.

Lemma create_refused_unadmitted_witness :
  bnxt_flow_create Sample.hsi Sample.env (Some Sample.attr_in)
    (Some RuleSamples.pattern) (Some (Sample.queue 1)) Refused.stopped =
  Done None
    (with_error EINVAL RTE_FLOW_ERROR_TYPE_UNSPECIFIED
       "Device must be started" Refused.stopped).
Proof.
  apply (create_refused_unadmitted Sample.hsi Sample.env
           (Some Sample.attr_in) (Some RuleSamples.pattern)
           (Some (Sample.queue 1)) Refused.stopped).
  intros (_ & H & _). discriminate H.
Defined.

(** X15. With no free filter in the pool, [validate] returns [-ENOMEM] and
    writes nothing, not even the error structure; [create], once it has its
    flow object, returns NULL and reports "Failed to create flow." (type
    HANDLE) with code 0, so that [rte_errno] is 0 after the failure. *)
Theorem pool_exhausted hsi env attr pattern actions bp :
  free_filter_list bp = [] ->
  bnxt_flow_validate hsi env (Some attr) (Some pattern) (Some actions) bp =
    Done (- ENOMEM) bp /\
  (create_admitted env bp ->
   bnxt_flow_create hsi env (Some attr) (Some pattern) (Some actions) bp =
     Done None
       (with_error 0 RTE_FLOW_ERROR_TYPE_HANDLE "Failed to create flow."
          (flow_allocated bp))).
Proof.
  intros Hfree. split.
  - unfold bnxt_flow_validate, bnxt_flow_args_validate. simpl.
    unfold bind at 1, ret at 1. simpl.
    unfold bind at 1, bnxt_get_unused_filter, bind at 1, gets.
    now rewrite Hfree.
  - intros Ha. rewrite (create_admitted_eq _ _ _ _ _ _ Ha).
    unfold bnxt_flow_args_validate. simpl.
    unfold bind at 1, ret at 1. simpl.
    unfold bind at 1, bnxt_get_unused_filter, bind at 1, gets.
    simpl. now rewrite Hfree.
Qed.

Lemma pool_exhausted_witness :
  bnxt_flow_validate Sample.hsi Sample.env (Some Sample.attr_in)
    (Some RuleSamples.pattern) (Some (Sample.queue 1)) Refused.exhausted =
    Done (- ENOMEM) Refused.exhausted /\
  bnxt_flow_create Sample.hsi Sample.env (Some Sample.attr_in)
    (Some RuleSamples.pattern) (Some (Sample.queue 1)) Refused.exhausted =
    Done None
      (with_error 0 RTE_FLOW_ERROR_TYPE_HANDLE "Failed to create flow."
         (flow_allocated Refused.exhausted)).
Proof.
  destruct (pool_exhausted Sample.hsi Sample.env Sample.attr_in
              RuleSamples.pattern (Sample.queue 1) Refused.exhausted eq_refl)
    as [H1 H2].
  split; [exact H1|]. apply H2. repeat split; reflexivity.
Defined.

(** ** What validation leaves alone *)

(** The flows and the filters queued on each VNIC. *)
Definition tables (bp : bnxt) : list (list rte_flow) * list (list nat) :=
  (map flow_list (vnic_info bp), map vnic_filter (vnic_info bp)).

#[global] Hint Unfold tables : obs.

Section Tables.
Variable hsi : hsi_defs.
Variable env : list env_call -> env_call -> env_resp.

Lemma tables_free_filter p : preserves (same tables) (bnxt_free_filter p).
Proof. unfold bnxt_free_filter. frame. Qed.

Lemma tables_get_unused_filter :
  preserves (same tables) bnxt_get_unused_filter.
Proof. unfold bnxt_get_unused_filter. frame. Qed.

Lemma tables_type_check pattern :
  preserves (same tables) (bnxt_filter_type_check pattern).
Proof. unfold bnxt_filter_type_check. frame. Qed.

Lemma tables_parse_item attr nf u ee it lv :
  preserves (same tables) (parse_item hsi env attr nf u ee it lv).
Proof.
  unfold parse_item, parse_any, parse_eth, parse_vlan, parse_ipv4, parse_ipv6,
    parse_tcp, parse_udp, parse_ports, parse_vxlan, parse_nvgre, parse_gre,
    parse_vf, bnxt_hwrm_func_qcfg_vf_dflt_vnic_id.
  frame.
Qed.

Lemma tables_parse_items attr nf u ee items :
  forall lv,
    preserves (same tables) (parse_items hsi env attr nf u ee items lv).
Proof.
  induction items as [|it next IH]; intros lv.
  - apply preserves_fault.
  - destruct (is_end_item it) eqn:Hend.
    + destruct it; try discriminate Hend. apply preserves_ret. exact _.
    + rewrite parse_items_cons by assumption.
      apply preserves_bind_cont;
        [exact _ | apply tables_parse_item | apply IH].
Qed.

Lemma tables_parse_flow_type attr pattern nf :
  preserves (same tables)
    (bnxt_validate_and_parse_flow_type hsi env attr pattern nf).
Proof.
  pose proof tables_type_check. pose proof tables_parse_items.
  unfold bnxt_validate_and_parse_flow_type. frame.
Qed.

Lemma tables_parse_attr attr :
  preserves (same tables) (bnxt_flow_parse_attr attr).
Proof. unfold bnxt_flow_parse_attr. frame. Qed.


Lemma tables_find_l2 nf :
  preserves (same tables) (bnxt_find_matching_l2_filter hsi nf).
Proof. unfold bnxt_find_matching_l2_filter. frame. Qed.

Lemma tables_set_l2_filter dst p :
  preserves (same tables) (bnxt_hwrm_set_l2_filter env dst p).
Proof. unfold bnxt_hwrm_set_l2_filter. frame. Qed.

Lemma tables_clear_l2_filter p :
  preserves (same tables) (bnxt_hwrm_clear_l2_filter env p).
Proof. unfold bnxt_hwrm_clear_l2_filter. frame. Qed.

Lemma tables_create_l2 nf vnic :
  preserves (same tables) (bnxt_create_l2_filter hsi env nf vnic).
Proof.
  pose proof tables_set_l2_filter. pose proof tables_free_filter.
  pose proof tables_get_unused_filter.
  unfold bnxt_create_l2_filter. frame.
Qed.

Lemma tables_get_l2 nf vnic :
  preserves (same tables) (bnxt_get_l2_filter hsi env nf vnic).
Proof.
  pose proof tables_find_l2. pose proof tables_create_l2.
  unfold bnxt_get_l2_filter. frame.
Qed.

Lemma tables_vnic_prep vnic :
  preserves (same tables) (bnxt_vnic_prep hsi env vnic).
Proof.
  unfold bnxt_vnic_prep, bnxt_vnic_grp_alloc, bnxt_hwrm_vnic_alloc,
    bnxt_hwrm_vnic_ctx_alloc, bnxt_hwrm_vnic_cfg, bnxt_hwrm_vnic_plcmode_cfg.
  frame.
Qed.

Lemma tables_match_rss vnic rss :
  preserves (same tables) (match_vnic_rss_cfg vnic rss).
Proof. unfold match_vnic_rss_cfg. frame. Qed.

Lemma tables_update_flags_en filter filter1 u :
  preserves (same tables) (bnxt_update_filter_flags_en hsi filter filter1 u).
Proof. unfold bnxt_update_filter_flags_en. frame. Qed.

Lemma tables_parse_flow_ret vnic rxq rc :
  preserves (same tables) (parse_flow_ret vnic rxq rc).
Proof. unfold parse_flow_ret. frame. Qed.

Lemma tables_goto_ret_error vnic rxq code ty msg :
  preserves (same tables) (goto_ret_error vnic rxq code ty msg).
Proof. pose proof tables_parse_flow_ret. unfold goto_ret_error. frame. Qed.

Lemma tables_parse_flow_done act vnic rxq rc :
  preserves (same tables) (parse_flow_done act vnic rxq rc).
Proof. pose proof tables_goto_ret_error. unfold parse_flow_done. frame. Qed.

Lemma tables_parse_flow_break filter filter1 act vnic rxq rc :
  preserves (same tables) (parse_flow_break filter filter1 act vnic rxq rc).
Proof.
  pose proof tables_parse_flow_done. pose proof tables_free_filter.
  unfold parse_flow_break. frame.
Qed.

Lemma tables_use_vnic filter u act b vnic_id rxq rc e msg :
  preserves (same tables)
    (parse_flow_use_vnic hsi env filter u act b vnic_id rxq rc e msg).
Proof.
  pose proof tables_get_l2. pose proof tables_update_flags_en.
  pose proof tables_parse_flow_break. pose proof tables_parse_flow_ret.
  unfold parse_flow_use_vnic. frame.
Qed.

Lemma tables_action_queue attr filter u act act_q rc :
  preserves (same tables)
    (parse_action_queue hsi env attr filter u act act_q rc).
Proof.
  pose proof tables_use_vnic. pose proof tables_goto_ret_error.
  pose proof tables_vnic_prep.
  unfold parse_action_queue, read_vnic_at. frame.
Qed.

Lemma tables_action_dflt_l2 filter act report e finish rc :
  preserves (same tables)
    (parse_action_dflt_l2 hsi env filter act report e finish rc).
Proof.
  pose proof tables_get_l2. pose proof tables_parse_flow_break.
  pose proof tables_parse_flow_ret.
  unfold parse_action_dflt_l2. frame.
Qed.

Lemma tables_action_vf filter act act_vf rc :
  preserves (same tables) (parse_action_vf hsi env filter act act_vf rc).
Proof.
  pose proof tables_action_dflt_l2. pose proof tables_goto_ret_error.
  pose proof tables_parse_flow_done.
  unfold parse_action_vf, bnxt_hwrm_func_qcfg_vf_dflt_vnic_id. frame.
Qed.

Lemma tables_rss_bind_queues v rss idx :
  forall rxq, preserves (same tables) (rss_bind_queues hsi v rss idx rxq).
Proof. induction idx as [|i rest IH]; intros rxq; simpl; frame. Qed.

Lemma tables_rss_take_rings v rss idx :
  preserves (same tables) (rss_take_rings hsi v rss idx).
Proof. induction idx as [|i rest IH]; simpl; frame. Qed.

Lemma tables_action_rss attr filter u act rss rc :
  preserves (same tables)
    (parse_action_rss hsi env attr filter u act rss rc).
Proof.
  pose proof tables_use_vnic. pose proof tables_goto_ret_error.
  pose proof tables_vnic_prep. pose proof tables_match_rss.
  pose proof tables_rss_bind_queues. pose proof tables_rss_take_rings.
  pose proof tables_parse_flow_ret.
  unfold parse_action_rss, read_vnic_at, bnxt_hwrm_vnic_rss_cfg. frame.
Qed.

Lemma tables_parse_flow pattern actions attr filter :
  preserves (same tables)
    (bnxt_validate_and_parse_flow hsi env pattern actions attr filter).
Proof.
  pose proof tables_parse_flow_type. pose proof tables_parse_attr.
  pose proof tables_type_check.
  pose proof tables_action_queue. pose proof tables_action_dflt_l2.
  pose proof tables_action_vf. pose proof tables_action_rss.
  pose proof tables_parse_flow_ret. pose proof tables_goto_ret_error.
  unfold bnxt_validate_and_parse_flow. frame.
Qed.

Lemma tables_validate attr pattern actions :
  preserves (same tables) (bnxt_flow_validate hsi env attr pattern actions).
Proof.
  pose proof tables_parse_flow. pose proof tables_clear_l2_filter.
  pose proof tables_get_unused_filter. pose proof tables_free_filter.
  unfold bnxt_flow_validate, bnxt_flow_args_validate, find_matching_vnic,
    free_fw_grp_ids, bnxt_hwrm_vnic_ctx_free, bnxt_hwrm_vnic_free,
    bnxt_hwrm_clear_em_filter, bnxt_hwrm_clear_ntuple_filter.
  frame.
Qed.


End Tables.

(** X16. [validate] never adds, removes or moves a flow or a queued filter:
    whatever the request and whatever it returns, every VNIC has afterwards
    the flow list and the filter list it had (while reference counts, VNIC
    contexts and queue bindings may have changed). *)
Theorem validate_keeps_tables hsi env attr pattern actions bp rc bp' :
  bnxt_flow_validate hsi env attr pattern actions bp = Done rc bp' ->
  map flow_list (vnic_info bp') = map flow_list (vnic_info bp) /\
  map vnic_filter (vnic_info bp') = map vnic_filter (vnic_info bp).
Proof.
  intros E.
  pose proof (preserves_done _ _ _ _ _
                (tables_validate hsi env attr pattern actions) E) as H.
  unfold same, tables in H. now injection H.
Qed.

Lemma validate_keeps_tables_witness :
  let r := Sample.validate (Some Sample.attr_in) (Some RuleSamples.pattern)
             (Some (Sample.queue 2)) Scenario.one_flow in
  Sample.value_of r = Some 0 /\
  map flow_list (vnic_info (Sample.state_of r)) =
    map flow_list (vnic_info Scenario.one_flow) /\
  map vnic_filter (vnic_info (Sample.state_of r)) =
    map vnic_filter (vnic_info Scenario.one_flow).
Proof.
  intros r. split; [vm_compute; reflexivity|].
  apply (validate_keeps_tables Sample.hsi Sample.env (Some Sample.attr_in)
           (Some RuleSamples.pattern) (Some (Sample.queue 2))
           Scenario.one_flow 0).
  vm_compute. reflexivity.
Defined.

(** ** Flush *)

Lemma wlp_conj {A} (m : M A) (Q1 Q2 : A -> bnxt -> Prop) bp :
  wlp m Q1 bp -> wlp m Q2 bp -> wlp m (fun a s => Q1 a s /\ Q2 a s) bp.
Proof. unfold wlp. destruct (m bp); auto. Qed.

(** The VNIC table and the free list of the pool. *)
Definition vnics_and_pool (bp : bnxt) : list bnxt_vnic_info * list nat :=
  (vnic_info bp, free_filter_list bp).

#[global] Hint Unfold vnics_and_pool : obs.

(** The filters the flows of a list own. *)
Definition filters_of (flows : list rte_flow) : list nat :=
  omap flow_filter flows.

(** A VNIC after a flush, and the filters the flush has released from it:
    VNICs without hardware context are skipped. *)
Definition flushed (hsi : hsi_defs) (vn : bnxt_vnic_info) : bnxt_vnic_info :=
  if fw_vnic_id vn =? INVALID_VNIC_ID hsi then vn else set_flow_list [] vn.
Definition released (hsi : hsi_defs) (vn : bnxt_vnic_info) : list nat :=
  if fw_vnic_id vn =? INVALID_VNIC_ID hsi then []
  else filters_of (flow_list vn).

Section Flush.
Variable hsi : hsi_defs.
Variable env : list env_call -> env_call -> env_resp.

Lemma flush_clear_l2 p :
  preserves (same vnics_and_pool) (bnxt_hwrm_clear_l2_filter env p).
Proof. unfold bnxt_hwrm_clear_l2_filter. frame. Qed.

Lemma flush_tunnel_destroy nf :
  preserves (same vnics_and_pool)
    (bnxt_handle_tunnel_redirect_destroy env nf).
Proof.
  unfold bnxt_handle_tunnel_redirect_destroy, bnxt_hwrm_tunnel_redirect_query,
    bnxt_hwrm_tunnel_redirect_info, bnxt_hwrm_tunnel_redirect_free.
  frame.
Qed.

(** The firmware part of one round of the loop over the flows. *)
Definition flush_one (i : nat) (filter : nat) (f : bnxt_filter_info)
  : M (option Z) :=
  if filter_kind_eqb (filter_type f) HWRM_CFA_TUNNEL_REDIRECT_FILTER &&
     (enables f =? tunnel_type f)
  then
    rc <- bnxt_handle_tunnel_redirect_destroy env filter ;;
    if negb (nz rc) then ret None else ret (Some rc)
  else
    rc <- (if filter_kind_eqb (filter_type f) HWRM_CFA_EM_FILTER
           then bnxt_hwrm_clear_em_filter env filter
           else ret 0) ;;
    rc <- (if filter_kind_eqb (filter_type f) HWRM_CFA_NTUPLE_FILTER
           then bnxt_hwrm_clear_ntuple_filter env filter
           else if Nat.eqb i 0 then bnxt_hwrm_clear_l2_filter env filter
           else ret rc) ;;
    if nz rc then
      rte_flow_error_set (- rc) RTE_FLOW_ERROR_TYPE_HANDLE
        "Failed to flush flow in HW." ;;
      e <- gets rte_errno ;;
      ret (Some (- e))
    else ret None.

Lemma flush_one_effect i filter f bp :
  wlp (flush_one i filter f)
    (fun r bp' =>
       same vnics_and_pool bp bp' /\ forall rc, r = Some rc -> rc <> 0) bp.
Proof.
  apply wlp_conj.
  - pose proof flush_clear_l2. pose proof flush_tunnel_destroy.
    assert (Hp : preserves (same vnics_and_pool) (flush_one i filter f)).
    { unfold flush_one, bnxt_hwrm_clear_em_filter,
        bnxt_hwrm_clear_ntuple_filter. frame. }
    apply Hp.
  - unfold flush_one.
    destruct (filter_kind_eqb _ _ && _).
    + apply wlp_bind, wlp_any. intros rc bp1.
      destruct (nz rc) eqn:Hrc; apply wlp_ret; intros ? [= <-].
      now apply nz_true.
    + apply wlp_bind, wlp_any. intros rc0 bp1.
      apply wlp_bind, wlp_any. intros rc bp2.
      destruct (nz rc) eqn:Hrc.
      * apply wlp_bind, wlp_error_set, wlp_bind, wlp_gets, wlp_ret.
        intros ? [= <-]. simpl. apply nz_true in Hrc. lia.
      * apply wlp_ret. discriminate.
Qed.

Lemma flush_flows_effect i flows :
  forall bp vn,
    vnic_info bp !! i = Some vn -> flow_list vn = flows ->
    wlp (flush_flows env i flows)
      (fun r bp' =>
         match r with
         | None =>
             vnic_info bp' = <[i := set_flow_list [] vn]> (vnic_info bp) /\
             free_filter_list bp' = free_filter_list bp ++ filters_of flows
         | Some rc => rc <> 0
         end) bp.
Proof.
  induction flows as [|flow rest IH]; intros bp vn Hvn Hfl; simpl.
  - apply wlp_ret. split; [|now rewrite app_nil_r].
    symmetry. apply list_insert_id. rewrite Hvn. f_equal.
    destruct vn. simpl in Hfl. now subst.
  - apply wlp_bind, wlp_lift_opt. intros filter Hff.
    apply wlp_bind, wlp_read_filter. intros f _.
    apply wlp_bind.
    eapply wlp_mono; [|apply (flush_one_effect i filter f)].
    intros [rc|] bp1 [Hsame Hrc]; cbv beta iota.
    { apply wlp_ret. now apply Hrc. }
    unfold same, vnics_and_pool in Hsame. injection Hsame as Hvi Hfree.
    unfold bnxt_free_filter. apply wlp_bind, wlp_modify.
    apply wlp_bind, wlp_read_vnic. intros vn1 Hvn1. simpl in Hvn1.
    assert (vn1 = vn) as -> by congruence.
    apply wlp_bind, wlp_lift_opt. intros l Hl.
    rewrite Hfl in Hl. simpl in Hl.
    unfold flow_eqb in Hl. rewrite Nat.eqb_refl in Hl. injection Hl as <-.
    apply wlp_bind, wlp_vnic_upd. intros vn2 Hvn2. simpl in Hvn2.
    assert (vn2 = vn) as -> by congruence.
    eapply wlp_mono;
      [|apply (IH _ (set_flow_list rest vn));
        [simpl; apply list_lookup_insert_eq;
         eapply lookup_lt_Some; eassumption
        |reflexivity]].
    intros [rc|] bp' H; [exact H|]. destruct H as [H1 H2]. simpl in H1, H2.
    split.
    + rewrite H1, list_insert_insert_eq, Hvi. reflexivity.
    + rewrite H2, Hfree. unfold stailq_insert_tail, filters_of. simpl.
      rewrite Hff. now rewrite <- app_assoc.
Qed.

Lemma flush_vnics_effect m :
  forall k bp,
    (k + m = length (vnic_info bp))%nat ->
    wlp (flush_vnics hsi env (seq k m))
      (fun rc bp' =>
         rc = 0 ->
         vnic_info bp' =
           take k (vnic_info bp) ++ map (flushed hsi) (drop k (vnic_info bp)) /\
         free_filter_list bp' =
           free_filter_list bp ++
           concat (map (released hsi) (drop k (vnic_info bp)))) bp.
Proof.
  induction m as [|m IH]; intros k bp Hlen; simpl.
  - apply wlp_ret. intros _.
    rewrite drop_ge, take_ge by lia. simpl. now rewrite !app_nil_r.
  - apply wlp_bind, wlp_read_vnic. intros vn Hvn.
    rewrite (drop_S _ _ _ Hvn). simpl.
    unfold flushed at 1, released at 1.
    destruct (fw_vnic_id vn =? INVALID_VNIC_ID hsi).
    + eapply wlp_mono; [|apply (IH (S k)); lia].
      intros rc bp' H Hrc. destruct (H Hrc) as [H1 H2].
      rewrite (take_S_r _ _ _ Hvn), <- app_assoc in H1. auto.
    + apply wlp_bind.
      eapply wlp_mono; [|apply (flush_flows_effect k _ bp vn Hvn eq_refl)].
      intros [rc|] bp1 H; cbv beta iota.
      { apply wlp_ret. intros ->. now contradiction H. }
      destruct H as [Hvi Hfree].
      eapply wlp_mono;
        [|apply (IH (S k)); rewrite Hvi, length_insert; lia].
      intros rc bp' H Hrc. destruct (H Hrc) as [H1 H2].
      rewrite Hvi in H1, H2.
      rewrite drop_insert_lt in H1, H2 by lia.
      assert (Hk : (k < length (vnic_info bp))%nat)
        by (eapply lookup_lt_Some; eassumption).
      rewrite take_S_r with (x := set_flow_list [] vn) in H1
        by (now apply list_lookup_insert_eq).
      rewrite take_insert_ge in H1 by lia.
      rewrite <- app_assoc in H1. split; [exact H1|].
      rewrite H2, Hfree. now rewrite <- app_assoc.
Qed.

End Flush.



(** ** The lookup in the flow table *)

Section Lookup.
Variable hsi : hsi_defs.
Variable env : list env_call -> env_call -> env_resp.

Lemma match_filter_codes nf bp :
  wlp (bnxt_match_filter hsi env nf)
    (fun rc bp' => (rc = 0 \/ rc = - EEXIST) /\ bp' = bp \/ rc = - EXDEV) bp.
Proof.
  unfold bnxt_match_filter.
  apply wlp_bind, wlp_read_filter. intros nfr _.
  apply wlp_bind, wlp_gets, wlp_bind, wlp_gets, wlp_bind, wlp_lift_opt.
  intros [[[i F] mf]|] _.
  - apply wlp_bind, wlp_read_filter. intros mfr _.
    destruct (dst_id mfr =? dst_id nfr).
    + apply wlp_ret. left. auto.
    + repeat (apply wlp_bind, wlp_any; intros ? ?).
      apply wlp_ret. now right.
  - apply wlp_ret. left. auto.
Qed.

Lemma match_filter_found nf nfr bp :
  filter_info bp !! nf = Some nfr ->
  wlp (bnxt_match_filter hsi env nf)
    (fun rc _ =>
       if rc =? 0
       then match_scan_vnics hsi (filter_info bp) nfr
              (rev (indexed (vnic_info bp))) = Some None
       else exists m,
              match_scan_vnics hsi (filter_info bp) nfr
                (rev (indexed (vnic_info bp))) = Some (Some m)) bp.
Proof.
  intros Hnf. unfold bnxt_match_filter.
  apply wlp_bind, wlp_read_filter. intros nfr' Hnf'.
  assert (nfr' = nfr) as -> by congruence.
  apply wlp_bind, wlp_gets, wlp_bind, wlp_gets, wlp_bind, wlp_lift_opt.
  intros [[[i F] mf]|] Hscan.
  - apply wlp_bind, wlp_read_filter. intros mfr _.
    destruct (dst_id mfr =? dst_id nfr).
    + apply wlp_ret. simpl. eauto.
    + repeat (apply wlp_bind, wlp_any; intros ? ?).
      apply wlp_ret. simpl. eauto.
  - apply wlp_ret. assumption.
Qed.

End Lookup.

(** X18. The lookup [bnxt_match_filter] makes for a candidate filter, on a
    table where every queued flow owns a filter of the pool: it returns 0,
    [-EEXIST] or [-EXDEV], and writes the state only when it returns
    [-EXDEV]; and it returns 0, leaving the state as it is, exactly when no
    flow queued on a VNIC with a hardware context owns a filter that
    compares equal to the candidate. *)
Theorem match_filter_verdict hsi env nf nfr bp :
  filter_info bp !! nf = Some nfr ->
  flows_have_filters bp ->
  (forall rc bp',
     bnxt_match_filter hsi env nf bp = Done rc bp' ->
     (rc = 0 \/ rc = - EEXIST) /\ bp' = bp \/ rc = - EXDEV) /\
  (bnxt_match_filter hsi env nf bp = Done 0 bp <->
   forall i F p r, installed hsi bp i F p r -> filter_match r nfr = false).
Proof.
  intros Hnf Hwf. split.
  - intros rc bp' E. pose proof (match_filter_codes hsi env nf bp) as H.
    unfold wlp in H. now rewrite E in H.
  - destruct (match_scan_table hsi bp nfr Hwf) as (res & Hres & Hspec).
    split.
    + intros E. pose proof (match_filter_found hsi env nf nfr bp Hnf) as H.
      unfold wlp in H. rewrite E in H. simpl in H.
      rewrite Hres in H. injection H as ->. exact Hspec.
    + intros Hnone.
      destruct res as [[[i F] p]|].
      * destruct Hspec as (r & HF & Hm).
        rewrite (Hnone _ _ _ _ HF) in Hm. discriminate.
      * unfold bnxt_match_filter.
        unfold bind at 1. rewrite (read_filter_eq _ _ _ Hnf).
        unfold bind at 1, gets at 1. unfold bind at 1, gets at 1.
        unfold bind at 1. now rewrite Hres.
Qed.

Lemma match_filter_verdict_witness :
  bnxt_match_filter Sample.hsi Sample.env 1 RuleSamples.parsed =
    Done 0 RuleSamples.parsed /\
  bnxt_match_filter Sample.hsi Sample.env 1 Scenario.one_flow =
    Done (- EEXIST) Scenario.one_flow.
Proof.
  split.
  - apply (match_filter_verdict Sample.hsi Sample.env 1
             (DuplicateScenario.record RuleSamples.parsed 1)
             RuleSamples.parsed); [reflexivity | |].
    + intros i vn F Hvn HF.
      destruct i as [|[|[|[|i]]]]; concrete_vnic Hvn; destruct HF.
    + intros i F p r (vn & Hvn & _ & HF & _).
      destruct i as [|[|[|[|i]]]]; concrete_vnic Hvn; destruct HF.
  - vm_compute. reflexivity.
Defined.

(** ** Destroy *)

(** The VNIC table, the free list of the pool and the count of VNICs in
    use. *)
Definition vnic_tables (bp : bnxt) : list bnxt_vnic_info * list nat * Z :=
  (vnic_info bp, free_filter_list bp, nr_vnics bp).

#[global] Hint Unfold vnic_tables : obs.

(** No flow in the table has the pattern of [nfr] and another destination:
    the search of the table then rewrites nothing. *)
Definition one_destination (hsi : hsi_defs) (bp : bnxt)
    (nfr : bnxt_filter_info) : Prop :=
  forall i G q r,
    installed hsi bp i G q r -> filter_match r nfr = true ->
    dst_id r = dst_id nfr.

(** What a destroy that returns 0 has done to the VNIC [v] of flow [F] and
    to the pool: filter [p] has left the VNIC's filter list for the tail of
    the free list and [F] has left the flow list; when the flow list is
    empty then, the VNIC has been released. *)
Definition flow_removed (hsi : hsi_defs) (F : rte_flow) (p v : nat)
    (vn : bnxt_vnic_info) (bp bp' : bnxt) : Prop :=
  exists q l vn',
    stailq_remove Nat.eqb p (vnic_filter vn) = Some q /\
    stailq_remove flow_eqb F (flow_list vn) = Some l /\
    vnic_info bp' = <[v := vn']> (vnic_info bp) /\
    free_filter_list bp' = free_filter_list bp ++ [p] /\
    vnic_filter vn' = q /\ flow_list vn' = l /\
    match l with
    | [] =>
        rx_queue_cnt vn' = 0 /\ fw_grp_ids vn' = [] /\
        (fw_vnic_id vn' = fw_vnic_id vn \/
         fw_vnic_id vn' = INVALID_HW_RING_ID hsi) /\
        nr_vnics bp' = nr_vnics bp - 1
    | _ :: _ =>
        vn' = set_flow_list l (set_vnic_filter q vn) /\
        nr_vnics bp' = nr_vnics bp
    end.

Section Destroy.
Variable hsi : hsi_defs.
Variable env : list env_call -> env_call -> env_resp.

Lemma match_filter_quiet nf nfr bp :
  filter_info bp !! nf = Some nfr ->
  flows_have_filters bp ->
  one_destination hsi bp nfr ->
  exists rc, bnxt_match_filter hsi env nf bp = Done rc bp.
Proof.
  intros Hnf Hwf Hdst.
  destruct (match_scan_table hsi bp nfr Hwf) as (res & Hres & Hspec).
  unfold bnxt_match_filter.
  unfold bind at 1. rewrite (read_filter_eq _ _ _ Hnf).
  unfold bind at 1, gets at 1. unfold bind at 1, gets at 1.
  unfold bind at 1. rewrite Hres. simpl.
  destruct res as [[[i G] p]|]; [|eauto].
  destruct Hspec as (r & HG & Hr).
  pose proof (Hdst _ _ _ _ HG Hr) as Hd.
  destruct HG as (vn & _ & _ & _ & _ & Hp).
  unfold bind at 1. rewrite (read_filter_eq _ _ _ Hp).
  apply Z.eqb_eq in Hd. rewrite Hd. eauto.
Qed.

Lemma tables_clear_l2 p :
  preserves (same vnic_tables) (bnxt_hwrm_clear_l2_filter env p).
Proof. unfold bnxt_hwrm_clear_l2_filter. frame. Qed.

Lemma tables_tunnel_destroy nf :
  preserves (same vnic_tables)
    (bnxt_handle_tunnel_redirect_destroy env nf).
Proof.
  unfold bnxt_handle_tunnel_redirect_destroy, bnxt_hwrm_tunnel_redirect_query,
    bnxt_hwrm_tunnel_redirect_info, bnxt_hwrm_tunnel_redirect_free.
  frame.
Qed.

(** [done:] with a return code that is not 0 reports and removes nothing. *)
Lemma destroy_done_failed F p rc bp0 bp :
  rc <> 0 -> same vnic_tables bp0 bp ->
  wlp (destroy_done hsi env F p rc)
    (fun r bp' => r = rc /\ same vnic_tables bp0 bp') bp.
Proof.
  intros Hrc H0. unfold destroy_done.
  apply nz_true in Hrc. rewrite Hrc. simpl.
  apply wlp_bind, wlp_error_set, wlp_ret. auto.
Qed.

(** [done:] with return code 0 *)
Lemma destroy_done_removes F p v vn bp0 bp :
  flow_vnic F = Some v -> vnic_info bp0 !! v = Some vn ->
  same vnic_tables bp0 bp ->
  wlp (destroy_done hsi env F p 0)
    (fun r bp' => r = 0 /\ flow_removed hsi F p v vn bp0 bp') bp.
Proof.
  intros Hfv Hvn H0. unfold same, vnic_tables in H0.
  injection H0 as Hvi Hfree Hnr.
  assert (Hlt : (v < length (vnic_info bp))%nat)
    by (rewrite Hvi; eapply lookup_lt_Some; eassumption).
  unfold destroy_done. simpl. rewrite Hfv.
  apply wlp_bind, wlp_lift_opt. intros ? [= <-].
  apply wlp_bind, wlp_read_vnic. intros vn0 Hvn0.
  assert (vn0 = vn) as -> by congruence.
  apply wlp_bind, wlp_lift_opt. intros q Hq.
  apply wlp_bind, wlp_vnic_upd. intros vn0 Hvn0'.
  assert (vn0 = vn) as -> by congruence. clear Hvn0'.
  unfold bnxt_free_filter. apply wlp_bind, wlp_modify.
  apply wlp_bind, wlp_read_vnic. intros vn1 Hvn1. simpl in Hvn1.
  rewrite list_lookup_insert_eq in Hvn1 by assumption.
  injection Hvn1 as <-.
  apply wlp_bind, wlp_lift_opt. intros l Hl. simpl in Hl.
  apply wlp_bind, wlp_vnic_upd. intros vn1 Hvn1. simpl in Hvn1 |- *.
  rewrite list_lookup_insert_eq in Hvn1 by assumption.
  injection Hvn1 as <-.
  rewrite list_insert_insert_eq.
  destruct l as [|G l].
  - unfold free_fw_grp_ids.
    apply wlp_bind, wlp_bind, wlp_vnic_upd. intros vn1 Hvn1.
    simpl in Hvn1 |- *.
    rewrite list_lookup_insert_eq in Hvn1 by assumption.
    injection Hvn1 as <-.
    rewrite list_insert_insert_eq.
    apply wlp_bind, wlp_read_vnic. intros vn2 Hvn2. simpl in Hvn2.
    rewrite list_lookup_insert_eq in Hvn2 by assumption.
    injection Hvn2 as <-.
    apply wlp_bind.
    apply wlp_mono with
      (Q := fun _ s =>
              vnic_info s =
                <[v := set_fw_grp_ids []
                         (set_flow_list [] (set_vnic_filter q vn))]>
                  (vnic_info bp) /\
              free_filter_list s = free_filter_list bp ++ [p] /\
              nr_vnics s = nr_vnics bp).
    2: { destruct (1 <? _).
         - unfold bnxt_hwrm_vnic_ctx_free.
           apply wlp_bind, wlp_bind, wlp_call_env, wlp_ret, wlp_ret.
           simpl. auto.
         - apply wlp_ret. simpl. auto. }
    intros _ s1 (Hs1 & Hf1 & Hn1). cbv beta.
    unfold bnxt_hwrm_vnic_free.
    assert (Hlt1 : (v < length (vnic_info s1))%nat)
      by (rewrite Hs1, length_insert; assumption).
    apply wlp_bind, wlp_bind, wlp_call_env.
    set (r := env _ _). clearbody r.
    apply wlp_bind
      with (m := if resp_rc r =? 0 then vnic_upd v _ else ret tt).
    apply wlp_mono with
      (Q := fun _ s =>
              exists vn',
                vnic_info s = <[v := vn']> (vnic_info bp) /\
                vnic_filter vn' = q /\ flow_list vn' = [] /\
                fw_grp_ids vn' = [] /\
                (fw_vnic_id vn' = fw_vnic_id vn \/
                 fw_vnic_id vn' = INVALID_HW_RING_ID hsi) /\
                free_filter_list s = free_filter_list bp ++ [p] /\
                nr_vnics s = nr_vnics bp).
    2: { destruct (resp_rc r =? 0).
         - apply wlp_vnic_upd. intros vn3 Hvn3. simpl in Hvn3 |- *.
           rewrite Hs1 in Hvn3 |- *.
           rewrite list_lookup_insert_eq in Hvn3 by assumption.
           injection Hvn3 as <-.
           rewrite list_insert_insert_eq.
           eexists. split; [reflexivity|]. simpl. auto 10.
         - apply wlp_ret. simpl.
           eexists. split; [exact Hs1|]. simpl. auto 10. }
    intros _ s2 (vn' & Hs2 & Hq' & Hl' & Hg' & Hid' & Hf2 & Hn2). cbv beta.
    apply wlp_ret.
    apply wlp_bind, wlp_vnic_upd. intros vn4 Hvn4. simpl.
    rewrite Hs2 in Hvn4 |- *.
    rewrite list_lookup_insert_eq in Hvn4 by assumption.
    injection Hvn4 as <-. rewrite list_insert_insert_eq.
    apply wlp_modify, wlp_ret. split; [reflexivity|].
    exists q, [], (set_rx_queue_cnt 0 vn'). simpl.
    rewrite <- Hvi, <- Hfree, <- Hnr, Hf2, Hn2. auto 15.
  - apply wlp_bind, wlp_ret, wlp_ret. split; [reflexivity|].
    exists q, (G :: l), (set_flow_list (G :: l) (set_vnic_filter q vn)).
    simpl. rewrite <- Hvi, <- Hfree, <- Hnr.
    unfold stailq_insert_tail. auto 15.
Qed.

(** The whole of [bnxt_flow_destroy] for a flow that owns a filter. *)
Lemma destroy_effect h F p pr v vn bp :
  flows_have_filters bp ->
  lookup_flow bp h = Some F ->
  flow_filter F = Some p ->
  filter_info bp !! p = Some pr ->
  one_destination hsi bp pr ->
  flow_vnic F = Some v ->
  vnic_info bp !! v = Some vn ->
  wlp (bnxt_flow_destroy hsi env (Some h))
    (fun rc bp' =>
       if rc =? 0 then flow_removed hsi F p v vn bp bp'
       else same vnic_tables bp bp') bp.
Proof.
  intros Hwf HF Hff Hp Hdst Hfv Hvn.
  assert (Hdone : forall rc bp1,
            same vnic_tables bp bp1 ->
            wlp (destroy_done hsi env F p rc)
              (fun rc bp' =>
                 if rc =? 0 then flow_removed hsi F p v vn bp bp'
                 else same vnic_tables bp bp') bp1).
  { intros rc bp1 H1. destruct (Z.eq_dec rc 0) as [->|Hrc].
    - eapply wlp_mono;
        [|apply (destroy_done_removes F p v vn bp bp1); assumption].
      intros r s [-> H]. exact H.
    - eapply wlp_mono;
        [|apply (destroy_done_failed F p rc bp bp1); assumption].
      intros r s [-> H]. apply Z.eqb_neq in Hrc. now rewrite Hrc. }
  unfold bnxt_flow_destroy.
  apply wlp_bind, wlp_gets. rewrite HF.
  apply wlp_bind, wlp_lift_opt. intros ? [= <-]. rewrite Hff.
  apply wlp_bind, wlp_read_filter. intros f _.
  destruct (filter_kind_eqb _ _ && _).
  - apply wlp_bind.
    eapply (wlp_frame (same vnic_tables));
      [apply tables_tunnel_destroy | reflexivity |].
    intros rc bp1 H1. cbv beta.
    destruct (nz rc) eqn:Hrc; simpl.
    + apply wlp_ret. apply nz_true, Z.eqb_neq in Hrc. now rewrite Hrc.
    + now apply Hdone.
  - destruct (match_filter_quiet p pr bp Hp Hwf Hdst) as [rc0 E].
    apply wlp_bind. unfold wlp at 1. rewrite E.
    apply wlp_bind, wlp_read_filter. intros f1 _.
    apply wlp_bind.
    apply (wlp_frame (same vnic_tables) _ _ bp bp);
      [unfold bnxt_hwrm_clear_em_filter; frame | reflexivity |].
    intros _ bp1 H1. cbv beta.
    apply wlp_bind.
    apply (wlp_frame (same vnic_tables) _ _ bp bp1);
      [unfold bnxt_hwrm_clear_ntuple_filter; frame | exact H1 |].
    intros _ bp2 H2. cbv beta.
    apply wlp_bind.
    eapply (wlp_frame (same vnic_tables));
      [apply tables_clear_l2 | exact H2 |].
    intros rc bp3 H3. cbv beta. now apply Hdone.
Qed.

End Destroy.

(** X19. Destroying a flow that owns a filter, on a table where every
    queued flow owns a filter of the pool and no queued flow has the
    pattern of this filter with another destination: when destroy returns
    0, the filter has moved from the filter list of the flow's VNIC to the
    tail of the free list and the flow has left the VNIC's flow list; a
    VNIC that keeps flows is otherwise as before, and a VNIC that has lost
    its last flow has its ring-group table freed and its queue count set
    to 0, and the count of VNICs in use has dropped by one.  No other VNIC
    is touched. *)
Theorem destroy_removes_flow hsi env h F p pr v vn bp bp' :
  flows_have_filters bp ->
  lookup_flow bp h = Some F ->
  flow_filter F = Some p ->
  filter_info bp !! p = Some pr ->
  one_destination hsi bp pr ->
  flow_vnic F = Some v ->
  vnic_info bp !! v = Some vn ->
  bnxt_flow_destroy hsi env (Some h) bp = Done 0 bp' ->
  flow_removed hsi F p v vn bp bp'.
Proof.
  intros Hwf HF Hff Hp Hdst Hfv Hvn E.
  pose proof (destroy_effect hsi env h F p pr v vn bp
                Hwf HF Hff Hp Hdst Hfv Hvn) as H.
  unfold wlp in H. now rewrite E in H.
Qed.

(** X20. On such a table, a destroy that returns an error code has removed
    nothing: the VNIC table with its flow and filter lists, the free list
    of the pool and the count of VNICs in use are as before the call. *)
Theorem failed_destroy_removes_nothing hsi env h F p pr v vn rc bp bp' :
  flows_have_filters bp ->
  lookup_flow bp h = Some F ->
  flow_filter F = Some p ->
  filter_info bp !! p = Some pr ->
  one_destination hsi bp pr ->
  flow_vnic F = Some v ->
  vnic_info bp !! v = Some vn ->
  bnxt_flow_destroy hsi env (Some h) bp = Done rc bp' ->
  rc <> 0 ->
  vnic_info bp' = vnic_info bp /\
  free_filter_list bp' = free_filter_list bp /\
  nr_vnics bp' = nr_vnics bp.
Proof.
  intros Hwf HF Hff Hp Hdst Hfv Hvn E Hrc.
  pose proof (destroy_effect hsi env h F p pr v vn bp
                Hwf HF Hff Hp Hdst Hfv Hvn) as H.
  unfold wlp in H. rewrite E in H.
  apply Z.eqb_neq in Hrc. rewrite Hrc in H.
  unfold same, vnic_tables in H. injection H as H1 H2 H3. auto.
Qed.

Module DestroySample.
Import Sample.

(** The firmware refuses to clear L2 filters. *)
Definition env_stuck (log : list env_call) (c : env_call) : env_resp :=
  match c with
  | call_hwrm_clear_l2_filter _ =>
      {| resp_rc := - EINVAL; resp_val := 0; resp_bytes := [] |}
  | _ => env log c
  end.

(** The VNIC of the flow installed in [Scenario.one_flow]. *)
Definition vnic1 : bnxt_vnic_info :=
  default unused_vnic (vnic_info Scenario.one_flow !! 1%nat).

End DestroySample.

Lemma one_flow_has_filters : flows_have_filters Scenario.one_flow.
Proof.
  intros i vn G Hvn HIn. concrete_flow i vn Hvn HIn Hff Hp.
  exists 1%nat, (DuplicateScenario.record Scenario.one_flow 1).
  split; vm_compute; reflexivity.
Qed.

Lemma one_flow_one_destination :
  one_destination Sample.hsi Scenario.one_flow
    (DuplicateScenario.record Scenario.one_flow 1).
Proof.
  intros i G p r (vn & Hvn & _ & HIn & Hff & Hp) _.
  concrete_flow i vn Hvn HIn Hff Hp. vm_compute. reflexivity.
Qed.

Lemma destroy_removes_flow_witness :
  flow_removed Sample.hsi DuplicateScenario.flow0 1 1 DestroySample.vnic1
    Scenario.one_flow
    (Sample.state_of (Sample.destroy (Some 0%nat) Scenario.one_flow)).
Proof.
  apply (destroy_removes_flow Sample.hsi Sample.env 0
           DuplicateScenario.flow0 1
           (DuplicateScenario.record Scenario.one_flow 1) 1
           DestroySample.vnic1 Scenario.one_flow).
  - exact one_flow_has_filters.
  - vm_compute. reflexivity.
  - reflexivity.
  - vm_compute. reflexivity.
  - exact one_flow_one_destination.
  - reflexivity.
  - vm_compute. reflexivity.
  - vm_compute. reflexivity.
Defined.

Lemma failed_destroy_removes_nothing_witness :
  let s :=
    Sample.state_of
      (bnxt_flow_destroy Sample.hsi DestroySample.env_stuck (Some 0%nat)
         Scenario.one_flow) in
  vnic_info s = vnic_info Scenario.one_flow /\
  free_filter_list s = free_filter_list Scenario.one_flow /\
  nr_vnics s = nr_vnics Scenario.one_flow.
Proof.
  apply (failed_destroy_removes_nothing Sample.hsi DestroySample.env_stuck 0
           DuplicateScenario.flow0 1
           (DuplicateScenario.record Scenario.one_flow 1) 1
           DestroySample.vnic1 (- EINVAL) Scenario.one_flow).
  - exact one_flow_has_filters.
  - vm_compute. reflexivity.
  - reflexivity.
  - vm_compute. reflexivity.
  - exact one_flow_one_destination.
  - reflexivity.
  - vm_compute. reflexivity.
  - vm_compute. reflexivity.
  - vm_compute. discriminate.
Defined.

(** ** A created Queue rule in the flow table *)

(** X21. With a firmware that never hands out the invalid VNIC identifier
    and a pool whose free list is fresh, a create whose first action is
    Queue and which returns a handle has used the filter at the head of the
    free list and has queued the flow, owner of this filter, on a VNIC with
    a hardware context.  The flow table holds no other new flow, every flow
    queued on a VNIC with a hardware context is still queued there, and the
    filter that heads the default VNIC's filter list is the one it was. *)
Theorem created_queue_rule_is_queued hsi env attr pattern actions act_q rest
    flow bp bp' :
  (forall log v,
     resp_rc (env log (call_hwrm_vnic_alloc v)) = 0 ->
     resp_val (env log (call_hwrm_vnic_alloc v)) <> INVALID_VNIC_ID hsi) ->
  bnxt_flow_non_void_action actions = Some (ACTION_QUEUE act_q :: rest) ->
  pool_fresh bp ->
  bnxt_flow_create hsi env (Some attr) (Some pattern) (Some actions) bp =
    Done (Some flow) bp' ->
  exists nf v,
    head (free_filter_list bp) = Some nf /\
    flow_queued hsi nf flow v bp bp'.
Proof.
  intros Henv Hact Hfresh E.
  pose proof (create_queue_effect hsi env Henv attr pattern actions act_q
                rest bp Hact Hfresh) as H.
  unfold wlp in H. rewrite E in H.
  destruct (H flow eq_refl) as (nf & Hc).
  destruct (rule_added_intro hsi nf flow bp bp' Hfresh Hc)
    as (v & nfr' & Hhead & _ & Hq & _).
  eauto.
Qed.

Lemma sample_pool_fresh : pool_fresh Sample.bp0.
Proof.
  split; [|split].
  - apply (bool_decide_unpack (NoDup _)). vm_compute. exact I.
  - intros i vn G p Hvn HG.
    destruct i as [|[|[|[|i]]]]; concrete_vnic Hvn; destruct HG.
  - intros vn0 f0 Hvn Hh. concrete_vnic Hvn. injection Hh as <-.
    simpl. intros H. repeat destruct H as [H | H]; try discriminate H.
    exact H.
Qed.

Lemma created_queue_rule_is_queued_witness :
  exists nf v,
    head (free_filter_list Sample.bp0) = Some nf /\
    flow_queued Sample.hsi nf 0 v Sample.bp0 Scenario.one_flow.
Proof.
  apply (created_queue_rule_is_queued Sample.hsi Sample.env Sample.attr_in
           [Sample.eth_dst_item Scenario.mac1; ITEM_END] (Sample.queue 1)
           {| queue_index := 1 |} [ACTION_END] 0%nat Sample.bp0
           Scenario.one_flow).
  - exact sample_vnic_alloc_valid.
  - reflexivity.
  - exact sample_pool_fresh.
  - vm_compute. reflexivity.
Defined.

(** ** Leading VOID entries *)

Definition is_void_action (a : rte_flow_action) : bool :=
  match a with ACTION_VOID => true | _ => false end.

Lemma non_void_item_skips voids pattern :
  forallb is_void_item voids = true ->
  bnxt_flow_non_void_item (voids ++ pattern) =
    bnxt_flow_non_void_item pattern.
Proof.
  induction voids as [|it voids IH]; simpl; [reflexivity|].
  destruct it; simpl; try discriminate. exact IH.
Qed.

Lemma non_void_action_skips voids actions :
  forallb is_void_action voids = true ->
  bnxt_flow_non_void_action (voids ++ actions) =
    bnxt_flow_non_void_action actions.
Proof.
  induction voids as [|a voids IH]; simpl; [reflexivity|].
  destruct a; simpl; try discriminate. exact IH.
Qed.

Lemma parse_flow_skips_voids hsi env vi va pattern actions :
  forallb is_void_item vi = true ->
  forallb is_void_action va = true ->
  bnxt_validate_and_parse_flow hsi env (vi ++ pattern) (va ++ actions) =
  bnxt_validate_and_parse_flow hsi env pattern actions.
Proof.
  intros Hi Ha.
  unfold bnxt_validate_and_parse_flow, bnxt_validate_and_parse_flow_type,
    bnxt_filter_type_check.
  now rewrite (non_void_item_skips _ _ Hi), (non_void_action_skips _ _ Ha).
Qed.

(** X22. VOID entries at the head of the pattern and of the action list
    are skipped: validate and create behave on such a request, in every
    state, as on the request without them. *)
Theorem leading_voids_skipped hsi env attr vi va pattern actions bp :
  forallb is_void_item vi = true ->
  forallb is_void_action va = true ->
  bnxt_flow_validate hsi env attr (Some (vi ++ pattern))
    (Some (va ++ actions)) bp =
  bnxt_flow_validate hsi env attr (Some pattern) (Some actions) bp /\
  bnxt_flow_create hsi env attr (Some (vi ++ pattern))
    (Some (va ++ actions)) bp =
  bnxt_flow_create hsi env attr (Some pattern) (Some actions) bp.
Proof.
  intros Hi Ha.
  pose proof (parse_flow_skips_voids hsi env vi va pattern actions Hi Ha)
    as H.
  destruct attr as [attr|]; [|split; reflexivity].
  split.
  - unfold bnxt_flow_validate. now rewrite H.
  - unfold bnxt_flow_create. now rewrite H.
Qed.

Lemma leading_voids_skipped_witness :
  Sample.validate (Some Sample.attr_in)
    (Some ([ITEM_VOID (Conf None None None); ITEM_VOID (Conf None None None)] ++ RuleSamples.pattern))
    (Some ([ACTION_VOID] ++ Sample.queue 1)) Sample.bp0 =
  Sample.validate (Some Sample.attr_in) (Some RuleSamples.pattern)
    (Some (Sample.queue 1)) Sample.bp0 /\
  Sample.create (Some Sample.attr_in)
    (Some ([ITEM_VOID (Conf None None None); ITEM_VOID (Conf None None None)] ++ RuleSamples.pattern))
    (Some ([ACTION_VOID] ++ Sample.queue 1)) Sample.bp0 =
  Sample.create (Some Sample.attr_in) (Some RuleSamples.pattern)
    (Some (Sample.queue 1)) Sample.bp0.
Proof.
  apply (leading_voids_skipped Sample.hsi Sample.env (Some Sample.attr_in)
           [ITEM_VOID (Conf None None None); ITEM_VOID (Conf None None None)] [ACTION_VOID]);
    reflexivity.
Defined.
